(* ===== verification/_CoqProject ===== *)
-Q . S2P
Prelude.v
CString.v
Util.v
Bitmap.v
LruCache.v
LruCorrect.v
LruClear.v
LruEvict.v
Heap.v
Interrupts.v
Pmm.v
Vmm.v
Console.v
Printk.v
Keyboard.v
Scheduler.v
Threads.v
Preempt.v
Ide.v
Fs.v
FsEvict.v
FsArrays.v
FsInit.v
Dirs.v
FsSync.v
Files.v
CacheNodes.v
Boot.v
Debug.v
Kernel.v
KernelHeap.v
Start.v
Selftest.v
Machine.v
Stubs.v
Assembly.v
Primitives.v
Delivery.v
