(* ===== verification/Prelude.v ===== *)
(** * A model of the Sprite kernel

    Sprite is a small 32-bit x86 kernel in C++ ([src/src]): a boot loader hands it
    control, it sets up its page tables, the processor's descriptor tables, the free
    list of pages, paging, a heap, threads and a disk, and mounts a MINIX file system.
    This library is a shallow embedding of that code with its correctness theorems.
    Every definition is executable and keeps the name of the function or data it
    models.

    ** How the kernel is put together

    [kern_entry] (init/entry.cc) fills temporary page tables, turns paging on and calls
    [kern_init], which calls [init_gdt], [init_idt], [init_pmm], [init_keyboard],
    [init_vmm], [init_heap], [init_kthread], [init_timer], [ide_init] and [init_fs] in
    that order, and then runs [test_fs].  Interrupts come back through [isr_dispatcher] and
    [irq_dispatcher] to handlers registered by number: page faults, the timer, the keyboard.  The page fault
    handler maps pages from the free list of pmm.cc in the page dictionary of vmm.h.
    The heap hands out memory above it to [new]; none of its pages is mapped before the page fault of
    the first access to it.  The scheduler takes stacks from it.  The file system reads blocks through
    an LRU cache whose misses go to the IDE driver and whose nodes come from [new].

    ** The files

    - [Prelude]: outcomes of C++ code, machine words, arrays, port output, the tactics and
      the hint databases, lemmas on lists, division and little-endian words.
    - [CString] (lib/string.cc): byte memory, and the string functions.
    - [Util] (include/pair.hpp, include/common.h, include/atomic.h): modules [pair_hpp],
      [common] ([min] and [max]) and [atomic].
    - [Bitmap] (include/bitmap.hpp): module [bitmap], the template of length [N]; module
      [bitmap_test], [test_bitmap] of test/test.cc.
    - [LruCache] (include/lrucache.hpp): module [LRUCache], the class with its pointers;
      [LruCorrect]: the abstract LRU list [spec] and the refinement proof.  [LruClear]: [clear].
      [LruEvict]: the cache as a map, whatever its callback does to the order of the queue.
    - [Heap] (include/ILAllocator.hpp, lib/kmalloc.cc, lib/new.cc): module
      [ImplicitListAllocator] and the functions on the kernel heap.
    - [Interrupts] (lib/gdt.cc, lib/idt.cc, lib/timer.cc): modules [gdt], [idt], [timer].
    - [Pmm] (lib/pmm.cc): module [pmm], the stack of free pages.
    - [Vmm] (include/vmm.h, lib/vmm.cc): modules [PageTable] and [PageDictionary], the
      page fault handler and [init_vmm]; uses [Pmm] and [Interrupts].
    - [Console] (lib/console.cc): module [console], and the terminal [spec].
    - [Printk] (include/printk.h): module [printk], on [Console].
    - [Keyboard] (lib/keyboard.cc): module [keyboard], on [Console].
    - [Scheduler] (include/scheduler.h, include/task.h, lib/kthread.cc, lib/switch_to.s):
      module [TaskScheduler], on [Heap] and [Console].  [Threads]: what the processor finds on a
      thread's stack from its start to its end.  [Preempt]: module [submitting], [submit] and
      [alloc] one access of shared memory at a time, with the timer interrupt between any two, and
      the races of two threads.
    - [Ide] (lib/ide.cc): module [ide], the classes [Device] and [AtaDisk], and one disk.
    - [Fs] (lib/fs.cc, include/fs.h): module [fs], on [LruCache] and [Ide], and the block layer before
      its callback is installed.  [FsEvict]: the block layer afterwards, as an array of blocks
      whatever leaves the cache, with the invariant [safe] and the relation [moved] that all the
      following files use.  [FsArrays]: [read_blocks] and [write_blocks].  [FsInit]: [init_fs].
      [Dirs]: directories and [namei], against the sequence of entries of a directory.  [FsSync]: the
      [sync_*] functions.
      [Files]: module [files], [list_entries] and [test_fs], on [Printk] and [Console].
    - [CacheNodes]: where the nodes of the block cache lie on the kernel heap, and that [init_fs] and
      [test_fs] keep them there, one for each cached block.
    - [Boot] (init/entry.cc, init/cxxabi.cc, lib/elf.cc): modules [entry], [cxxabi], [elf].
    - [Debug] (lib/debug.cc): module [debug], [panic] with its stack trace, on [Boot].
    - [Kernel] (lib/idt.cc, lib/isr.s and the three handlers): module [kernel], the state of
      all parts together and the effect of an interrupt.
    - [KernelHeap] (lib/kmalloc.cc, include/ILAllocator.hpp, lib/new.cc on [Kernel]): module [paged], the
      allocator with the page faults of its accesses, and the [new]s of the cache's nodes.
    - [Start] (init/entry.cc): module [start], [kern_init].
    - [Selftest]: the kernel's own tests and reports ([test_kmalloc], [test_vmm], [test_ide],
      [test_kthread], [show_mmap]), a module for each.
    - [Machine]: module [x86], the processor under the assembly: registers, flags, segments, memory, the
      instructions that the kernel uses and the taking of an interrupt.  Tables and saved registers
      are bytes of its memory.
    - [Stubs] (lib/isr.s): module [isr_s], from an interrupt to its dispatcher and back.
    - [Assembly] (boot.s, lib/gdt_s.s, lib/idt_flush.s, lib/switch_to.s): the boot header and [start], the
      loading of the tables, the switch of threads.
    - [Primitives] (lib/common.cc): the inline assembly for ports, flags and halting.
    - [Delivery]: [Kernel] on the processor, its interrupts through [Stubs].

    ** How C++ is modelled

    - An operation is a function from the state to an [outcome]: [Ok] with the result and
      the new state, [Hang] for a failed [assert] (the macro prints and loops for ever),
      [Fault] for an access outside an object, [NoFuel] when the fuel given to a loop ran
      out.  Theorems conclude [Ok]: the code returns, and stays inside its objects.
    - A [uint32_t] is a [Z]; the definitions write the wrap-around with [u32], [u16], [u8]
      where the code can overflow, and bit operations with [Z.land] and its like.
    - Objects that point to one another live in a store indexed by address: nodes of the
      cache, task structures.  A pointer is its address, and 0 is null.  What one pointer
      writes, every other that aliases it reads.  The heap's headers and the stacks are
      bytes of memory.  Code in assembly is a list of instructions of [Machine], run in sequence up to
      the return.  The page tables are reached by the physical addresses stored in
      the entries, as in the code.
    - Static arrays are finite maps (an element never written is 0) or lists, with the
      length checked at each access.
    - Output to ports is a list of (port, value); the console and the controllers append
      to it.  The disk is a state behind the ports.
    - Loops with a structural bound are structural; the others take fuel, and the theorem
      states how much is enough: the number of blocks for the walk of the heap, of tasks
      for that of the run queue, of pages for the search of the free list, of boot map
      entries for [init_pmm], the device's bound on status reads ([busy_bound]) for
      the wait for the disk, the length of the string for [lib/string.cc].  The cache's
      probing has the table size as bound, and its theorems have no fuel.  File names need 30
      (their field), the text of a file more than the 1024 bytes of its block.  [kern_init] needs more than the 307 blocks
      that the cache holds, for the walks of the heap.  The recursion of
      [list_entries] has the depth of the tree as bound.  Assembly has a unit of fuel per instruction: 26
      are enough from an interrupt to [iret], 19 for [switch_to].

    ** Interfaces

    - [NodeAlloc] (LruCache): what [new] promises of the address of a node; [bump_alloc]
      is an instance, and [kernel_nodes] (CacheNodes) is the one of the running kernel: the addresses that
      [operator new] gives on its heap ([nodes_paged]), with the words that memory held there
      ([RawMemory]).
    - [Device] (Ide): reads and writes of ports; [AtaDisk]: what the ATA standard promises
      of a disk behind them (status becomes ready within [busy_bound] reads, a read command
      delivers the sectors, a write command stores them).  The driver's and the file
      system's theorems are proved against the class; [disk_device] and its instance are
      a disk that satisfies it.
    - [PortIO] (Machine): single reads and writes of ports.  [port_device] (Primitives) makes a [Device]
      of them, and the string primitives are its operations.
    - [returns] (Stubs): what compiled code promises of a call, in the terms of the processor.  [dispatches]
      (Delivery) adds that the dispatchers do what [Kernel] says.
    - [idt.isr_dispatcher] and [idt.irq_dispatcher] take the call through the handler table as
      a parameter, for which [kernel.call] is the kernel's.
    - [moved] (FsEvict): what an operation of the file system promises to its caller: the tables
      stay, the contents of all blocks but those it names are what they were, and a block on the disk
      changes only to its own contents.  [moves] (Dirs) adds how many blocks are cached and that
      pointers stay good while there is room.  Reads, searches, listings and synchronisation are
      proved to keep them, and their callers use nothing else.
    - The addresses given by the linker (stubs, tables, the end of the kernel) and the words
      memory holds before it is written are parameters.

    ** What the theorems show

    - The running kernel: every sequence of interrupts and thread steps returns and does what
      a specification of threads, address space and free pages says ([kernel_refines]); no frame
      is ever mapped twice or both mapped and free ([memory_isolated]); an interrupted thread
      comes back with its registers ([thread_resumes]).
    - Start-up: from what the boot loader leaves, [kern_init] reaches such a kernel, with the
      tables and the file system ready, a heap block for the node of each cached block and a page
      for each heap page in use ([kern_init_ok]); with the test file on the disk the whole of [kern_init]
      returns, and the kernel then answers every sequence of interrupts while the pages left last
      ([kern_init_runs], which composes the theorems on the parts).  Both ask for more than
      79 free pages: a full block cache has 307 nodes of 1044 bytes with their headers.
    - The processor: an interrupt through the gates of [init_idt] gives the dispatcher the interrupted
      registers, the vector and the error code, and the stub gives them back ([interrupt_round_trip]); any
      list of interrupts does what the specification of the kernel says, and the thread has its
      registers again ([interrupts_refine]); switch_to.s does what the scheduler's model says of it
      ([switch_to_refines]); the two flush routines load the tables and make the processor ready for
      interrupts ([gdt_flush_loads], [idt_flush_ready]); the string primitives are the device
      operations of the disk driver ([insl_reads], [outsl_writes]).
    - Cache: [Get] and [Alloc] implement the LRU list; with no callback, no sequence of requests faults or
      diverges, and the cached keys are those of that list.
    - Heap: [alloc] is first fit on the list of blocks.  When the block it takes has room for the header of
      its remainder the list stays well-formed; when not, the remainder's size wraps around and its header
      is written over what follows ([alloc_refines] states both).  The memory that one call returns is disjoint
      from what is in use and leaves that unchanged; [free] merges with the next block, and freeing restores
      the list.  Under demand paging the nodes of the cache are consecutive blocks, and exactly
      their pages and that of the header after them are mapped ([nodes_paged]).
    - Pages: [init_pmm] reads [mmap_length] entries where the boot loader gives that many bytes: the free list
      after it is the usable pages of the real map, then the pages of what looks like usable areas in the
      bytes after it ([init_pmm_ok]).  Each operation is the one on the list, and mapping a page changes the
      translation of no other page.
    - Threads: the queue is first in, first out; every thread runs again with its own
      registers after as many switches as there are threads; a new thread starts its function and,
      when that returns, enters [kthread_exit] with its own pid.  [submit] interrupted by the timer
      after any of its accesses, any number of times, does what it does uninterrupted
      ([submit_preempted]).
    - Disk and files: sectors read and written are the ones asked for; the cache between the
      file system and the disk is transparent, with evictions ([blocks_refine]); arrays on consecutive blocks are read and
      written item by item; mounting loads the super block, the inodes and the bitmaps, and
      [sync_all] puts them back so that mounting again gives them ([sync_then_mount]); [namei]
      ends at the entry its path names, up to the prefix matching of [strcmp]; [list_entries]
      prints the tree, and [test_fs] leaves the new text on the disk.  After mounting none of
      these but [list_entries] asks for room in the cache.
    - Screen and keyboard: the console is a terminal, [printk] writes the formatted text, the
      modifiers follow the keys; [panic] prints a line per stack frame, a failed [assert] its place and text.
    - Tests: what the kernel's own tests need to pass, and what passing shows.
    - Tables: gates hold what they were given; after [init_idt] exactly the first 48 are set;
      the boot tables map the first 4 MB twice.

    Where the code does not do what it means to, the theorems carry the hypothesis
    under which it does (a block with room for a remainder, a task in the middle of the queue,
    at most 128 sectors, a cache with room or no callback), and a lemma shows by evaluation or
    proof what happens otherwise: [exact_fit_hands_out_twice], [free_last_overruns],
    [init_pmm_overruns], [kill_last_faults], [exit_first_dangles], [read_129_wraps],
    [shift_is_wrong_off_letters], [reentry_loses_a_key], [inode_table_overrun],
    [finalize_one_overruns], [set_overrun], [strcat_keeps_dst], [glb_mboot_ptr_unmoved],
    [exit_own_dangles], [clear_then_alloc_hangs], [namei_prefix_and_null], [sync_super_loses_rest], [equal_pairs_differ],
    [submits_race], [allocs_race], [traverse_dir_stale], [rewrite_file_overruns], [ceil_div_zero],
    [test_bitmap_passes], [start_enters], [ds_word_mixed], [useresp_is_stack], [idt_flush_enables],
    [insl_other_count].  The callback that
    the file system gives the cache spoils the order in which blocks leave it, but no block's
    content: [blocks_refine] covers any number of evictions.  [list_entries] keeps pointers into the
    blocks of the outer directories, so its theorem (and that of [test_fs]) asks for room in the
    cache for the blocks of the tree; [traverse_dir_stale] shows a search without it.

    ** What is not modelled

    [atomic_t::reduce], whose instruction has one operand too many; the type names of types.h, [is_same]
    and [enable_if] of common.h, which compute types; [test_cache] of the host program test/test.cc, which
    does not compile.
    Of the processor: rings other than 0, segments that are not flat, the accessed bits of
    descriptors, and translation by the page tables, which [Vmm] has.  The compiler's code is
    related to the models of the C++ functions by [returns] and [dispatches] only.
    Interrupts are taken between operations, except in [Preempt], where the timer comes between any two
    accesses of [submit] and [alloc], and in [Stubs] and [Delivery], where they come after any
    instruction of the thread.
    [kern_init] is one thread without interrupts, but for the page faults of the heap.  A node of the cache
    in use is in the store of the cache, its heap block and its pages are in the kernel: the contents of a node are not
    copied to the bytes of memory.  The [new]s of [init_fs] and of [test_fs] are made after the function
    that asks for them, in its order ([start.allocate_nodes]); nothing in lib/fs.cc reads the heap's headers,
    the page tables or the free pages, so that the state afterwards is the same.

    ** Plan

    All parts of the program are modelled.  What could follow: interrupts in the middle of an operation of
    the file system, [free] and [exit]; boot maps of several areas. *)

From stdpp Require Import prelude gmap strings.
From Stdlib Require Import ZArith Lia.

Declare Scope sprite_scope.
Delimit Scope sprite_scope with sprite.
Open Scope Z_scope.

(** ** Outcomes of kernel code

    [Ok] is a normal return.  [Hang msg] is a failed [assert] of
    [include/debug.h]: the macro prints [msg] and loops for ever.  [Fault] is an
    access outside an object (null or dangling pointer, array index out of
    range): undefined in C++.  [NoFuel] only says that the fuel given to a loop
    of the model ran out. *)

Inductive outcome (A : Type) : Type :=
| Ok (a : A)
| Hang (msg : string)
| Fault
| NoFuel.
Arguments Ok {A} _.
Arguments Hang {A} _.
Arguments Fault {A}.
Arguments NoFuel {A}.

Definition obind {A B} (m : outcome A) (f : A -> outcome B) : outcome B :=
  match m with
  | Ok a => f a
  | Hang s => Hang s
  | Fault => Fault
  | NoFuel => NoFuel
  end.

Notation "'let!' x := m 'in' k" := (obind m (fun x => k))
  (at level 10, x name, m at level 100, k at level 200) : sprite_scope.
Notation "'let!' ' p := m 'in' k" := (obind m (fun p => k))
  (at level 10, p strict pattern, m at level 100, k at level 200) : sprite_scope.
Open Scope sprite_scope.

(** [assert(x, info)] of [include/debug.h]. *)
Definition kassert {A} (b : bool) (info : string) (k : outcome A) : outcome A :=
  if b then k else Hang info.

Arguments kassert {A} _ _%_string _.

(** A load or store whose address may be bad. *)
Definition or_fault {A} (o : option A) : outcome A :=
  match o with Some a => Ok a | None => Fault end.

(** The bytes of a string literal, without the terminator. *)
Definition str (s : string) : list Z :=
  map (fun c => Z.of_N (Ascii.N_of_ascii c)) (String.list_ascii_of_string s).

(** ** Machine words *)

Definition u8 (z : Z) : Z := z mod 256.
Definition u16 (z : Z) : Z := z mod 65536.
Definition u32 (z : Z) : Z := z mod 4294967296.

(** The value of a byte read as a (signed) [char], as on x86. *)
Definition schar (z : Z) : Z := if z <? 128 then z else z - 256.

(** A 32-bit word read as [int]. *)
Definition s32 (z : Z) : Z :=
  let w := u32 z in if w <? 2147483648 then w else w - 4294967296.

(** ** C arrays of integers

    An array is the finite map of the elements written so far; an element never
    written is 0, as in static storage.  The length is an argument of each
    access, and an index outside it gives [None]. *)

Definition arr_get (n : Z) (a : gmap Z Z) (i : Z) : option Z :=
  if decide (0 <= i < n) then Some (default 0 (a !! i)) else None.

Definition arr_set (n : Z) (a : gmap Z Z) (i v : Z) : option (gmap Z Z) :=
  if decide (0 <= i < n) then Some (<[i := v]> a) else None.

(** C arrays whose contents matter as a whole are lists, indexed by [Z]. *)

Definition lget {A} (l : list A) (i : Z) : option A :=
  if decide (0 <= i) then l !! Z.to_nat i else None.

Definition lset {A} (l : list A) (i : Z) (v : A) : option (list A) :=
  if decide (0 <= i < Z.of_nat (length l)) then Some (<[Z.to_nat i := v]> l) else None.

(** ** Little-endian encoding of unsigned words *)

Fixpoint le_decode (bs : list Z) : Z :=
  match bs with
  | [] => 0
  | b :: bs' => b + 256 * le_decode bs'
  end.

Fixpoint le_encode (n : nat) (z : Z) : list Z :=
  match n with
  | O => []
  | S n' => u8 z :: le_encode n' (z / 256)
  end.

Definition byte_ok (b : Z) : Prop := 0 <= b < 256.

(** ** Port output

    [outb] of [lib/common.cc]: the values written to I/O ports, in order. *)

Abbreviation ports := (list (Z * Z)).

Definition outb (port value : Z) (tr : ports) : ports := tr ++ [(u16 port, u8 value)].

Definition outb_list (l : list (Z * Z)) (tr : ports) : ports :=
  fold_left (fun tr '(p, v) => outb p v tr) l tr.

(** ** Loops

    [iter fuel body s] runs [body] until it returns [inr]; [body] is one test of
    the loop condition followed, when it holds, by one run of the loop's body. *)

Fixpoint iter {S R} (fuel : nat) (body : S -> outcome (S + R)) (s : S) : outcome R :=
  match fuel with
  | O => NoFuel
  | Datatypes.S f =>
      let! r := body s in
      match r with
      | inl s' => iter f body s'
      | inr x => Ok x
      end
  end.

(** ** Automation *)

(** Linear arithmetic with division and remainder by constants. *)
Ltac zlia := Z.to_euclidean_division_equations; lia.

(** Turn the boolean tests of the code into the propositions they decide. *)
Ltac bprop :=
  repeat match goal with
  | H : (_ && _)%bool = true |- _ => apply andb_true_iff in H as [? ?]
  | H : (_ || _)%bool = false |- _ => apply orb_false_iff in H as [? ?]
  | H : negb _ = true |- _ => apply negb_true_iff in H
  | H : negb _ = false |- _ => apply negb_false_iff in H
  | H : (_ <? _) = true |- _ => apply Z.ltb_lt in H
  | H : (_ <? _) = false |- _ => apply Z.ltb_ge in H
  | H : (_ <=? _) = true |- _ => apply Z.leb_le in H
  | H : (_ <=? _) = false |- _ => apply Z.leb_gt in H
  | H : (_ =? _) = true |- _ => apply Z.eqb_eq in H
  | H : (_ =? _) = false |- _ => apply Z.eqb_neq in H
  | H : bool_decide _ = true |- _ => apply bool_decide_eq_true in H
  | H : bool_decide _ = false |- _ => apply bool_decide_eq_false in H
  end.

Create HintDb sprite.
Create Rewrite HintDb sprite.

(** ** Lemmas on words *)

Lemma u8_range z : 0 <= u8 z < 256.
Proof. unfold u8. zlia. Qed.

Lemma u16_range z : 0 <= u16 z < 65536.
Proof. unfold u16. zlia. Qed.

Lemma u32_range z : 0 <= u32 z < 4294967296.
Proof. unfold u32. zlia. Qed.

Lemma u8_small z : 0 <= z < 256 -> u8 z = z.
Proof. apply Z.mod_small. Qed.

Lemma u16_small z : 0 <= z < 65536 -> u16 z = z.
Proof. apply Z.mod_small. Qed.

Lemma u32_small z : 0 <= z < 4294967296 -> u32 z = z.
Proof. apply Z.mod_small. Qed.

Lemma s32_small z : -2147483648 <= z < 2147483648 -> s32 z = z.
Proof. intros Hz. unfold s32, u32. destruct (Z.ltb_spec (z mod 4294967296) 2147483648); zlia. Qed.

#[export] Hint Resolve u8_range u16_range u32_range : sprite.
#[export] Hint Rewrite u8_small u16_small u32_small using lia : sprite.

(** The low [k] bits. *)
Lemma land_low x k : 0 <= k -> Z.land x (2 ^ k - 1) = x mod 2 ^ k.
Proof.
  intros Hk. rewrite <- Z.land_ones by lia. f_equal. rewrite Z.ones_equiv. lia.
Qed.

(** The bits [k .. n-1] of an [n]-bit word, in place. *)
Lemma land_high x k n :
  0 <= k <= n -> 0 <= x < 2 ^ n -> Z.land x (2 ^ n - 2 ^ k) = x - x mod 2 ^ k.
Proof.
  intros Hk Hx.
  assert (Hm : 2 ^ n - 2 ^ k = Z.shiftl (Z.ones (n - k)) k).
  { rewrite Z.shiftl_mul_pow2, Z.ones_equiv by lia.
    replace (2 ^ n) with (2 ^ (n - k) * 2 ^ k) by (rewrite <- Z.pow_add_r by lia; f_equal; lia).
    lia. }
  assert (Hs : x - x mod 2 ^ k = Z.shiftl (Z.shiftr x k) k).
  { rewrite Z.shiftl_mul_pow2, Z.shiftr_div_pow2 by lia.
    pose proof (Z.div_mod x (2 ^ k)) as D.
    assert (2 ^ k <> 0) by (apply Z.pow_nonzero; lia). specialize (D H). lia. }
  rewrite Hm, Hs. apply Z.bits_inj'. intros i Hi.
  rewrite Z.land_spec, !Z.shiftl_spec by lia.
  destruct (Z.lt_ge_cases i k) as [Hlt | Hge].
  { rewrite !(Z.testbit_neg_r _ (i - k)) by lia. apply andb_false_r. }
  rewrite Z.shiftr_spec by lia. replace (i - k + k) with i by lia.
  destruct (Z.lt_ge_cases i n) as [Hn | Hn].
  - rewrite Z.ones_spec_low by lia. apply andb_true_r.
  - rewrite (Z.ones_spec_high _ (i - k)) by lia. rewrite andb_false_r.
    symmetry. destruct (Z.eq_dec x 0) as [-> | Hx0]; [apply Z.testbit_0_l |].
    apply Z.bits_above_log2; [lia |].
    assert (Z.log2 x < n) by (apply Z.log2_lt_pow2; lia). lia.
Qed.

(** Or-ing low bits into an aligned word adds them. *)
Lemma land_aligned x y k :
  0 <= k -> x mod 2 ^ k = 0 -> 0 <= y < 2 ^ k -> Z.land x y = 0.
Proof.
  intros Hk Hx Hy. apply Z.bits_inj'. intros i Hi. rewrite Z.land_spec, Z.bits_0.
  destruct (Z.lt_ge_cases i k) as [Hlt | Hge].
  - replace (Z.testbit x i) with (Z.testbit (x mod 2 ^ k) i)
      by (apply Z.mod_pow2_bits_low; lia).
    rewrite Hx, Z.bits_0. reflexivity.
  - replace y with (y mod 2 ^ k) by (apply Z.mod_small; lia).
    rewrite Z.mod_pow2_bits_high by lia. apply andb_false_r.
Qed.

Lemma lor_add x y k :
  0 <= k -> x mod 2 ^ k = 0 -> 0 <= y < 2 ^ k -> Z.lor x y = x + y.
Proof.
  intros Hk Hx Hy. pose proof (land_aligned x y k Hk Hx Hy) as H0.
  rewrite <- Z.lxor_lor by done. symmetry. by apply Z.add_nocarry_lxor.
Qed.

(** ** Lemmas on arrays *)

(** Counting in base [per]: the last digit goes up, or wraps and carries. *)
Lemma div_mod_succ i per :
  0 < per -> 0 <= i ->
  (i mod per + 1 < per /\ (i + 1) mod per = i mod per + 1 /\ (i + 1) / per = i / per) \/
  (i mod per + 1 = per /\ (i + 1) mod per = 0 /\ (i + 1) / per = i / per + 1).
Proof.
  intros Hp Hi. pose proof (Z.mod_pos_bound i per Hp) as Hm.
  pose proof (Z.div_mod i per ltac:(lia)) as Hd.
  destruct (Z.lt_ge_cases (i mod per + 1) per); [left | right].
  - split; [done |]. split; [symmetry; apply (Z.mod_unique_pos _ _ (i / per)) |
      symmetry; apply (Z.div_unique_pos _ _ _ (i mod per + 1))]; lia.
  - assert (i mod per + 1 = per) by lia. split; [done |].
    split; [symmetry; apply (Z.mod_unique_pos _ _ (i / per + 1)) |
      symmetry; apply (Z.div_unique_pos _ _ _ 0)]; lia.
Qed.

Lemma arr_set_in n a i v : 0 <= i < n -> arr_set n a i v = Some (<[i := v]> a).
Proof. intros H. unfold arr_set. by rewrite decide_True. Qed.

Lemma arr_get_in n a i : 0 <= i < n -> arr_get n a i = Some (default 0 (a !! i)).
Proof. intros H. unfold arr_get. by rewrite decide_True. Qed.

Lemma arr_get_out n a i : ~ 0 <= i < n -> arr_get n a i = None.
Proof. intros H. unfold arr_get. by rewrite decide_False. Qed.

#[export] Hint Rewrite arr_set_in arr_get_in using lia : sprite.

Lemma lget_in {A} (l : list A) i : 0 <= i < Z.of_nat (length l) -> is_Some (lget l i).
Proof. intros H. unfold lget. rewrite decide_True by lia. apply lookup_lt_is_Some. lia. Qed.

Lemma lget_Some {A} (l : list A) i x :
  lget l i = Some x <-> 0 <= i /\ l !! Z.to_nat i = Some x.
Proof.
  unfold lget. destruct (decide (0 <= i)) as [H | H].
  - split; [intros ?; by split | by intros [_ ?]].
  - split; [done | by intros [? _]].
Qed.

Lemma lget_range {A} (l : list A) i x : lget l i = Some x -> 0 <= i < Z.of_nat (length l).
Proof. intros [? H%lookup_lt_Some]%lget_Some. lia. Qed.

Lemma lget_out {A} (l : list A) i : ~ 0 <= i < Z.of_nat (length l) -> lget l i = None.
Proof.
  intros H. destruct (lget l i) eqn:E; [| done]. by apply lget_range in E.
Qed.

Lemma list_eq_lget {A} (l l' : list A) : (forall i, 0 <= i -> lget l i = lget l' i) -> l = l'.
Proof.
  intros H. apply list_eq. intros k. specialize (H (Z.of_nat k) ltac:(lia)).
  unfold lget in H. by rewrite !decide_True, !Nat2Z.id in H by lia.
Qed.

Lemma lget_length {A} (l : list A) n : (forall i, 0 <= i < n -> is_Some (lget l i)) -> n <= Z.of_nat (length l).
Proof.
  intros H. destruct (Z.le_gt_cases n 0) as [| Hn]; [lia |].
  destruct (H (n - 1) ltac:(lia)) as [x Hx%lget_range]. lia.
Qed.

Lemma lset_in {A} (l : list A) i v :
  0 <= i < Z.of_nat (length l) -> lset l i v = Some (<[Z.to_nat i := v]> l).
Proof. intros H. unfold lset. by rewrite decide_True. Qed.

Lemma lget_insert_eq {A} (l : list A) i v :
  0 <= i < Z.of_nat (length l) -> lget (<[Z.to_nat i := v]> l) i = Some v.
Proof. intros H. apply lget_Some. split; [lia |]. apply list_lookup_insert_eq. lia. Qed.

Lemma lget_insert_ne {A} (l : list A) i j v :
  0 <= i -> i <> j -> lget (<[Z.to_nat i := v]> l) j = lget l j.
Proof.
  intros Hi Hne. unfold lget. case_decide; [| done].
  apply list_lookup_insert_ne. lia.
Qed.

(** A fact about bytes is checked on the 256 of them. *)
Lemma byte_check (P : Z -> bool) b :
  forallb P (seqZ 0 256) = true -> byte_ok b -> P b = true.
Proof.
  intros H Hb. rewrite forallb_forall in H. apply H.
  apply list_elem_of_In, elem_of_seqZ. unfold byte_ok in Hb. lia.
Qed.

Lemma Forall_byte_ok_lookup l i b : Forall byte_ok l -> lget l i = Some b -> byte_ok b.
Proof. intros HF [_ H]%lget_Some. eapply Forall_lookup_1; eauto. Qed.

(** ** Lemmas on the little-endian encoding *)

Lemma length_le_encode n z : length (le_encode n z) = n.
Proof. revert z. induction n; intros; simpl; auto. Qed.

Lemma le_encode_bytes n z : Forall byte_ok (le_encode n z).
Proof. revert z. induction n; intros; simpl; constructor; auto. apply u8_range. Qed.

Lemma le_decode_encode n z :
  0 <= z < 256 ^ Z.of_nat n -> le_decode (le_encode n z) = z.
Proof.
  revert z. induction n as [| n IH]; intros z Hz.
  - simpl in *. lia.
  - rewrite Nat2Z.inj_succ, Z.pow_succ_r in Hz by lia. cbn [le_encode le_decode].
    rewrite IH; unfold u8; zlia.
Qed.

Lemma le_encode_decode bs :
  Forall byte_ok bs -> le_encode (length bs) (le_decode bs) = bs.
Proof.
  induction 1 as [| b bs Hb _ IH]; [done |]. cbn [length le_encode le_decode].
  unfold byte_ok in Hb. f_equal.
  - unfold u8. zlia.
  - replace ((b + 256 * le_decode bs) / 256) with (le_decode bs) by zlia. done.
Qed.

Lemma le_decode_range bs :
  Forall byte_ok bs -> 0 <= le_decode bs < 256 ^ Z.of_nat (length bs).
Proof.
  induction 1 as [| b bs Hb _ IH]; [simpl; lia |]. cbn [length le_decode].
  unfold byte_ok in Hb. rewrite Nat2Z.inj_succ, Z.pow_succ_r by lia. lia.
Qed.

(** ** Lemmas on loops *)

(** ** Lists whose zero entries are empty slots *)

Definition filled (l : list Z) : list Z := filter (fun x => x <> 0) l.

Lemma filled_insert_empty (l : list Z) i p :
  l !! i = Some 0 -> p <> 0 -> filled (<[i := p]> l) ≡ₚ p :: filled l.
Proof.
  intros Hi Hp. unfold filled. pose proof (lookup_lt_Some _ _ _ Hi) as Hlt.
  rewrite (insert_take_drop _ _ _ Hlt). rewrite <- (take_drop_middle l i 0 Hi) at 3.
  rewrite !filter_app, !filter_cons. rewrite decide_True, decide_False by (by auto).
  by rewrite <- Permutation_middle.
Qed.

Lemma filled_clear (l : list Z) i p :
  l !! i = Some p -> p <> 0 -> filled l ≡ₚ p :: filled (<[i := 0]> l).
Proof.
  intros Hi Hp. assert (Hlt := lookup_lt_Some _ _ _ Hi).
  rewrite <- filled_insert_empty with (i := i); [| by apply list_lookup_insert_eq | done].
  rewrite list_insert_insert, decide_True by done. by rewrite list_insert_id.
Qed.

Lemma filled_elem (l : list Z) p : p ∈ filled l <-> p <> 0 /\ exists i, l !! i = Some p.
Proof. unfold filled. rewrite list_elem_of_filter, list_elem_of_lookup. done. Qed.

Lemma filled_inj (l : list Z) i j p :
  NoDup (filled l) -> p <> 0 -> l !! i = Some p -> l !! j = Some p -> i = j.
Proof.
  intros Hnd Hp Hi Hj. destruct (decide (i = j)) as [| Hne]; [done | exfalso].
  rewrite (filled_clear l i p Hi Hp) in Hnd. apply NoDup_cons in Hnd as [Hnd _].
  apply Hnd, filled_elem. split; [done |]. exists j. by rewrite list_lookup_insert_ne.
Qed.

Lemma filled_full (l : list Z) :
  length (filled l) = length l -> forall i p, l !! i = Some p -> p <> 0.
Proof.
  intros Hlen i p Hi ->. assert (H := filled_insert_empty l i 1 Hi ltac:(done)).
  apply Permutation_length in H. pose proof (length_filter (fun x => x <> 0) (<[i := 1]> l)) as Hle.
  rewrite length_insert in Hle. unfold filled in *. simpl in H. lia.
Qed.

Lemma filled_room (l : list Z) :
  (length (filled l) < length l)%nat -> exists i, l !! i = Some 0.
Proof.
  unfold filled. induction l as [| x l IH]; simpl; [lia |].
  rewrite filter_cons. case_decide as Hx; simpl.
  - intros [i Hi]%Nat.succ_lt_mono%IH. by exists (S i).
  - intros _. exists 0%nat. simpl. f_equal. lia.
Qed.
