(* ===== verification/CString.v ===== *)
(** * Memory and the string functions ([lib/string.cc])

    Memory is a map from addresses to bytes; a byte never written is 0 in the
    map, and the theorems quantify over every map.  The functions that only read
    take readers, so that they also apply to the bytes of a disk block. *)

From stdpp Require Import prelude gmap strings.
From Stdlib Require Import ZArith Lia.
From S2P Require Import Prelude.

Abbreviation mem := (gmap Z Z).

Definition load8 (m : mem) (a : Z) : Z := default 0 (m !! a).

Definition store8 (a v : Z) (m : mem) : mem := <[a := v]> m.

(** The [n] bytes at [a]. *)
Fixpoint load_bytes (m : mem) (a : Z) (n : nat) : list Z :=
  match n with
  | O => []
  | S n' => load8 m a :: load_bytes m (a + 1) n'
  end.

Fixpoint store_bytes (a : Z) (bs : list Z) (m : mem) : mem :=
  match bs with
  | [] => m
  | b :: bs' => store_bytes (a + 1) bs' (store8 a b m)
  end.

(** A [uint32_t] in memory. *)
Definition load32 (m : mem) (a : Z) : Z := le_decode (load_bytes m a 4).

Definition store32 (a v : Z) (m : mem) : mem := store_bytes a (le_encode 4 v) m.

(** Read access through a [const char*]. *)
Definition reader : Type := Z -> outcome Z.

Definition rd (m : mem) : reader := fun a => Ok (load8 m a).

(** [for (uint32_t i = 0; i < size; i++) p[i] = q[i];] *)
Fixpoint memcpy (dst src : Z) (size : nat) (m : mem) : mem :=
  match size with
  | O => m
  | S n => memcpy (dst + 1) (src + 1) n (store8 dst (load8 m src) m)
  end.

Fixpoint memset (dst val : Z) (size : nat) (m : mem) : mem :=
  match size with
  | O => m
  | S n => memset (dst + 1) val n (store8 dst val m)
  end.

Definition bzero (dst : Z) (size : nat) (m : mem) : mem := memset dst 0 size m.

(** The result is an [int]: the difference of two [char]s. *)
Fixpoint strcmp (fuel : nat) (r1 r2 : reader) (str1 str2 : Z) : outcome Z :=
  match fuel with
  | O => NoFuel
  | S f =>
      let! c1 := r1 str1 in
      if c1 =? 0 then Ok 0
      else
        let! c2 := r2 str2 in
        if c2 =? 0 then Ok (schar c1 - schar c2)
        else if negb (c1 =? c2) then Ok (schar c1 - schar c2)
        else strcmp f r1 r2 (str1 + 1) (str2 + 1)
  end.

(** The address returned, and memory. *)
Fixpoint strcpy (fuel : nat) (dst src : Z) (m : mem) : outcome (Z * mem) :=
  match fuel with
  | O => NoFuel
  | S f =>
      let c := load8 m src in
      if c =? 0 then Ok (dst, m)
      else strcpy f (dst + 1) (src + 1) (store8 dst c m)
  end.

(** The loop of [strcat] leaves [dst] after the zero byte. *)
Fixpoint strcat_skip (fuel : nat) (dst : Z) (m : mem) : outcome Z :=
  match fuel with
  | O => NoFuel
  | S f => if load8 m dst =? 0 then Ok (dst + 1) else strcat_skip f (dst + 1) m
  end.

Definition strcat (fuel : nat) (dst src : Z) (m : mem) : outcome (Z * mem) :=
  let! dst := strcat_skip fuel dst m in
  strcpy fuel dst src m.

Fixpoint strfind (fuel : nat) (r : reader) (str ch : Z) : outcome Z :=
  match fuel with
  | O => NoFuel
  | S f =>
      let! c := r str in
      if (negb (c =? 0)) && negb (c =? ch) then strfind f r (str + 1) ch else Ok str
  end.

Fixpoint strlen (fuel : nat) (r : reader) (src len : Z) : outcome Z :=
  match fuel with
  | O => NoFuel
  | S f => let! c := r src in if c =? 0 then Ok len else strlen f r (src + 1) (len + 1)
  end.

(** The bytes that a loop over the string at [a] sees. *)
Fixpoint read_string (fuel : nat) (r : reader) (a : Z) : outcome (list Z) :=
  match fuel with
  | O => NoFuel
  | S f =>
      let! c := r a in
      if c =? 0 then Ok [] else let! str := read_string f r (a + 1) in Ok (c :: str)
  end.

(** ** What a string is *)

(** The bytes [s], none of them zero, and a zero byte after them. *)
Fixpoint cstr (r : reader) (a : Z) (s : list Z) : Prop :=
  match s with
  | [] => r a = Ok 0
  | c :: s' => r a = Ok c /\ c <> 0 /\ byte_ok c /\ cstr r (a + 1) s'
  end.

(** ** Lemmas on memory *)

Lemma load8_store8 a b v m : load8 (store8 a v m) b = if decide (a = b) then v else load8 m b.
Proof.
  unfold load8, store8. case_decide; [subst; by rewrite lookup_insert_eq |].
  by rewrite lookup_insert_ne.
Qed.

Lemma load8_store_bytes a bs m x :
  load8 (store_bytes a bs m) x =
    if decide (a <= x < a + Z.of_nat (length bs)) then default 0 (bs !! Z.to_nat (x - a))
    else load8 m x.
Proof.
  revert a m. induction bs as [| b bs IH]; intros a m; simpl.
  - case_decide; [lia | done].
  - rewrite IH, load8_store8. destruct (decide (a = x)) as [-> | Hne].
    + rewrite !decide_False, decide_True by lia. by rewrite Z.sub_diag.
    + destruct (decide (a + 1 <= x < a + 1 + Z.of_nat (length bs))).
      * rewrite decide_True by lia.
        replace (Z.to_nat (x - a)) with (S (Z.to_nat (x - (a + 1)))) by lia. done.
      * rewrite decide_False by lia. done.
Qed.

Lemma length_load_bytes m a n : length (load_bytes m a n) = n.
Proof. revert a. induction n; intros; simpl; auto. Qed.

Lemma load_bytes_app m a n k :
  load_bytes m a (n + k) = load_bytes m a n ++ load_bytes m (a + Z.of_nat n) k.
Proof.
  revert a. induction n as [| n IH]; intros a; cbn [load_bytes Nat.add app].
  - f_equal. lia.
  - rewrite IH. do 3 f_equal. lia.
Qed.

Lemma load_bytes_ext m m' a n :
  (forall x, a <= x < a + Z.of_nat n -> load8 m' x = load8 m x) ->
  load_bytes m' a n = load_bytes m a n.
Proof.
  revert a. induction n as [| n IH]; intros a Hx; [done |]. simpl.
  rewrite Hx by lia. f_equal. apply IH. intros x Hr. apply Hx. lia.
Qed.

Lemma load_store_bytes a bs m : load_bytes (store_bytes a bs m) a (length bs) = bs.
Proof.
  revert a m. induction bs as [| b bs IH]; intros a m; [done |]. simpl. f_equal; [| apply IH].
  rewrite load8_store_bytes, decide_False by lia. rewrite load8_store8. by rewrite decide_True.
Qed.

Lemma load32_store32_eq a v m : 0 <= v < 4294967296 -> load32 (store32 a v m) a = v.
Proof.
  intros Hv. unfold load32, store32.
  pose proof (load_store_bytes a (le_encode 4 v) m) as H. rewrite length_le_encode in H.
  rewrite H. by apply le_decode_encode.
Qed.

(** A store leaves a word that it does not overlap alone. *)
Lemma load32_store32_ne a b v m :
  b + 4 <= a \/ a + 4 <= b -> load32 (store32 a v m) b = load32 m b.
Proof.
  intros Hd. unfold load32, store32. f_equal. apply load_bytes_ext. intros x Hx.
  rewrite load8_store_bytes, length_le_encode, decide_False by lia. done.
Qed.

#[export] Hint Rewrite load32_store32_eq load32_store32_ne using lia : sprite.

Lemma memcpy_bytes dst src n m x :
  dst + Z.of_nat n <= src \/ src + Z.of_nat n <= dst ->
  load8 (memcpy dst src n m) x =
    if decide (dst <= x < dst + Z.of_nat n) then load8 m (src + (x - dst)) else load8 m x.
Proof.
  revert dst src m. induction n as [| n IH]; intros dst src m Hd; cbn [memcpy].
  - case_decide; [lia | done].
  - rewrite IH by lia. rewrite !load8_store8. repeat case_decide; try lia; try done.
    + f_equal. lia.
    + f_equal. lia.
Qed.

Lemma memset_bytes dst v n m x :
  load8 (memset dst v n m) x = if decide (dst <= x < dst + Z.of_nat n) then v else load8 m x.
Proof.
  revert dst m. induction n as [| n IH]; intros dst m; cbn [memset].
  - case_decide; [lia | done].
  - rewrite IH, load8_store8. repeat case_decide; try lia; done.
Qed.

Lemma cstr_frame m m' a s :
  cstr (rd m) a s ->
  (forall x, a <= x <= a + Z.of_nat (length s) -> load8 m' x = load8 m x) -> cstr (rd m') a s.
Proof.
  revert a. induction s as [| c s IH]; intros a; cbn [cstr length]; unfold rd.
  - intros H Hx. rewrite Hx by lia. done.
  - intros (Hc & Hn & Hb & Hs) Hx. rewrite Hx by lia. split_and!; try done.
    apply IH; [done |]. intros x Hr. apply Hx. lia.
Qed.

(** ** The string functions *)

Lemma schar_sub c1 c2 : byte_ok c1 -> byte_ok c2 -> schar c1 - schar c2 = 0 <-> c1 = c2.
Proof.
  unfold byte_ok, schar. intros H1 H2.
  destruct (Z.ltb_spec c1 128), (Z.ltb_spec c2 128); lia.
Qed.

Lemma strlen_ok fuel r a s len :
  cstr r a s -> (length s < fuel)%nat ->
  strlen fuel r a len = Ok (len + Z.of_nat (length s)).
Proof.
  revert fuel a len. induction s as [| c s IH]; intros [| f] a len Hs Hf; simpl in *; try lia.
  - rewrite Hs. cbn. f_equal. lia.
  - destruct Hs as (Hc & Hn & _ & Hs). rewrite Hc. cbn [obind].
    destruct (Z.eqb_spec c 0); [done |]. rewrite IH by (done || lia). f_equal. lia.
Qed.

(** The first occurrence of [ch] in [s], or the end of [s]. *)
Fixpoint index_of (ch : Z) (s : list Z) : nat :=
  match s with
  | [] => 0
  | c :: s' => if decide (c = ch) then 0 else S (index_of ch s')
  end.

Lemma strfind_ok fuel r a s ch :
  cstr r a s -> (length s < fuel)%nat ->
  strfind fuel r a ch = Ok (a + Z.of_nat (index_of ch s)).
Proof.
  revert fuel a. induction s as [| c s IH]; intros [| f] a Hs Hf; simpl in *; try lia.
  - rewrite Hs. cbn. f_equal. lia.
  - destruct Hs as (Hc & Hn & _ & Hs). rewrite Hc. cbn [obind].
    destruct (Z.eqb_spec c 0); [done |]. cbn [negb andb].
    destruct (Z.eqb_spec c ch) as [-> | Hne]; case_decide; try done.
    + cbn. f_equal. lia.
    + cbn [negb]. rewrite IH by (done || lia). f_equal. lia.
Qed.

Lemma read_string_ok fuel r a str : cstr r a str -> (length str < fuel)%nat -> read_string fuel r a = Ok str.
Proof.
  revert fuel a. induction str as [| c str IH]; intros [| f] a Hs Hf; cbn [cstr length read_string] in *; try lia.
  - by rewrite Hs.
  - destruct Hs as (-> & Hc & _ & Hs). cbn [obind]. rewrite (proj2 (Z.eqb_neq c 0)) by done.
    by rewrite (IH f) by (done || lia).
Qed.

Lemma cstr_bytes r a str : cstr r a str -> Forall byte_ok str.
Proof.
  revert a. induction str as [| c str IH]; intros a Hs; cbn [cstr] in Hs; [done |].
  destruct Hs as (_ & _ & Hc & Hs). constructor; [done | by eapply IH].
Qed.

Lemma strcmp_run fuel r1 r2 a b s1 s2 :
  cstr r1 a s1 -> cstr r2 b s2 -> (length s1 < fuel)%nat ->
  exists z, strcmp fuel r1 r2 a b = Ok z /\ (z = 0 <-> s1 `prefix_of` s2).
Proof.
  revert fuel a b s2.
  induction s1 as [| c1 s1 IH]; intros [| f] a b s2 H1 H2 Hf; simpl in Hf; try lia; simpl in H1.
  - exists 0. cbn [strcmp]. rewrite H1. cbn. split; [done |].
    split; intros _; [apply prefix_nil | done].
  - destruct H1 as (Hc1 & Hn1 & Hb1 & H1). cbn [strcmp]. rewrite Hc1. cbn [obind].
    destruct (Z.eqb_spec c1 0); [done |].
    destruct s2 as [| c2 s2]; simpl in H2.
    + rewrite H2. cbn [obind Z.eqb]. eexists. split; [done |].
      rewrite schar_sub by (done || (unfold byte_ok; lia)).
      split; [done |]. by intros H%prefix_nil_not.
    + destruct H2 as (Hc2 & Hn2 & Hb2 & H2). rewrite Hc2. cbn [obind].
      destruct (Z.eqb_spec c2 0); [done |]. destruct (Z.eqb_spec c1 c2) as [-> | Hne]; cbn [negb].
      * destruct (IH f (a + 1) (b + 1) s2 H1 H2) as (z & -> & Hz); [lia |].
        exists z. split; [done |]. rewrite Hz. split; [apply prefix_cons | apply prefix_cons_inv_2].
      * eexists. split; [done |]. rewrite schar_sub by done.
        split; [done |]. by intros ?%prefix_cons_inv_1.
Qed.

(** strcmp terminates on two strings; it gives 0 exactly when the first
    is a prefix of the second, not only when they are equal. *)
Theorem strcmp_prefix fuel r1 r2 a b s1 s2 :
  cstr r1 a s1 -> cstr r2 b s2 -> (length s1 < fuel)%nat ->
  exists z, strcmp fuel r1 r2 a b = Ok z /\ (z = 0 <-> s1 `prefix_of` s2).
Proof. apply strcmp_run. Qed.

Lemma strcpy_ok fuel dst src s m :
  cstr (rd m) src s -> (length s < fuel)%nat ->
  dst + Z.of_nat (length s) <= src \/ src + Z.of_nat (length s) < dst ->
  strcpy fuel dst src m = Ok (dst + Z.of_nat (length s), store_bytes dst s m).
Proof.
  revert fuel dst src m. induction s as [| c s IH]; intros [| f] dst src m Hs Hf Hd;
    cbn [cstr length strcpy] in *; try lia; unfold rd in Hs.
  - injection Hs as ->. cbn. f_equal. f_equal. lia.
  - destruct Hs as ([= Hc] & Hn & _ & Hs). rewrite Hc. destruct (Z.eqb_spec c 0); [done |].
    rewrite IH; [f_equal; f_equal; lia | | lia | lia].
    eapply cstr_frame; [done |]. intros x Hx. rewrite load8_store8, decide_False by lia. done.
Qed.

Lemma strcat_skip_ok fuel m a s :
  cstr (rd m) a s -> (length s < fuel)%nat ->
  strcat_skip fuel a m = Ok (a + Z.of_nat (length s) + 1).
Proof.
  revert fuel a. induction s as [| c s IH]; intros [| f] a Hs Hf;
    cbn [cstr length strcat_skip] in *; try lia; unfold rd in Hs.
  - injection Hs as ->. cbn. f_equal. lia.
  - destruct Hs as ([= ->] & Hn & _ & Hs). destruct (Z.eqb_spec c 0); [done |].
    rewrite IH by (done || lia). f_equal. lia.
Qed.

(** strcat copies the second string after the zero byte of the first,
    so the string at the destination is still the first one. *)
Theorem strcat_keeps_dst fuel dst src s t m :
  cstr (rd m) dst s -> cstr (rd m) src t ->
  (length s < fuel)%nat -> (length t < fuel)%nat ->
  src + Z.of_nat (length t) < dst \/
    dst + Z.of_nat (length s) + 1 + Z.of_nat (length t) <= src ->
  exists m', strcat fuel dst src m =
      Ok (dst + Z.of_nat (length s) + 1 + Z.of_nat (length t), m') /\
    load_bytes m' (dst + Z.of_nat (length s) + 1) (length t) = t /\
    cstr (rd m') dst s.
Proof.
  intros Hs Ht Hfs Hft Hd. unfold strcat. rewrite (strcat_skip_ok _ _ _ s) by done.
  cbn [obind]. rewrite (strcpy_ok _ _ _ t) by (done || lia).
  eexists. split; [done |]. split; [apply load_store_bytes |].
  eapply cstr_frame; [done |]. intros x Hx. rewrite load8_store_bytes, decide_False by lia. done.
Qed.

(** ** Concrete strings *)

Definition test_mem : mem := store_bytes 100 [116; 101; 0] (store_bytes 200 [116; 101; 115; 116; 0] ∅).

(** "te" and "test" compare as equal, in that order. *)
Lemma strcmp_prefix_witness : strcmp 5 (rd test_mem) (rd test_mem) 100 200 = Ok 0.
Proof.
  destruct (strcmp_prefix 5 (rd test_mem) (rd test_mem) 100 200 [116; 101] [116; 101; 115; 116])
    as (z & -> & Hz); [| | simpl; lia |].
  - cbn [cstr]. split_and!; try done; vm_compute; split; congruence.
  - cbn [cstr]. split_and!; try done; vm_compute; split; congruence.
  - f_equal. apply Hz. by exists [115; 116].
Defined.
