(* ===== verification/Util.v ===== *)
(** * Small templates ([include/pair.hpp], [include/common.h], [include/atomic.h])

    They have no state of the kernel; [min] is used by the disk driver, the others by nothing. *)

From stdpp Require Import prelude.
From Stdlib Require Import ZArith Lia.
From S2P Require Import Prelude.

Module pair_hpp.
Section pair.
Context {K V : Type} `{EqDecision K}.

Record pair := mk_pair { first : K; second : V }.

(** [operator ==] and [operator !=]. *)
Definition pair_eq (p other : pair) : bool := bool_decide (first p = first other).
Definition pair_ne (p other : pair) : bool := negb (pair_eq p other).

Definition make_pair (k : K) (v : V) : pair := mk_pair k v.

(** [==] is equality of the first components. *)
Lemma pair_eq_first p q : pair_eq p q = true <-> first p = first q.
Proof. apply bool_decide_eq_true. Qed.

End pair.
Arguments pair : clear implicits.

(** Pairs that are equal for [==] and differ. *)
Lemma equal_pairs_differ : pair_eq (make_pair 1 2) (make_pair 1 3) = true /\ make_pair 1 2 <> make_pair 1 3.
Proof. split; [done | intros [=]]. Qed.

End pair_hpp.

Module common.
Section common.
(** [operator <] of the type. *)
Context {T : Type} (lt : T -> T -> bool).

Definition min (lhs rhs : T) : T := if lt lhs rhs then lhs else rhs.
Definition max (lhs rhs : T) : T := if lt lhs rhs then rhs else lhs.

(** When the order is irreflexive and total, the two results are the two arguments, and the
    second is not below the first. *)
Lemma min_max lhs rhs :
  (forall x, lt x x = false) -> (forall x y, lt x y = false -> lt y x = true \/ x = y) ->
  (forall x y, lt x y = true -> lt y x = false) ->
  lt (max lhs rhs) (min lhs rhs) = false /\ [min lhs rhs; max lhs rhs] ≡ₚ [lhs; rhs].
Proof.
  intros Hirr Htot Hasym. unfold min, max. destruct (lt lhs rhs) eqn:E.
  - split; [by apply Hasym | done].
  - split; [done | apply Permutation_swap].
Qed.

End common.

Lemma min_Z x y : min Z.ltb x y = Z.min x y.
Proof. unfold min. destruct (Z.ltb_spec x y); lia. Qed.

End common.

Module atomic.

(** [atomic_t::add] and [set] on the 32-bit [counter]; [reduce] is written with an
    instruction that takes one operand less, and is not modelled. *)
Definition add (i counter : Z) : Z := s32 (counter + i).
Definition set (i counter : Z) : Z := s32 i.

Lemma add_add i j c : add i (add j c) = add (i + j) c.
Proof.
  unfold add, s32, u32. repeat case_match; bprop; zlia.
Qed.

End atomic.
