(* ===== verification/Bitmap.v ===== *)
(** * The bitmap template ([include/bitmap.hpp])

    [bitmap<N>] as the class has it: an array [data_] of [length_] bytes.  The
    class divides positions by [sizeof(bit_store)], which is 1, so position
    [pos] is bit 7 of byte [pos]; the theorems are about that code. *)

From stdpp Require Import prelude gmap strings.
From Stdlib Require Import ZArith Lia.
From S2P Require Import Prelude.

Module bitmap.
Section bitmap.
Context (N : Z).

Definition sizeof_bit_store : Z := 1.

Definition length_ : Z := (N - 1) / 8 / sizeof_bit_store + 1.

(** [data_], a C array of [uint8_t]. *)
Abbreviation t := (list Z).

(** [bitmap()]: every element is set to 0. *)
Definition make : t := replicate (Z.to_nat length_) 0.

(** [assign(bits, len)]: [memcpy(data_, bits, len)]. *)
Definition assign (bits : list Z) (len : Z) (d : t) : outcome t :=
  if decide (len <= Z.of_nat (length d) /\ len <= Z.of_nat (length bits)) then
    Ok (take (Z.to_nat len) bits ++ drop (Z.to_nat len) d)
  else Fault.

(** The mask of [set] and [test]: [1 << (sizeof(bit_store) * 8 - 1 - j)]. *)
Definition mask_of (pos : Z) : Z :=
  let j := s32 (pos mod sizeof_bit_store) in
  u8 (Z.shiftl 1 (sizeof_bit_store * 8 - 1 - j)).

Definition set (pos : Z) (x : bool) (d : t) : outcome t :=
  let i := s32 (pos / sizeof_bit_store) in
  let! target := or_fault (lget d i) in
  let mask := mask_of pos in
  if x then
    or_fault (lset d i (u8 (Z.lor target mask)))
  else
    let mask := u8 (Z.lnot mask) in
    or_fault (lset d i (u8 (Z.land target mask))).

Definition test (pos : Z) (d : t) : outcome bool :=
  let i := s32 (pos / sizeof_bit_store) in
  let! target := or_fault (lget d i) in
  let mask := mask_of pos in
  Ok (negb (Z.land mask target =? 0)).

(** [operator[]] gives a [bit_ref]; assigning to it and reading it: *)
Definition bit_ref_assign (idx : Z) (x : bool) (d : t) : outcome t := set idx x d.
Definition bit_ref_bool (idx : Z) (d : t) : outcome bool := test idx d.

Definition all (d : t) : bool := forallb (fun x => x =? 0xFF) d.

Definition any (d : t) : bool := existsb (fun x => negb (x =? 0)) d.

Definition none (d : t) : bool := negb (all d).

(** The inner loop of [count]: [while (x) { if (x & mask) ++cnt; x >>= 1; }].
    A byte is 0 after 8 shifts. *)
Fixpoint count_byte (fuel : nat) (x cnt : Z) : outcome Z :=
  match fuel with
  | O => NoFuel
  | S f =>
      if x =? 0 then Ok cnt
      else count_byte f (Z.shiftr x 1) (if Z.land x 1 =? 0 then cnt else cnt + 1)
  end.

Fixpoint count_loop (d : t) (cnt : Z) : outcome Z :=
  match d with
  | [] => Ok cnt
  | x :: d' => let! cnt := count_byte 9 x cnt in count_loop d' cnt
  end.

(** [count()] has return type [bool]: the number is converted to it. *)
Definition count (d : t) : outcome bool :=
  let! cnt := count_loop d 0 in
  Ok (negb (cnt =? 0)).

Definition size : Z := N.

Definition clear (d : t) : t := map (fun _ => 0) d.

Definition flip_all (d : t) : t := map (fun x => u8 (Z.lnot x)) d.

Definition flip (pos : Z) (d : t) : outcome t :=
  let! b := test pos d in
  if b then set pos false d else set pos true d.

(** The inner loop of [find_first]: [while (mask) { ... mask >>= 1; }], whose
    result is whether it returned. *)
Fixpoint find_byte (fuel : nat) (x mask : Z) (value : bool) : outcome bool :=
  match fuel with
  | O => NoFuel
  | S f =>
      if mask =? 0 then Ok false
      else if Bool.eqb (negb (Z.land x mask =? 0)) value then Ok true
      else find_byte f x (Z.shiftr mask 1) value
  end.

(** [i] is 0 throughout: the code never increments it. *)
Fixpoint find_loop (d : t) (j : Z) (value : bool) : outcome Z :=
  match d with
  | [] => Ok size
  | x :: d' =>
      let! found := find_byte 9 x 0x80 value in
      if found then Ok (j * sizeof_bit_store + 0) else find_loop d' (j + 1) value
  end.

Definition find_first (value : bool) (d : t) : outcome Z := find_loop d 0 value.

(** [operator&=]. *)
Definition and_assign (other d : t) : t := zip_with (fun x y => Z.land x y) d other.

(** Well formed: [length_] bytes. *)
Definition wf (d : t) : Prop := Z.of_nat (length d) = length_ /\ Forall byte_ok d.

(** ** Lemmas *)

Lemma index_eq pos : 0 <= pos < 2147483648 -> s32 (pos / sizeof_bit_store) = pos.
Proof.
  intros H. unfold s32, sizeof_bit_store. rewrite Z.div_1_r, u32_small by lia.
  destruct (pos <? 2147483648) eqn:E; bprop; lia.
Qed.

Lemma mask_eq pos : mask_of pos = 0x80.
Proof. unfold mask_of, sizeof_bit_store. rewrite Z.mod_1_r. reflexivity. Qed.

Definition set_value (x : bool) (b : Z) : Z :=
  if x then u8 (Z.lor b 0x80) else u8 (Z.land b (u8 (Z.lnot 0x80))).

Definition top_bit (b : Z) : bool := negb (Z.land 0x80 b =? 0).

Lemma set_eq pos x d b :
  0 <= pos < 2147483648 -> lget d pos = Some b ->
  set pos x d = Ok (<[Z.to_nat pos := set_value x b]> d).
Proof.
  intros Hp Hb. pose proof (lget_range _ _ _ Hb). unfold set.
  rewrite index_eq, Hb by done. cbn [obind or_fault]. rewrite mask_eq.
  by destruct x; rewrite lset_in by done.
Qed.

Lemma test_eq pos d b :
  0 <= pos < 2147483648 -> lget d pos = Some b -> test pos d = Ok (top_bit b).
Proof.
  intros Hp Hb. unfold test. rewrite index_eq, Hb by done. cbn [obind or_fault].
  by rewrite mask_eq.
Qed.

Lemma set_value_ok x b : byte_ok b -> byte_ok (set_value x b).
Proof. intros _. unfold set_value. destruct x; apply u8_range. Qed.

Lemma top_bit_set x b : byte_ok b -> top_bit (set_value x b) = x.
Proof.
  intros Hb. apply eqb_prop.
  apply (byte_check (fun b => Bool.eqb (top_bit (set_value x b)) x)); [| done].
  by destruct x; vm_compute.
Qed.

Lemma set_value_back b :
  byte_ok b -> set_value (top_bit b) (set_value (negb (top_bit b)) b) = b.
Proof.
  intros Hb. apply Z.eqb_eq.
  apply (byte_check (fun b => set_value (top_bit b) (set_value (negb (top_bit b)) b) =? b));
    [by vm_compute | done].
Qed.

Lemma wf_insert d pos b :
  wf d -> byte_ok b -> wf (<[Z.to_nat pos := b]> d).
Proof.
  intros [Hl Hb] Hx. split; [by rewrite length_insert |]. by apply Forall_insert.
Qed.

Lemma wf_lget d pos : wf d -> 0 <= pos < length_ -> exists b, lget d pos = Some b /\ byte_ok b.
Proof.
  intros [Hl Hb] Hp. destruct (lget_in d pos) as [b Hg]; [lia |].
  exists b. split; [done |]. by eapply Forall_byte_ok_lookup.
Qed.

Lemma find_byte_spec v x :
  byte_ok x -> find_byte 9 x 0x80 v = Ok (if v then negb (x =? 0) else negb (x =? 0xFF)).
Proof.
  intros Hx.
  assert (H : match find_byte 9 x 0x80 v with
              | Ok r => Bool.eqb r (if v then negb (x =? 0) else negb (x =? 0xFF))
              | _ => false end = true).
  { apply (byte_check (fun x => match find_byte 9 x 0x80 v with
              | Ok r => Bool.eqb r (if v then negb (x =? 0) else negb (x =? 0xFF))
              | _ => false end)); [| done]. by destruct v; vm_compute. }
  destruct (find_byte 9 x 128 v); try done. by apply eqb_prop in H as ->.
Qed.

Lemma count_byte_spec x c :
  byte_ok x -> 0 <= c ->
  exists n, count_byte 9 x c = Ok (c + n) /\ 0 <= n /\ (n = 0 <-> x = 0).
Proof.
  intros Hx Hc.
  assert (Hadd : forall f x c, count_byte f x c =
            let! n := count_byte f x 0 in Ok (c + n)).
  { induction f as [| f IH]; intros y e; [done |]. simpl. destruct (y =? 0).
    - simpl. by rewrite Z.add_0_r.
    - rewrite IH, (IH _ (if Z.land y 1 =? 0 then 0 else 0 + 1)).
      destruct (count_byte f (Z.shiftr y 1) 0); cbn; try done.
      destruct (Z.land y 1 =? 0); f_equal; lia. }
  set (chk := fun x => match count_byte 9 x 0 with
              | Ok n => (0 <=? n) && Bool.eqb (n =? 0) (x =? 0) | _ => false end).
  assert (H : chk x = true) by (apply byte_check; [by vm_compute | done]).
  unfold chk in H. rewrite Hadd. destruct (count_byte 9 x 0) as [n | | |]; try done.
  bprop. exists n. split; [done |]. split; [done |].
  apply eqb_prop in H0. destruct (Z.eqb_spec n 0), (Z.eqb_spec x 0); naive_solver.
Qed.

(** ** Properties *)

(** C39: A [set] inside the array stores the bit, and it is the only one that changes. *)
Theorem set_test (pos : Z) (x : bool) (d : t) :
  wf d -> length_ < 2147483648 -> 0 <= pos < length_ ->
  exists d', set pos x d = Ok d' /\ wf d' /\ test pos d' = Ok x /\
    forall pos', 0 <= pos' < length_ -> pos' <> pos -> test pos' d' = test pos' d.
Proof.
  intros Hwf HN Hp. destruct (wf_lget d pos Hwf Hp) as (b & Hg & Hb).
  exists (<[Z.to_nat pos := set_value x b]> d).
  pose proof (lget_range _ _ _ Hg). split_and!.
  - apply set_eq; [lia | done].
  - apply wf_insert; [done | by apply set_value_ok].
  - rewrite (test_eq _ _ (set_value x b)); [by rewrite top_bit_set | lia |].
    by apply lget_insert_eq.
  - intros pos' Hp' Hne. destruct (wf_lget d pos' Hwf Hp') as (b' & Hg' & _).
    rewrite !(test_eq _ _ b'); [done | lia | done | lia |].
    by rewrite lget_insert_ne by lia.
Qed.

(** Positions the class documents as valid, but outside the array. *)
Theorem set_overrun (pos : Z) (x : bool) (d : t) :
  wf d -> length_ <= pos < N -> N <= 2147483648 ->
  set pos x d = Fault /\ test pos d = Fault /\ flip pos d = Fault.
Proof.
  intros [Hl _] Hp HN. assert (Hout : lget d pos = None) by (apply lget_out; lia).
  assert (0 <= length_) by lia.
  unfold flip, set, test. rewrite index_eq, Hout by lia. done.
Qed.

Theorem flip_flip (pos : Z) (d : t) :
  wf d -> length_ < 2147483648 -> 0 <= pos < length_ ->
  exists d', flip pos d = Ok d' /\ flip pos d' = Ok d.
Proof.
  intros Hwf HN Hp. destruct (wf_lget d pos Hwf Hp) as (b & Hg & Hb).
  pose proof (lget_range _ _ _ Hg).
  assert (Hf : forall d b, lget d pos = Some b ->
            flip pos d = Ok (<[Z.to_nat pos := set_value (negb (top_bit b)) b]> d)).
  { intros e c Hc. unfold flip. rewrite (test_eq _ _ c) by (try done; lia). cbn [obind].
    destruct (top_bit c) eqn:E; by apply set_eq; [lia |]. }
  eexists. split; [by apply Hf |]. erewrite Hf by (by apply lget_insert_eq).
  rewrite top_bit_set, negb_involutive, set_value_back by done.
  rewrite list_insert_insert. rewrite decide_True by done. f_equal.
  apply list_insert_id. by apply lget_Some in Hg as [_ ?].
Qed.

Lemma find_loop_spec v d j :
  Forall byte_ok d ->
  exists r, find_loop d j v = Ok r /\
    ((exists i b, d !! i = Some b /\ b <> (if v then 0 else 0xFF) /\ r = j + Z.of_nat i /\
        forall i' b', (i' < i)%nat -> d !! i' = Some b' -> b' = (if v then 0 else 0xFF)) \/
     (r = N /\ Forall (fun b => b = (if v then 0 else 0xFF)) d)).
Proof.
  intros HF. revert j. induction HF as [| x d Hx HF IH]; intros j.
  { exists N. split; [done |]. right. by split. }
  cbn [find_loop]. rewrite find_byte_spec by done. cbn [obind].
  assert (Hv : (if v then negb (x =? 0) else negb (x =? 255)) =
               negb (x =? (if v then 0 else 0xFF))) by (by destruct v).
  rewrite Hv. destruct (Z.eqb_spec x (if v then 0 else 0xFF)) as [He | Hne]; cbn [negb].
  - destruct (IH (j + 1)) as (r & Hr & [(i & b & Hi & Hb & -> & Hmin) | [-> Hall]]).
    + exists (j + 1 + Z.of_nat i). split; [done |]. left. exists (S i), b.
      split_and!; [done | done | lia |]. intros [| i'] b' Hlt Hl; simpl in Hl.
      * by injection Hl as <-.
      * apply (Hmin i'); [lia | done].
    + exists N. split; [done |]. right. split; [done |]. by constructor.
  - exists (j * sizeof_bit_store + 0). split; [done |]. left. exists 0%nat, x.
    split_and!; [done | done | unfold sizeof_bit_store; lia | lia].
Qed.

(** [find_first] terminates and returns the first position whose byte is not
    made of the other value only, or [size()]. *)
Theorem find_first_spec (v : bool) (d : t) :
  wf d ->
  exists r, find_first v d = Ok r /\
    ((0 <= r < length_ /\ exists b, lget d r = Some b /\ b <> (if v then 0 else 0xFF) /\
        forall r' b', 0 <= r' < r -> lget d r' = Some b' -> b' = (if v then 0 else 0xFF)) \/
     (r = size /\ Forall (fun b => b = (if v then 0 else 0xFF)) d)).
Proof.
  intros [Hl HF]. destruct (find_loop_spec v d 0 HF) as (r & Hr & H).
  exists r. split; [done |]. destruct H as [(i & b & Hi & Hb & -> & Hmin) | ?]; [left | by right].
  pose proof (lookup_lt_Some _ _ _ Hi). split; [lia |]. exists b. split_and!.
  - apply lget_Some. split; [lia |]. by replace (Z.to_nat (0 + Z.of_nat i)) with i by lia.
  - done.
  - intros r' b' Hr' [_ Hg]%lget_Some. apply (Hmin (Z.to_nat r')); [lia | done].
Qed.

(** [count] returns; being a [bool] it only says whether some bit is set. *)
Theorem count_is_any (d : t) : wf d -> count d = Ok (any d).
Proof.
  intros [_ HF]. unfold count, any.
  assert (H : forall c, 0 <= c -> exists n, count_loop d c = Ok (c + n) /\ 0 <= n /\
            (n = 0 <-> existsb (fun x => negb (x =? 0)) d = false)).
  { induction HF as [| x d Hx HF IH]; intros c Hc.
    - exists 0. rewrite Z.add_0_r. done.
    - destruct (count_byte_spec x c Hx Hc) as (n & Hn & Hn0 & Hz).
      destruct (IH (c + n)) as (m & Hm & Hm0 & Hmz); [lia |].
      exists (n + m). cbn [count_loop existsb]. rewrite Hn. cbn [obind]. rewrite Hm.
      split; [f_equal; lia |]. split; [lia |]. rewrite orb_false_iff, <- Hmz, negb_false_iff, Z.eqb_eq.
      rewrite <- Hz. lia. }
  destruct (H 0 ltac:(done)) as (n & -> & Hn & Hz). cbn [obind]. f_equal.
  destruct (existsb _ d); destruct (Z.eqb_spec (0 + n) 0); try done; naive_solver lia.
Qed.

End bitmap.

(** ** A concrete bitmap: eight bytes *)

Lemma small_wf : wf 64 (make 64).
Proof. split; [reflexivity |]. vm_compute. repeat constructor; congruence. Qed.

Lemma set_test_witness :
  exists d, set 3 true (make 64) = Ok d /\ test 3 d = Ok true /\ test 4 d = Ok false.
Proof.
  destruct (set_test 64 3 true (make 64) small_wf) as (d & Hs & _ & Ht & Ho);
    [vm_compute; congruence | vm_compute; split; congruence |].
  exists d. split; [exact Hs |]. split; [exact Ht |]. rewrite Ho; [reflexivity | vm_compute; split; congruence | done].
Defined.

Lemma flip_flip_witness :
  exists d, flip 3 (make 64) = Ok d /\ flip 3 d = Ok (make 64).
Proof.
  apply (flip_flip 64 3 (make 64) small_wf); [vm_compute; congruence | vm_compute; split; congruence].
Defined.

Lemma find_first_spec_witness : exists r, find_first 64 true (make 64) = Ok r /\ r = size 64.
Proof.
  destruct (find_first_spec 64 true (make 64) small_wf) as (r & Hr & [(Hr1 & b & Hb & Hne & _) | [Hs _]]).
  - exfalso. vm_compute in Hr. injection Hr as <-. vm_compute in Hr1. by destruct Hr1.
  - exists r. split; [exact Hr | exact Hs].
Defined.

Lemma count_is_any_witness : count (make 64) = Ok (any (make 64)).
Proof. exact (count_is_any 64 (make 64) small_wf). Defined.

End bitmap.

(** ** The test of the class ([test_bitmap] of [test/test.cc]) *)

Module bitmap_test.
Import bitmap.

Definition test_bitmap : outcome unit :=
  let bm := make 32 in
  kassert (none bm) "bm.none()" (
    let! bm := bit_ref_assign 0 true bm in
    let! b := test 0 bm in
    kassert b "bm.test(0)" (
      let! i := find_first 32 true bm in
      kassert (i =? 0) "bm.find_first(true) == 0" (
        let bm := clear bm in
        let bm := flip_all bm in
        let! bm := set 1 false bm in
        let! i := find_first 32 false bm in
        kassert (i =? 1) "bm.find_first(false) == 1" (Ok tt)))).

(** The test passes, although a bitmap with a bit set passes its first assertion too. *)
Lemma test_bitmap_passes :
  test_bitmap = Ok tt /\
  exists bm, bit_ref_assign 0 true (make 32) = Ok bm /\ any bm = true /\ none bm = true.
Proof. split; [reflexivity |]. by eexists. Qed.

End bitmap_test.
