(* ===== verification/LruCache.v ===== *)
(** * The LRU cache ([include/lrucache.hpp])

    [LRUCache<T, N>] with its pointers: the list nodes live in a store indexed
    by address, the queue is the circular doubly linked list through [prev] and
    [next], and [table_] is the open-addressing hash table of node addresses.
    A pointer to a node's [value] is the address of the node.  The theorems are in
    [LruCorrect.v]. *)

From stdpp Require Import prelude gmap strings.
From Stdlib Require Import ZArith Lia.
From S2P Require Import Prelude.

(** ** The data *)

(** [struct ListNode]. *)
Record ListNode (T : Type) := mkNode {
  key : Z;
  prev : Z;
  next : Z;
  value : T
}.
Arguments mkNode {T} _ _ _ _.
Arguments key {T} _.
Arguments prev {T} _.
Arguments next {T} _.
Arguments value {T} _.

(** [operator new] for a node, as the cache uses it: an address that is not
    null and holds no live node, with whatever the memory contains. *)
Class NodeAlloc (T : Type) := {
  new_node : gmap Z (ListNode T) -> Z;
  raw_node : Z -> ListNode T;
  new_node_fresh : forall h, h !! new_node h = None;
  new_node_nonnull : forall h, new_node h <> 0
}.

Module LRUCache.
Section LRUCache.
Context {T W : Type} `{NodeAlloc T} (N : Z).

Abbreviation heap_t := (gmap Z (ListNode T)).

(** The data members of the class; [0] is the null pointer.  [cb_] is the
    callback's function pointer. *)
Record t := mk {
  heap : heap_t;
  queue_ : Z;
  free_ : Z;
  table_ : list Z;
  count_ : Z;
  cb_ : Z
}.

(** What the function at an address does when called with a key and a pointer to
    a value: it may use the cache again, and some state [W] of its own. *)
Context (invoke : Z -> Z -> Z -> t -> W -> outcome (t * W)).

(** The default member initialisers, in zero-initialised storage. *)
Definition make : t := mk ∅ 0 0 (replicate (Z.to_nat N) 0) 0 0.

Definition SetUncacheCallback (cb : Z) (s : t) : t :=
  mk (heap s) (queue_ s) (free_ s) (table_ s) (count_ s) cb.

Definition size : Z := N.

Definition count (s : t) : Z := count_ s.

(** ** Loads and stores *)

Definition load (h : heap_t) (p : Z) : outcome (ListNode T) := or_fault (h !! p).

Definition setn (p v : Z) (h : heap_t) : heap_t :=
  alter (fun nd => mkNode (key nd) (prev nd) v (value nd)) p h.

Definition setp (p v : Z) (h : heap_t) : heap_t :=
  alter (fun nd => mkNode (key nd) v (next nd) (value nd)) p h.

Definition setk (p k : Z) (h : heap_t) : heap_t :=
  alter (fun nd => mkNode k (prev nd) (next nd) (value nd)) p h.

Definition setv (p : Z) (v : T) (h : heap_t) : heap_t :=
  alter (fun nd => mkNode (key nd) (prev nd) (next nd) v) p h.

(** [p->next = v] and its like: the store faults on a bad pointer. *)
Definition checked (f : heap_t -> heap_t) (p : Z) (h : heap_t) : outcome heap_t :=
  let! _ := load h p in Ok (f h).

Definition store_next (p v : Z) (h : heap_t) : outcome heap_t := checked (setn p v) p h.
Definition store_prev (p v : Z) (h : heap_t) : outcome heap_t := checked (setp p v) p h.
Definition store_key (p k : Z) (h : heap_t) : outcome heap_t := checked (setk p k) p h.
Definition store_value (p : Z) (v : T) (h : heap_t) : outcome heap_t := checked (setv p v) p h.

(** ** Queue operations *)

(** The two stores of [detach]. *)
Definition unlink (x : Z) (h : heap_t) : outcome heap_t :=
  let! nd := load h x in
  let! h := store_next (prev nd) (next nd) h in
  let! nd := load h x in
  store_prev (next nd) (prev nd) h.

Definition detach (x : Z) (s : t) : outcome t :=
  let c := u32 (count_ s - 1) in
  let! h := unlink x (heap s) in
  Ok (mk h (queue_ s) (free_ s) (table_ s) c (cb_ s)).

(** The four stores of [push_back] on a queue that is not empty. *)
Definition link_last (x q : Z) (h : heap_t) : outcome heap_t :=
  let! nd := load h q in
  let last := prev nd in
  let! h := store_next last x h in
  let! h := store_prev x last h in
  let! h := store_next x q h in
  store_prev q x h.

Definition push_back (x : Z) (s : t) : outcome t :=
  kassert (count_ s <? size) "full list" (
    let c := u32 (count_ s + 1) in
    if queue_ s =? 0 then
      let! h := store_next x x (heap s) in
      let! h := store_prev x x h in
      Ok (mk h x (free_ s) (table_ s) c (cb_ s))
    else
      let! h := link_last x (queue_ s) (heap s) in
      Ok (mk h (queue_ s) (free_ s) (table_ s) c (cb_ s))).

Definition pop_front (s : t) : outcome t :=
  let c := u32 (count_ s - 1) in
  kassert (negb (queue_ s =? 0)) "empty list" (
    let! nd := load (heap s) (queue_ s) in
    let last := prev nd in
    let successor := next nd in
    let! h := store_prev successor last (heap s) in
    let! h := store_next last successor h in
    Ok (mk h successor (free_ s) (table_ s) c (cb_ s))).

Definition front (s : t) : outcome Z :=
  kassert (negb (queue_ s =? 0)) "empty list" (Ok (queue_ s)).

(** ** The pool of nodes *)

Definition alloc (s : t) : outcome (Z * t) :=
  if free_ s =? 0 then
    let p := new_node (heap s) in
    let nd := mkNode (key (raw_node p)) 0 0 (value (raw_node p)) in
    Ok (p, mk (<[p := nd]> (heap s)) (queue_ s) (free_ s) (table_ s) (count_ s) (cb_ s))
  else
    let tmp := free_ s in
    let! nd := load (heap s) tmp in
    Ok (tmp, mk (heap s) (queue_ s) (next nd) (table_ s) (count_ s) (cb_ s)).

Definition free (node : Z) (s : t) (w : W) : outcome (t * W) :=
  let! '(s, w) :=
    (if cb_ s =? 0 then Ok (s, w)
     else let! nd := load (heap s) node in invoke (cb_ s) (key nd) node s w) in
  let! h := store_next node (free_ s) (heap s) in
  Ok (mk h (queue_ s) node (table_ s) (count_ s) (cb_ s), w).

(** ** Hash table operations *)

Definition hash (v : Z) : Z := v mod size.

Definition rehash (v : Z) : Z := hash (u32 (v + 1)).

(** [while (table_[hash_value]->key != k) hash_value = rehash(hash_value);] *)
Fixpoint erase_loop (fuel : nat) (s : t) (k h : Z) : outcome Z :=
  match fuel with
  | O => NoFuel
  | S f =>
      let! p := or_fault (lget (table_ s) h) in
      let! nd := load (heap s) p in
      if key nd =? k then Ok h else erase_loop f s k (rehash h)
  end.

Definition erase (k : Z) (s : t) (w : W) : outcome (t * W) :=
  let! h := erase_loop (Z.to_nat size) s k (hash k) in
  let! p := or_fault (lget (table_ s) h) in
  let! '(s, w) := free p s w in
  let! tb := or_fault (lset (table_ s) h 0) in
  Ok (mk (heap s) (queue_ s) (free_ s) tb (count_ s) (cb_ s), w).

(** Move a node to the back of the queue. *)
Definition Promote (k : Z) (s : t) : outcome t :=
  let! node := or_fault (lget (table_ s) k) in
  let! s := detach node s in
  let! s :=
    (if node =? queue_ s then
       let! nd := load (heap s) (queue_ s) in
       Ok (mk (heap s) (next nd) (free_ s) (table_ s) (count_ s) (cb_ s))
     else Ok s) in
  push_back node s.

(** The probing loop of [Get], from [hash_value = h] with [cnt] turns done; it
    gives [hash_value] and [cnt] when the loop stops. *)
Fixpoint Get_loop (fuel : nat) (s : t) (k h cnt : Z) : outcome (Z * Z) :=
  match fuel with
  | O => NoFuel
  | S f =>
      let cnt := cnt + 1 in
      if cnt <=? size then
        let! p := or_fault (lget (table_ s) h) in
        if p =? 0 then Ok (h, cnt)
        else
          let! nd := load (heap s) p in
          if key nd =? k then Ok (h, cnt) else Get_loop f s k (rehash h) cnt
      else Ok (h, cnt)
  end.

(** The pointer [Get] returns, and the cache. *)
Definition Get (k : Z) (s : t) : outcome (Z * t) :=
  let! '(h, cnt) := Get_loop (S (Z.to_nat size)) s k (hash k) 0 in
  let! p := or_fault (lget (table_ s) h) in
  if (p =? 0) || (size <? cnt) then Ok (0, s)
  else
    let! s := Promote h s in
    let! p := or_fault (lget (table_ s) h) in
    Ok (p, s).

(** [while (table_[hash_value]) hash_value = rehash(hash_value);] *)
Fixpoint Set_loop (fuel : nat) (s : t) (h : Z) : outcome Z :=
  match fuel with
  | O => NoFuel
  | S f =>
      let! p := or_fault (lget (table_ s) h) in
      if p =? 0 then Ok h else Set_loop f s (rehash h)
  end.

(** The eviction at the start of [Set]. *)
Definition evict (s : t) (w : W) : outcome (t * W) :=
  let! tmp := front s in
  let! s := pop_front s in
  let! nd := load (heap s) tmp in
  erase (key nd) s w.

(** The rest of [Set]: a node for [k] in the first empty slot of its probing. *)
Definition insert_new (k : Z) (v : option T) (s : t) : outcome (Z * t) :=
  let! h := Set_loop (Z.to_nat size) s (hash k) in
  let! '(entry, s) := alloc s in
  let! tb := or_fault (lset (table_ s) h entry) in
  let s := mk (heap s) (queue_ s) (free_ s) tb (count_ s) (cb_ s) in
  let! s := push_back entry s in
  let! hp := store_key entry k (heap s) in
  let! hp := (match v with None => Ok hp | Some x => store_value entry x hp end) in
  let s := mk hp (queue_ s) (free_ s) (table_ s) (count_ s) (cb_ s) in
  let! s := Promote h s in
  let! p := or_fault (lget (table_ s) h) in
  Ok (p, s).

(** [Set(k, v)], with [None] for a null [v]. *)
Definition Set_ (k : Z) (v : option T) (s : t) (w : W) : outcome (Z * t * W) :=
  let! '(s, w) := (if size <=? count s then evict s w else Ok (s, w)) in
  let! '(p, s) := insert_new k v s in
  Ok (p, s, w).

Definition Alloc (k : Z) (s : t) (w : W) : outcome (Z * t * W) := Set_ k None s w.

(** The two loops of [clear]: [delete] takes the node out of the store. *)
Fixpoint clear_queue (fuel : nat) (h : heap_t) (q iter : Z) : outcome heap_t :=
  match fuel with
  | O => NoFuel
  | S f =>
      let! nd := load h iter in
      let h := delete iter h in
      if next nd =? q then Ok h else clear_queue f h q (next nd)
  end.

Fixpoint clear_free (fuel : nat) (h : heap_t) (fr : Z) : outcome heap_t :=
  match fuel with
  | O => NoFuel
  | S f =>
      if fr =? 0 then Ok h
      else
        let! nd := load h fr in
        clear_free f (delete fr h) (next nd)
  end.

Definition clear (fuel : nat) (s : t) : outcome t :=
  let tb := map (fun _ => 0) (table_ s) in
  let! h := (if queue_ s =? 0 then Ok (heap s)
             else clear_queue fuel (heap s) (queue_ s) (queue_ s)) in
  let! h := clear_free fuel h (free_ s) in
  Ok (mk h 0 0 tb (count_ s) (cb_ s)).

End LRUCache.
End LRUCache.
