(* ===== verification/LruCorrect.v ===== *)
(** * Correctness of the LRU cache

    The pointer structure of [LruCache.v] implements the abstract LRU list of
    module [spec]: a list of keys and values, least recently used first. *)

From stdpp Require Import prelude gmap strings.
From Stdlib Require Import ZArith Lia.
From S2P Require Import Prelude LruCache.
Import LRUCache.

(** ** The specification *)

Module spec.
Section spec.
Context {T : Type}.

Definition lookup (k : Z) (l : list (Z * T)) : option T :=
  snd ∘ snd <$> list_find (fun e => fst e = k) l.

Definition touch (k : Z) (l : list (Z * T)) : list (Z * T) :=
  filter (fun e => fst e <> k) l ++ filter (fun e => fst e = k) l.

(** A hit moves the entry to the most recently used end. *)
Definition get (k : Z) (l : list (Z * T)) : option T * list (Z * T) :=
  (lookup k l, touch k l).

(** A new entry goes to the end; a full list first drops its head. *)
Definition alloc (N : Z) (k : Z) (v : T) (l : list (Z * T)) : list (Z * T) :=
  (if decide (N <= Z.of_nat (length l)) then tail l else l) ++ [(k, v)].

End spec.
End spec.

(** ** The circular queue *)

Section ring.
Context {T : Type}.
Implicit Types (h : gmap Z (ListNode T)) (p x : Z).

Definition nxt h p : option Z := next <$> h !! p.
Definition prv h p : option Z := prev <$> h !! p.
Definition dat h p : option (Z * T) := (fun nd => (key nd, value nd)) <$> h !! p.

Definition linked h a b : Prop := nxt h a = Some b /\ prv h b = Some a.

(** From [a] through the nodes [l] to [z]. *)
Fixpoint path h a (l : list Z) z : Prop :=
  match l with
  | [] => linked h a z
  | b :: r => linked h a b /\ path h b r z
  end.

(** The nodes [q] in a circle. *)
Definition ring h (q : list Z) : Prop :=
  match q with [] => True | a :: r => path h a r a end.

Lemma path_app h a l1 x l2 z :
  path h a (l1 ++ x :: l2) z <-> path h a l1 x /\ path h x l2 z.
Proof. revert a. induction l1 as [| b r IH]; intros a; simpl; [done |]. rewrite IH. tauto. Qed.

Lemma path_snoc h a l x z : path h a (l ++ [x]) z <-> path h a l x /\ linked h x z.
Proof. by rewrite path_app. Qed.

Lemma ring_rotate h l1 l2 : ring h (l1 ++ l2) -> ring h (l2 ++ l1).
Proof.
  destruct l1 as [| a r1], l2 as [| b r2]; rewrite ?app_nil_r; try done.
  simpl. rewrite !path_app. tauto.
Qed.

Lemma path_frame h h' a l z :
  (forall x, x ∈ a :: l -> nxt h' x = nxt h x) ->
  (forall x, x ∈ l ++ [z] -> prv h' x = prv h x) ->
  path h a l z -> path h' a l z.
Proof.
  revert a. induction l as [| b r IH]; intros a Hn Hp; simpl.
  - intros [H1 H2]. split; [rewrite Hn by set_solver; done | rewrite Hp by set_solver; done].
  - intros [[H1 H2] Hr]. split.
    + split; [rewrite Hn by set_solver; done | rewrite Hp by set_solver; done].
    + apply IH; [set_solver | set_solver | done].
Qed.

Lemma ring_in h q x : ring h q -> x ∈ q -> is_Some (h !! x).
Proof.
  intros Hr (l1 & l2 & ->)%list_elem_of_split. apply ring_rotate in Hr. simpl in Hr.
  assert (Hn : is_Some (nxt h x)).
  { destruct (l2 ++ l1) as [| b r]; simpl in Hr; [| destruct Hr as [Hr ?]];
      destruct Hr as [Hr ?]; by rewrite Hr. }
  unfold nxt in Hn. by apply fmap_is_Some in Hn.
Qed.

(** *** Stores *)

Lemma nxt_setn h p v x :
  nxt (setn p v h) x = if decide (x = p) then const v <$> h !! p else nxt h x.
Proof.
  unfold nxt, setn. rewrite lookup_alter. repeat case_decide; subst; try done.
  by destruct (h !! _).
Qed.

Lemma prv_setn h p v x : prv (setn p v h) x = prv h x.
Proof.
  unfold prv, setn. rewrite lookup_alter. case_decide; subst; [by destruct (h !! x) | done].
Qed.

Lemma prv_setp h p v x :
  prv (setp p v h) x = if decide (x = p) then const v <$> h !! p else prv h x.
Proof.
  unfold prv, setp. rewrite lookup_alter. repeat case_decide; subst; try done.
  by destruct (h !! _).
Qed.

Lemma nxt_setp h p v x : nxt (setp p v h) x = nxt h x.
Proof.
  unfold nxt, setp. rewrite lookup_alter. case_decide; subst; [by destruct (h !! x) | done].
Qed.

Lemma dat_setn h p v x : dat (setn p v h) x = dat h x.
Proof.
  unfold dat, setn. rewrite lookup_alter. case_decide; subst; [by destruct (h !! x) | done].
Qed.

Lemma dat_setp h p v x : dat (setp p v h) x = dat h x.
Proof.
  unfold dat, setp. rewrite lookup_alter. case_decide; subst; [by destruct (h !! x) | done].
Qed.

Lemma isS_setn h p v x : is_Some (setn p v h !! x) <-> is_Some (h !! x).
Proof. unfold setn. rewrite lookup_alter. case_decide; subst; [by rewrite fmap_is_Some | done]. Qed.

Lemma isS_setp h p v x : is_Some (setp p v h !! x) <-> is_Some (h !! x).
Proof. unfold setp. rewrite lookup_alter. case_decide; subst; [by rewrite fmap_is_Some | done]. Qed.

End ring.

(** Look up a field after a sequence of stores. *)
Ltac heap_lookups :=
  rewrite ?nxt_setn, ?nxt_setp, ?prv_setn, ?prv_setp, ?dat_setn, ?dat_setp,
    ?isS_setn, ?isS_setp;
  repeat (progress rewrite ?nxt_setn, ?nxt_setp, ?prv_setn, ?prv_setp, ?dat_setn,
    ?dat_setp, ?isS_setn, ?isS_setp).

Section stores.
Context {T : Type}.
Implicit Types (h : gmap Z (ListNode T)) (p x : Z).

Lemma dat_is_Some (h : gmap Z (ListNode T)) p : is_Some (dat h p) <-> is_Some (h !! p).
Proof. unfold dat. by rewrite fmap_is_Some. Qed.

Lemma load_nxt h p v : nxt h p = Some v -> exists nd, load h p = Ok nd /\ next nd = v.
Proof.
  unfold nxt, load. destruct (h !! p) as [nd |]; [| done]. intros [= <-]. by exists nd.
Qed.

Lemma load_prv h p v : prv h p = Some v -> exists nd, load h p = Ok nd /\ prev nd = v.
Proof.
  unfold prv, load. destruct (h !! p) as [nd |]; [| done]. intros [= <-]. by exists nd.
Qed.

Lemma load_both h p a b :
  nxt h p = Some a -> prv h p = Some b ->
  exists nd, load h p = Ok nd /\ next nd = a /\ prev nd = b.
Proof.
  unfold nxt, prv, load. destruct (h !! p) as [nd |]; [| done].
  intros [= <-] [= <-]. by exists nd.
Qed.

Lemma store_next_ok h p v : is_Some (h !! p) -> store_next p v h = Ok (setn p v h).
Proof. intros [nd Hp]. unfold store_next, checked, load. by rewrite Hp. Qed.

Lemma store_prev_ok h p v : is_Some (h !! p) -> store_prev p v h = Ok (setp p v h).
Proof. intros [nd Hp]. unfold store_prev, checked, load. by rewrite Hp. Qed.

Lemma is_Some_nxt h p v : nxt h p = Some v -> is_Some (h !! p).
Proof. unfold nxt. destruct (h !! p); [by eexists | done]. Qed.

Lemma is_Some_prv h p v : prv h p = Some v -> is_Some (h !! p).
Proof. unfold prv. destruct (h !! p); [by eexists | done]. Qed.

Lemma const_Some {A} (v : A) h p : is_Some (h !! p) -> ((const v) <$> (h !! p)) = Some v.
Proof. by intros [nd ->]. Qed.

(** The effect of [detach]'s stores: [a -> x -> b] becomes [a -> b]. *)
Lemma unlink_ok h x a b :
  linked h a x -> linked h x b ->
  exists h', unlink x h = Ok h' /\
    nxt h' a = Some b /\ prv h' b = Some a /\
    (forall y, y <> a -> nxt h' y = nxt h y) /\
    (forall y, y <> b -> prv h' y = prv h y) /\
    (forall y, dat h' y = dat h y).
Proof.
  intros [Hna Hpx] [Hnx Hpb]. exists (setp b a (setn a b h)).
  destruct (load_both h x b a Hnx Hpx) as (nd & Hl & Hn & Hp).
  pose proof (is_Some_nxt _ _ _ Hna) as Ia. pose proof (is_Some_prv _ _ _ Hpb) as Ib.
  assert (Hnx' : nxt (setn a b h) x = Some b).
  { rewrite nxt_setn. case_decide; [by apply const_Some | done]. }
  assert (Hpx' : prv (setn a b h) x = Some a) by (by rewrite prv_setn).
  destruct (load_both _ _ _ _ Hnx' Hpx') as (nd' & Hl' & Hn' & Hp').
  unfold unlink. rewrite Hl. cbn [obind]. rewrite Hn, Hp, store_next_ok by done.
  cbn [obind]. rewrite Hl'. cbn [obind]. rewrite Hn', Hp', store_prev_ok by (by apply isS_setn).
  split; [done |]. split_and!.
  - rewrite nxt_setp, nxt_setn, decide_True by done. by apply const_Some.
  - rewrite prv_setp, decide_True by done. apply const_Some. by apply isS_setn.
  - intros y Hy. by rewrite nxt_setp, nxt_setn, decide_False by done.
  - intros y Hy. by rewrite prv_setp, decide_False, prv_setn by done.
  - intros y. by rewrite dat_setp, dat_setn.
Qed.

(** The effect of [push_back]'s stores: [z -> b] becomes [z -> x -> b]. *)
Lemma link_last_ok h x z b :
  linked h z b -> is_Some (h !! x) -> x <> z -> x <> b ->
  exists h', link_last x b h = Ok h' /\
    linked h' z x /\ linked h' x b /\
    (forall y, y <> z -> y <> x -> nxt h' y = nxt h y) /\
    (forall y, y <> b -> y <> x -> prv h' y = prv h y) /\
    (forall y, dat h' y = dat h y).
Proof.
  intros [Hnz Hpb] Ix Hxz Hxb.
  pose proof (is_Some_nxt _ _ _ Hnz) as Iz. pose proof (is_Some_prv _ _ _ Hpb) as Ib.
  exists (setp b x (setn x b (setp x z (setn z x h)))).
  destruct (load_prv h b z Hpb) as (nd & Hl & Hp).
  unfold link_last. rewrite Hl. cbn [obind]. rewrite Hp, store_next_ok by done. cbn [obind].
  rewrite store_prev_ok by (by apply isS_setn). cbn [obind].
  rewrite store_next_ok by (by rewrite isS_setp, isS_setn). cbn [obind].
  rewrite store_prev_ok by (by rewrite isS_setn, isS_setp, isS_setn).
  split; [done |]. unfold linked. split_and!; intros; heap_lookups;
    repeat case_decide; try congruence; try done;
    apply const_Some; heap_lookups; done.
Qed.

(** *** The circle under [detach] and [push_back] *)

Lemma linked_frame h h' a b :
  linked h a b -> nxt h' a = nxt h a -> prv h' b = prv h b -> linked h' a b.
Proof. unfold linked. intros [? ?] -> ->. done. Qed.

Lemma ring_unlink h x b r :
  NoDup (x :: b :: r) -> ring h (x :: b :: r) ->
  exists h', unlink x h = Ok h' /\ ring h' (b :: r) /\ nxt h' x = Some b /\
    (forall y, dat h' y = dat h y).
Proof.
  intros Hnd Hr. simpl in Hr. destruct Hr as [Hxb Hp].
  destruct r as [| z r _] using rev_ind.
  - simpl in Hp. destruct (unlink_ok h x b b Hp Hxb) as (h' & Hu & Hn & Hp' & Hn' & Hp'' & Hd).
    exists h'. split_and!; [done | done | | done]. destruct Hxb as [<- _]. apply Hn'.
    apply NoDup_cons in Hnd as [Hx _]. set_solver.
  - apply path_snoc in Hp as [Hp Hzx].
    destruct (unlink_ok h x z b Hzx Hxb) as (h' & Hu & Hn & Hp' & Hn' & Hp'' & Hd).
    exists h'. apply NoDup_cons in Hnd as [Hx Hnd].
    assert (Hz : z ∉ b :: r /\ b ∉ r ++ [z]).
    { rewrite app_comm_cons in Hnd. split.
      - apply NoDup_app in Hnd as (_ & Hd' & _). intros Hin. by apply (Hd' z Hin), list_elem_of_singleton.
      - by apply NoDup_cons in Hnd as [? _]. }
    destruct Hz as [Hz1 Hz2]. split_and!; [done | | | done].
    + simpl. apply path_snoc. split; [| done]. apply (path_frame h); [| | done].
      * intros y Hy. apply Hn'. set_solver.
      * intros y Hy. apply Hp''. set_solver.
    + destruct Hxb as [<- _]. apply Hn'. set_solver.
Qed.

Lemma ring_link_last h x b r :
  NoDup (x :: b :: r) -> ring h (b :: r) -> is_Some (h !! x) ->
  exists h', link_last x b h = Ok h' /\ ring h' (b :: r ++ [x]) /\
    (forall y, dat h' y = dat h y).
Proof.
  intros Hnd Hr Ix. apply NoDup_cons in Hnd as [Hx Hnd]. simpl in Hr.
  destruct r as [| z r _] using rev_ind.
  - destruct (link_last_ok h x b b Hr Ix) as (h' & Hl & Hzx & Hxb & Hn & Hp & Hd);
      [set_solver | set_solver |].
    exists h'. done.
  - apply path_snoc in Hr as [Hp Hzb].
    destruct (link_last_ok h x z b Hzb Ix) as (h' & Hl & Hzx & Hxb & Hn & Hp' & Hd);
      [set_solver | set_solver |].
    exists h'. split; [done |]. split; [| done]. simpl.
    apply path_snoc. split; [| done]. apply path_snoc. split; [| done].
    apply NoDup_cons in Hnd as [Hb Hnd]. apply NoDup_app in Hnd as (_ & Hz & _).
    apply (path_frame h); [| | done].
    + intros y Hy. apply Hn; [| set_solver]. intros ->.
      apply elem_of_cons in Hy as [-> | Hy]; [set_solver |].
      by apply (Hz z Hy), list_elem_of_singleton.
    + intros y Hy. apply Hp'; set_solver.
Qed.

(** The two stores of [pop_front]. *)
Lemma ring_pop h x b r :
  NoDup (x :: b :: r) -> ring h (x :: b :: r) ->
  exists z nd h1 h', load h x = Ok nd /\ prev nd = z /\ next nd = b /\
    store_prev b z h = Ok h1 /\ store_next z b h1 = Ok h' /\
    ring h' (b :: r) /\ (forall y, dat h' y = dat h y).
Proof.
  intros Hnd Hr. simpl in Hr. destruct Hr as [[Hxb Hbx] Hp].
  apply NoDup_cons in Hnd as [Hx Hnd].
  set (z := List.last r b).
  assert (Hz : linked h z x /\ forall h', linked h' z b ->
            (forall y, y ∈ b :: r -> y <> z -> nxt h' y = nxt h y) ->
            (forall y, y <> b -> prv h' y = prv h y) -> ring h' (b :: r)).
  { subst z. destruct r as [| z r _] using rev_ind; [done |].
    rewrite List.last_last. apply path_snoc in Hp as [Hp Hzx]. split; [done |].
    intros h' Hl Hn' Hp'. simpl. apply path_snoc. split; [| done].
    apply NoDup_cons in Hnd as [Hb Hnd]. apply NoDup_app in Hnd as (_ & Hd & _).
    apply (path_frame h); [| | done].
    - intros y Hy. apply Hn'; [set_solver |]. intros ->.
      apply elem_of_cons in Hy as [-> | Hy]; [set_solver |].
      by apply (Hd z Hy), list_elem_of_singleton.
    - intros y Hy. apply Hp'. set_solver. }
  destruct Hz as [[Hzx Hxz] Hring].
  destruct (load_both h x b z Hxb Hxz) as (nd & Hl & Hnn & Hnp).
  exists z, nd, (setp b z h), (setn z b (setp b z h)).
  pose proof (is_Some_prv _ _ _ Hbx). pose proof (is_Some_nxt _ _ _ Hzx).
  rewrite store_prev_ok, store_next_ok by (by heap_lookups). split_and!; try done.
  - apply Hring.
    + unfold linked. heap_lookups. rewrite !decide_True by done.
      split; apply const_Some; by heap_lookups.
    + intros y _ Hy. heap_lookups. by rewrite decide_False.
    + intros y Hy. heap_lookups. by rewrite decide_False.
  - intros y. by heap_lookups.
Qed.

Lemma link_last_self h x :
  linked h x x ->
  exists h', link_last x x h = Ok h' /\ linked h' x x /\ (forall y, dat h' y = dat h y).
Proof.
  intros [Hn Hp]. pose proof (is_Some_nxt _ _ _ Hn) as Ix.
  destruct (load_prv h x x Hp) as (nd & Hl & Hpr).
  exists (setp x x (setn x x (setp x x (setn x x h)))).
  unfold link_last. rewrite Hl. cbn [obind]. rewrite Hpr, store_next_ok by done. cbn [obind].
  rewrite store_prev_ok by (by heap_lookups). cbn [obind].
  rewrite store_next_ok by (by heap_lookups). cbn [obind].
  rewrite store_prev_ok by (by heap_lookups). split; [done |]. unfold linked.
  split_and!; intros; heap_lookups; rewrite ?decide_True by done; try done;
    apply const_Some; by heap_lookups.
Qed.

End stores.

(** ** The queue of a cache *)

Section queue.
Context {T W : Type} `{NodeAlloc T} (N : Z).
Implicit Types (s : t (T := T)) (q : list Z).

(** [queue_] and [count_] describe the nodes [q], in order. *)
Record qinv s q : Prop := {
  q_nodup : NoDup q;
  q_ring : ring (heap s) q;
  q_head : queue_ s = default 0 (head q);
  q_count : count_ s = Z.of_nat (length q);
  q_nonnull : 0 ∉ q;
  q_size : Z.of_nat (length q) <= N
}.

(** The parts of the state that queue operations leave alone. *)
Definition same_rest s s' : Prop :=
  table_ s' = table_ s /\ free_ s' = free_ s /\ cb_ s' = cb_ s /\
  forall y, dat (heap s') y = dat (heap s) y.

Lemma same_rest_trans s1 s2 s3 : same_rest s1 s2 -> same_rest s2 s3 -> same_rest s1 s3.
Proof. intros (?&?&?&?) (?&?&?&?). split_and!; congruence. Qed.

Lemma same_rest_is_Some s s' p :
  same_rest s s' -> is_Some (heap s !! p) -> is_Some (heap s' !! p).
Proof. intros (_ & _ & _ & Hd) Hp. apply dat_is_Some. rewrite Hd. by apply dat_is_Some. Qed.

Hypothesis HN : 0 < N < 4294967296.

Lemma push_back_ok s q x :
  qinv s q -> is_Some (heap s !! x) -> x <> 0 -> x ∉ q -> Z.of_nat (length q) < N ->
  exists s', push_back N x s = Ok s' /\ qinv s' (q ++ [x]) /\ same_rest s s'.
Proof.
  intros [Hnd Hr Hh Hc Hn Hq] Ix Hx0 Hx Hlen. unfold push_back, kassert, size.
  rewrite Hc. destruct (Z.ltb_spec (Z.of_nat (length q)) N); [| lia].
  assert (Hu : u32 (Z.of_nat (length q) + 1) = Z.of_nat (length (q ++ [x])))
    by (rewrite length_app, u32_small; simpl; lia).
  assert (Hnd' : NoDup (q ++ [x])).
  { apply NoDup_app. split; [done |]. split; [set_solver | apply NoDup_singleton]. }
  rewrite Hh. destruct q as [| b r]; simpl.
  - rewrite store_next_ok by done. cbn [obind].
    rewrite store_prev_ok by (by apply isS_setn). cbn [obind].
    eexists. split; [done |]. split.
    + split; simpl; try done; [| set_solver | lia].
      unfold linked. heap_lookups. rewrite !decide_True by done.
      split; apply const_Some; heap_lookups; done.
    + split_and!; try done. intros y. simpl. by heap_lookups.
  - destruct (Z.eqb_spec b 0) as [-> | Hb]; [set_solver |].
    destruct (ring_link_last (heap s) x b r) as (h' & -> & Hr' & Hd); [| done | done |].
    { by constructor. }
    cbn [obind]. eexists. split; [done |]. split; [| done].
    split; simpl; try done; [set_solver |]. rewrite length_app. simpl in *. lia.
Qed.

(** Taking out of the queue: [detach], and then [queue_ = queue_->next] when
    the node was the first. *)
Lemma detach_ok s q1 x q2 :
  qinv s (q1 ++ x :: q2) ->
  exists s1, detach x s = Ok s1 /\
    nxt (heap s1) x = Some (default x (head (q2 ++ q1))) /\
    (q1 ++ q2 = [] -> linked (heap s1) x x) /\
    queue_ s1 = queue_ s /\ same_rest s s1 /\
    ring (heap s1) (q2 ++ q1) /\ count_ s1 = Z.of_nat (length (q1 ++ q2)).
Proof.
  intros [Hnd Hr Hh Hc Hn Hq]. apply ring_rotate in Hr. simpl app in Hr.
  assert (Hperm : q1 ++ x :: q2 ≡ₚ x :: q2 ++ q1).
  { rewrite (Permutation_app_comm q1). done. }
  assert (Hnd' : NoDup (x :: q2 ++ q1)) by (by rewrite <- Hperm).
  assert (Hlen : length (q1 ++ x :: q2) = S (length (q1 ++ q2))).
  { rewrite !length_app. simpl. lia. }
  unfold detach. rewrite Hc, Hlen, u32_small by lia.
  destruct (q2 ++ q1) as [| b r] eqn:E.
  - apply app_nil in E as [-> ->]. simpl in Hr.
    destruct (unlink_ok (heap s) x x x Hr Hr) as (h' & -> & Hn' & Hp' & _ & _ & Hd).
    cbn [obind]. eexists. split; [done |]. by split_and!.
  - destruct (ring_unlink (heap s) x b r Hnd' Hr) as (h' & -> & Hr' & Hx & Hd).
    cbn [obind]. eexists. split; [done |]. simpl. split_and!; try done; [| lia].
    intros [-> ->]%app_nil. done.
Qed.

(** What [push_back] does after a [detach] that left the circle [q]. *)
Lemma relink_ok s q x :
  NoDup (x :: q) -> ring (heap s) q -> queue_ s = default x (head q) ->
  (q = [] -> linked (heap s) x x) -> is_Some (heap s !! x) ->
  count_ s = Z.of_nat (length q) -> Z.of_nat (length q) < N -> 0 ∉ x :: q ->
  exists s', push_back N x s = Ok s' /\ qinv s' (q ++ [x]) /\ same_rest s s'.
Proof.
  intros Hnd Hr Hh Hself Ix Hc Hlen Hn.
  destruct q as [| b r].
  - unfold push_back, kassert, size. rewrite Hc, Hh. cbn [default head].
    change (Z.of_nat (length [])) with 0. destruct (Z.ltb_spec 0 N); [| lia]. destruct (Z.eqb_spec x 0) as [-> | _]; [set_solver |].
    destruct (link_last_self (heap s) x (Hself eq_refl)) as (h' & -> & Hl & Hd).
    cbn [obind]. eexists. split; [done |]. split; [| done].
    split; simpl; try done; lia.
  - apply NoDup_cons in Hnd as [Hx Hnd].
    apply push_back_ok; try done; [| set_solver]. split; try done; [set_solver | lia].
Qed.

(** A hit moves the node to the end of the queue and touches nothing else. *)
Lemma Promote_ok s i q1 x q2 :
  qinv s (q1 ++ x :: q2) -> lget (table_ s) i = Some x ->
  exists s', Promote N i s = Ok s' /\ qinv s' (q1 ++ q2 ++ [x]) /\ same_rest s s'.
Proof.
  intros Hq Hi. unfold Promote. rewrite Hi. cbn [obind or_fault].
  assert (Hq' := Hq). destruct Hq' as [Hnd Hr Hh Hc Hn Hlen].
  destruct (detach_ok s q1 x q2 Hq) as (s1 & -> & Hnx & Hself & Hqu & Hsame & Hr1 & Hc1).
  assert (Hx : x ∉ q1 ++ q2 /\ NoDup (q1 ++ q2)).
  { rewrite <- Permutation_middle in Hnd. by apply NoDup_cons in Hnd. }
  destruct Hx as [Hx Hnd1]. rewrite Hh in Hqu.
  rewrite length_app in Hlen; simpl in Hlen.
  destruct (load_nxt _ _ _ Hnx) as (nd & Hl & Hnn).
  assert (Hq2 : exists s2, (if x =? queue_ s1 then let! nd := load (heap s1) (queue_ s1) in
       Ok (mk (heap s1) (next nd) (free_ s1) (table_ s1) (count_ s1) (cb_ s1)) else Ok s1) = Ok s2
     /\ heap s2 = heap s1 /\ count_ s2 = count_ s1 /\ same_rest s1 s2 /\
        queue_ s2 = default x (head (q1 ++ q2))).
  { destruct q1 as [| a r1]; simpl in Hqu; rewrite Hqu.
    - rewrite Z.eqb_refl, Hl. cbn [obind]. eexists. split; [done |]. simpl.
      rewrite app_nil_r in Hnn. by rewrite Hnn.
    - destruct (Z.eqb_spec x a) as [-> | _]; [set_solver |]. by exists s1. }
  cbn [obind]. destruct Hq2 as (s2 & -> & Hh2 & Hc2 & Hs2 & Hqu2). cbn [obind].
  rewrite app_assoc.
  destruct (relink_ok s2 (q1 ++ q2) x) as (s' & Hp & Hqi & Hs'); rewrite ?Hh2, ?Hc2; try done.
  - by constructor.
  - by apply ring_rotate.
  - by eapply is_Some_nxt.
  - rewrite length_app. lia.
  - set_solver.
  - exists s'. split_and!; [done | done |]. by do 2 eapply same_rest_trans.
Qed.

(** [pop_front] takes the first node out; [N] is at least 2 here. *)
Lemma pop_front_ok s x b r :
  qinv s (x :: b :: r) ->
  exists s', pop_front s = Ok s' /\ qinv s' (b :: r) /\ same_rest s s'.
Proof.
  intros [Hnd Hr Hh Hc Hn Hlen]. simpl in Hh. unfold pop_front, kassert. rewrite Hh.
  destruct (Z.eqb_spec x 0) as [-> | _]; [set_solver |]. cbn [negb].
  destruct (ring_pop _ _ _ _ Hnd Hr) as (z & nd & h1 & h' & -> & Hz & Hb & Hs1 & Hs2 & Hr' & Hd).
  cbn [obind]. rewrite Hz, Hb, Hs1. cbn [obind]. rewrite Hs2. cbn [obind].
  eexists. split; [done |]. split; [| done].
  apply NoDup_cons in Hnd as [Hx Hnd].
  split; simpl in *; try done; [rewrite Hc, u32_small; lia | set_solver | lia].
Qed.

End queue.

(** ** The contents *)

Section contents.
Context {T : Type}.
Implicit Types (h : gmap Z (ListNode T)) (q : list Z) (k : Z) (v : T) (nd : ListNode T).

(** The keys and values of the nodes [q]. *)
Definition abs (h : gmap Z (ListNode T)) q : list (Z * T) := omap (dat h) q.

Lemma abs_app h q1 q2 : abs h (q1 ++ q2) = abs h q1 ++ abs h q2.
Proof. apply omap_app. Qed.

Lemma abs_cons h p q kv : dat h p = Some kv -> abs h (p :: q) = kv :: abs h q.
Proof. intros Hd. unfold abs. simpl. by rewrite Hd. Qed.

Lemma abs_ext h h' q : (forall p, p ∈ q -> dat h' p = dat h p) -> abs h' q = abs h q.
Proof.
  induction q as [| p q IH]; intros Hd; [done |].
  change (match dat h' p with Some y => y :: abs h' q | None => abs h' q end = abs h (p :: q)).
  rewrite (Hd p), IH by set_solver. done.
Qed.

Lemma abs_elem h q k v :
  (k, v) ∈ abs h q <-> exists p, p ∈ q /\ dat h p = Some (k, v).
Proof. unfold abs. by rewrite list_elem_of_omap. Qed.

Lemma abs_key_elem h q k :
  k ∈ (abs h q).*1 <-> exists p v, p ∈ q /\ dat h p = Some (k, v).
Proof.
  rewrite list_elem_of_fmap. split.
  - intros ([k' v] & -> & (p & ? & ?)%abs_elem). eauto.
  - intros (p & v & ? & ?). exists (k, v). split; [done |]. apply abs_elem. eauto.
Qed.

Lemma abs_length h q : (forall p, p ∈ q -> is_Some (h !! p)) -> length (abs h q) = length q.
Proof.
  induction q as [| p q IH]; intros Hd; [done |].
  destruct (proj2 (dat_is_Some h p) (Hd p ltac:(set_solver))) as [kv Hkv].
  rewrite (abs_cons _ _ _ _ Hkv). simpl. f_equal. apply IH. set_solver.
Qed.

Lemma abs_key_inj h q p p' k v v' :
  NoDup (abs h q).*1 -> p ∈ q -> p' ∈ q ->
  dat h p = Some (k, v) -> dat h p' = Some (k, v') -> p = p'.
Proof.
  intros Hnd (q1 & q2 & ->)%list_elem_of_split Hp' Hd Hd'.
  rewrite abs_app, (abs_cons _ _ _ _ Hd), fmap_app, fmap_cons in Hnd. simpl in Hnd.
  rewrite <- Permutation_middle in Hnd. apply NoDup_cons in Hnd as [Hk _].
  rewrite <- fmap_app, <- abs_app in Hk.
  apply elem_of_app in Hp'. rewrite elem_of_cons in Hp'.
  destruct (decide (p = p')) as [| Hne]; [done |]. exfalso. apply Hk, abs_key_elem.
  exists p', v'. split; [| done]. apply elem_of_app. naive_solver.
Qed.

Lemma dat_load h p k v :
  dat h p = Some (k, v) <-> exists nd, load h p = Ok nd /\ key nd = k /\ value nd = v.
Proof.
  unfold dat, load. destruct (h !! p) as [nd |]; simpl.
  - split; [intros [= <- <-]; eauto | by intros (? & [= <-] & <- & <-)].
  - split; [done | by intros (? & ? & _)].
Qed.

End contents.

(** ** Lists of keys and values *)

Section lists.
Context {T : Type}.

Lemma key_decide_miss (l : list (Z * T)) k :
  k ∉ l.*1 -> filter (fun e => fst e <> k) l = l /\ filter (fun e => fst e = k) l = [] /\
    spec.lookup k l = None.
Proof.
  intros Hk.
  assert (Hf : filter (fun e => fst e <> k) l = l /\ filter (fun e => fst e = k) l = []).
  { induction l as [| [k' v] l IH]; [done |]. rewrite fmap_cons in Hk. rewrite !filter_cons.
    destruct IH as [-> ->]; [set_solver |].
    rewrite decide_True, decide_False by set_solver. done. }
  destruct Hf as [Hf1 Hf2]. split_and!; [done | done |].
  unfold spec.lookup. destruct (list_find _ l) as [[i [k' v]] |] eqn:E; [| done].
  apply list_find_Some in E as (Hl & He & _). simpl in He. subst k'. exfalso. apply Hk.
  apply list_elem_of_fmap. exists (k, v). split; [done |]. by eapply list_elem_of_lookup_2.
Qed.

Lemma touch_miss (l : list (Z * T)) k : k ∉ l.*1 -> spec.get k l = (None, l).
Proof.
  intros Hk. unfold spec.get, spec.touch. destruct (key_decide_miss l k Hk) as (-> & -> & ->).
  by rewrite app_nil_r.
Qed.

Lemma touch_hit (l1 l2 : list (Z * T)) k v :
  NoDup (l1 ++ (k, v) :: l2).*1 ->
  spec.get k (l1 ++ (k, v) :: l2) = (Some v, l1 ++ l2 ++ [(k, v)]).
Proof.
  intros Hnd. rewrite fmap_app, fmap_cons in Hnd. simpl in Hnd.
  rewrite <- Permutation_middle in Hnd. apply NoDup_cons in Hnd as [Hk _].
  destruct (key_decide_miss l1 k) as (F1 & G1 & _); [set_solver |].
  destruct (key_decide_miss l2 k) as (F2 & G2 & _); [set_solver |].
  unfold spec.get, spec.touch. f_equal.
  - unfold spec.lookup.
    assert (list_find (fun e => fst e = k) (l1 ++ (k, v) :: l2) = Some (length l1, (k, v))) as ->;
      [| done].
    apply list_find_Some. split_and!; [by rewrite list_lookup_middle | done |].
    intros j [k' v'] Hj Hlt He. simpl in He. subst k'.
    rewrite lookup_app_l in Hj by done. apply Hk, elem_of_app. left.
    apply list_elem_of_fmap. exists (k, v'). split; [done |]. by eapply list_elem_of_lookup_2.
  - rewrite !filter_app, !filter_cons, F1, F2, G1, G2.
    rewrite decide_False, decide_True by (simpl; auto). by rewrite <- app_assoc.
Qed.

(** A client changes the value of a key. *)
Definition update (k : Z) (v : T) (l : list (Z * T)) : list (Z * T) :=
  map (fun e => if decide (fst e = k) then (k, v) else e) l.

Lemma update_keys k v (l : list (Z * T)) : (update k v l).*1 = l.*1.
Proof.
  unfold update. induction l as [| [k' v'] l IH]; [done |]. cbn [map fst]. rewrite !fmap_cons, IH.
  by case_decide; subst.
Qed.

Lemma lookup_Some (l : list (Z * T)) k v : NoDup l.*1 -> spec.lookup k l = Some v <-> (k, v) ∈ l.
Proof.
  intros Hnd. split.
  - unfold spec.lookup. destruct (list_find _ l) as [[i [k' v']] |] eqn:E; [| done].
    apply list_find_Some in E as (Hl & He & _). cbn in *. intros [= <-]. subst k'.
    by eapply list_elem_of_lookup_2.
  - intros (l1 & l2 & ->)%list_elem_of_split. pose proof (touch_hit _ _ _ _ Hnd) as Ht.
    unfold spec.get in Ht. by injection Ht as -> _.
Qed.

Lemma lookup_perm (l l' : list (Z * T)) k : l ≡ₚ l' -> NoDup l.*1 -> spec.lookup k l = spec.lookup k l'.
Proof.
  intros Hp Hnd. apply option_eq. intros v. rewrite !lookup_Some; [by rewrite Hp | | done].
  by rewrite <- Hp.
Qed.

Lemma touch_perm k (l : list (Z * T)) : spec.touch k l ≡ₚ l.
Proof.
  unfold spec.touch. induction l as [| [k' v] l IH]; [done |]. rewrite !filter_cons.
  destruct (decide (k' = k)); [rewrite decide_False, decide_True by (cbn; auto)
    | rewrite decide_True, decide_False by done].
  - by rewrite <- Permutation_middle, IH.
  - cbn [app]. by rewrite IH.
Qed.

Lemma lookup_update (l : list (Z * T)) k v b :
  NoDup l.*1 -> k ∈ l.*1 ->
  spec.lookup b (update k v l) = if decide (b = k) then Some v else spec.lookup b l.
Proof.
  intros Hnd Hk. assert (Hnd' : NoDup (update k v l).*1) by (by rewrite update_keys).
  assert (Hin : forall b u, (b, u) ∈ update k v l <->
    if decide (b = k) then u = v else (b, u) ∈ l).
  { intros c u. unfold update. rewrite <- list_elem_of_In, in_map_iff || rewrite list_elem_of_fmap.
    split.
    - intros ([c' u'] & He & Hin). cbn in He. case_decide; simplify_eq/=; repeat case_decide; naive_solver.
    - case_decide as Hc; [intros ->; subst c | intros Hin].
      + apply list_elem_of_fmap in Hk as ([k' u'] & -> & Hk). exists (k', u'). cbn.
        by rewrite decide_True.
      + exists (c, u). cbn. by rewrite decide_False. }
  apply option_eq. intros u. rewrite lookup_Some, Hin by done. case_decide; [naive_solver |].
  by rewrite lookup_Some.
Qed.

End lists.

(** ** The hash table *)

Section table.
Context {T W : Type} `{NodeAlloc T} (N : Z).
Implicit Types (s : t (T := T)) (q : list Z) (k : Z) (h : gmap Z (ListNode T)) (nd : ListNode T).

Hypothesis HN : 1 < N < 4294967296.

(** The [j]-th slot that the probing for [k] visits. *)
Definition slot k j : Z := (k + j) mod N.

(** The table holds the nodes of the queue, each where its probing finds it. *)
Record tinv s q : Prop := {
  t_len : Z.of_nat (length (table_ s)) = N;
  t_perm : filled (table_ s) ≡ₚ q;
  t_dom : forall p, p ∈ q -> is_Some (heap s !! p);
  t_keys : NoDup (abs (heap s) q).*1;
  t_probe : forall i p k v, lget (table_ s) i = Some p -> p <> 0 ->
    dat (heap s) p = Some (k, v) ->
    exists j, 0 <= j < N /\ i = slot k j /\
      forall j', 0 <= j' < j -> exists p', lget (table_ s) (slot k j') = Some p' /\ p' <> 0
}.

Lemma slot_range k j : 0 <= slot k j < N.
Proof. apply Z.mod_pos_bound. lia. Qed.

Lemma hash_slot k : hash N k = slot k 0.
Proof. unfold hash, slot, size. by rewrite Z.add_0_r. Qed.

Lemma rehash_slot k j : rehash N (slot k j) = slot k (j + 1).
Proof.
  pose proof (slot_range k j). unfold rehash, hash, size. rewrite u32_small by lia.
  unfold slot. rewrite Zplus_mod_idemp_l. f_equal. lia.
Qed.

Lemma slot_inj k j j' : 0 <= j < N -> 0 <= j' < N -> slot k j = slot k j' -> j = j'.
Proof.
  unfold slot. intros Hj Hj' He.
  pose proof (Z.div_mod (k + j) N). pose proof (Z.div_mod (k + j') N).
  assert ((k + j) / N - (k + j') / N = 0 \/ (k + j) / N - (k + j') / N >= 1 \/
          (k + j) / N - (k + j') / N <= -1) by lia.
  nia.
Qed.

(** Every index is a slot of every key. *)
Lemma slot_onto k i : 0 <= i < N -> exists j, 0 <= j < N /\ slot k j = i.
Proof.
  intros Hi. exists ((i - k) mod N). split; [apply Z.mod_pos_bound; lia |].
  unfold slot. rewrite Zplus_mod_idemp_r. replace (k + (i - k)) with i by lia.
  by apply Z.mod_small.
Qed.

Lemma slot_lget s k j :
  Z.of_nat (length (table_ s)) = N -> exists p, lget (table_ s) (slot k j) = Some p.
Proof. intros Hl. apply lget_in. rewrite Hl. apply slot_range. Qed.

(** A slot the probing for [k] passes over: occupied, by another key. *)
Definition passed s k j : Prop :=
  exists p nd, lget (table_ s) (slot k j) = Some p /\ p <> 0 /\
    load (heap s) p = Ok nd /\ key nd <> k.

(** A slot where it stops: empty, or the key's. *)
Definition stops s k j : Prop :=
  exists p, lget (table_ s) (slot k j) = Some p /\
    (p = 0 \/ p <> 0 /\ exists nd, load (heap s) p = Ok nd /\ key nd = k).

Lemma passed_or_stops s q k j : tinv s q -> passed s k j \/ stops s k j.
Proof.
  intros [Hl Hp Hd _ _]. destruct (slot_lget s k j Hl) as [p Hg].
  destruct (decide (p = 0)) as [-> | Hne]; [right; exists 0; auto |].
  assert (Hin : p ∈ q).
  { rewrite <- Hp. apply filled_elem. split; [done |]. apply lget_Some in Hg as [_ ?]. eauto. }
  destruct (Hd p Hin) as [nd Hnd].
  assert (Hload : load (heap s) p = Ok nd) by (unfold load; by rewrite Hnd).
  destruct (decide (key nd = k)); [right | left]; [exists p | exists p, nd]; split_and!; eauto 10.
Qed.

(** [Get]'s loop stops at the first slot that is not passed over, or after [N]. *)
Lemma Get_loop_spec s q k :
  tinv s q ->
  exists j, 0 <= j <= N /\ Get_loop N (S (Z.to_nat N)) s k (hash N k) 0 = Ok (slot k j, j + 1) /\
    (forall j', 0 <= j' < j -> passed s k j') /\ (j < N -> stops s k j).
Proof.
  intros Ht. rewrite hash_slot.
  assert (Hgo : forall f c, Z.of_nat f = N - c -> 0 <= c <= N ->
    (forall j', 0 <= j' < c -> passed s k j') ->
    exists j, 0 <= j <= N /\ Get_loop N (S f) s k (slot k c) c = Ok (slot k j, j + 1) /\
      (forall j', 0 <= j' < j -> passed s k j') /\ (j < N -> stops s k j)).
  { induction f as [| f IH]; intros c Hf Hc Hpass; cbn [Get_loop]; unfold size.
    - destruct (Z.leb_spec (c + 1) N); [lia |].
      exists c. split_and!; [lia | lia | done | done | lia].
    - destruct (Z.leb_spec (c + 1) N); [| lia].
      destruct (passed_or_stops s q k c Ht) as [Hps | Hst].
      + destruct Hps as (p & nd & Hg & Hp & Hload & Hk). rewrite Hg. cbn [obind or_fault].
        destruct (Z.eqb_spec p 0); [done |]. rewrite Hload. cbn [obind].
        destruct (Z.eqb_spec (key nd) k); [done |]. rewrite rehash_slot. apply IH; [lia | lia |].
        intros j' Hj'. destruct (decide (j' = c)) as [-> | ?]; [by exists p, nd | apply Hpass; lia].
      + exists c. split_and!; [lia | lia | | done | done].
        destruct Hst as (p & Hg & [-> | (Hp & nd & Hload & Hk)]); rewrite Hg; cbn [obind or_fault].
        * done.
        * destruct (Z.eqb_spec p 0); [done |]. rewrite Hload. cbn [obind].
          by rewrite Hk, Z.eqb_refl. }
  destruct (Hgo (Z.to_nat N) 0) as (j & ?); [lia | lia | lia |]. by exists j.
Qed.

(** *** Hits and misses *)

Lemma t_in s q i p : tinv s q -> lget (table_ s) i = Some p -> p <> 0 -> p ∈ q.
Proof.
  intros [_ Hp _ _ _] [_ Hg]%lget_Some Hne. rewrite <- Hp. apply filled_elem. eauto.
Qed.

Lemma t_index s q p : tinv s q -> 0 ∉ q -> p ∈ q -> exists i, lget (table_ s) i = Some p.
Proof.
  intros [_ Hp _ _ _] H0 Hin. rewrite <- Hp in Hin. apply filled_elem in Hin as [_ [i Hi]].
  exists (Z.of_nat i). apply lget_Some. split; [lia |]. by rewrite Nat2Z.id.
Qed.

Lemma t_inj s q i j p :
  tinv s q -> NoDup q -> p <> 0 -> lget (table_ s) i = Some p -> lget (table_ s) j = Some p ->
  i = j.
Proof.
  intros [_ Hp _ _ _] Hnd Hne [Hi0 Hi]%lget_Some [Hj0 Hj]%lget_Some.
  rewrite <- Hp in Hnd. assert (Z.to_nat i = Z.to_nat j) by (by eapply filled_inj). lia.
Qed.

(** A key in the cache is found, at its node. *)
Lemma probe_hit s q k p v :
  tinv s q -> NoDup q -> 0 ∉ q -> p ∈ q -> dat (heap s) p = Some (k, v) ->
  exists j, 0 <= j < N /\ lget (table_ s) (slot k j) = Some p /\
    (forall j', 0 <= j' < j -> passed s k j') /\
    Get_loop N (S (Z.to_nat N)) s k (hash N k) 0 = Ok (slot k j, j + 1).
Proof.
  intros Ht Hnd H0 Hin Hd. assert (Hp0 : p <> 0) by (by intros ->).
  destruct (t_index s q p Ht H0 Hin) as [i Hi].
  destruct (t_probe s q Ht i p k v Hi Hp0 Hd) as (j0 & Hj0 & -> & Hocc).
  destruct (Get_loop_spec s q k Ht) as (j & Hj & Hloop & Hpass & Hstop).
  assert (j = j0) as ->; [| by exists j0].
  destruct (Z.lt_trichotomy j j0) as [Hlt | [He | Hgt]]; [| done |].
  - destruct (Hstop ltac:(lia)) as (p' & Hg & [-> | (Hp' & nd & Hl & Hk)]).
    + destruct (Hocc j ltac:(lia)) as (p'' & Hg' & Hne). congruence.
    + assert (p' = p) as ->.
      { apply (abs_key_inj (heap s) q p' p k (value nd) v);
          [apply Ht | by eapply t_in | done | | done].
        apply dat_load. by exists nd. }
      apply (slot_inj k); [lia | lia |]. by eapply t_inj.
  - destruct (Hpass j0 ltac:(lia)) as (p' & nd & Hg & _ & Hl & Hk).
    apply dat_load in Hd as (nd' & Hl' & Hk' & _). congruence.
Qed.

(** A key that is not in the cache is not found. *)
Lemma Get_miss s q k :
  tinv s q -> k ∉ (abs (heap s) q).*1 -> Get N k s = Ok (0, s).
Proof.
  intros Ht Hk. destruct (Get_loop_spec s q k Ht) as (j & Hj & Hloop & _ & Hstop).
  unfold Get. unfold size at 1. rewrite Hloop. cbn [obind].
  destruct (slot_lget s k j (t_len s q Ht)) as [p Hg]. rewrite Hg. cbn [obind or_fault].
  unfold size. destruct (Z.ltb_spec N (j + 1)); [by rewrite orb_true_r |].
  destruct (Hstop ltac:(lia)) as (p' & Hg' & [-> | (Hp' & nd & Hl & Hk')]).
  - assert (p = 0) as -> by congruence. done.
  - exfalso. apply Hk, abs_key_elem. exists p', (value nd). split; [by eapply t_in |].
    apply dat_load. by exists nd.
Qed.

Lemma tinv_same s s' q q' :
  tinv s q -> same_rest s s' -> q ≡ₚ q' -> tinv s' q'.
Proof.
  intros [Hl Hp Hd Hk Hpr] Hs Hq. pose proof Hs as (Ht & _ & _ & Hdat).
  assert (Habs : forall q, abs (heap s') q = abs (heap s) q) by (intros; by apply abs_ext).
  split; rewrite ?Ht, ?Habs; try done.
  - by rewrite Hp.
  - intros p Hin. rewrite <- Hq in Hin. by eapply same_rest_is_Some; [| apply Hd].
  - unfold abs. by rewrite <- Hq.
  - intros i p k v Hi Hne Hpd. rewrite Hdat in Hpd. by apply (Hpr i p k v).
Qed.

End table.

(** ** The operations on a whole cache *)

Section operations.
Context {T W : Type} `{NodeAlloc T} (N : Z).
Context (invoke : Z -> Z -> Z -> t (T := T) -> W -> outcome (t (T := T) * W)).
Implicit Types (s : t (T := T)) (q : list Z) (k : Z) (w : W) (h : gmap Z (ListNode T)).

Hypothesis HN : 1 < N < 4294967296.

Lemma HN' : 0 < N < 4294967296.
Proof. lia. Qed.

(** The invariant: a queue, a table of the same nodes, and an empty pool. *)
Record cinv s q : Prop := {
  c_queue : qinv N s q;
  c_table : tinv N s q;
  c_free : free_ s = 0
}.

Lemma cinv_promote s s' q q' :
  cinv s q -> qinv N s' q' -> same_rest s s' -> q ≡ₚ q' -> cinv s' q'.
Proof.
  intros [_ Ht Hf] Hq' Hs Hp. split; [done | by eapply tinv_same |].
  destruct Hs as (_ & -> & _). done.
Qed.

Lemma Get_hit s q1 p q2 k v :
  cinv s (q1 ++ p :: q2) -> dat (heap s) p = Some (k, v) ->
  exists s', Get N k s = Ok (p, s') /\ cinv s' (q1 ++ q2 ++ [p]) /\ same_rest s s'.
Proof.
  intros Hc Hd. assert (Hc' := Hc). destruct Hc' as [Hq Ht Hf].
  destruct (probe_hit N HN s _ k p v Ht (q_nodup _ _ _ Hq) (q_nonnull _ _ _ Hq)) as
    (j & Hj & Hg & _ & Hloop); [set_solver | done |].
  unfold Get. unfold size at 1. rewrite Hloop. cbn [obind]. rewrite Hg. cbn [obind or_fault].
  destruct (Z.eqb_spec p 0) as [-> | Hp]; [exfalso; apply (q_nonnull _ _ _ Hq); set_solver |].
  unfold size. destruct (Z.ltb_spec N (j + 1)); [lia |]. cbn [orb].
  destruct (Promote_ok N HN' s _ q1 p q2 Hq Hg) as (s' & -> & Hq' & Hs). cbn [obind].
  assert (Hsame := Hs). destruct Hsame as (-> & _). rewrite Hg. cbn [obind or_fault].
  exists s'. split_and!; [done | | done]. eapply cinv_promote; eauto.
  apply Permutation_app_head, Permutation_cons_append.
Qed.

(** The loop of [Set] stops at the first empty slot. *)
Lemma Set_loop_spec s k i :
  Z.of_nat (length (table_ s)) = N -> lget (table_ s) i = Some 0 ->
  exists j, 0 <= j < N /\ Set_loop N (Z.to_nat N) s (hash N k) = Ok (slot N k j) /\
    lget (table_ s) (slot N k j) = Some 0 /\
    forall j', 0 <= j' < j -> exists p', lget (table_ s) (slot N k j') = Some p' /\ p' <> 0.
Proof.
  intros Hl Hi. assert (Hr := lget_range _ _ _ Hi). rewrite Hl in Hr.
  destruct (slot_onto N HN k i Hr) as (m & Hm & <-). rewrite hash_slot.
  assert (Hgo : forall f c, Z.of_nat f = N - c -> 0 <= c <= m ->
    (forall j', 0 <= j' < c -> exists p', lget (table_ s) (slot N k j') = Some p' /\ p' <> 0) ->
    exists j, 0 <= j < N /\ Set_loop N f s (slot N k c) = Ok (slot N k j) /\
      lget (table_ s) (slot N k j) = Some 0 /\
      forall j', 0 <= j' < j -> exists p', lget (table_ s) (slot N k j') = Some p' /\ p' <> 0).
  { induction f as [| f IH]; intros c Hf Hc Hocc; [lia |]. cbn [Set_loop].
    destruct (slot_lget N HN s k c Hl) as [p Hg]. rewrite Hg. cbn [obind or_fault].
    destruct (Z.eqb_spec p 0) as [-> | Hp].
    - exists c. split_and!; [lia | lia | done | done | done].
    - rewrite rehash_slot by done.
      apply IH; [lia | |].
      + destruct (decide (c = m)) as [-> | ?]; [congruence | lia].
      + intros j' Hj'. destruct (decide (j' = c)) as [-> | ?]; [eauto | apply Hocc; lia]. }
  apply (Hgo _ 0); lia.
Qed.

(** A node from the pool, or a new one. *)
Lemma alloc_ok s q :
  qinv N s q ->
  free_ s = 0 \/ free_ s <> 0 /\ free_ s ∉ q /\ nxt (heap s) (free_ s) = Some 0 ->
  exists p s', alloc s = Ok (p, s') /\ qinv N s' q /\ free_ s' = 0 /\
    table_ s' = table_ s /\ cb_ s' = cb_ s /\ count_ s' = count_ s /\
    p <> 0 /\ p ∉ q /\ is_Some (heap s' !! p) /\
    forall y, y ∈ q -> dat (heap s') y = dat (heap s) y.
Proof.
  intros [Hnd Hr Hh Hc Hn Hq] Hf. unfold alloc.
  destruct (Z.eqb_spec (free_ s) 0) as [H0 | Hne].
  - assert (Hfresh : forall y, y ∈ q -> y <> new_node (heap s)).
    { intros y Hy ->. destruct (ring_in _ _ _ Hr Hy) as [nd Hnd']. by rewrite new_node_fresh in Hnd'. }
    assert (Hsame : forall y nd, y ∈ q -> (<[new_node (heap s) := nd]> (heap s)) !! y = heap s !! y).
    { intros y nd Hy. apply lookup_insert_ne. by apply not_eq_sym, Hfresh. }
    eexists _, _. split; [done |]. simpl. split_and!; try done.
    + split; try done. simpl. destruct q as [| b r]; [done |].
      apply (path_frame (heap s)); [| | done]; intros y Hy; unfold nxt, prv;
        rewrite Hsame; try done. set_solver.
    + apply new_node_nonnull.
    + intros Hin. by apply (Hfresh _ Hin).
    + rewrite lookup_insert_eq. by eexists.
    + intros y Hy. unfold dat. by rewrite Hsame.
  - destruct Hf as [? | (_ & Hnin & Hnx)]; [done |].
    destruct (load_nxt _ _ _ Hnx) as (nd & Hl & Hnn). rewrite Hl. cbn [obind].
    eexists _, _. split; [done |]. simpl. split_and!; try done. by eapply is_Some_nxt.
Qed.

(** Stores to the key and the value of a node. *)
Lemma nxt_setk h p k x : nxt (setk p k h) x = nxt h x.
Proof.
  unfold nxt, setk. rewrite lookup_alter. case_decide; subst; [by destruct (h !! _) | done].
Qed.
Lemma prv_setk h p k x : prv (setk p k h) x = prv h x.
Proof.
  unfold prv, setk. rewrite lookup_alter. case_decide; subst; [by destruct (h !! _) | done].
Qed.
Lemma nxt_setv h p v x : nxt (setv p v h) x = nxt h x.
Proof.
  unfold nxt, setv. rewrite lookup_alter. case_decide; subst; [by destruct (h !! _) | done].
Qed.
Lemma prv_setv h p v x : prv (setv p v h) x = prv h x.
Proof.
  unfold prv, setv. rewrite lookup_alter. case_decide; subst; [by destruct (h !! _) | done].
Qed.
Lemma dat_setk h p k x :
  dat (setk p k h) x = if decide (x = p) then (fun kv => (k, snd kv)) <$> dat h x else dat h x.
Proof.
  unfold dat, setk. rewrite lookup_alter. repeat case_decide; subst; try done.
  by destruct (h !! _).
Qed.
Lemma dat_setv h p v x :
  dat (setv p v h) x = if decide (x = p) then (fun kv => (fst kv, v)) <$> dat h x else dat h x.
Proof.
  unfold dat, setv. rewrite lookup_alter. repeat case_decide; subst; try done.
  by destruct (h !! _).
Qed.

Lemma ring_ext h h' q :
  (forall y, nxt h' y = nxt h y) -> (forall y, prv h' y = prv h y) -> ring h q -> ring h' q.
Proof.
  intros Hn Hp. destruct q as [| a r]; [done |]. simpl. apply path_frame; intros; auto.
Qed.

Lemma qinv_heap s q h :
  qinv N s q -> (forall y, nxt h y = nxt (heap s) y) -> (forall y, prv h y = prv (heap s) y) ->
  qinv N (mk h (queue_ s) (free_ s) (table_ s) (count_ s) (cb_ s)) q.
Proof. intros [? ? ? ? ? ?] Hn Hp. split; try done. by eapply ring_ext. Qed.

(** The state [insert_new] works on: the table may have lost its probing order. *)
Record open_slot s q : Prop := {
  o_queue : qinv N s q;
  o_len : Z.of_nat (length (table_ s)) = N;
  o_perm : filled (table_ s) ≡ₚ q;
  o_room : Z.of_nat (length q) < N;
  o_pool : free_ s = 0 \/ free_ s <> 0 /\ free_ s ∉ q /\ nxt (heap s) (free_ s) = Some 0
}.

Definition store_kv h p k (ov : option T) : gmap Z (ListNode T) :=
  match ov with None => setk p k h | Some x => setv p x (setk p k h) end.

Lemma store_kv_ok h p k ov :
  is_Some (h !! p) ->
  exists v, (let! hp := store_key p k h in
    match ov with None => Ok hp | Some x => store_value p x hp end) = Ok (store_kv h p k ov) /\
    dat (store_kv h p k ov) p = Some (k, default v ov) /\
    (forall y, y <> p -> dat (store_kv h p k ov) y = dat h y) /\
    (forall y, nxt (store_kv h p k ov) y = nxt h y) /\
    (forall y, prv (store_kv h p k ov) y = prv h y).
Proof.
  intros [nd Hp]. exists (value nd). unfold store_kv, store_key, checked, load. rewrite Hp.
  cbn [obind or_fault].
  assert (Hd : dat h p = Some (key nd, value nd)) by (unfold dat; by rewrite Hp).
  assert (Hk : is_Some (setk p k h !! p)).
  { unfold setk. rewrite lookup_alter, decide_True by done. by rewrite Hp. }
  destruct ov as [x |]; simpl.
  - unfold store_value, checked, load. destruct Hk as [nd' ->]. cbn [obind or_fault].
    split; [done |]. split_and!; intros; rewrite ?nxt_setv, ?nxt_setk, ?prv_setv, ?prv_setk,
      ?dat_setv, ?dat_setk, ?decide_True, ?Hd by done; try done.
    by rewrite !decide_False by done.
  - split; [done |]. split_and!; intros; rewrite ?nxt_setk, ?prv_setk, ?dat_setk,
      ?decide_True, ?Hd by done; try done. by rewrite decide_False by done.
Qed.

Lemma insert_new_ok s q k ov :
  open_slot s q ->
  exists p v s' j, insert_new N k ov s = Ok (p, s') /\ qinv N s' (q ++ [p]) /\
    free_ s' = 0 /\ cb_ s' = cb_ s /\ p <> 0 /\ p ∉ q /\
    dat (heap s') p = Some (k, default v ov) /\
    (forall y, y ∈ q -> dat (heap s') y = dat (heap s) y) /\
    table_ s' = <[Z.to_nat (slot N k j) := p]> (table_ s) /\ 0 <= j < N /\
    lget (table_ s) (slot N k j) = Some 0 /\
    (forall j', 0 <= j' < j -> exists p', lget (table_ s) (slot N k j') = Some p' /\ p' <> 0).
Proof.
  intros [Hq Hl Hp Hroom Hpool].
  destruct (filled_room (table_ s)) as [i Hi]; [rewrite Hp; lia |].
  destruct (Set_loop_spec s k (Z.of_nat i) Hl) as (j & Hj & Hloop & Hg & Hocc).
  { apply lget_Some. split; [lia |]. by rewrite Nat2Z.id. }
  assert (Hr := lget_range _ _ _ Hg).
  destruct (alloc_ok s q Hq Hpool) as
    (p & s1 & Ha & Hq1 & Hf1 & Ht1 & Hcb1 & Hc1 & Hp0 & Hpq & Ip & Hd1).
  unfold insert_new. unfold size at 1. rewrite Hloop. cbn [obind]. rewrite Ha. cbn [obind].
  rewrite Ht1, lset_in by done. cbn [obind or_fault].
  set (tb := <[Z.to_nat (slot N k j) := p]> (table_ s)).
  assert (Hq2 : qinv N (mk (heap s1) (queue_ s1) (free_ s1) tb (count_ s1) (cb_ s1)) q)
    by (destruct Hq1; by split).
  destruct (push_back_ok N HN' _ q p Hq2 Ip Hp0 Hpq Hroom) as (s3 & -> & Hq3 & Hs3).
  cbn [obind]. assert (Hs3' := Hs3). destruct Hs3' as (Ht3 & Hf3 & Hcb3 & Hd3).
  simpl in Ht3, Hf3, Hcb3, Hd3.
  destruct (store_kv_ok (heap s3) p k ov) as (v & Hst & Hdp & Hdy & Hn4 & Hp4).
  { by eapply same_rest_is_Some; [exact Hs3 |]. }
  destruct (store_key p k (heap s3)) as [hp | | |]; try done. cbn [obind] in *.
  rewrite Hst. cbn [obind].
  pose proof (qinv_heap s3 _ (store_kv (heap s3) p k ov) Hq3 Hn4 Hp4) as Hq4.
  assert (Hgp : lget tb (slot N k j) = Some p) by (by apply lget_insert_eq).
  assert (Hgp3 : lget (table_ s3) (slot N k j) = Some p) by (by rewrite Ht3).
  destruct (Promote_ok N HN' _ (slot N k j) q p [] Hq4 Hgp3) as (s5 & -> & Hq5 & Hs5).
  cbn [obind].
  destruct Hs5 as (Ht5 & Hf5 & Hcb5 & Hd5). simpl in Ht5, Hf5, Hcb5, Hd5.
  rewrite Ht5, Ht3, Hgp. cbn [obind or_fault].
  exists p, v, s5, j. split_and!; try done; try congruence; [| by rewrite Ht5, Ht3 | lia | lia].
  - intros y Hy. rewrite Hd5, Hdy, Hd3, Hd1; [done | done |]. by intros ->.
Qed.

(** The table after an insertion. *)
Lemma tinv_insert s s' q p k v j :
  Z.of_nat (length (table_ s)) = N -> filled (table_ s) ≡ₚ q ->
  (forall y, y ∈ q -> is_Some (heap s !! y)) -> NoDup (abs (heap s) q).*1 ->
  k ∉ (abs (heap s) q).*1 -> 0 <= j < N ->
  lget (table_ s) (slot N k j) = Some 0 -> table_ s' = <[Z.to_nat (slot N k j) := p]> (table_ s) ->
  p <> 0 -> p ∉ q -> dat (heap s') p = Some (k, v) ->
  (forall y, y ∈ q -> dat (heap s') y = dat (heap s) y) ->
  (forall j', 0 <= j' < j -> exists p', lget (table_ s) (slot N k j') = Some p' /\ p' <> 0) ->
  (Z.of_nat (length (q ++ [p])) = N \/ tinv N s q) ->
  tinv N s' (q ++ [p]).
Proof.
  intros Hl Hp Hd Hnd Hk Hj Hg Ht Hp0 Hpq Hdp Hdat Hocc Hcase.
  assert (Hl' : Z.of_nat (length (table_ s')) = N) by (by rewrite Ht, length_insert).
  assert (Hp' : filled (table_ s') ≡ₚ q ++ [p]).
  { assert (Hg' := Hg). apply lget_Some in Hg' as [_ Hg']. rewrite Ht.
    rewrite filled_insert_empty by done. rewrite Hp. apply Permutation_cons_append. }
  assert (Habs : abs (heap s') q = abs (heap s) q) by (by apply abs_ext).
  split; try done.
  - intros y. rewrite elem_of_app, list_elem_of_singleton. intros Hy. apply dat_is_Some.
    destruct Hy as [Hy | ->]; [rewrite Hdat by done; apply dat_is_Some; auto | by rewrite Hdp].
  - rewrite abs_app, (abs_cons _ _ [] _ Hdp), fmap_app, Habs. apply NoDup_app.
    split; [done |]. split; [| apply NoDup_singleton]. cbn. intros y Hy ->%list_elem_of_singleton. done.
  - intros i p1 k1 v1 Hi Hne Hd1.
    assert (Hi_r := lget_range _ _ _ Hi). rewrite Hl' in Hi_r.
    destruct Hcase as [Hfull | Htinv].
    + destruct (slot_onto N HN k1 i Hi_r) as (j1 & Hj1 & <-). exists j1.
      split_and!; [lia | lia | done |]. intros j' _.
      destruct (slot_lget N HN s' k1 j' Hl') as [p' Hg']. exists p'. split; [done |].
      apply lget_Some in Hg' as [_ Hg'].
      apply (filled_full (table_ s')) with (i := Z.to_nat (slot N k1 j')); [| done].
      rewrite Hp'. lia.
    + rewrite Ht in Hi. destruct (decide (i = slot N k j)) as [-> | Hi_ne].
      * rewrite lget_insert_eq in Hi by (rewrite Hl; lia). injection Hi as <-.
        rewrite Hdp in Hd1. injection Hd1 as <- <-. exists j. split_and!; [lia | lia | done |].
        intros j' Hj'. rewrite Ht, lget_insert_ne; [by apply Hocc | apply slot_range, HN |].
        intros He. apply (slot_inj N HN) in He; lia.
      * rewrite lget_insert_ne in Hi by (try apply slot_range, HN; congruence).
        rewrite Hdat in Hd1 by (by eapply t_in).
        destruct (t_probe _ _ _ Htinv i p1 k1 v1 Hi Hne Hd1) as (j1 & Hj1 & -> & Hocc1).
        exists j1. split_and!; [lia | lia | done |]. intros j' Hj'.
        destruct (Hocc1 j' Hj') as (p' & Hg' & Hp0'). exists p'. split; [| done].
        rewrite Ht, lget_insert_ne; [done | apply slot_range, HN |]. intros He. congruence.
Qed.

(** [erase] finds the node of a key. *)
Lemma erase_loop_ok s q k p v :
  tinv N s q -> NoDup q -> 0 ∉ q -> p ∈ q -> dat (heap s) p = Some (k, v) ->
  exists j, 0 <= j < N /\ lget (table_ s) (slot N k j) = Some p /\
    erase_loop N (Z.to_nat N) s k (hash N k) = Ok (slot N k j).
Proof.
  intros Ht Hnd H0 Hin Hd.
  destruct (probe_hit N HN s q k p v Ht Hnd H0 Hin Hd) as (j & Hj & Hg & Hpass & _).
  exists j. split_and!; [lia | lia | done |]. rewrite hash_slot.
  apply dat_load in Hd as (nd & Hl & Hk & _).
  assert (Hgo : forall f c, Z.of_nat f = N - c -> 0 <= c <= j ->
            erase_loop N f s k (slot N k c) = Ok (slot N k j)).
  { induction f as [| f IH]; intros c Hf Hc; [lia |]. cbn [erase_loop].
    destruct (decide (c = j)) as [-> | Hne].
    - rewrite Hg. cbn [obind or_fault]. rewrite Hl. cbn [obind]. by rewrite Hk, Z.eqb_refl.
    - destruct (Hpass c ltac:(lia)) as (p' & nd' & Hg' & _ & Hl' & Hk'). rewrite Hg'.
      cbn [obind or_fault]. rewrite Hl'. cbn [obind].
      destruct (Z.eqb_spec (key nd') k); [done |]. rewrite rehash_slot by done. apply IH; lia. }
  apply Hgo; lia.
Qed.

(** The eviction, when no callback is set: the first node goes to the pool. *)
Lemma evict_ok s x b r w :
  cinv s (x :: b :: r) -> Z.of_nat (length (x :: b :: r)) = N -> cb_ s = 0 ->
  exists s', evict N invoke s w = Ok (s', w) /\ open_slot s' (b :: r) /\ cb_ s' = 0 /\
    forall y, y ∈ b :: r -> dat (heap s') y = dat (heap s) y.
Proof.
  intros [Hq Ht Hf] Hlen Hcb. assert (Hx0 : x <> 0).
  { intros ->. apply (q_nonnull _ _ _ Hq). set_solver. }
  assert (Hnd := q_nodup _ _ _ Hq).
  unfold evict, front, kassert. rewrite (q_head _ _ _ Hq).
  change (default 0 (head (x :: b :: r))) with x.
  destruct (Z.eqb_spec x 0); [done |]. cbn [negb obind].
  destruct (pop_front_ok N HN' s x b r Hq) as (s1 & -> & Hq1 & Hs1). cbn [obind].
  assert (Ht1 : tinv N s1 (x :: b :: r)) by (by eapply tinv_same).
  destruct (t_dom _ _ _ Ht1 x ltac:(set_solver)) as [nd Hnd1].
  assert (Hld : load (heap s1) x = Ok nd) by (unfold load; by rewrite Hnd1).
  rewrite Hld. cbn [obind].
  assert (Hdx : dat (heap s1) x = Some (key nd, value nd)) by (unfold dat; by rewrite Hnd1).
  assert (H0 : 0 ∉ x :: b :: r) by apply Hq.
  destruct (erase_loop_ok s1 _ (key nd) x _ Ht1 Hnd H0 ltac:(set_solver) Hdx) as (j & Hj & Hg & He).
  unfold erase. unfold size at 1. rewrite He. cbn [obind]. rewrite Hg. cbn [obind or_fault].
  destruct Hs1 as (Htb & Hf1 & Hcb1 & Hd1).
  unfold free. rewrite Hcb1, Hcb. cbn [Z.eqb obind]. rewrite store_next_ok by (by eexists).
  cbn [obind table_]. rewrite lset_in by (by eapply lget_range). cbn [obind or_fault].
  eexists. split; [done |]. apply NoDup_cons in Hnd as [Hxq Hnd]. split.
  - split; simpl.
    + destruct Hq1. split; try done. simpl. destruct r as [| c r']; simpl in *.
      * unfold linked in *. by rewrite nxt_setn, prv_setn, decide_False by set_solver.
      * apply (path_frame (heap s1) _ b (c :: r') b); [| | done];
          intros y Hy; heap_lookups; [| done]. rewrite decide_False; [done |]. set_solver.
    + rewrite length_insert. apply Ht1.
    + assert (Hg' := Hg). apply lget_Some in Hg' as [_ Hg'].
      apply (Permutation_cons_inv (a := x)). rewrite <- (t_perm _ _ _ Ht1).
      symmetry. by apply filled_clear.
    + simpl in Hlen. simpl. lia.
    + right. split_and!; [done | done |]. rewrite nxt_setn, decide_True by done.
      rewrite Hf1, Hf. apply const_Some. by eexists.
  - simpl. split; [congruence |]. intros y Hy. by heap_lookups.
Qed.

(** A cache that represents the list [l] of keys and values. *)
Definition repr s (l : list (Z * T)) : Prop := exists q, cinv s q /\ abs (heap s) q = l.

Lemma repr_keys s l : repr s l -> NoDup l.*1.
Proof. intros (q & [_ Ht _] & <-). apply Ht. Qed.




(** A cache that represents [l], in which [p] is the node of [k], with value [v]. *)
Definition repr_at s (l : list (Z * T)) (p k : Z) (v : T) : Prop :=
  exists q, cinv s q /\ abs (heap s) q = l /\ p ∈ q /\ dat (heap s) p = Some (k, v).

Lemma repr_at_repr s l p k v : repr_at s l p k v -> repr s l /\ p <> 0 /\ dat (heap s) p = Some (k, v).
Proof.
  intros (q & Hc & Hl & Hp & Hd). split_and!; [by exists q | | done]. intros ->.
  by apply (q_nonnull _ _ _ (c_queue _ _ Hc)).
Qed.

Lemma Get_at s l k :
  repr s l ->
  exists p s', Get N k s = Ok (p, s') /\ cb_ s' = cb_ s /\
    match spec.lookup k l with
    | Some v => repr_at s' (spec.touch k l) p k v
    | None => k ∉ l.*1 /\ p = 0 /\ s' = s
    end.
Proof.
  intros (q & Hc & <-). destruct (decide (k ∈ (abs (heap s) q).*1)) as [Hin | Hout].
  - apply abs_key_elem in Hin as (p & v & Hp & Hd).
    apply list_elem_of_split in Hp as (q1 & q2 & ->).
    destruct (Get_hit s q1 p q2 k v Hc Hd) as (s' & Hg & Hc' & Hs).
    assert (Hdat : forall y, dat (heap s') y = dat (heap s) y) by apply Hs.
    assert (Hab : forall q, abs (heap s') q = abs (heap s) q) by (intros; by apply abs_ext).
    assert (Hnd := t_keys _ _ _ (c_table _ _ Hc)).
    rewrite abs_app, (abs_cons _ _ _ _ Hd) in *. pose proof (touch_hit _ _ _ _ Hnd) as Ht.
    unfold spec.get in Ht. injection Ht as -> ->.
    exists p, s'. split; [done |]. split; [apply Hs |]. exists (q1 ++ q2 ++ [p]). split_and!.
    + done.
    + rewrite Hab, !abs_app. f_equal. f_equal. by rewrite (abs_cons _ _ [] _ Hd).
    + set_solver.
    + by rewrite Hdat.
  - destruct (key_decide_miss _ _ Hout) as (_ & _ & ->). exists 0, s.
    split; [apply (Get_miss N HN s q); [apply Hc | done] | done].
Qed.

Lemma Get_step s l k :
  repr s l ->
  exists p s', Get N k s = Ok (p, s') /\ repr s' (snd (spec.get k l)) /\ cb_ s' = cb_ s /\
    match fst (spec.get k l) with
    | Some v => p <> 0 /\ dat (heap s') p = Some (k, v)
    | None => p = 0 /\ s' = s
    end.
Proof.
  intros Hr. destruct (Get_at s l k Hr) as (p & s' & Hg & Hcb & Hm).
  exists p, s'. unfold spec.get. cbn [fst snd]. destruct (spec.lookup k l) eqn:E.
  - by apply repr_at_repr in Hm as (? & ? & ?).
  - destruct Hm as (Hk & -> & ->). pose proof (touch_miss l k Hk) as Ht. unfold spec.get in Ht.
    injection Ht as _ ->. done.
Qed.

(** Get refines the specification: it terminates, finds exactly the
    keys of the cache, returns the address of the value and moves the entry to the
    recently used end. *)
Theorem Get_refines s l k :
  repr s l ->
  exists p s', Get N k s = Ok (p, s') /\ repr s' (snd (spec.get k l)) /\ cb_ s' = cb_ s /\
    match fst (spec.get k l) with
    | Some v => p <> 0 /\ dat (heap s') p = Some (k, v)
    | None => p = 0 /\ s' = s
    end.
Proof. apply Get_step. Qed.

(** [Set] on a key that is not in the cache.  When the cache is full the least
    recently used entry leaves first; this is for a cache with no callback, or
    with room. *)
Lemma Set_ok s q k ov w :
  cinv s q -> k ∉ (abs (heap s) q).*1 -> Z.of_nat (length q) < N \/ cb_ s = 0 ->
  exists p v s', Set_ N invoke k ov s w = Ok (p, s', w) /\ p <> 0 /\
    cinv s' ((if decide (N <= Z.of_nat (length q)) then tail q else q) ++ [p]) /\
    cb_ s' = cb_ s /\ dat (heap s') p = Some (k, default v ov) /\ p ∉ tail q /\
    forall y, y ∈ (if decide (N <= Z.of_nat (length q)) then tail q else q) ->
      dat (heap s') y = dat (heap s) y.
Proof.
  intros Hc Hk Hcase. assert (Hc' := Hc). destruct Hc' as [Hq Ht Hf].
  unfold Set_, count. rewrite (q_count _ _ _ Hq). unfold size.
  assert (Hsz := q_size _ _ _ Hq).
  destruct (Z.leb_spec N (Z.of_nat (length q))); case_decide; try lia.
  - destruct q as [| x [| b r]]; simpl length in *; [lia | lia |].
    destruct Hcase as [? | Hcb]; [lia |].
    destruct (evict_ok s x b r w Hc) as (s1 & -> & Ho & Hcb1 & Hd1); [simpl; lia | done |].
    cbn [obind tail]. assert (Ho' := Ho). destruct Ho' as [Hq1 Hl1 Hp1 Hr1 _].
    destruct (insert_new_ok s1 (b :: r) k ov Ho) as
      (p & v & s' & j & -> & Hq' & Hf' & Hcb' & Hp0 & Hpq & Hdp & Hdy & Htb & Hj & Hg & Hocc).
    cbn [obind]. exists p, v, s'.
    destruct (proj2 (dat_is_Some (heap s) x) (t_dom _ _ _ Ht x ltac:(set_solver))) as [kv Hkv].
    rewrite (abs_cons _ _ _ _ Hkv), fmap_cons in Hk.
    assert (Hkeys := t_keys _ _ _ Ht). rewrite (abs_cons _ _ _ _ Hkv), fmap_cons in Hkeys.
    apply NoDup_cons in Hkeys as [_ Hkeys].
    assert (Habs : abs (heap s1) (b :: r) = abs (heap s) (b :: r)) by (by apply abs_ext).
    split_and!; try done; try congruence.
    + split; [done | | done]. eapply (tinv_insert s1 s'); try done; rewrite ?Habs; try done.
      * intros y Hy. eapply ring_in; [apply Hq1 | done].
      * set_solver.
      * left. rewrite length_app. simpl. lia.
    + intros y Hy. by rewrite Hdy, Hd1.
  - cbn [obind].
    assert (Ho : open_slot s q) by (destruct Ht; split; auto).
    destruct (insert_new_ok s q k ov Ho) as
      (p & v & s' & j & -> & Hq' & Hf' & Hcb' & Hp0 & Hpq & Hdp & Hdy & Htb & Hj & Hg & Hocc).
    cbn [obind]. exists p, v, s'. split_and!; try done.
    + split; [done | | done]. eapply (tinv_insert s s'); try done; try apply Ht. by right.
    + destruct q; [done |]. simpl. set_solver.
Qed.

Lemma Alloc_at s l k w :
  repr s l -> k ∉ l.*1 -> Z.of_nat (length l) < N \/ cb_ s = 0 ->
  exists p v s', Alloc N invoke k s w = Ok (p, s', w) /\ cb_ s' = cb_ s /\
    repr_at s' (spec.alloc N k v l) p k v.
Proof.
  intros (q & Hc & <-) Hk Hcase. rewrite abs_length in Hcase by apply Hc.
  destruct (Set_ok s q k None w Hc Hk Hcase) as (p & v & s' & Hs & Hp & Hc' & Hcb & Hd & _ & Hdy).
  exists p, v, s'. split_and!; try done. eexists. split_and!; [done | | set_solver | done].
  unfold spec.alloc. rewrite abs_length by apply Hc.
  rewrite abs_app, (abs_cons _ _ [] _ Hd). f_equal. cbn [default].
  case_decide; [| by apply abs_ext]. rewrite (abs_ext (heap s)) by done.
  destruct q as [| x q]; [done |]. cbn [tail].
  destruct (proj2 (dat_is_Some (heap s) x)) as [kv Hkv]; [apply Hc; set_solver |].
  by rewrite (abs_cons _ _ _ _ Hkv).
Qed.

Lemma Alloc_step s l k w :
  repr s l -> k ∉ l.*1 -> Z.of_nat (length l) < N \/ cb_ s = 0 ->
  exists p v s', Alloc N invoke k s w = Ok (p, s', w) /\ p <> 0 /\
    repr s' (spec.alloc N k v l) /\ dat (heap s') p = Some (k, v) /\ cb_ s' = cb_ s.
Proof.
  intros Hr Hk Hcase. destruct (Alloc_at s l k w Hr Hk Hcase) as (p & v & s' & Ha & Hcb & Hat).
  apply repr_at_repr in Hat as (? & ? & ?). by exists p, v, s'.
Qed.

(** Alloc refines the specification. *)
Theorem Alloc_refines s l k w :
  repr s l -> k ∉ l.*1 -> Z.of_nat (length l) < N \/ cb_ s = 0 ->
  exists p v s', Alloc N invoke k s w = Ok (p, s', w) /\ p <> 0 /\
    repr s' (spec.alloc N k v l) /\ dat (heap s') p = Some (k, v) /\ cb_ s' = cb_ s.
Proof. apply Alloc_step. Qed.

(** The cache the class constructs. *)
Lemma make_repr : repr (make N) [].
Proof.
  exists []. split; [| done]. split; [| | done].
  - split; try done; [apply NoDup_nil_2 | set_solver | simpl; lia].
  - split; try done; simpl.
    + rewrite length_replicate. lia.
    + assert (Hf : forall n, filled (replicate n 0) = []).
      { induction n as [| n IH]; [done |]. cbn [replicate]. unfold filled. rewrite filter_cons.
        by rewrite decide_False by auto. }
      by rewrite Hf.
    + intros p. set_solver.
    + apply NoDup_nil_2.
Qed.

(** ** Storing through the pointer

    A client changes the value of a node by its address. *)


Lemma abs_setv h q p k v v' :
  NoDup (abs h q).*1 -> p ∈ q -> dat h p = Some (k, v) -> (forall y, y ∈ q -> is_Some (h !! y)) ->
  abs (setv p v' h) q = update k v' (abs h q).
Proof.
  intros Hnd Hp Hd Hdom.
  assert (Hother : forall y k' u, y ∈ q -> dat h y = Some (k', u) -> k' = k -> y = p).
  { intros y k' u Hy Hdy ->. by eapply (abs_key_inj h q y p k u v). }
  clear Hnd Hp. induction q as [| y q IH]; [done |].
  destruct (proj2 (dat_is_Some h y)) as [[k' u] Hy]; [apply Hdom; set_solver |].
  assert (Hy' : dat (setv p v' h) y = Some (if decide (k' = k) then (k, v') else (k', u))).
  { rewrite dat_setv, Hy. case_decide as Hyp.
    - subst y. assert (k' = k) as -> by congruence. by rewrite decide_True.
    - rewrite decide_False; [done |]. intros ->. apply Hyp. eapply Hother; [set_solver | done | done]. }
  rewrite (abs_cons _ _ _ _ Hy), (abs_cons _ _ _ _ Hy'). cbn [update map fst]. f_equal.
  apply IH; [set_solver |]. intros z k2 u2 Hz. apply Hother. set_solver.
Qed.

Lemma store_tinv s q p k v v' :
  tinv N s q -> p ∈ q -> dat (heap s) p = Some (k, v) ->
  store_value p v' (heap s) = Ok (setv p v' (heap s)) /\
  abs (setv p v' (heap s)) q = update k v' (abs (heap s) q) /\
  tinv N (mk (setv p v' (heap s)) (queue_ s) (free_ s) (table_ s) (count_ s) (cb_ s)) q.
Proof.
  intros [Hl Hperm Hdom Hkeys Hprobe] Hp Hd.
  assert (Habs := abs_setv (heap s) q p k v v' Hkeys Hp Hd Hdom).
  split; [| split; [done |]].
  { unfold store_value, checked, load. destruct (Hdom p Hp) as [nd ->]. done. }
  split; cbn [heap table_]; try done.
  - intros y Hy. unfold setv. rewrite lookup_alter. case_decide; [| by apply Hdom].
    subst y. destruct (Hdom p Hp) as [nd ->]. by eexists.
  - by rewrite Habs, update_keys.
  - intros i y k' u Hi Hne Hdy. rewrite dat_setv in Hdy. case_decide as Hyp; [| by apply (Hprobe i y k' u)].
    destruct (dat (heap s) y) as [[k2 u2] |] eqn:E; [| done]. injection Hdy as <- <-.
    by apply (Hprobe i y k2 u2).
Qed.

Lemma store_cinv s q p k v v' :
  cinv s q -> p ∈ q -> dat (heap s) p = Some (k, v) ->
  store_value p v' (heap s) = Ok (setv p v' (heap s)) /\
  abs (setv p v' (heap s)) q = update k v' (abs (heap s) q) /\
  cinv (mk (setv p v' (heap s)) (queue_ s) (free_ s) (table_ s) (count_ s) (cb_ s)) q.
Proof.
  intros [Hq Ht Hf] Hp Hd. destruct (store_tinv s q p k v v' Ht Hp Hd) as (Hs & Ha & Ht').
  split_and!; try done. split; [| done | done].
  apply qinv_heap; [done | intros; apply nxt_setv | intros; apply prv_setv].
Qed.

Lemma store_at s l p k v v' :
  repr_at s l p k v ->
  exists h, store_value p v' (heap s) = Ok h /\
    repr_at (mk h (queue_ s) (free_ s) (table_ s) (count_ s) (cb_ s)) (update k v' l) p k v'.
Proof.
  intros (q & Hc & <- & Hp & Hd). exists (setv p v' (heap s)).
  destruct (store_cinv s q p k v v' Hc Hp Hd) as (Hs & Ha & Hc').
  split; [done |]. exists q. split_and!; try done. cbn [heap]. by rewrite dat_setv, decide_True, Hd by done.
Qed.

(** ** Sequences of operations *)

(** A client that looks keys up and, on a miss, allocates them, as [get_block]
    does. *)
Definition lookup_or_alloc k s w : outcome (Z * t (T := T) * W) :=
  let! '(p, s) := Get N k s in
  if p =? 0 then Alloc N invoke k s w else Ok (p, s, w).

Fixpoint run (ks : list Z) s w : outcome (t (T := T) * W) :=
  match ks with
  | [] => Ok (s, w)
  | k :: ks => let! '(_, s, w) := lookup_or_alloc k s w in run ks s w
  end.

(** The keys of the specification after the same requests. *)
Definition spec_step (k : Z) (l : list Z) : list Z :=
  if decide (k ∈ l) then filter (fun x => x <> k) l ++ [k]
  else (if decide (N <= Z.of_nat (length l)) then tail l else l) ++ [k].

Lemma filter_fst (l : list (Z * T)) k :
  (filter (fun e => fst e <> k) l).*1 = filter (fun x => x <> k) l.*1.
Proof.
  induction l as [| [k' v] l IH]; [done |]. rewrite fmap_cons, !filter_cons. cbn [fst].
  by repeat case_decide; rewrite ?fmap_cons, IH.
Qed.

Lemma spec_get_keys (l : list (Z * T)) k :
  NoDup l.*1 -> k ∈ l.*1 ->
  (snd (spec.get k l)).*1 = filter (fun x => x <> k) l.*1 ++ [k] /\
  exists v, fst (spec.get k l) = Some v.
Proof.
  intros Hnd ([k' v] & -> & (l1 & l2 & ->)%list_elem_of_split)%list_elem_of_fmap.
  assert (Hnd' := Hnd). rewrite touch_hit by done. cbn [fst snd]. split; [| by exists v].
  rewrite fmap_app, fmap_cons in Hnd. simpl in Hnd.
  rewrite <- Permutation_middle in Hnd. apply NoDup_cons in Hnd as [Hk _].
  rewrite <- filter_fst, filter_app, filter_cons, decide_False by (simpl; auto).
  destruct (key_decide_miss l1 k') as (-> & _ & _); [set_solver |].
  destruct (key_decide_miss l2 k') as (-> & _ & _); [set_solver |].
  by rewrite !fmap_app, <- app_assoc.
Qed.

(** The requests and the specification, step by step. *)
Lemma run_steps (ks : list Z) w :
  exists s l, run ks (make N) w = Ok (s, w) /\ repr s l /\
    l.*1 = foldl (fun l k => spec_step k l) [] ks.
Proof.
  assert (Hgen : forall s l, repr s l -> cb_ s = 0 -> exists s' l', run ks s w = Ok (s', w) /\
            repr s' l' /\ l'.*1 = foldl (fun l k => spec_step k l) l.*1 ks);
    [| by apply (Hgen (make N) []); [apply make_repr |]].
  induction ks as [| k ks IH]; intros s l Hr Hcb; [by exists s, l |].
  cbn [run foldl]. unfold lookup_or_alloc.
  destruct (Get_step s l k Hr) as (p & s1 & Hg & Hr1 & Hcb1 & Hres).
  rewrite Hg. cbn [obind]. unfold spec_step at 2. case_decide as Hin.
  - destruct (spec_get_keys l k (repr_keys _ _ Hr) Hin) as (Hkeys & v & Hv).
    rewrite Hv in Hres. destruct Hres as [Hp _]. destruct (Z.eqb_spec p 0); [done |].
    cbn [obind]. rewrite <- Hkeys. apply IH; [done | congruence].
  - rewrite (touch_miss l k Hin) in Hres. destruct Hres as [-> ->]. cbn [Z.eqb].
    destruct (Alloc_step s l k w Hr Hin) as (p & v & s' & -> & _ & Hr' & _ & Hcb'); [by right |].
    cbn [obind]. destruct (IH s' _ Hr') as (s2 & l2 & H2); [congruence |].
    exists s2, l2. unfold spec.alloc in H2. rewrite fmap_app in H2.
    rewrite length_fmap. case_decide; [| done]. by destruct l.
Qed.

(** C7: The cache as a client sees it: for any sequence of requests, starting
    from the empty cache and with no callback, no request faults or runs for ever, and the
    keys cached at the end are those of a least-recently-used list of at most [N] keys. *)
Theorem run_lru (ks : list Z) w :
  exists s l, run ks (make N) w = Ok (s, w) /\ repr s l /\
    l.*1 = foldl (fun l k => spec_step k l) [] ks.
Proof. apply run_steps. Qed.

End operations.

(** ** A concrete allocator *)

(** Node addresses that grow, and nodes that hold a default value. *)
Definition bump {T} (h : gmap Z (ListNode T)) : Z := 1 + foldr Z.max 0 (map_to_list h).*1.

Lemma bump_above {T} (h : gmap Z (ListNode T)) k : k ∈ (map_to_list h).*1 -> k < bump h.
Proof.
  unfold bump. induction ((map_to_list h).*1) as [| x l IH]; [by intros ?%not_elem_of_nil |].
  cbn [foldr]. intros [-> | Hk]%elem_of_cons; [lia |]. specialize (IH Hk). lia.
Qed.

#[refine] Definition bump_alloc {T} `{Inhabited T} : NodeAlloc T :=
  {| new_node := bump; raw_node := fun _ => mkNode 0 0 0 inhabitant |}.
Proof.
  - intros h. destruct (h !! bump h) as [nd |] eqn:E; [| done]. exfalso.
    assert (bump h < bump h); [| lia]. apply bump_above, list_elem_of_fmap.
    exists (bump h, nd). split; [done |]. by apply elem_of_map_to_list.
  - intros h. assert (0 <= foldr Z.max 0 (map_to_list h).*1); [| unfold bump; lia].
    induction ((map_to_list h).*1); cbn [foldr]; lia.
Defined.

#[local] Existing Instance bump_alloc.

(** No callback is ever called. *)
Definition no_invoke (cb k p : Z) (s : LRUCache.t (T := Z)) (w : unit)
    : outcome (LRUCache.t (T := Z) * unit) := Fault.

Lemma two_ok : 1 < 2 < 4294967296.
Proof. lia. Qed.

(** With room for two, the requests 5 6 5 7 leave 5 and 7. *)
Lemma run_lru_witness :
  exists s l, run 2 no_invoke [5; 6; 5; 7] (LRUCache.make 2) tt = Ok (s, tt) /\ repr 2 s l /\ l.*1 = [5; 7].
Proof. exact (run_lru 2 no_invoke two_ok [5; 6; 5; 7] tt). Defined.

Lemma Alloc_refines_witness :
  exists p v s, LRUCache.Alloc 2 no_invoke 5 (LRUCache.make 2) tt = Ok (p, s, tt) /\ p <> 0 /\
    repr 2 s [(5, v)].
Proof.
  destruct (Alloc_refines 2 no_invoke two_ok (LRUCache.make 2) [] 5 tt
    (make_repr 2 two_ok)) as (p & v & s & Ha & Hp & Hr & _);
    [by apply not_elem_of_nil | left; simpl; lia |].
  exists p, v, s. split; [exact Ha |]. split; [exact Hp |]. exact Hr.
Defined.

Lemma Get_refines_witness :
  exists (s : LRUCache.t (T := Z)) v p s', repr 2 s [(5, v)] /\ LRUCache.Get 2 5 s = Ok (p, s') /\ p <> 0.
Proof.
  destruct (Alloc_step 2 no_invoke two_ok (LRUCache.make 2) [] 5 tt
    (make_repr 2 two_ok)) as (p & v & s & _ & _ & Hr & _);
    [by apply not_elem_of_nil | left; simpl; lia |].
  destruct (Get_refines 2 no_invoke two_ok s [(5, v)] 5 Hr) as (p' & s' & Hg & _ & _ & Hp & _).
  exists s, v, p', s'. split; [exact Hr |]. split; [exact Hg | exact Hp].
Defined.

(** ** A callback that uses the cache

    The file system's callback writes the evicted block, and so calls [Get] for the key
    that is being evicted, which puts the node back in the queue. *)

Definition reenter (N cb k p : Z) (s : LRUCache.t (T := Z)) (w : unit)
    : outcome (LRUCache.t (T := Z) * unit) :=
  let! '(_, s) := LRUCache.Get N k s in Ok (s, w).

(** The keys met on a walk along the queue. *)
Fixpoint queue_keys (fuel : nat) (h : gmap Z (ListNode Z)) (p q : Z) : list Z :=
  match fuel with
  | O => []
  | S f => match h !! p with
           | None => []
           | Some nd => key nd :: if next nd =? q then [] else queue_keys f h (next nd) q
           end
  end.

(** After seven requests to a cache of four, the queue has lost key 1: it is
    still in the table and counted, but can never be evicted. *)
Lemma reentry_loses_a_key :
  exists s, run 4 (reenter 4) [0; 1; 2; 3; 4; 1; 4] (LRUCache.SetUncacheCallback 1 (LRUCache.make 4)) tt
      = Ok (s, tt) /\
    LRUCache.count s = 4 /\
    queue_keys 10 (LRUCache.heap s) (LRUCache.queue_ s) (LRUCache.queue_ s) = [2; 3; 4] /\
    exists p s', LRUCache.Get 4 1 s = Ok (p, s') /\ p <> 0.
Proof.
  eexists. split; [vm_compute; reflexivity |]. split; [reflexivity |].
  split; [vm_compute; reflexivity |]. eexists _, _. split; [vm_compute; reflexivity | done].
Qed.
