(* ===== verification/LruClear.v ===== *)
(** * Emptying the cache ([clear] of [include/lrucache.hpp])

    [clear], which is also the destructor, deletes every node once and none twice; it
    leaves the number of cached entries as it was. *)

From stdpp Require Import prelude gmap strings.
From Stdlib Require Import ZArith Lia.
From S2P Require Import Prelude LruCache LruCorrect.
Import LRUCache.

Section clear.
Context {T : Type} `{NodeAlloc T} (N : Z).
Implicit Types (s : t (T := T)) (q : list Z) (h : gmap Z (ListNode T)).

(** The links that the walk follows: [next] only, since nodes behind it are deleted. *)
Fixpoint chain h a q z : Prop :=
  match q with
  | [] => nxt h a = Some z
  | b :: q' => nxt h a = Some b /\ chain h b q' z
  end.

Lemma path_chain h a q z : path h a q z -> chain h a q z.
Proof.
  revert a. induction q as [| b q IH]; intros a; cbn; [by intros [] |].
  intros [[Hn _] Hp]. auto.
Qed.

Lemma chain_delete h a b q z : a ∉ b :: q -> chain h b q z -> chain (delete a h) b q z.
Proof.
  revert b. induction q as [| c q IH]; intros b Ha; cbn; unfold nxt;
    rewrite lookup_delete_ne by (intros ->; apply Ha, elem_of_cons; by left); [done |].
  intros [Hn Hc]. split; [done |]. apply IH; [| done]. intros Hin. apply Ha, elem_of_cons. by right.
Qed.

Definition without q h p : option (ListNode T) := if decide (p ∈ q) then None else h !! p.

Lemma clear_queue_ok fuel h a q z :
  chain h a q z -> NoDup (a :: q) -> z ∉ q -> (length q < fuel)%nat ->
  exists h', clear_queue fuel h z a = Ok h' /\ forall p, h' !! p = without (a :: q) h p.
Proof.
  revert fuel h a. induction q as [| b q IH]; intros fuel h a Hc Hnd Hz Hf;
    (destruct fuel as [| fuel]; [cbn in Hf; lia |]); cbn [clear_queue].
  - destruct (load_nxt _ _ _ Hc) as (nd & -> & Hn). cbn [obind]. rewrite Hn, Z.eqb_refl.
    eexists. split; [done |]. intros p. unfold without. case_decide as Hp.
    + apply list_elem_of_singleton in Hp as ->. apply lookup_delete_eq.
    + rewrite lookup_delete_ne; [done |]. intros ->. by apply Hp, list_elem_of_singleton.
  - destruct Hc as [Hn Hc]. destruct (load_nxt _ _ _ Hn) as (nd & -> & Hnb). cbn [obind]. rewrite Hnb.
    apply not_elem_of_cons in Hz as [Hzb Hz]. rewrite (proj2 (Z.eqb_neq b z)) by done.
    apply NoDup_cons in Hnd as [Ha Hnd].
    destruct (IH fuel (delete a h) b) as (h' & -> & Hh'); try done;
      [by apply chain_delete | cbn in Hf; lia |].
    exists h'. split; [done |]. intros p. rewrite Hh'. unfold without.
    destruct (decide (p = a)) as [-> | Hne].
    + rewrite lookup_delete_eq, (decide_True (P := a ∈ a :: b :: q)) by (apply elem_of_cons; by left).
      by case_decide.
    + rewrite lookup_delete_ne by done. do 2 case_decide; set_solver.
Qed.

(** [clear] terminates, deletes each node of the queue and leaves every other object; the table
    and the queue are empty afterwards.  [count_] keeps its value. *)
Theorem clear_deletes fuel s q :
  cinv N s q -> (length q < fuel)%nat ->
  exists s', clear fuel s = Ok s' /\ (forall p, heap s' !! p = without q (heap s) p) /\
    queue_ s' = 0 /\ free_ s' = 0 /\ table_ s' = replicate (length (table_ s)) 0 /\
    count_ s' = count_ s /\ cb_ s' = cb_ s.
Proof.
  intros [[Hnd Hr Hh _ H0 _] _ Hf] Hfuel. unfold clear.
  assert (Hempty : map (fun _ : Z => 0) (table_ s) = replicate (length (table_ s)) 0).
  { induction (table_ s) as [| x l IH]; [done |]. cbn. by f_equal. }
  rewrite Hempty, Hf. destruct q as [| a q]; cbn in Hh.
  - rewrite Hh. cbn. destruct fuel; [cbn in Hfuel; lia |]. cbn. eexists. by split_and!.
  - rewrite Hh, (proj2 (Z.eqb_neq a 0)) by (intros ->; apply H0, elem_of_cons; by left).
    destruct (clear_queue_ok fuel (heap s) a q a) as (h' & -> & Hh'); [by apply path_chain | done | | cbn in Hfuel; lia |].
    { by apply NoDup_cons in Hnd as [? _]. }
    cbn [obind]. destruct fuel; [cbn in Hfuel; lia |]. cbn. eexists. by split_and!.
Qed.

Context {W : Type} (invoke : Z -> Z -> Z -> t (T := T) -> W -> outcome (t (T := T) * W)).

(** [clear] does not reset [count_]: after it the cache that was full tries to evict from an empty
    queue, and the assertion of [front] stops the kernel. *)
Theorem clear_then_alloc_hangs fuel s q k w :
  cinv N s q -> Z.of_nat (length q) = N -> (length q < fuel)%nat ->
  exists s', clear fuel s = Ok s' /\ Alloc N invoke k s' w = Hang "empty list".
Proof.
  intros Hc Hlen Hf. destruct (clear_deletes fuel s q Hc Hf) as (s' & Hs & _ & Hq & _ & _ & Hcnt & _).
  exists s'. split; [done |]. pose proof (q_count _ _ _ (c_queue _ _ _ Hc)) as Hn.
  unfold Alloc, Set_, count, size, evict, front. rewrite Hcnt, Hn, Hlen, Z.leb_refl, Hq. done.
Qed.

End clear.

(** ** A cache of two *)

#[local] Existing Instance bump_alloc.

Lemma full_two :
  exists (s : t (T := Z)) q, cinv 2 s q /\ length q = 2%nat /\
    run 2 no_invoke [5; 6] (make 2) tt = Ok (s, tt).
Proof.
  destruct (run_steps 2 no_invoke two_ok [5; 6] tt) as (s & l & Hs & Hr & Hl).
  pose proof Hr as (q & Hc & <-). exists s, q. split; [exact Hc |]. split; [| exact Hs].
  rewrite <- (abs_length (heap s) q) by apply Hc.
  rewrite <- (length_fmap fst), Hl. reflexivity.
Qed.

Lemma clear_deletes_witness :
  exists (s : t (T := Z)) s', clear 3 s = Ok s' /\ queue_ s' = 0 /\ count_ s' = count_ s.
Proof.
  destruct full_two as (s & q & Hc & Hl & _).
  destruct (clear_deletes 2 3 s q Hc) as (s' & Hs & _ & Hq & _ & _ & Hn & _); [lia |].
  exists s, s'. split; [exact Hs |]. split; [exact Hq | exact Hn].
Defined.

Lemma clear_then_alloc_hangs_witness :
  exists (s : t (T := Z)) s', clear 3 s = Ok s' /\ Alloc 2 no_invoke 7 s' tt = Hang "empty list".
Proof.
  destruct full_two as (s & q & Hc & Hl & _).
  destruct (clear_then_alloc_hangs 2 no_invoke 3 s q 7 tt Hc) as (s' & Hs & Ha); [lia | lia |].
  exists s, s'. split; [exact Hs | exact Ha].
Defined.
