(* ===== verification/LruEvict.v ===== *)
(** * The cache with its callback ([include/lrucache.hpp], as [lib/fs.cc] uses it)

    The callback that the file system installs uses the cache while it evicts, and that
    spoils the order of the queue ([reentry_loses_a_key]).  What it cannot spoil is the table: this
    file shows that every key stays at its node, with its value, for any number of
    evictions, as long as the links of the queue stay inside the cached nodes, which every
    operation keeps. *)

From stdpp Require Import prelude gmap strings.
From Stdlib Require Import ZArith Lia.
From S2P Require Import Prelude LruCache LruCorrect.
Import LRUCache.

(** ** Links inside a set of nodes *)

Section links.
Context {T : Type} `{NodeAlloc T} (N : Z).
Implicit Types (s : t (T := T)) (q : list Z) (h : gmap Z (ListNode T)).
Hypothesis HN : 1 < N < 4294967296.

(** The fields of a node lead to nodes of [q]. *)
Definition nxt_in h q p : Prop := exists a, nxt h p = Some a /\ a ∈ q.
Definition prv_in h q p : Prop := exists a, prv h p = Some a /\ a ∈ q.
Definition inside h q : Prop := forall p, p ∈ q -> nxt_in h q p /\ prv_in h q p.

Lemma nxt_in_setn h q x v p : nxt_in h q p \/ p = x /\ is_Some (h !! x) -> v ∈ q -> nxt_in (setn x v h) q p.
Proof.
  intros Hp Hv. unfold nxt_in. rewrite nxt_setn. case_decide as E; [| by destruct Hp as [? | []]].
  subst. exists v. split; [| done]. apply const_Some.
  destruct Hp as [(a & Ha & _) | [_ Hx]]; [by eapply is_Some_nxt | done].
Qed.

Lemma prv_in_setn h q x v p : prv_in h q p -> prv_in (setn x v h) q p.
Proof. unfold prv_in. by rewrite prv_setn. Qed.

Lemma prv_in_setp h q x v p : prv_in h q p \/ p = x /\ is_Some (h !! x) -> v ∈ q -> prv_in (setp x v h) q p.
Proof.
  intros Hp Hv. unfold prv_in. rewrite prv_setp. case_decide as E; [| by destruct Hp as [? | []]].
  subst. exists v. split; [| done]. apply const_Some.
  destruct Hp as [(a & Ha & _) | [_ Hx]]; [by eapply is_Some_prv | done].
Qed.

Lemma nxt_in_setp h q x v p : nxt_in h q p -> nxt_in (setp x v h) q p.
Proof. unfold nxt_in. by rewrite nxt_setp. Qed.

Lemma inside_live h q p : inside h q -> p ∈ q -> is_Some (h !! p).
Proof. intros Hi Hp. destruct (Hi p Hp) as [(a & Ha & _) _]. by eapply is_Some_nxt. Qed.

(** The queue of a cache, as far as it can be relied on: it leads to nodes of [q] only. *)
Record links_in s q : Prop := {
  li_inside : inside (heap s) q;
  li_head : queue_ s ∈ q;
  li_null : 0 ∉ q
}.

Lemma links_same s h a c :
  (forall y, dat h y = dat (heap s) y) ->
  same_rest s (mk h a (free_ s) (table_ s) c (cb_ s)).
Proof. done. Qed.

Lemma unlink_in h q x :
  inside h q -> x ∈ q ->
  exists h', unlink x h = Ok h' /\ inside h' q /\ forall y, dat h' y = dat h y.
Proof.
  intros Hi Hx. destruct (Hi x Hx) as [(a & Ha & Hain) (b & Hb & Hbin)].
  unfold unlink. destruct (load_both h x a b Ha Hb) as (nd & -> & En & Ep). cbn [obind]. rewrite En, Ep.
  rewrite store_next_ok by (by eapply inside_live). cbn [obind].
  assert (Hi1 : inside (setn b a h) q).
  { intros p Hp. destruct (Hi p Hp). split; [apply nxt_in_setn; auto | by apply prv_in_setn]. }
  destruct (Hi1 x Hx) as [(c & Hc & Hcin) (d & Hd & Hdin)].
  destruct (load_both _ x c d Hc Hd) as (nd1 & -> & En1 & Ep1). cbn [obind]. rewrite En1, Ep1.
  rewrite store_prev_ok by (by eapply inside_live).
  eexists. split; [done |]. split; [| intros y; by heap_lookups].
  intros p Hp. destruct (Hi1 p Hp). split; [by apply nxt_in_setp | apply prv_in_setp; auto].
Qed.

Lemma detach_in s q x :
  links_in s q -> x ∈ q -> 1 <= count_ s <= N ->
  exists s', detach x s = Ok s' /\ links_in s' q /\ same_rest s s' /\ count_ s' = count_ s - 1.
Proof.
  intros [Hi Hh H0] Hx Hc. unfold detach.
  destruct (unlink_in (heap s) q x Hi Hx) as (h' & -> & Hi' & Hd). cbn [obind].
  eexists. split; [done |]. cbn. rewrite u32_small by lia. by split_and!.
Qed.

(** The stores of [push_back] make the links of [x] good ones. *)
Lemma push_back_in s q x :
  queue_ s ∈ q -> 0 ∉ q -> x ∈ q -> is_Some (heap s !! x) ->
  (forall p, p ∈ q -> p <> x -> nxt_in (heap s) q p) ->
  (forall p, p ∈ q -> p <> x \/ p = queue_ s -> prv_in (heap s) q p) ->
  0 <= count_ s < N ->
  exists s', push_back N x s = Ok s' /\ links_in s' q /\ same_rest s s' /\
    count_ s' = count_ s + 1.
Proof.
  intros Hh H0 Hx Ix Hn Hp Hc. unfold push_back, kassert, size.
  rewrite (proj2 (Z.ltb_lt _ _)) by lia.
  rewrite (proj2 (Z.eqb_neq (queue_ s) 0)) by (intros E; rewrite E in Hh; done).
  destruct (Hp (queue_ s) Hh (or_intror eq_refl)) as (last & Hlast & Hlin).
  unfold link_last. destruct (load_prv _ _ _ Hlast) as (nd & -> & En). cbn [obind]. rewrite En.
  assert (Il : is_Some (heap s !! last)).
  { destruct (decide (last = x)) as [-> | Hne]; [done |].
    destruct (Hn last Hlin Hne) as (a & Ha & _). by eapply is_Some_nxt. }
  assert (Iq : is_Some (heap s !! queue_ s)) by (by eapply is_Some_prv).
  rewrite store_next_ok by done. cbn [obind].
  rewrite store_prev_ok by (by heap_lookups). cbn [obind].
  rewrite store_next_ok by (by heap_lookups). cbn [obind].
  rewrite store_prev_ok by (by heap_lookups). cbn [obind].
  eexists. split; [done |]. cbn. rewrite u32_small by lia. split_and!; try done;
    [| apply links_same; intros y; by heap_lookups].
  split; [| done | done]. cbn. intros p Hpin. split.
  - apply nxt_in_setp, nxt_in_setn; [| done]. destruct (decide (p = x)) as [-> | Hne].
    + right. split; [done | by heap_lookups].
    + left. apply nxt_in_setp, nxt_in_setn; [left; auto | done].
  - apply prv_in_setp; [| done]. left. apply prv_in_setn, prv_in_setp; [| done].
    destruct (decide (p = x)) as [-> | Hne]; [right; split; [done | by heap_lookups] |].
    left. apply prv_in_setn. auto.
Qed.

Lemma push_back_first s x :
  queue_ s = 0 -> x <> 0 -> is_Some (heap s !! x) -> 0 <= count_ s < N ->
  exists s', push_back N x s = Ok s' /\ links_in s' [x] /\ same_rest s s' /\
    count_ s' = count_ s + 1.
Proof.
  intros Hq Hx Ix Hc. unfold push_back, kassert, size.
  rewrite (proj2 (Z.ltb_lt _ _)), Hq by lia. cbn [Z.eqb].
  rewrite store_next_ok by done. cbn [obind]. rewrite store_prev_ok by (by heap_lookups). cbn [obind].
  eexists. split; [done |]. cbn. rewrite u32_small by lia.
  split_and!; try done; [| apply links_same; intros y; by heap_lookups].
  split; cbn; [| by apply list_elem_of_singleton | intros E%list_elem_of_singleton; congruence].
  intros p ->%list_elem_of_singleton. split.
  - exists x. heap_lookups. rewrite decide_True by done. split; [by apply const_Some | by apply list_elem_of_singleton].
  - exists x. heap_lookups. rewrite decide_True by done.
    split; [apply const_Some; by heap_lookups | by apply list_elem_of_singleton].
Qed.

(** A hit: the links change, inside the same nodes. *)
Lemma Promote_in s q i x :
  links_in s q -> lget (table_ s) i = Some x -> x ∈ q -> 1 <= count_ s <= N ->
  exists s', Promote N i s = Ok s' /\ links_in s' q /\ same_rest s s' /\ count_ s' = count_ s.
Proof.
  intros Hl Hi Hx Hc. unfold Promote. rewrite Hi. cbn [obind or_fault].
  destruct (detach_in s q x Hl Hx Hc) as (s1 & -> & Hl1 & Hs1 & Hc1). cbn [obind].
  assert (Hq : exists s2, (if x =? queue_ s1 then let! nd := load (heap s1) (queue_ s1) in
      Ok (mk (heap s1) (next nd) (free_ s1) (table_ s1) (count_ s1) (cb_ s1)) else Ok s1) = Ok s2 /\
      links_in s2 q /\ same_rest s1 s2 /\ count_ s2 = count_ s1).
  { destruct (x =? queue_ s1); [| by exists s1]. destruct Hl1 as [Hin Hh H0].
    destruct (Hin _ Hh) as [(a & Ha & Hain) _]. destruct (load_nxt _ _ _ Ha) as (nd & -> & En).
    cbn [obind]. rewrite En. eexists. split; [done |]. by split_and!. }
  destruct Hq as (s2 & -> & [Hin Hh H0] & Hs2 & Hc2). cbn [obind].
  destruct (push_back_in s2 q x) as (s3 & Hp & Hl3 & Hs3 & Hc3); try done; try lia.
  - by eapply inside_live.
  - intros p Hp _. by apply Hin.
  - intros p Hp _. by apply Hin.
  - exists s3. split_and!; [done | done | | lia]. by do 2 eapply same_rest_trans.
Qed.

Lemma pop_front_in s q :
  links_in s q -> 1 <= count_ s <= N ->
  exists s', pop_front s = Ok s' /\ links_in s' q /\ same_rest s s' /\ count_ s' = count_ s - 1.
Proof.
  intros [Hi Hh H0] Hc. unfold pop_front, kassert.
  rewrite (proj2 (Z.eqb_neq (queue_ s) 0)) by (intros E; by rewrite E in Hh). cbn [negb].
  destruct (Hi _ Hh) as [(a & Ha & Hain) (b & Hb & Hbin)].
  destruct (load_both _ _ _ _ Ha Hb) as (nd & -> & En & Ep). cbn [obind]. rewrite En, Ep.
  rewrite store_prev_ok by (by eapply inside_live). cbn [obind].
  assert (Hi1 : inside (setp a b (heap s)) q).
  { intros p Hp. destruct (Hi p Hp). split; [by apply nxt_in_setp | apply prv_in_setp; auto]. }
  rewrite store_next_ok by (by eapply inside_live). cbn [obind].
  eexists. split; [done |]. cbn. rewrite u32_small by lia.
  split_and!; try done; [| apply links_same; intros y; by heap_lookups].
  split; [| done | done]. cbn. intros p Hp. destruct (Hi1 p Hp).
  split; [apply nxt_in_setn; auto | by apply prv_in_setn].
Qed.

End links.

(** ** The operations *)

Section operations.
Context {T W : Type} `{NodeAlloc T} (N : Z).
Context (invoke : Z -> Z -> Z -> t (T := T) -> W -> outcome (t (T := T) * W)).
Implicit Types (s : t (T := T)) (q : list Z) (h : gmap Z (ListNode T)) (w : W).
Hypothesis HN : 1 < N < 4294967296.

(** The nodes [q] are in the table, each where its key is looked for, and the queue does not
    leave them. *)
Record winv s q : Prop := {
  wi_nodup : NoDup q;
  wi_null : 0 ∉ q;
  wi_size : Z.of_nat (length q) <= N;
  wi_links : queue_ s = 0 /\ q = [] \/ links_in s q;
  wi_table : tinv N s q;
  wi_free : free_ s = 0
}.

Lemma path_inside h a q z :
  path h a q z ->
  (forall p, p ∈ a :: q -> nxt_in h (q ++ [z]) p) /\ (forall p, p ∈ q ++ [z] -> prv_in h (a :: q) p).
Proof.
  revert a. induction q as [| b q IH]; intros a; cbn [path app].
  - intros [Hn Hp]. split; intros p ->%list_elem_of_singleton.
    + exists z. split; [done | by apply list_elem_of_singleton].
    + exists a. split; [done | by apply list_elem_of_singleton].
  - intros [[Hn Hp] Hpath]. destruct (IH b Hpath) as [IHn IHp].
    split; intros p [-> | Hin]%elem_of_cons.
    + exists b. split; [done |]. apply elem_of_cons. by left.
    + destruct (IHn p Hin) as (c & ? & ?). exists c. split; [done |]. apply elem_of_cons. by right.
    + exists a. split; [done |]. apply elem_of_cons. by left.
    + destruct (IHp p Hin) as (c & ? & ?). exists c. split; [done |]. apply elem_of_cons. by right.
Qed.

Lemma ring_inside h q : ring h q -> inside h q.
Proof.
  destruct q as [| a q]; [intros _ p []%not_elem_of_nil |]. intros Hr p Hp.
  destruct (path_inside h a q a Hr) as [Hn Hpr].
  assert (Hperm : forall y, y ∈ q ++ [a] <-> y ∈ a :: q) by (intros y; rewrite elem_of_app, list_elem_of_singleton, elem_of_cons; tauto).
  split.
  - destruct (Hn p Hp) as (b & ? & ?%Hperm). by exists b.
  - apply Hpr. by apply Hperm.
Qed.

(** A queue in order is inside its nodes. *)
Lemma cinv_winv s q : cinv N s q -> winv s q /\ count_ s = Z.of_nat (length q).
Proof.
  intros [[Hnd Hr Hh Hc H0 Hs] Ht Hf]. split; [| done]. split; try done.
  destruct q as [| x q]; [by left | right]. split; [by apply ring_inside | | done].
  rewrite Hh. apply elem_of_cons. by left.
Qed.

Lemma winv_same s s' q :
  winv s q -> links_in s' q -> same_rest s s' -> winv s' q.
Proof.
  intros [Hnd H0 Hs _ Ht Hf] Hl Hr. split; try done; [by right | by eapply tinv_same |].
  destruct Hr as (_ & -> & _). done.
Qed.

Lemma winv_links s q p : winv s q -> p ∈ q -> links_in s q.
Proof. intros Hw Hp. destruct (wi_links _ _ Hw) as [[_ ->] | ?]; [by apply not_elem_of_nil in Hp | done]. Qed.

(** A hit. *)
Lemma Get_hit_in s q p k v :
  winv s q -> 1 <= count_ s <= N -> p ∈ q -> dat (heap s) p = Some (k, v) ->
  exists s', Get N k s = Ok (p, s') /\ winv s' q /\ same_rest s s' /\ count_ s' = count_ s.
Proof.
  intros Hw Hc Hp Hd. pose proof Hw as [Hnd H0 Hs _ Ht Hf].
  destruct (probe_hit N HN s q k p v Ht Hnd H0 Hp Hd) as (j & Hj & Hg & _ & Hloop).
  unfold Get. unfold size at 1. rewrite Hloop. cbn [obind]. rewrite Hg. cbn [obind or_fault].
  rewrite (proj2 (Z.eqb_neq p 0)) by (by intros ->). unfold size.
  rewrite (proj2 (Z.ltb_ge N (j + 1))) by lia. cbn [orb].
  destruct (Promote_in N HN s q _ p (winv_links _ _ _ Hw Hp) Hg Hp Hc) as (s' & -> & Hl' & Hs' & Hc').
  cbn [obind]. assert (Hs2 := Hs'). destruct Hs2 as (-> & _). rewrite Hg. cbn [obind or_fault].
  exists s'. split_and!; [done | by eapply winv_same | done | done].
Qed.

(** The rest of [Set] once a node has been taken: it may be one the queue still leads to. *)
Lemma insert_in s s1 q p k ov :
  alloc s = Ok (p, s1) -> table_ s1 = table_ s -> count_ s1 = count_ s ->
  Z.of_nat (length (table_ s)) = N -> filled (table_ s) ≡ₚ q -> Z.of_nat (length q) < N ->
  0 ∉ q ++ [p] -> is_Some (heap s1 !! p) ->
  (forall y, y ∈ q ++ [p] -> y <> p -> nxt_in (heap s1) (q ++ [p]) y) ->
  (forall y, y ∈ q ++ [p] -> y <> p \/ y = queue_ s1 -> prv_in (heap s1) (q ++ [p]) y) ->
  queue_ s1 = 0 /\ q = [] \/ queue_ s1 ∈ q ++ [p] -> 0 <= count_ s < N ->
  exists v s' j, insert_new N k ov s = Ok (p, s') /\ links_in s' (q ++ [p]) /\
    free_ s' = free_ s1 /\ cb_ s' = cb_ s1 /\ count_ s' = count_ s + 1 /\
    dat (heap s') p = Some (k, default v ov) /\
    (forall y, y <> p -> dat (heap s') y = dat (heap s1) y) /\
    table_ s' = <[Z.to_nat (slot N k j) := p]> (table_ s) /\ 0 <= j < N /\
    lget (table_ s) (slot N k j) = Some 0 /\
    (forall j', 0 <= j' < j -> exists p', lget (table_ s) (slot N k j') = Some p' /\ p' <> 0).
Proof.
  intros Ha Ht1 Hc1 Hl Hp Hroom H0 Ip Hn Hpr Hh Hc.
  destruct (filled_room (table_ s)) as [i Hi]; [rewrite Hp; lia |].
  destruct (Set_loop_spec N HN s k (Z.of_nat i) Hl) as (j & Hj & Hloop & Hg & Hocc).
  { apply lget_Some. split; [lia |]. by rewrite Nat2Z.id. }
  unfold insert_new. unfold size at 1. rewrite Hloop. cbn [obind]. rewrite Ha. cbn [obind].
  assert (Hr := lget_range _ _ _ Hg). rewrite Ht1, lset_in by done. cbn [obind or_fault].
  set (tb := <[Z.to_nat (slot N k j) := p]> (table_ s)).
  set (s2 := mk (heap s1) (queue_ s1) (free_ s1) tb (count_ s1) (cb_ s1)).
  assert (Hpin : p ∈ q ++ [p]) by (apply elem_of_app; right; by apply list_elem_of_singleton).
  assert (Hpush : exists s3, push_back N p s2 = Ok s3 /\ links_in s3 (q ++ [p]) /\ same_rest s2 s3 /\
            count_ s3 = count_ s2 + 1).
  { destruct Hh as [[Hq0 ->] | Hq]; [| by apply push_back_in; try done; cbn; lia].
    apply push_back_first; try done; [by intros -> | cbn; lia]. }
  destruct Hpush as (s3 & -> & Hl3 & (Ht3 & Hf3 & Hcb3 & Hd3) & Hc3). cbn [obind].
  cbn in Ht3, Hf3, Hcb3, Hd3, Hc3.
  destruct (store_kv_ok (heap s3) p k ov) as (v & Hst & Hdp & Hdy & Hn4 & Hp4).
  { eapply inside_live; [apply Hl3 | done]. }
  destruct (store_key p k (heap s3)) as [hp | | |]; try done. cbn [obind] in *.
  rewrite Hst. cbn [obind].
  set (s4 := mk (store_kv (heap s3) p k ov) _ _ _ _ _).
  assert (Hl4 : links_in s4 (q ++ [p])).
  { destruct Hl3 as [Hi3 Hh3 Hz3]. split; try done. intros y Hy. destruct (Hi3 y Hy) as [Hy1 Hy2].
    unfold nxt_in, prv_in. cbn. by rewrite Hn4, Hp4. }
  assert (Hgp : lget (table_ s4) (slot N k j) = Some p) by (cbn; rewrite Ht3; by apply lget_insert_eq).
  destruct (Promote_in N HN s4 _ _ p Hl4 Hgp Hpin) as (s5 & -> & Hl5 & (Ht5 & Hf5 & Hcb5 & Hd5) & Hc5);
    [cbn; lia |]. cbn [obind]. rewrite Ht5, Hgp. cbn [obind or_fault].
  cbn in Ht5, Hf5, Hcb5, Hd5, Hc5. exists v, s5, j.
  split_and!; try done; try congruence; try lia; [| by rewrite Ht5, Ht3].
  intros y Hy. by rewrite Hd5, Hdy, Hd3.
Qed.

(** [Alloc] with room: a new node joins the others. *)
Lemma Alloc_fresh_in s q k w :
  winv s q -> count_ s = Z.of_nat (length q) -> Z.of_nat (length q) < N ->
  k ∉ (abs (heap s) q).*1 ->
  exists p v s', Alloc N invoke k s w = Ok (p, s', w) /\ p ∉ q /\ winv s' (q ++ [p]) /\
    count_ s' = Z.of_nat (length (q ++ [p])) /\ cb_ s' = cb_ s /\
    dat (heap s') p = Some (k, v) /\ forall y, y <> p -> dat (heap s') y = dat (heap s) y.
Proof.
  intros [Hnd H0 Hs Hl Ht Hf] Hc Hroom Hk. unfold Alloc, Set_, count, size. rewrite Hc.
  rewrite (proj2 (Z.leb_gt N _)) by lia. cbn [obind].
  set (p := new_node (heap s)). set (nd := mkNode (key (raw_node p)) 0 0 (value (raw_node p))).
  set (s1 := mk (<[p := nd]> (heap s)) (queue_ s) (free_ s) (table_ s) (count_ s) (cb_ s)).
  assert (Ha : alloc s = Ok (p, s1)) by (unfold alloc; by rewrite (proj2 (Z.eqb_eq _ _) Hf)).
  assert (Hpq : p ∉ q).
  { intros Hin. destruct (t_dom _ _ _ Ht p Hin) as [x Hx]. unfold p in Hx. by rewrite new_node_fresh in Hx. }
  assert (Hsame : forall y, y <> p -> heap s1 !! y = heap s !! y).
  { intros y Hy. cbn. by apply lookup_insert_ne, not_eq_sym. }
  assert (Hold : forall y, y ∈ q ++ [p] -> y <> p ->
            nxt_in (heap s1) (q ++ [p]) y /\ prv_in (heap s1) (q ++ [p]) y).
  { intros y [Hy | Hy]%elem_of_app Hne; [| by apply list_elem_of_singleton in Hy].
    destruct Hl as [[_ ->] | [Hi _ _]]; [by apply not_elem_of_nil in Hy |].
    destruct (Hi y Hy) as [(a & Ha1 & Ha2) (b & Hb1 & Hb2)].
    split; [exists a | exists b]; (split; [| apply elem_of_app; by left]); unfold nxt, prv; by rewrite Hsame. }
  destruct (insert_in s s1 q p k None) as
    (v & s' & j & -> & Hl' & Hf' & Hcb' & Hc' & Hdp & Hdy & Htb & Hj & Hg & Hocc); try done.
  - apply Ht.
  - apply Ht.
  - rewrite elem_of_app, list_elem_of_singleton. intros [? | E]; [done |]. by apply (new_node_nonnull (heap s)).
  - cbn. rewrite lookup_insert_eq. by eexists.
  - intros y Hy Hne. by apply Hold.
  - intros y Hy Hne. apply Hold; [done |]. destruct Hne as [? | ->]; [done |]. intros E.
    cbn in E. destruct Hl as [[Hq0 _] | [_ Hh _]]; [| by rewrite E in Hh].
    apply (new_node_nonnull (heap s)). change (p = 0). congruence.
  - cbn. destruct Hl as [? | [_ Hh _]]; [by left | right]. apply elem_of_app. by left.
  - lia.
  - cbn [obind]. assert (Hdat : forall y, y <> p -> dat (heap s') y = dat (heap s) y).
    { intros y Hy. rewrite Hdy by done. unfold dat. by rewrite Hsame. }
    assert (Hlen : length (q ++ [p]) = S (length q)) by (rewrite length_app; cbn; lia).
    exists p, v, s'. split_and!; try done; [| lia].
    split; try done; [| apply Hl' | lia | by right | | by rewrite Hf'].
    + apply NoDup_app. split_and!; [done | | apply NoDup_singleton]. intros y Hy ->%list_elem_of_singleton. done.
    + eapply (tinv_insert N HN s s' q p k v j); try done; try apply Ht; try (by right).
      * apply new_node_nonnull.
      * intros y Hy. apply Hdat. by intros ->.
Qed.

(** What is asked of the callback when it is given the node of a key, while the number of
    cached entries is one less: it may look the cache up, as [Get] does, and it achieves
    [post]. *)
Definition callback_ok s q w (post : Z -> T -> W -> Prop) : Prop :=
  forall s1 p k v, winv s1 q -> count_ s1 = N - 1 -> same_rest s s1 ->
    p ∈ q -> dat (heap s) p = Some (k, v) ->
    exists s2 w', invoke (cb_ s1) k p s1 w = Ok (s2, w') /\ winv s2 q /\ same_rest s1 s2 /\
      count_ s2 = count_ s1 /\ post k v w'.

(** The eviction leaves the node of some key in the pool, still linked into the queue. *)
Lemma evict_in s q w post :
  winv s q -> count_ s = N -> q <> [] -> cb_ s <> 0 -> callback_ok s q w post ->
  exists q1 x q2 kx vx s' w', q = q1 ++ x :: q2 /\ dat (heap s) x = Some (kx, vx) /\
    evict N invoke s w = Ok (s', w') /\ post kx vx w' /\ count_ s' = N - 1 /\ cb_ s' = cb_ s /\
    Z.of_nat (length (table_ s')) = N /\ filled (table_ s') ≡ₚ q1 ++ q2 /\ free_ s' = x /\
    nxt (heap s') x = Some 0 /\ queue_ s' ∈ q /\ (forall y, dat (heap s') y = dat (heap s) y) /\
    (forall y, y ∈ q -> y <> x -> nxt_in (heap s') q y) /\ (forall y, y ∈ q -> prv_in (heap s') q y).
Proof.
  intros Hw Hc Hne Hcb Hok. pose proof Hw as [Hnd H0 Hs Hl Ht Hf].
  destruct Hl as [[_ ->] | Hl]; [done |]. pose proof Hl as [_ Hx _]. set (x := queue_ s) in *.
  unfold evict, front, kassert. fold x.
  rewrite (proj2 (Z.eqb_neq x 0)) by (intros E; by rewrite E in Hx). cbn [negb obind].
  destruct (pop_front_in N HN s q Hl) as (s1 & -> & Hl1 & Hs1 & Hc1); [lia |]. cbn [obind].
  pose proof (winv_same _ _ _ Hw Hl1 Hs1) as Hw1.
  destruct (t_dom _ _ _ (wi_table _ _ Hw1) x Hx) as [nd Hn].
  assert (Hld : load (heap s1) x = Ok nd) by (unfold load; by rewrite Hn).
  rewrite Hld. cbn [obind].
  assert (Hdx : dat (heap s1) x = Some (key nd, value nd)) by (unfold dat; by rewrite Hn).
  assert (Hdx0 : dat (heap s) x = Some (key nd, value nd)).
  { rewrite <- Hdx. symmetry. by apply Hs1. }
  destruct (erase_loop_ok N HN s1 q (key nd) x _ (wi_table _ _ Hw1) Hnd H0 Hx Hdx) as (j & Hj & Hg & He).
  unfold erase. unfold size at 1. rewrite He. cbn [obind]. rewrite Hg. cbn [obind or_fault].
  unfold free. assert (Hcb1 : cb_ s1 = cb_ s) by apply Hs1. rewrite Hcb1.
  rewrite (proj2 (Z.eqb_neq (cb_ s) 0)) by done. rewrite Hld. cbn [obind].
  destruct (Hok s1 x (key nd) (value nd) Hw1) as (s2 & w' & Hinv & Hw2 & Hs2 & Hc2 & Hpost); try done; [lia |].
  rewrite Hcb1 in Hinv. rewrite Hinv. cbn [obind].
  pose proof (winv_links _ _ _ Hw2 Hx) as [Hi2 Hh2 _].
  rewrite store_next_ok by (by eapply inside_live). cbn [obind table_].
  assert (Ht2 : table_ s2 = table_ s1) by apply Hs2.
  rewrite Ht2, lset_in by (by eapply lget_range). cbn [obind or_fault].
  destruct (list_elem_of_split _ _ Hx) as (q1 & q2 & Eq).
  exists q1, x, q2, (key nd), (value nd). eexists _, w'.
  assert (Hfree : free_ s2 = 0) by apply Hw2.
  split; [done |]. split; [done |]. split; [reflexivity |]. cbn.
  split_and!; try done; [lia | | | | | | |].
  - destruct Hs2 as (_ & _ & -> & _). done.
  - rewrite length_insert. apply (wi_table _ _ Hw1).
  - assert (Hg' := Hg). apply lget_Some in Hg' as [_ Hg'].
    apply (Permutation_cons_inv (a := x)). rewrite Permutation_middle, <- Eq, <- (t_perm _ _ _ (wi_table _ _ Hw1)).
    symmetry. apply filled_clear; [done |]. intros E. by rewrite E in Hx.
  - rewrite nxt_setn, decide_True, Hfree by done. apply const_Some. by eapply inside_live.
  - intros y. heap_lookups. destruct Hs2 as (_ & _ & _ & ->). by apply Hs1.
  - intros y Hy Hyx. unfold nxt_in. rewrite nxt_setn, decide_False by done. by apply Hi2.
  - intros y Hy. apply prv_in_setn. by apply Hi2.
Qed.

(** [Alloc] in a full cache: the node of some other key is given to the new one, after the
    callback has had that key. *)
Lemma Alloc_evict_in s q k w post :
  winv s q -> count_ s = N -> Z.of_nat (length q) = N -> cb_ s <> 0 -> callback_ok s q w post ->
  k ∉ (abs (heap s) q).*1 ->
  exists q1 p q2 kp vp v s' w', q = q1 ++ p :: q2 /\ dat (heap s) p = Some (kp, vp) /\
    Alloc N invoke k s w = Ok (p, s', w') /\ post kp vp w' /\ winv s' ((q1 ++ q2) ++ [p]) /\
    count_ s' = N /\ cb_ s' = cb_ s /\ dat (heap s') p = Some (k, v) /\
    forall y, y <> p -> dat (heap s') y = dat (heap s) y.
Proof.
  intros Hw Hc Hlen Hcb Hok Hk. unfold Alloc, Set_, count, size. rewrite Hc, Z.leb_refl.
  destruct (evict_in s q w post Hw Hc) as
    (q1 & p & q2 & kp & vp & s1 & w' & -> & Hdp & -> & Hpost & Hc1 & Hcb1 & Hl1 & Hp1 & Hf1 & Hn1 & Hq1 & Hd1 & Hnx & Hpr);
    try done; [by intros ->; cbn in Hlen; lia |]. cbn [obind].
  pose proof Hw as [Hnd H0 _ _ Ht _].
  assert (Hperm : q1 ++ p :: q2 ≡ₚ (q1 ++ q2) ++ [p]).
  { rewrite <- Permutation_middle, Permutation_cons_append. done. }
  assert (Hin : forall y, y ∈ q1 ++ p :: q2 <-> y ∈ (q1 ++ q2) ++ [p]) by (intros y; by rewrite Hperm).
  assert (Hpp : p ∈ q1 ++ p :: q2) by (apply elem_of_app; right; apply elem_of_cons; by left).
  assert (Hp0 : p <> 0) by (by intros ->).
  pose proof Hnd as Hnd'. rewrite Hperm in Hnd'. apply NoDup_app in Hnd' as (Hndr & Hpr' & _).
  assert (Hpr0 : p ∉ q1 ++ q2) by (intros E; by apply (Hpr' p E), list_elem_of_singleton).
  destruct (load_nxt _ _ _ Hn1) as (nd & Hld & Hnn).
  set (s2 := mk (heap s1) (queue_ s1) 0 (table_ s1) (count_ s1) (cb_ s1)).
  assert (Ha : alloc s1 = Ok (p, s2)).
  { unfold alloc. rewrite Hf1, (proj2 (Z.eqb_neq p 0)), Hld by done. cbn [obind]. by rewrite Hnn. }
  assert (Hlen' : Z.of_nat (length (q1 ++ q2)) = N - 1) by (rewrite Hperm, length_app in Hlen; cbn in Hlen; lia).
  assert (Hsub : forall y, nxt_in (heap s1) (q1 ++ p :: q2) y -> nxt_in (heap s1) ((q1 ++ q2) ++ [p]) y).
  { intros y (a & ? & ?%Hin). by exists a. }
  destruct (insert_in s1 s2 (q1 ++ q2) p k None) as
    (v & s' & j & -> & Hl' & Hf' & Hcb' & Hc' & Hdp' & Hdy & Htb & Hj & Hg & Hocc); try done; try lia.
  - by rewrite <- Hin.
  - by eapply is_Some_nxt.
  - intros y Hy%Hin Hne. apply Hsub. by apply Hnx.
  - intros y Hy%Hin _. destruct (Hpr y Hy) as (a & ? & ?%Hin). by exists a.
  - right. by apply Hin.
  - cbn [obind]. assert (Hdat : forall y, y <> p -> dat (heap s') y = dat (heap s) y).
    { intros y Hy. rewrite Hdy by done. apply Hd1. }
    assert (Habs : abs (heap s1) (q1 ++ q2) = abs (heap s) (q1 ++ q2)) by (by apply abs_ext).
    assert (Hkeys := t_keys _ _ _ Ht).
    assert (Hsplit : (abs (heap s) (q1 ++ p :: q2)).*1 ≡ₚ kp :: (abs (heap s) (q1 ++ q2)).*1).
    { rewrite !abs_app, (abs_cons _ _ _ _ Hdp), !fmap_app, fmap_cons. by rewrite Permutation_middle. }
    rewrite Hsplit in Hkeys. apply NoDup_cons in Hkeys as [_ Hkeys].
    rewrite Hsplit in Hk. apply not_elem_of_cons in Hk as [_ Hk].
    exists q1, p, q2, kp, vp, v, s', w'. split_and!; try done; [| lia | by rewrite Hcb'].
    split; [by rewrite <- Hperm | apply Hl' | rewrite <- Hperm; lia | by right | | by rewrite Hf'].
    eapply (tinv_insert N HN s1 s' (q1 ++ q2) p k v j); try done; rewrite ?Habs; try done.
    + intros y Hy. apply dat_is_Some. rewrite Hd1. apply dat_is_Some, (t_dom _ _ _ Ht).
      rewrite Hin. apply elem_of_app. by left.
    + intros y Hy. rewrite Hdat, Hd1; [done |]. by intros ->.
    + left. by rewrite <- Hperm.
Qed.

(** ** The cache as a map

    Whatever the order of the queue, a cache is a finite map from keys to values, of at most
    [N] keys. *)

(** The cache holds the map [m], with [p] as the node of [k] when one is given. *)
Record holds s (m : gmap Z T) q : Prop := {
  ho_inv : winv s q;
  ho_count : count_ s = Z.of_nat (length q);
  ho_map : forall k v, m !! k = Some v <-> exists p, p ∈ q /\ dat (heap s) p = Some (k, v)
}.

Definition holds_map s (m : gmap Z T) : Prop := exists q, holds s m q.
Definition holds_at s (m : gmap Z T) p k v : Prop :=
  exists q, holds s m q /\ p ∈ q /\ dat (heap s) p = Some (k, v).

Lemma holds_at_map s m p k v : holds_at s m p k v -> holds_map s m /\ p <> 0 /\ m !! k = Some v.
Proof.
  intros (q & Hh & Hp & Hd). split_and!; [by exists q | |].
  - intros ->. by apply (wi_null _ _ (ho_inv _ _ _ Hh)).
  - apply (ho_map _ _ _ Hh). eauto.
Qed.

Lemma holds_abs s m q : holds s m q -> m = list_to_map (abs (heap s) q).
Proof.
  intros [Hw _ Hm]. apply map_eq. intros k. apply option_eq. intros v. rewrite Hm.
  rewrite <- elem_of_list_to_map by apply (wi_table _ _ Hw). symmetry. apply abs_elem.
Qed.

Lemma holds_size s m q : holds s m q -> base.size m = length q.
Proof.
  intros Hh. pose proof (ho_inv _ _ _ Hh) as Hw.
  rewrite (holds_abs _ _ _ Hh), map_size_list_to_map by apply (wi_table _ _ Hw).
  apply abs_length, (wi_table _ _ Hw).
Qed.

Lemma holds_bound s m : holds_map s m -> Z.of_nat (base.size m) <= N.
Proof. intros [q Hh]. rewrite (holds_size _ _ _ Hh). apply Hh. Qed.

Lemma holds_miss s m q k : holds s m q -> m !! k = None -> k ∉ (abs (heap s) q).*1.
Proof.
  intros Hh Hk (p & v & Hp & Hd)%abs_key_elem.
  enough (m !! k = Some v) by congruence. apply (ho_map _ _ _ Hh). eauto.
Qed.

(** A cache in order holds the map of its list. *)
Lemma repr_holds s l : repr N s l -> exists q, holds s (list_to_map l) q.
Proof.
  intros (q & Hc & <-). destruct (cinv_winv s q Hc) as [Hw Hn]. exists q. split; try done.
  intros k v. rewrite <- elem_of_list_to_map by apply (wi_table _ _ Hw). apply abs_elem.
Qed.

(** The node at [p] is in the table, with that key and value.  A pointer into the cache is
    good as long as this holds. *)
Definition cached s p k v : Prop := p ∈ filled (table_ s) /\ dat (heap s) p = Some (k, v).
Definition keeps s s' : Prop := forall p k v, cached s p k v -> cached s' p k v.

Lemma holds_at_cached s m p k v : holds_at s m p k v <-> holds_map s m /\ cached s p k v.
Proof.
  split.
  - intros (q & Hh & Hp & Hd). split; [by exists q |]. split; [| done].
    by rewrite (t_perm _ _ _ (wi_table _ _ (ho_inv _ _ _ Hh))).
  - intros [[q Hh] [Hp Hd]]. exists q. split_and!; try done.
    by rewrite <- (t_perm _ _ _ (wi_table _ _ (ho_inv _ _ _ Hh))).
Qed.

Lemma same_keeps s s' : same_rest s s' -> keeps s s'.
Proof. intros (Ht & _ & _ & Hd) p k v [Hp Hv]. split; [by rewrite Ht | by rewrite Hd]. Qed.

(** [Get] is the lookup of the map, and changes nothing that the map shows. *)
Lemma Get_map s m k :
  holds_map s m ->
  exists p s', Get N k s = Ok (p, s') /\ cb_ s' = cb_ s /\ keeps s s' /\
    match m !! k with Some v => holds_at s' m p k v | None => p = 0 /\ s' = s end.
Proof.
  intros [q Hh]. pose proof Hh as [Hw Hc Hm]. destruct (m !! k) as [v |] eqn:E.
  - apply Hm in E as (p & Hp & Hd).
    destruct (Get_hit_in s q p k v Hw) as (s' & Hg & Hw' & Hs & Hc'); [| done | done |].
    { rewrite Hc. destruct q; [by apply not_elem_of_nil in Hp |]. pose proof (wi_size _ _ Hw). cbn in *. lia. }
    exists p, s'. pose proof (same_keeps _ _ Hs). destruct Hs as (Ht & Hf & Hcb & Hdat). split_and!; try done.
    exists q. split_and!; [| done | by rewrite Hdat]. split; [done | lia |].
    intros k' v'. rewrite Hm. by setoid_rewrite Hdat.
  - exists 0, s. split_and!; try done; [| by intros ???].
    apply (Get_miss N HN s q); [apply Hw | by apply (holds_miss s m)].
Qed.

(** [Alloc] of a key that is missing adds it, with the value its node happens to have; in a full
    cache another key is given to the callback and leaves. *)
Lemma Alloc_map s m k w post :
  holds_map s m -> m !! k = None ->
  (Z.of_nat (base.size m) = N -> cb_ s <> 0 /\ forall q, holds s m q -> callback_ok s q w post) ->
  exists p v s' w' m', Alloc N invoke k s w = Ok (p, s', w') /\ cb_ s' = cb_ s /\
    holds_at s' (<[k := v]> m') p k v /\
    (m' = m /\ w' = w /\ keeps s s' \/
     Z.of_nat (base.size m) = N /\ exists kp vp, m !! kp = Some vp /\ m' = delete kp m /\ post kp vp w').
Proof.
  intros [q Hh] Hk Hfull. pose proof Hh as [Hw Hc Hm]. pose proof (holds_miss _ _ _ _ Hh Hk) as Hka.
  rewrite (holds_size _ _ _ Hh) in Hfull. pose proof (wi_size _ _ Hw) as Hsz.
  destruct (decide (Z.of_nat (length q) = N)) as [Hlen | Hlen].
  - destruct (Hfull Hlen) as [Hcb Hok].
    destruct (Alloc_evict_in s q k w post Hw) as
      (q1 & p & q2 & kp & vp & v & s' & w' & -> & Hdp & Ha & Hpost & Hw' & Hc' & Hcb' & Hd' & Hdat); try done; [lia | auto |].
    exists p, v, s', w', (delete kp m). split_and!; try done.
    + exists ((q1 ++ q2) ++ [p]). split_and!; [| apply elem_of_app; right; by apply list_elem_of_singleton | done].
      split; [done | rewrite Hc', <- Hlen, !length_app; cbn; lia |].
      pose proof (wi_nodup _ _ Hw') as Hnd. apply NoDup_app in Hnd as (_ & Hp & _).
      intros k' v'. rewrite lookup_insert_Some, lookup_delete_Some, Hm. split.
      * intros [[<- <-] | (Hne & Hkp & y & Hy & Hdy)].
        { exists p. split; [apply elem_of_app; right; by apply list_elem_of_singleton | done]. }
        assert (Hyp : y <> p) by (intros ->; congruence). exists y. split; [| by rewrite Hdat].
        rewrite !elem_of_app. rewrite elem_of_app, elem_of_cons in Hy. tauto.
      * intros (y & [Hy | ->%list_elem_of_singleton]%elem_of_app & Hdy); [right | left; split; congruence].
        assert (Hyp : y <> p) by (intros ->; by apply (Hp p Hy), list_elem_of_singleton).
        rewrite Hdat in Hdy by done.
        assert (Hyq : y ∈ q1 ++ p :: q2) by (rewrite elem_of_app in *; rewrite elem_of_cons; tauto).
        split_and!; [| | eauto].
        { intros <-. apply Hka, abs_key_elem. eauto. }
        { intros ->. apply Hyp. eapply (abs_key_inj (heap s) (q1 ++ p :: q2) y p k'); try done; [apply (wi_table _ _ Hw) |].
          apply elem_of_app. right. apply elem_of_cons. by left. }
    + right. split; [by rewrite (holds_size _ _ _ Hh) |]. exists kp, vp. split_and!; [| done | done]. apply Hm. exists p. split; [| done].
      apply elem_of_app. right. apply elem_of_cons. by left.
  - destruct (Alloc_fresh_in s q k w Hw) as (p & v & s' & Ha & Hpq & Hw' & Hc' & Hcb' & Hd' & Hdat);
      try done; [lia |].
    exists p, v, s', w, m. split_and!; try done; [| left; split_and!; try done].
    2: { intros y k' v' [Hy Hd]. rewrite (t_perm _ _ _ (wi_table _ _ Hw)) in Hy.
         split; [| by rewrite Hdat by (by intros ->)].
         rewrite (t_perm _ _ _ (wi_table _ _ Hw')). apply elem_of_app. by left. }
    exists (q ++ [p]). split_and!; [| apply elem_of_app; right; by apply list_elem_of_singleton | done].
    split; try done. intros k' v'. rewrite lookup_insert_Some, Hm. split.
    + intros [[<- <-] | (Hne & y & Hy & Hdy)].
      { exists p. split; [apply elem_of_app; right; by apply list_elem_of_singleton | done]. }
      exists y. rewrite Hdat by (by intros ->). split; [apply elem_of_app; by left | done].
    + intros (y & [Hy | ->%list_elem_of_singleton]%elem_of_app & Hdy); [right | left; split; congruence].
      rewrite Hdat in Hdy by (by intros ->). split; [| eauto].
      intros <-. apply Hka, abs_key_elem. eauto.
Qed.

(** A store through a node's address. *)
Lemma store_map s m p k v v' :
  holds_at s m p k v ->
  exists h, store_value p v' (heap s) = Ok h /\
    holds_at (mk h (queue_ s) (free_ s) (table_ s) (count_ s) (cb_ s)) (<[k := v']> m) p k v' /\
    forall p' k' u, k' <> k -> cached s p' k' u ->
      cached (mk h (queue_ s) (free_ s) (table_ s) (count_ s) (cb_ s)) p' k' u.
Proof.
  intros (q & [Hw Hc Hm] & Hp & Hd). pose proof Hw as [Hnd H0 Hs Hl Ht Hf].
  destruct (store_tinv N invoke HN s q p k v v' Ht Hp Hd) as (Hst & Ha & Ht').
  assert (Hdat : forall y, dat (setv p v' (heap s)) y = if decide (y = p) then Some (k, v') else dat (heap s) y).
  { intros y. rewrite dat_setv. case_decide as E; [subst; by rewrite Hd | done]. }
  exists (setv p v' (heap s)). split; [done |]. split.
  2: { intros p' k' u Hne [Hp' Hd']. split; [done |]. cbn. rewrite Hdat, decide_False by congruence. done. }
  exists q. cbn. split_and!; [| done | by rewrite Hdat, decide_True by done]. split; [| done |].
  - split; try done. destruct Hl as [? | [Hi Hh Hz]]; [by left | right]. split; try done.
    intros y Hy. unfold nxt_in, prv_in. cbn. rewrite nxt_setv, prv_setv. by apply Hi.
  - intros k' u. cbn. rewrite lookup_insert_Some, Hm. setoid_rewrite Hdat. split.
    + intros [[<- <-] | (Hne & y & Hy & Hdy)]; [exists p; by rewrite decide_True |].
      exists y. rewrite decide_False by (intros ->; congruence). done.
    + intros (y & Hy & Hdy). case_decide as E; [left; split; congruence | right]. split; [| eauto].
      intros <-. apply E. eapply (abs_key_inj (heap s) q y p k); try done; apply Ht.
Qed.

End operations.
