(* ===== verification/Heap.v ===== *)
(** * The kernel heap ([include/ILAllocator.hpp], [lib/kmalloc.cc], [lib/new.cc])

    [ImplicitListAllocator] on byte memory: the headers are words in memory, and
    the list of blocks is what a walk from [mstart_] to [mend_] finds.
    [heap_at] relates memory to that list. *)

From stdpp Require Import prelude gmap strings.
From Stdlib Require Import ZArith Lia.
From S2P Require Import Prelude CString.

Module ImplicitListAllocator.

(** [mstart_] and [mend_]. *)
Record t := mk { mstart_ : Z; mend_ : Z }.

Inductive AllocState := kFree | kAllocated.

Definition state_bit (a : AllocState) : Z := match a with kFree => 0 | kAllocated => 1 end.

Definition record (block size : Z) (allocated : AllocState) (m : mem) : mem :=
  store32 block (Z.lor size (Z.land (state_bit allocated) 1)) m.

Definition size_of_block (m : mem) (block : Z) : Z := Z.land (load32 m block) 0xFFFFFFFE.

Definition is_allocated (m : mem) (block : Z) : bool := negb (Z.land (load32 m block) 1 =? 0).

Definition next_block (m : mem) (block : Z) : Z :=
  u32 (block + u32 (size_of_block m block + 4)).

Definition slice_block (block size : Z) : Z := u32 (block + size + 4).

(** The constructor; [set_bound] has the same body. *)
Definition make (start end_ : Z) (m : mem) : t * mem :=
  (mk start end_, record start (u32 (end_ - start - 4)) kFree m).

Definition set_bound (start end_ : Z) (m : mem) : t * mem :=
  (mk start end_, record start (u32 (end_ - start - 4)) kFree m).

(** [if (size & 0b1) size += 1;] *)
Definition round_up (size : Z) : Z := if Z.land size 1 =? 0 then size else u32 (size + 1).

(** The body of the [if] in [alloc]: take the block at [cur]. *)
Definition take_block (cur block_size size : Z) (m : mem) : mem :=
  let remain := slice_block cur size in
  let remain_size := u32 (block_size - 4 - size) in
  if 0 <? remain_size then
    record remain remain_size kFree (record cur size kAllocated m)
  else record cur block_size kAllocated m.

(** The loop of [alloc], from [cur]; the result is the pointer returned (0 for
    [nullptr]) and memory. *)
Fixpoint alloc_loop (fuel : nat) (a : t) (cur size : Z) (m : mem) : outcome (Z * mem) :=
  match fuel with
  | O => NoFuel
  | S f =>
      if cur =? mend_ a then Ok (0, m)
      else
        let block_size := size_of_block m cur in
        if (size <=? block_size) && negb (is_allocated m cur) then
          Ok (u32 (cur + 4), take_block cur block_size size m)
        else alloc_loop f a (next_block m cur) size m
  end.

Definition alloc (fuel : nat) (a : t) (size : Z) (m : mem) : outcome (Z * mem) :=
  alloc_loop fuel a (mstart_ a) (round_up size) m.

Definition free (pos : Z) (m : mem) : mem :=
  let block := u32 (pos - 4) in
  if negb (is_allocated m (next_block m block)) then
    let new_size := u32 (size_of_block m block + 4 + size_of_block m (next_block m block)) in
    record block new_size kFree m
  else record block (size_of_block m block) kFree m.

End ImplicitListAllocator.
Import ImplicitListAllocator.

(** ** [kmalloc] and [operator new] *)

Definition kHeapStart : Z := 0xD0000000.
Definition kHeapEnd : Z := 0xD1000000.

(** The static [allocator], and [init_heap], which constructs it in place. *)
Definition init_heap (m : mem) : t * mem := make kHeapStart kHeapEnd m.

Definition kmalloc (fuel : nat) (allocator : t) (size : Z) (m : mem) : outcome (Z * mem) :=
  alloc fuel allocator size m.

Definition kfree (pos : Z) (m : mem) : mem := free pos m.

Definition operator_new (fuel : nat) (allocator : t) (count : Z) (m : mem) : outcome (Z * mem) :=
  kmalloc fuel allocator count m.

(** Placement [new]. *)
Definition operator_new_at (count ptr : Z) : Z := ptr.

Definition operator_delete (ptr : Z) (m : mem) : mem := kfree ptr m.

(** ** The specification *)

(** A block: its size without the header, and whether it is allocated. *)
Definition block : Type := Z * bool.

Definition span (b : block) : Z := 4 + fst b.

Definition extent (bs : list block) : Z := foldr (fun b n => span b + n) 0 bs.

(** The blocks [bs] fill memory from [a] to [e]. *)
Fixpoint heap_at (m : mem) (a : Z) (bs : list block) (e : Z) : Prop :=
  match bs with
  | [] => a = e
  | (sz, al) :: bs' =>
      load32 m a = sz + Z.b2z al /\ 0 <= sz /\ sz mod 2 = 0 /\ a + 4 + sz <= e /\
      heap_at m (a + 4 + sz) bs' e
  end.

Definition fits (sz : Z) (b : block) : bool := (sz <=? fst b) && negb (snd b).

(** First fit: the offset of the payload, and the blocks after. *)
Fixpoint alloc_spec (sz : Z) (bs : list block) : option (Z * list block) :=
  match bs with
  | [] => None
  | b :: bs' =>
      if fits sz b then
        Some (4, if fst b - 4 - sz =? 0 then (fst b, true) :: bs'
                 else (sz, true) :: (fst b - 4 - sz, false) :: bs')
      else
        match alloc_spec sz bs' with
        | None => None
        | Some (o, bs'') => Some (span b + o, b :: bs'')
        end
  end.

(** The block that first fit takes has room for a second header, or is exactly
    one header too large. *)
Fixpoint splits (sz : Z) (bs : list block) : Prop :=
  match bs with
  | [] => True
  | b :: bs' => if fits sz b then sz + 4 <= fst b else splits sz bs'
  end.

(** ** Lemmas *)

Lemma header_decode w sz al :
  w = sz + Z.b2z al -> 0 <= sz -> sz mod 2 = 0 -> sz < 4294967296 ->
  Z.land w 0xFFFFFFFE = sz /\ negb (Z.land w 1 =? 0) = al.
Proof.
  intros -> H0 Hm Hb. assert (Z.b2z al = 0 \/ Z.b2z al = 1) by (destruct al; simpl; lia).
  split.
  - change 0xFFFFFFFE with (2 ^ 32 - 2 ^ 1). rewrite land_high by (simpl; zlia).
    change (2 ^ 1) with 2. zlia.
  - change 1 with (2 ^ 1 - 1) at 1. rewrite land_low by lia. change (2 ^ 1) with 2.
    replace ((sz + Z.b2z al) mod 2) with (Z.b2z al) by zlia. by destruct al.
Qed.

Lemma header_encode sz a :
  0 <= sz -> sz mod 2 = 0 -> Z.lor sz (Z.land (state_bit a) 1) = sz + state_bit a.
Proof.
  intros H0 Hm. replace (Z.land (state_bit a) 1) with (state_bit a) by (by destruct a).
  apply (lor_add sz _ 1); [lia | done | by destruct a].
Qed.

Lemma extent_cons b bs : extent (b :: bs) = 4 + fst b + extent bs.
Proof. done. Qed.

Lemma heap_at_le m a bs e : heap_at m a bs e -> a <= e.
Proof. revert a. induction bs as [| [sz al] bs IH]; intros a; simpl; [lia |]. intros (?&?&?&?&?). lia. Qed.

Lemma heap_at_app m a l1 l2 e :
  heap_at m a (l1 ++ l2) e <->
  heap_at m a l1 (a + extent l1) /\ a + extent l1 <= e /\ heap_at m (a + extent l1) l2 e.
Proof.
  revert a. induction l1 as [| [sz al] l1 IH]; intros a; cbn [app heap_at]; rewrite ?extent_cons.
  - change (extent []) with 0. rewrite Z.add_0_r. split; [intros H; split_and!; [done | by eapply heap_at_le | done] | by intros (_ & _ & ?)].
  - cbn [fst]. rewrite IH.
    replace (a + (4 + sz + extent l1)) with (a + 4 + sz + extent l1) by lia.
    split.
    + intros (?&?&?&?&H1&?&?). pose proof (heap_at_le _ _ _ _ H1). split_and!; try done; lia.
    + intros ((?&?&?&?&?)&?&?). split_and!; try done; lia.
Qed.

Lemma heap_at_ext m m' a bs e :
  heap_at m a bs e -> (forall x, a <= x -> x + 4 <= e -> load32 m' x = load32 m x) ->
  heap_at m' a bs e.
Proof.
  revert a. induction bs as [| [sz al] bs IH]; intros a; [done |]. cbn [heap_at].
  intros (Hw & ? & ? & ? & Hr) Hx. rewrite Hx by lia. split_and!; try done.
  apply IH; [done |]. intros x ??. apply Hx; lia.
Qed.

(** A header outside a range of blocks does not change it. *)
Lemma heap_at_store m a bs e x v :
  heap_at m a bs e -> e <= x \/ x + 4 <= a -> heap_at (store32 x v m) a bs e.
Proof.
  intros H Hx. eapply heap_at_ext; [done |]. intros y ??. apply load32_store32_ne. lia.
Qed.

(** One step of the walk over the blocks. *)
Lemma walk_step m a sz al bs e :
  heap_at m a ((sz, al) :: bs) e -> 0 <= a -> e < 4294967296 ->
  size_of_block m a = sz /\ is_allocated m a = al /\ next_block m a = a + 4 + sz.
Proof.
  intros (Hw & H0 & Hm & Hle & Hr) Ha He.
  destruct (header_decode _ _ _ Hw H0 Hm) as [Hs Hal]; [lia |].
  unfold next_block, size_of_block, is_allocated. rewrite Hs, Hal. split_and!; try done.
  rewrite !u32_small by (rewrite ?u32_small; lia). lia.
Qed.

Lemma load32_record a x sz s m :
  0 <= sz < 4294967296 -> sz mod 2 = 0 ->
  load32 (record a sz s m) x =
    if decide (x = a) then sz + state_bit s else load32 (record a sz s m) x.
Proof.
  intros H0 Hm. case_decide as Hx; [subst | done]. unfold record.
  rewrite header_encode by (done || lia). apply load32_store32_eq. destruct s; simpl; zlia.
Qed.

(** Taking a block that splits. *)
Lemma take_block_ok m a b sz bs e :
  heap_at m a ((b, false) :: bs) e -> 0 <= a -> e < 4294967296 ->
  0 <= sz -> sz mod 2 = 0 -> sz + 4 <= b ->
  heap_at (take_block a b sz m) a
    (if b - 4 - sz =? 0 then (b, true) :: bs else (sz, true) :: (b - 4 - sz, false) :: bs) e /\
  forall x, x < a \/ a + 4 + b <= x -> load8 (take_block a b sz m) x = load8 m x.
Proof.
  intros (Hw & H0 & Hm & Hle & Hr) Ha He Hsz Hsm Hroom. unfold take_block, slice_block.
  rewrite (u32_small (b - 4 - sz)), (u32_small (a + sz + 4)) by lia.
  assert (Hfree : (b - 4 - sz) mod 2 = 0) by zlia.
  assert (Hrec : forall x y n s m, y < x \/ x + 4 <= y -> load8 (record x n s m) y = load8 m y).
  { intros x y n s m' Hy. unfold record, store32. rewrite load8_store_bytes, length_le_encode.
    by rewrite decide_False by lia. }
  destruct (Z.eqb_spec (b - 4 - sz) 0) as [Hz | Hz], (Z.ltb_spec 0 (b - 4 - sz)); try lia.
  - split.
    + cbn [heap_at]. rewrite load32_record, decide_True by (done || lia). split_and!; try done.
      apply heap_at_store; [done | lia].
    + intros x Hx. apply Hrec. lia.
  - split.
    + cbn [heap_at]. unfold record at 1. rewrite load32_store32_ne by lia.
      rewrite load32_record, decide_True by (done || lia).
      split_and!; try done; try lia.
      { replace (a + 4 + sz) with (a + sz + 4) by lia.
        by rewrite load32_record, decide_True by (done || lia). }
      replace (a + 4 + sz) with (a + sz + 4) by lia.
      replace (a + sz + 4 + 4 + (b - 4 - sz)) with (a + 4 + b) by lia.
      apply heap_at_store; [| lia]. apply heap_at_store; [done | lia].
    + intros x Hx. rewrite !Hrec by lia. done.
Qed.

(** The loop passes over the blocks that do not fit. *)
Lemma alloc_loop_skip fuel h a l1 sz m :
  heap_at m a l1 (a + extent l1) -> 0 <= a -> a + extent l1 <= mend_ h < 4294967296 ->
  Forall (fun b => fits sz b = false) l1 ->
  alloc_loop (length l1 + fuel) h a sz m = alloc_loop fuel h (a + extent l1) sz m.
Proof.
  revert a. induction l1 as [| [b al] l1 IH]; intros a Hh Ha He Hf.
  - change (extent []) with 0. by rewrite Z.add_0_r.
  - apply Forall_cons in Hf as [Hb Hf]. rewrite extent_cons in *. cbn [fst] in *.
    destruct (walk_step _ _ _ _ _ _ Hh Ha) as (Hs & Hal & Hn); [lia |].
    destruct Hh as (_ & H0 & _ & Hle & Hr). pose proof (heap_at_le _ _ _ _ Hr).
    cbn [length Nat.add alloc_loop].
    destruct (Z.eqb_spec a (mend_ h)); [lia |].
    rewrite Hs, Hal, Hn. unfold fits in Hb. cbn [fst snd] in Hb. rewrite Hb.
    replace (a + (4 + b + extent l1)) with (a + 4 + b + extent l1) in * by lia.
    apply IH; [done | lia | lia | done].
Qed.

Lemma fits_dec sz bs :
  Forall (fun b => fits sz b = false) bs \/
  exists l1 b l2, bs = l1 ++ b :: l2 /\ fits sz b = true /\ Forall (fun b => fits sz b = false) l1.
Proof.
  induction bs as [| b bs IH]; [left; constructor |].
  destruct (fits sz b) eqn:E; [right; exists [], b, bs; auto |].
  destruct IH as [IH | (l1 & c & l2 & -> & Hc & Hl)]; [left; by constructor |].
  right. exists (b :: l1), c, l2. split_and!; [done | done | by constructor].
Qed.

Lemma alloc_spec_app sz l1 b l2 :
  fits sz b = true -> Forall (fun b => fits sz b = false) l1 ->
  alloc_spec sz (l1 ++ b :: l2) =
    Some (extent l1 + 4, l1 ++ (if fst b - 4 - sz =? 0 then (fst b, true) :: l2
                                else (sz, true) :: (fst b - 4 - sz, false) :: l2)) /\
  (splits sz (l1 ++ b :: l2) <-> sz + 4 <= fst b).
Proof.
  intros Hb Hl. induction Hl as [| c l1 Hc Hl [IH1 IH2]]; cbn [app alloc_spec splits].
  - rewrite Hb. done.
  - rewrite Hc, IH1, IH2. split; [| done]. rewrite extent_cons. unfold span.
    f_equal. f_equal. lia.
Qed.

Lemma alloc_spec_none sz bs :
  Forall (fun b => fits sz b = false) bs -> alloc_spec sz bs = None.
Proof. induction 1 as [| b bs Hb _ IH]; [done |]. cbn [alloc_spec]. by rewrite Hb, IH. Qed.

Lemma round_up_spec size :
  0 <= size < 4294967295 ->
  size <= round_up size <= size + 1 /\ round_up size mod 2 = 0 /\ 0 <= round_up size.
Proof.
  intros Hs. unfold round_up.
  assert (Hl : Z.land size 1 = size mod 2).
  { change 1 with (2 ^ 1 - 1). rewrite land_low by lia. done. }
  rewrite Hl. destruct (Z.eqb_spec (size mod 2) 0); [zlia |]. rewrite u32_small by lia. zlia.
Qed.

(** The blocks handed out: address and size of each payload. *)
Fixpoint live (a : Z) (bs : list block) : list (Z * Z) :=
  match bs with
  | [] => []
  | (sz, al) :: bs' => (if al : bool then [(a + 4, sz)] else []) ++ live (a + 4 + sz) bs'
  end.

Lemma live_app a l1 l2 : live a (l1 ++ l2) = live a l1 ++ live (a + extent l1) l2.
Proof.
  revert a. induction l1 as [| [sz al] l1 IH]; intros a; cbn [app live].
  - change (extent []) with 0. by rewrite Z.add_0_r.
  - rewrite IH, extent_cons, <- app_assoc. cbn [fst]. do 3 f_equal. lia.
Qed.

(** Payloads lie in the range of their blocks. *)
Lemma live_range m a bs e q n :
  heap_at m a bs e -> (q, n) ∈ live a bs -> a + 4 <= q /\ 0 <= n /\ q + n <= e.
Proof.
  revert a. induction bs as [| [sz al] bs IH]; intros a; cbn [heap_at live]; [set_solver |].
  intros (_ & ? & _ & ? & Hr). pose proof (heap_at_le _ _ _ _ Hr).
  rewrite elem_of_app. intros [Hin | Hin].
  - destruct al; [| set_solver]. apply list_elem_of_singleton in Hin as [= -> ->]. lia.
  - apply IH in Hin; [lia | done].
Qed.

Section allocator.
Context (h : t).
Hypothesis Hbounds : 0 < mstart_ h /\ mend_ h < 4294967296.
Implicit Types (m : mem) (bs : list block).

Lemma alloc_none fuel size m bs :
  heap_at m (mstart_ h) bs (mend_ h) -> (length bs < fuel)%nat ->
  Forall (fun b => fits (round_up size) b = false) bs -> alloc fuel h size m = Ok (0, m).
Proof.
  intros Hh Hf HF. unfold alloc. replace fuel with (length bs + (fuel - length bs))%nat by lia.
  rewrite <- (app_nil_r bs) in Hh. apply heap_at_app in Hh as (Hh1 & Hle & Hn).
  rewrite (alloc_loop_skip _ _ _ bs) by (done || lia). cbn in Hn. rewrite Hn.
  destruct (fuel - length bs)%nat as [| f] eqn:E; [lia |]. cbn [alloc_loop]. by rewrite Z.eqb_refl.
Qed.

Lemma alloc_some fuel size m l1 b l2 :
  heap_at m (mstart_ h) (l1 ++ (b, false) :: l2) (mend_ h) ->
  (length (l1 ++ (b, false) :: l2) < fuel)%nat ->
  Forall (fun b => fits (round_up size) b = false) l1 -> round_up size <= b ->
  alloc fuel h size m =
    Ok (mstart_ h + extent l1 + 4, take_block (mstart_ h + extent l1) b (round_up size) m).
Proof.
  intros Hh Hf HF Hb. rewrite length_app in Hf. cbn [length] in Hf. unfold alloc.
  replace fuel with (length l1 + (fuel - length l1))%nat by lia.
  apply heap_at_app in Hh as (Hh1 & Hle & Hh).
  rewrite (alloc_loop_skip _ _ _ l1) by (done || lia). pose proof (heap_at_le _ _ _ _ Hh1).
  destruct (walk_step _ _ _ _ _ _ Hh) as (Hs & Hal & _); [lia | lia |].
  destruct (fuel - length l1)%nat as [| f] eqn:E; [lia |]. cbn [alloc_loop].
  destruct Hh as (_ & ? & _ & ? & _).
  destruct (Z.eqb_spec (mstart_ h + extent l1) (mend_ h)); [lia |].
  rewrite Hs, Hal. destruct (Z.leb_spec (round_up size) b); [| lia]. cbn [negb andb].
  by rewrite u32_small by lia.
Qed.

(** The headers that [take_block] writes. *)
Lemma take_block_frame a b sz m x :
  0 <= a -> 0 <= sz -> a + sz + 4 < 4294967296 ->
  x < a \/ a + 4 <= x < a + 4 + sz \/ a + 8 + sz <= x -> load8 (take_block a b sz m) x = load8 m x.
Proof.
  intros Ha Hsz Hb Hx. unfold take_block, slice_block. rewrite (u32_small (a + sz + 4)) by lia.
  case_match; unfold record, store32; rewrite !load8_store_bytes, !length_le_encode, !decide_False by lia; done.
Qed.

(** A block with no room for a second header: the size of the remainder wraps around. *)
Lemma take_block_wraps a b sz m :
  0 <= a -> a + sz + 4 < 4294967296 -> 0 <= sz <= b -> b < sz + 4 ->
  take_block a b sz m = record (a + 4 + sz) (4294967296 + (b - 4 - sz)) kFree (record a sz kAllocated m).
Proof.
  intros Ha Hb Hsz Hlt. unfold take_block, slice_block. cbv zeta. rewrite (u32_small (a + sz + 4)) by lia.
  replace (u32 (b - 4 - sz)) with (4294967296 + (b - 4 - sz)) by (unfold u32; zlia).
  destruct (Z.ltb_spec 0 (4294967296 + (b - 4 - sz))); [| lia]. f_equal. lia.
Qed.

(** C11: alloc refines first fit: enough fuel gives a result; with no block
    that fits it returns null and memory is unchanged, otherwise it returns the payload
    first fit chooses.  When the chosen block has room for the header of its remainder ([splits]) the heap is
    again a well-formed list of blocks, the one of the specification.  When it has not (it is less than
    four bytes larger than asked for) the size of the remainder wraps around, and the header with that size is
    written behind the payload all the same, over what follows the block. *)
Theorem alloc_refines fuel size m bs :
  heap_at m (mstart_ h) bs (mend_ h) -> (length bs < fuel)%nat -> 0 <= size < 4294967295 ->
  match alloc_spec (round_up size) bs with
  | None => alloc fuel h size m = Ok (0, m)
  | Some (o, bs') => exists m',
      alloc fuel h size m = Ok (mstart_ h + o, m') /\
      (splits (round_up size) bs -> heap_at m' (mstart_ h) bs' (mend_ h)) /\
      (~ splits (round_up size) bs -> exists r, -4 <= r < 0 /\
         m' = record (mstart_ h + o + round_up size) (4294967296 + r) kFree
                (record (mstart_ h + o - 4) (round_up size) kAllocated m))
  end.
Proof.
  intros Hh Hf Hsize. destruct (round_up_spec size Hsize) as (_ & Hm & H0).
  destruct (fits_dec (round_up size) bs) as [HF | (l1 & [b al] & l2 & -> & Hb & HF)].
  - rewrite alloc_spec_none by done. by eapply alloc_none.
  - destruct (alloc_spec_app _ l1 _ l2 Hb HF) as [-> Hiff]. cbn [fst] in *.
    unfold fits in Hb. apply andb_true_iff in Hb as [Hbs Hb]. apply negb_true_iff in Hb. cbn [fst snd] in *.
    apply Z.leb_le in Hbs. subst al.
    exists (take_block (mstart_ h + extent l1) b (round_up size) m).
    rewrite Z.add_assoc. split; [apply (alloc_some _ _ _ _ _ l2); done || lia |].
    apply heap_at_app in Hh as (Hh1 & Hle & Hh2). pose proof (heap_at_le _ _ _ _ Hh1).
    assert (Hend : mstart_ h + extent l1 + 4 + b <= mend_ h) by apply Hh2.
    split; intros Hsp; rewrite Hiff in Hsp.
    + destruct (take_block_ok _ _ _ (round_up size) _ _ Hh2) as [Ht Hframe]; try lia.
      apply heap_at_app. split_and!; [| lia | done].
      eapply heap_at_ext; [exact Hh1 |]. intros x Hx1 Hx2. unfold load32. f_equal.
      apply load_bytes_ext. intros y Hy. apply Hframe. lia.
    + exists (b - 4 - round_up size). split; [lia |]. rewrite take_block_wraps by lia. do 2 f_equal. lia.
Qed.


(** What free does to the list of blocks. *)
Definition merge_next (sz : Z) (b : block) : list block :=
  if snd b then [(sz, false); b] else [(sz + 4 + fst b, false)].

Lemma free_step m l1 sz b l2 :
  heap_at m (mstart_ h) (l1 ++ (sz, true) :: b :: l2) (mend_ h) ->
  heap_at (free (mstart_ h + extent l1 + 4) m) (mstart_ h)
    (l1 ++ merge_next sz b ++ l2) (mend_ h).
Proof.
  destruct b as [nsz nal]. intros Hh.
  apply heap_at_app in Hh as (Hh1 & Hle & Hh2). pose proof (heap_at_le _ _ _ _ Hh1).
  set (a := mstart_ h + extent l1) in *.
  destruct (walk_step _ _ _ _ _ _ Hh2) as (Hs & _ & Hn); [lia | lia |].
  destruct Hh2 as (Hw & Hsz & Hm & Hle2 & Hh3).
  destruct (walk_step _ _ _ _ _ _ Hh3) as (Hs3 & Hal3 & _); [lia | lia |].
  destruct Hh3 as (Hw3 & Hsz3 & Hm3 & Hle3 & Hh4).
  unfold free. rewrite (u32_small (a + 4 - 4)) by lia. replace (a + 4 - 4) with a by lia.
  rewrite Hn, Hal3, Hs, Hs3. rewrite u32_small by lia.
  assert (Hpre : forall n s, heap_at (record a n s m) (mstart_ h) l1 a).
  { intros n s. apply heap_at_store; [done | lia]. }
  apply heap_at_app. fold a. destruct nal; cbn [negb merge_next snd fst app].
  - split_and!; [by apply Hpre | done |]. cbn [heap_at].
    rewrite load32_record, decide_True by (done || lia).
    assert (load32 (record a sz kFree m) (a + 4 + sz) = load32 m (a + 4 + sz)) as ->.
    { unfold record. apply load32_store32_ne. lia. }
    split_and!; try done; try lia. apply heap_at_store; [done | lia].
  - split_and!; [by apply Hpre | done |]. cbn [heap_at].
    rewrite load32_record, decide_True by (lia || zlia).
    split_and!; try done; try lia; [zlia |].
    replace (a + 4 + (sz + 4 + nsz)) with (a + 4 + sz + 4 + nsz) by lia.
    apply heap_at_store; [done | lia].
Qed.

(** C19: free of a block that is not the last refines the specification: it
    marks the block free, and joins it with the next one when that is free. *)
Theorem free_refines m l1 sz b l2 :
  heap_at m (mstart_ h) (l1 ++ (sz, true) :: b :: l2) (mend_ h) ->
  heap_at (free (mstart_ h + extent l1 + 4) m) (mstart_ h)
    (l1 ++ merge_next sz b ++ l2) (mend_ h).
Proof. apply free_step. Qed.

(** Round trip: an allocation that splits a block, then freed, leaves the
    list of blocks it started from. *)
Theorem alloc_free fuel size m l1 b l2 :
  heap_at m (mstart_ h) (l1 ++ (b, false) :: l2) (mend_ h) ->
  (length (l1 ++ (b, false) :: l2) < fuel)%nat -> 0 <= size < 4294967295 ->
  Forall (fun c => fits (round_up size) c = false) l1 -> round_up size + 4 < b ->
  exists p m', alloc fuel h size m = Ok (p, m') /\ p <> 0 /\
    heap_at (free p m') (mstart_ h) (l1 ++ (b, false) :: l2) (mend_ h).
Proof.
  intros Hh Hf Hsize HF Hb. destruct (round_up_spec size Hsize) as (Hru & Hm & H0).
  eexists _, _. split; [apply (alloc_some _ _ _ l1 b l2); done || lia |].
  apply heap_at_app in Hh as (Hh1 & Hle & Hh2). pose proof (heap_at_le _ _ _ _ Hh1).
  split; [lia |].
  destruct (take_block_ok _ _ _ (round_up size) _ _ Hh2) as [Ht Hframe]; try lia.
  destruct (Z.eqb_spec (b - 4 - round_up size) 0); [lia |].
  assert (Hh' : heap_at (take_block (mstart_ h + extent l1) b (round_up size) m) (mstart_ h)
     (l1 ++ (round_up size, true) :: (b - 4 - round_up size, false) :: l2) (mend_ h)).
  { apply heap_at_app. split_and!; [| lia | done].
    eapply heap_at_ext; [exact Hh1 |]. intros x Hx1 Hx2. unfold load32. f_equal.
    apply load_bytes_ext. intros y Hy. apply Hframe. lia. }
  apply free_step in Hh'. cbn [merge_next snd fst app] in Hh'.
  by replace (round_up size + 4 + (b - 4 - round_up size)) with b in Hh' by lia.
Qed.

(** Bug: a block of exactly the requested size.  The size of the remainder
    wraps around, its header is written over the next block's, and the next allocation that
    does not fit before returns the memory of that block, still in use. *)
Theorem exact_fit_hands_out_twice fuel size m l1 n l2 :
  heap_at m (mstart_ h) (l1 ++ (round_up size, false) :: (n, true) :: l2) (mend_ h) ->
  (length (l1 ++ (round_up size, false) :: (n, true) :: l2) < fuel)%nat ->
  0 <= size < 4294967292 -> Forall (fun c => fits (round_up size) c = false) l1 ->
  let p := mstart_ h + extent l1 + 4 in
  let q := p + round_up size + 4 in
  (q, n) ∈ live (mstart_ h) (l1 ++ (round_up size, false) :: (n, true) :: l2) /\
  exists m' m'', alloc fuel h size m = Ok (p, m') /\ alloc fuel h size m' = Ok (q, m'').
Proof.
  intros Hh Hf Hsize HF p q. destruct (round_up_spec size) as (Hru & Hm & H0); [lia |].
  assert (Ha := alloc_some fuel size m l1 _ _ Hh Hf HF (Z.le_refl _)).
  apply heap_at_app in Hh as (Hh1 & Hle & Hh2). pose proof (heap_at_le _ _ _ _ Hh1).
  rewrite length_app in Hf. cbn [length] in Hf.
  set (a := mstart_ h + extent l1) in *. set (sz := round_up size) in *.
  destruct Hh2 as (_ & _ & _ & Hle2 & _ & Hn0 & _ & Hle3 & _).
  split.
  { rewrite live_app. apply elem_of_app. right. subst p q. fold a. cbn [live app].
    replace (a + 4 + sz + 4) with (a + 4 + sz + 4) by lia. set_solver. }
  eexists. unfold take_block, slice_block in Ha.
  rewrite (u32_small (a + sz + 4)) in Ha by lia.
  replace (u32 (sz - 4 - sz)) with 4294967292 in Ha by (unfold u32; zlia).
  cbn [Z.ltb Z.compare] in Ha. eexists. split; [exact Ha |].
  set (m1 := record a sz kAllocated m).
  assert (Hm1 : forall x, x + 4 <= a -> load32 (record (a + sz + 4) 4294967292 kFree m1) x = load32 m x).
  { intros x Hx. unfold m1, record. rewrite !load32_store32_ne by lia. done. }
  unfold alloc. fold sz.
  replace fuel with (length l1 + (2 + (fuel - length l1 - 2)))%nat by lia.
  rewrite alloc_loop_skip; [| | lia | lia | done].
  2: { eapply heap_at_ext; [exact Hh1 |]. intros x ? Hx. by apply Hm1. }
  fold a. cbn [Nat.add alloc_loop].
  assert (Hw : heap_at (record (a + sz + 4) 4294967292 kFree m1) a [(sz, true)] (a + 4 + sz)).
  { cbn [heap_at]. unfold record at 1. rewrite load32_store32_ne by lia. unfold m1.
    rewrite load32_record, decide_True by (lia || done). split_and!; done || lia. }
  destruct (walk_step _ _ _ _ _ _ Hw) as (Hs & Hal & ->); [lia | lia |].
  destruct (Z.eqb_spec a (mend_ h)); [lia |]. rewrite Hal. rewrite andb_false_r.
  destruct (Z.eqb_spec (a + 4 + sz) (mend_ h)); [lia |].
  destruct (header_decode (load32 (record (a + sz + 4) 4294967292 kFree m1) (a + 4 + sz))
              4294967292 false) as [Hs2 Hal2]; try done.
  { replace (a + 4 + sz) with (a + sz + 4) by lia.
    by rewrite load32_record, decide_True by (lia || done). }
  unfold size_of_block, is_allocated. rewrite Hs2, Hal2.
  destruct (Z.leb_spec sz 4294967292); [| lia]. cbn [negb andb].
  subst p q. rewrite u32_small by lia.
  by replace (a + 4 + sz + 4) with (a + 4 + sz + 4) by lia.
Qed.

(** Freeing the last block reads the word at [mend_], outside the heap; when that word
    does not look allocated, the block grows over it and the walk misses [mend_]. *)
Theorem free_last_overruns m l1 sz :
  heap_at m (mstart_ h) (l1 ++ [(sz, true)]) (mend_ h) -> is_allocated m (mend_ h) = false ->
  mend_ h + size_of_block m (mend_ h) + 4 < 4294967296 ->
  let a := mstart_ h + extent l1 in
  next_block (free (a + 4) m) a = mend_ h + 4 + size_of_block m (mend_ h).
Proof.
  intros Hh Hal Hb a. apply heap_at_app in Hh as (Hh1 & Hle & Hh2).
  pose proof (heap_at_le _ _ _ _ Hh1). fold a in Hh2, Hle.
  destruct (walk_step _ _ _ _ _ _ Hh2) as (Hs & _ & Hn); [lia | lia |].
  destruct Hh2 as (_ & H0 & Hm & _ & Hend). cbn [heap_at] in Hend.
  unfold free. rewrite (u32_small (a + 4 - 4)) by lia. replace (a + 4 - 4) with a by lia.
  rewrite Hn, Hend, Hal, Hs. cbn [negb].
  assert (Hsb : size_of_block m (mend_ h) mod 2 = 0 /\ 0 <= size_of_block m (mend_ h)).
  { unfold size_of_block. rewrite Z.land_comm. change 0xFFFFFFFE with (2 * 2147483647).
    split; [| apply Z.land_nonneg; lia].
    rewrite <- Z.bit0_mod, Z.land_spec. by rewrite andb_false_l. }
  rewrite u32_small by lia. unfold next_block, size_of_block at 1.
  destruct (header_decode (load32 (record a (sz + 4 + size_of_block m (mend_ h)) kFree m) a)
              (sz + 4 + size_of_block m (mend_ h)) false) as [-> _]; try lia.
  - rewrite load32_record, decide_True by (lia || zlia || done). done.
  - zlia.
  - rewrite !u32_small by (rewrite ?u32_small; lia). lia.
Qed.

End allocator.

(** The heap that [init_heap] makes is one free block. *)
Lemma init_heap_ok m :
  let '(h, m') := init_heap m in
  mstart_ h = kHeapStart /\ mend_ h = kHeapEnd /\
  heap_at m' kHeapStart [(16777212, false)] kHeapEnd.
Proof.
  unfold init_heap, make. cbn [mstart_ mend_]. split_and!; try done. cbn [heap_at].
  change (u32 (kHeapEnd - kHeapStart - 4)) with 16777212.
  rewrite load32_record, decide_True by (done || lia). unfold kHeapStart, kHeapEnd.
  split_and!; done || lia.
Qed.

(** ** Concrete heaps *)

Definition small_heap : t := mk 0x1000 0x1100.
Definition small_mem : mem := snd (make 0x1000 0x1100 ∅).

Lemma small_heap_bounds : 0 < mstart_ small_heap /\ mend_ small_heap < 4294967296.
Proof. split; reflexivity. Qed.

Lemma small_heap_at : heap_at small_mem (mstart_ small_heap) [(252, false)] (mend_ small_heap).
Proof. cbn [heap_at]. split_and!; vm_compute; congruence. Qed.

(** One block of 16 bytes is allocated. *)
Definition used_mem : mem := record 0x1014 232 kFree (record 0x1000 16 kAllocated small_mem).

Lemma used_heap_at :
  heap_at used_mem (mstart_ small_heap) [(16, true); (232, false)] (mend_ small_heap).
Proof. cbn [heap_at]. split_and!; vm_compute; congruence. Qed.

(** A block that splits, and an exact fit: 252 bytes asked of a block of 252. *)
Lemma alloc_refines_witness :
  (exists m', alloc 5 small_heap 15 small_mem = Ok (0x1004, m') /\
    heap_at m' 0x1000 [(16, true); (232, false)] 0x1100) /\
  exists m', alloc 5 small_heap 251 small_mem = Ok (0x1004, m') /\ load32 m' 0x1100 = 0xFFFFFFFC.
Proof.
  split.
  - destruct (alloc_refines small_heap small_heap_bounds 5 15 small_mem [(252, false)] small_heap_at)
      as (m' & Ha & Hs & _); [simpl; lia | lia |].
    exists m'. split; [exact Ha |]. apply Hs. vm_compute. congruence.
  - destruct (alloc_refines small_heap small_heap_bounds 5 251 small_mem [(252, false)] small_heap_at)
      as (m' & Ha & _ & Hw); [simpl; lia | lia |].
    exists m'. split; [exact Ha |]. injection Ha as <-. vm_compute. reflexivity.
Defined.


Lemma free_refines_witness :
  heap_at (free 0x1004 used_mem) 0x1000 [(252, false)] 0x1100.
Proof.
  exact (free_refines small_heap small_heap_bounds used_mem [] 16 (232, false) [] used_heap_at).
Defined.

Lemma alloc_free_witness :
  exists p m', alloc 5 small_heap 40 used_mem = Ok (p, m') /\ p <> 0 /\
    heap_at (free p m') 0x1000 [(16, true); (232, false)] 0x1100.
Proof.
  refine (alloc_free small_heap small_heap_bounds 5 40 used_mem [(16, true)] 232 [] used_heap_at _ _ _ _);
    [simpl; lia | lia | repeat constructor | vm_compute; congruence].
Defined.
