(* ===== verification/Interrupts.v ===== *)
(** * Descriptor tables, interrupt dispatch and the timer

    [lib/gdt.cc], [lib/idt.cc] and [lib/timer.cc].  The addresses of the assembly
    stubs and of the two tables are the linker's: parameters. *)

From stdpp Require Import prelude gmap strings.
From Stdlib Require Import ZArith Lia.
From S2P Require Import Prelude.

(** ** The global descriptor table *)

Module gdt.

(** [struct gdt_entry_t]. *)
Record gdt_entry_t := mk_entry {
  limit_low : Z;
  base_low : Z;
  base_middle : Z;
  access : Z;
  granularity : Z;
  base_high : Z
}.

Definition zero_entry : gdt_entry_t := mk_entry 0 0 0 0 0 0.

Definition GDT_LENGTH : Z := 5.

(** [gdt_entries] and [gdt_ptr] (limit and base). *)
Record t := mk { entries : list gdt_entry_t; ptr_limit : Z; ptr_base : Z }.

Definition gdt_set_gate (num base limit access gran : Z) (s : t) : outcome t :=
  let e := {|
    base_low := Z.land base 0xFFFF;
    base_middle := Z.land (Z.shiftr base 16) 0xFF;
    base_high := Z.land (Z.shiftr base 24) 0xFF;
    limit_low := Z.land limit 0xFFFF;
    granularity := u8 (Z.lor (Z.land (Z.shiftr limit 16) 0x0F) (Z.land gran 0xF0));
    access := access |} in
  let! es := or_fault (lset (entries s) num e) in
  Ok (mk es (ptr_limit s) (ptr_base s)).

(** The arguments of the five calls of [init_gdt]. *)
Definition gates : list (Z * Z * Z * Z * Z) :=
  [ (0, 0, 0, 0, 0);
    (1, 0, 0xFFFFFFFF, 0x9A, 0xCF);
    (2, 0, 0xFFFFFFFF, 0x92, 0xCF);
    (3, 0, 0xFFFFFFFF, 0xFA, 0xCF);
    (4, 0, 0xFFFFFFFF, 0xF2, 0xCF) ].

Fixpoint set_gates (gs : list (Z * Z * Z * Z * Z)) (s : t) : outcome t :=
  match gs with
  | [] => Ok s
  | (num, base, limit, access, gran) :: gs' =>
      let! s := gdt_set_gate num base limit access gran s in set_gates gs' s
  end.

(** [table] is the address of [gdt_entries]; [gdt_flush] loads the register. *)
Definition init_gdt (table : Z) (s : t) : outcome t :=
  set_gates gates (mk (entries s) (u16 (8 * GDT_LENGTH - 1)) table).

(** What the processor reads in an entry. *)
Definition entry_base (e : gdt_entry_t) : Z :=
  base_low e + 65536 * base_middle e + 16777216 * base_high e.

Definition entry_limit (e : gdt_entry_t) : Z :=
  limit_low e + 65536 * Z.land (granularity e) 0x0F.

(** A gate holds the base it was given, the low 20 bits of the limit, the
    access byte and the flags. *)
Theorem gdt_gate_roundtrip num base limit acc gran s :
  0 <= base < 4294967296 -> 0 <= limit < 4294967296 -> 0 <= gran < 256 ->
  0 <= num < Z.of_nat (length (entries s)) ->
  exists s' e, gdt_set_gate num base limit acc gran s = Ok s' /\
    lget (entries s') num = Some e /\
    entry_base e = base /\ entry_limit e = limit mod 1048576 /\ access e = acc /\
    Z.land (granularity e) 0xF0 = Z.land gran 0xF0 /\
    forall j, j <> num -> lget (entries s') j = lget (entries s) j.
Proof.
  intros Hb Hl Hg Hn. unfold gdt_set_gate. rewrite lset_in by done. cbn [obind or_fault].
  eexists _, _. split; [done |]. cbn [entries]. split; [by apply lget_insert_eq |].
  assert (H16 : forall x, Z.land x 0xFFFF = x mod 65536) by (intros; by apply (land_low x 16)).
  assert (H8 : forall x, Z.land x 0xFF = x mod 256) by (intros; by apply (land_low x 8)).
  assert (H4 : forall x, Z.land x 0x0F = x mod 16) by (intros; by apply (land_low x 4)).
  assert (Hhi : Z.land gran 0xF0 = gran - gran mod 16).
  { by apply (land_high gran 4 8). }
  assert (Hor : Z.lor (Z.land (Z.shiftr limit 16) 0x0F) (Z.land gran 0xF0) =
                limit / 65536 mod 16 + (gran - gran mod 16)).
  { rewrite Z.lor_comm, H4, Hhi, Z.shiftr_div_pow2 by lia. change (2 ^ 16) with 65536.
    rewrite (lor_add _ _ 4) by (change (2 ^ 4) with 16; zlia). lia. }
  unfold entry_base, entry_limit. cbn [base_low base_middle base_high limit_low granularity access].
  rewrite Hor, u8_small by zlia. rewrite !H16, !H8, H4, !Z.shiftr_div_pow2 by lia.
  change (2 ^ 16) with 65536. change (2 ^ 24) with 16777216. split_and!; [zlia | zlia | done | |].
  - rewrite Hhi. change 0xF0 with (2 ^ 8 - 2 ^ 4). rewrite land_high by (simpl; zlia).
    change (2 ^ 4) with 16. zlia.
  - intros j Hj. apply lget_insert_ne; lia.
Qed.

Lemma gdt_gate_roundtrip_witness :
  exists s e, gdt_set_gate 1 0x12345678 0xFFFFFFFF 0x9A 0xCF (mk (replicate 5 zero_entry) 0 0) = Ok s /\
    lget (entries s) 1 = Some e /\ entry_base e = 0x12345678 /\ entry_limit e = 0xFFFFF.
Proof.
  destruct (gdt_gate_roundtrip 1 0x12345678 0xFFFFFFFF 0x9A 0xCF (mk (replicate 5 zero_entry) 0 0))
    as (s & e & Hs & He & Hb & Hl & _); [lia | lia | lia | simpl; lia |].
  exists s, e. split; [exact Hs |]. split; [exact He |]. split; [exact Hb | exact Hl].
Defined.

(** The five segments: none, then kernel code and data and user code and data, each of the
    whole address space. *)
Definition flat_segments : list gdt_entry_t :=
  [ zero_entry; mk_entry 0xFFFF 0 0 0x9A 0xCF 0; mk_entry 0xFFFF 0 0 0x92 0xCF 0;
    mk_entry 0xFFFF 0 0 0xFA 0xCF 0; mk_entry 0xFFFF 0 0 0xF2 0xCF 0 ].

Lemma init_gdt_ok table s :
  length (entries s) = 5%nat -> init_gdt table s = Ok (mk flat_segments 39 table).
Proof. intros Hl. destruct s as [[| a [| b [| c [| d [| e [|]]]]]] ? ?]; done. Qed.

End gdt.

(** ** Interrupts *)

Module idt.

(** [struct idt_entry_t]. *)
Record idt_entry_t := mk_entry {
  base_lo : Z;
  sel : Z;
  always0 : Z;
  flags : Z;
  base_hi : Z
}.

Definition zero_entry : idt_entry_t := mk_entry 0 0 0 0 0.

Definition INTERRUPT_NUM : Z := 256.

(** [idt_entries], [idt_ptr] and [interrupt_handlers]; a handler is a function
    pointer, 0 for none. *)
Record t := mk {
  entries : list idt_entry_t;
  ptr_limit : Z;
  ptr_base : Z;
  interrupt_handlers : gmap Z Z
}.

Definition IRQ0 : Z := 32.
Definition IRQ1 : Z := 33.

(** The parameter is a [uint8_t]. *)
Definition register_isr (isr_num handler : Z) (s : t) : outcome t :=
  let! hs := or_fault (arr_set INTERRUPT_NUM (interrupt_handlers s) (u8 isr_num) handler) in
  Ok (mk (entries s) (ptr_limit s) (ptr_base s) hs).

Definition idt_set_gate (num base sel flags : Z) (s : t) : outcome t :=
  let e := {|
    base_lo := Z.land base 0xFFFF;
    base_hi := Z.land (Z.shiftr base 16) 0xFFFF;
    sel := sel;
    always0 := 0;
    flags := flags |} in
  let! es := or_fault (lset (entries s) (u8 num) e) in
  Ok (mk es (ptr_limit s) (ptr_base s) (interrupt_handlers s)).

(** The writes to the two interrupt controllers. *)
Definition pic_setup : list (Z * Z) :=
  [ (0x20, 0x11); (0xA0, 0x11);
    (0x21, 0x20); (0xA1, 0x28);
    (0x21, 0x04); (0xA1, 0x02);
    (0x21, 0x01); (0xA1, 0x01);
    (0x21, 0x0); (0xA1, 0x0) ].

Section idt.
(** The stubs of [isr.s], and the address of the table. *)
Context (isr irq : Z -> Z) (table : Z).

(** The calls of [idt_set_gate] in [init_idt]: gate number and handler. *)
Definition stubs : list (Z * Z) :=
  map (fun n => (n, isr n)) (seqZ 0 32) ++ map (fun n => (32 + n, irq n)) (seqZ 0 16).

Fixpoint set_stubs (gs : list (Z * Z)) (s : t) : outcome t :=
  match gs with
  | [] => Ok s
  | (num, base) :: gs' => let! s := idt_set_gate num base 0x08 0x8E s in set_stubs gs' s
  end.

Definition init_idt (s : t) (tr : ports) : outcome (t * ports) :=
  let tr := outb_list pic_setup tr in
  let s := mk (replicate (Z.to_nat INTERRUPT_NUM) zero_entry)
              (u16 (8 * INTERRUPT_NUM - 1)) table ∅ in
  let! s := set_stubs stubs s in
  Ok (s, tr).

End idt.

(** ** Dispatch *)

(** The registers saved by the stubs of [isr.s] and by the processor. *)
Record pt_regs := mk_regs {
  ds : Z;
  edi : Z; esi : Z; ebp : Z; esp : Z; ebx : Z; edx : Z; ecx : Z; eax : Z;
  int_no : Z;
  err_code : Z;
  eip : Z; cs : Z; eflags : Z; useresp : Z; ss : Z
}.

Section dispatch.
(** What a handler does to the rest of the kernel, given the saved registers. *)
Context {W : Type} (call : Z -> pt_regs -> W -> outcome W).
(** The console message for an interrupt without a handler. *)
Context (report : Z -> W -> outcome W).

Definition isr_dispatcher (regs : pt_regs) (s : t) (w : W) : outcome W :=
  let! h := or_fault (arr_get INTERRUPT_NUM (interrupt_handlers s) (int_no regs)) in
  if negb (h =? 0) then call h regs w else report (int_no regs) w.

(** The end-of-interrupt writes come before the handler. *)
Definition irq_dispatcher (regs : pt_regs) (s : t) (w : W) (tr : ports) : outcome (W * ports) :=
  let tr := if 40 <=? int_no regs then outb 0xA0 0x20 tr else tr in
  let tr := outb 0x20 0x20 tr in
  let! h := or_fault (arr_get INTERRUPT_NUM (interrupt_handlers s) (int_no regs)) in
  if negb (h =? 0) then
    let! w := call h regs w in Ok (w, tr)
  else Ok (w, tr).

(** A registered handler is the one that is called, for its number only. *)
Theorem register_then_dispatch n h s regs (w : W) :
  0 <= n < 256 -> h <> 0 -> 0 <= int_no regs < 256 ->
  exists s', register_isr n h s = Ok s' /\
    isr_dispatcher regs s' w =
      if decide (int_no regs = n) then call h regs w else isr_dispatcher regs s w.
Proof.
  intros Hn Hh Hi. unfold register_isr, INTERRUPT_NUM. rewrite u8_small by done.
  rewrite arr_set_in by done. cbn [obind or_fault]. eexists. split; [done |].
  unfold isr_dispatcher, INTERRUPT_NUM. cbn [interrupt_handlers].
  rewrite !arr_get_in by done. cbn [obind or_fault]. case_decide as He.
  - rewrite He, lookup_insert_eq. cbn. by destruct (Z.eqb_spec h 0).
  - by rewrite lookup_insert_ne by congruence.
Qed.

End dispatch.

Lemma register_ok n h s :
  0 <= n < 256 ->
  exists s', register_isr n h s = Ok s' /\ entries s' = entries s /\
    forall j, 0 <= j < 256 ->
      arr_get INTERRUPT_NUM (interrupt_handlers s') j =
        if decide (j = n) then Some h else arr_get INTERRUPT_NUM (interrupt_handlers s) j.
Proof.
  intros Hn. unfold register_isr, INTERRUPT_NUM. rewrite u8_small, arr_set_in by done. cbn [or_fault obind].
  eexists. split; [done |]. split; [done |]. intros j Hj. cbn [interrupt_handlers].
  rewrite !arr_get_in by done. case_decide as E; [subst; by rewrite lookup_insert_eq |].
  by rewrite lookup_insert_ne by congruence.
Qed.

Definition gate_base (e : idt_entry_t) : Z := base_lo e + 65536 * base_hi e.

Lemma idt_set_gate_ok n base s :
  0 <= n < 256 -> length (entries s) = 256%nat -> 0 <= base < 4294967296 ->
  exists s', idt_set_gate n base 0x08 0x8E s = Ok s' /\ length (entries s') = 256%nat /\
    ptr_limit s' = ptr_limit s /\ ptr_base s' = ptr_base s /\
    interrupt_handlers s' = interrupt_handlers s /\
    (exists e, lget (entries s') n = Some e /\ gate_base e = base /\ sel e = 0x08 /\
       flags e = 0x8E /\ always0 e = 0) /\
    forall j, j <> n -> lget (entries s') j = lget (entries s) j.
Proof.
  intros Hn Hl Hb. unfold idt_set_gate. rewrite u8_small, lset_in by lia. cbn [obind or_fault].
  eexists. split; [done |]. cbn. rewrite length_insert. split_and!; try done.
  - eexists. split; [apply lget_insert_eq; lia |]. split_and!; try done.
    unfold gate_base. cbn. rewrite !(land_low _ 16) by lia. rewrite Z.shiftr_div_pow2 by lia.
    change (2 ^ 16) with 65536. zlia.
  - intros j Hj. apply lget_insert_ne; lia.
Qed.

Lemma set_stubs_ok gs s :
  NoDup gs.*1 -> Forall (fun g => 0 <= fst g < 256 /\ 0 <= snd g < 4294967296) gs ->
  length (entries s) = 256%nat ->
  exists s', set_stubs gs s = Ok s' /\ length (entries s') = 256%nat /\
    ptr_limit s' = ptr_limit s /\ ptr_base s' = ptr_base s /\
    interrupt_handlers s' = interrupt_handlers s /\
    (forall n b, (n, b) ∈ gs -> exists e, lget (entries s') n = Some e /\ gate_base e = b /\
       sel e = 0x08 /\ flags e = 0x8E /\ always0 e = 0) /\
    forall j, j ∉ gs.*1 -> lget (entries s') j = lget (entries s) j.
Proof.
  revert s. induction gs as [| [n b] gs IH]; intros s Hnd Hf Hl; cbn [set_stubs].
  - exists s. split_and!; try done. set_solver.
  - rewrite fmap_cons in Hnd. apply NoDup_cons in Hnd as [Hn Hnd].
    apply Forall_cons in Hf as [[Hr Hb] Hf].
    destruct (idt_set_gate_ok n b s Hr Hl Hb) as (s1 & -> & Hl1 & Hp1 & Hb1 & Hh1 & (e & He & Hprop) & Ho1).
    cbn [obind]. destruct (IH s1 Hnd Hf Hl1) as (s' & -> & Hl' & Hp' & Hb' & Hh' & Hg & Ho).
    exists s'. split_and!; try done; try congruence.
    + intros n' b' [[= -> ->] | Hin]%elem_of_cons; [| by apply Hg].
      exists e. rewrite Ho by done. done.
    + intros j Hj. rewrite fmap_cons in Hj. rewrite Ho, Ho1; [done | set_solver | set_solver].
Qed.

Lemma init_idt_run isr irq table s tr :
  (forall n, 0 <= isr n < 4294967296) -> (forall n, 0 <= irq n < 4294967296) ->
  exists s', init_idt isr irq table s tr = Ok (s', outb_list pic_setup tr) /\
    (forall n, 0 <= n < 48 -> exists e, lget (entries s') n = Some e /\
       gate_base e = (if decide (n < 32) then isr n else irq (n - 32)) /\
       sel e = 0x08 /\ flags e = 0x8E) /\
    (forall n, 48 <= n < 256 -> lget (entries s') n = Some zero_entry) /\
    (forall n, arr_get 256 (interrupt_handlers s') n =
       if decide (0 <= n < 256) then Some 0 else None) /\
    ptr_base s' = table /\ ptr_limit s' = 2047.
Proof.
  intros Hisr Hirq. unfold init_idt.
  set (s0 := mk _ _ _ _). assert (Hin : forall n b, (n, b) ∈ stubs isr irq <->
    0 <= n < 32 /\ b = isr n \/ 32 <= n < 48 /\ b = irq (n - 32)).
  { intros n b. unfold stubs. rewrite elem_of_app, !list_elem_of_fmap. split.
    - intros [(x & [= -> ->] & Hx) | (x & [= -> ->] & Hx)]; apply elem_of_seqZ in Hx; [left; lia |].
      right. split; [lia |]. f_equal. lia.
    - intros [[Hn ->] | [Hn ->]]; [left; exists n | right; exists (n - 32)];
        (split; [| apply elem_of_seqZ; lia]); [done |]. do 2 f_equal; lia. }
  destruct (set_stubs_ok (stubs isr irq) s0) as (s' & Hs & Hl & Hp & Hb & Hh & Hg & Ho).
  - change ((stubs isr irq).*1) with (seqZ 0 48). apply NoDup_seqZ.
  - apply Forall_forall. intros [n b] [[? ->] | [? ->]]%Hin; cbn; split; try lia; auto.
  - done.
  - rewrite Hs. cbn [obind]. exists s'. split; [done |]. split_and!.
    + intros n Hn. destruct (Hg n (if decide (n < 32) then isr n else irq (n - 32))) as (e & He & ?).
      { apply Hin. destruct (decide (n < 32)); [left | right]; (split; [lia | done]). }
      exists e. tauto.
    + intros n Hn. rewrite Ho; [| rewrite list_elem_of_fmap; intros ([m b] & -> & Hm)].
      * unfold s0. cbn [entries]. apply lget_Some. split; [lia |]. apply lookup_replicate_2.
        unfold INTERRUPT_NUM. lia.
      * apply Hin in Hm. cbn in Hn. lia.
    + intros n. rewrite Hh. unfold arr_get, s0. cbn [interrupt_handlers].
      by case_decide; rewrite ?lookup_empty.
    + done.
    + done.
Qed.

(** After [init_idt] gates 0 to 47 lead to their stubs through kernel
    interrupt gates, the others are empty, no handler is registered, and the controllers
    were programmed with vectors 32 and 40. *)
Theorem init_idt_ok isr irq table s tr :
  (forall n, 0 <= isr n < 4294967296) -> (forall n, 0 <= irq n < 4294967296) ->
  exists s', init_idt isr irq table s tr = Ok (s', outb_list pic_setup tr) /\
    (forall n, 0 <= n < 48 -> exists e, lget (entries s') n = Some e /\
       gate_base e = (if decide (n < 32) then isr n else irq (n - 32)) /\
       sel e = 0x08 /\ flags e = 0x8E) /\
    (forall n, 48 <= n < 256 -> lget (entries s') n = Some zero_entry) /\
    (forall n, arr_get 256 (interrupt_handlers s') n =
       if decide (0 <= n < 256) then Some 0 else None) /\
    ptr_base s' = table /\ ptr_limit s' = 2047.
Proof. apply init_idt_run. Qed.

(** The handlers of the witness add their address to a counter. *)
Definition empty_table : t := mk (replicate 256 zero_entry) 0 0 ∅.

(** Interrupt [n] with error code [err], the other registers being 0. *)
Definition regs_of (n err : Z) : pt_regs := mk_regs 0 0 0 0 0 0 0 0 0 n err 0 0 0 0 0.

Lemma register_then_dispatch_witness :
  exists s, register_isr 14 0xC0101234 empty_table = Ok s /\
    isr_dispatcher (fun h _ (w : Z) => Ok (w + h)) (fun n w => Ok (- n)) (regs_of 14 0) s 1 =
      Ok (1 + 0xC0101234).
Proof.
  destruct (register_then_dispatch (fun h _ (w : Z) => Ok (w + h)) (fun n w => Ok (- n))
    14 0xC0101234 empty_table (regs_of 14 0) 1) as (s & Hs & Hd); [lia | lia | simpl; lia |].
  exists s. split; [exact Hs |]. rewrite Hd. reflexivity.
Defined.

Lemma init_idt_ok_witness :
  exists s, init_idt (fun n => 0xC0100000 + 16 * (n mod 32)) (fun n => 0xC0101000 + 16 * (n mod 16)) 0xC0110000
      empty_table [] = Ok (s, outb_list pic_setup []) /\
    (exists e, lget (entries s) 33 = Some e /\ gate_base e = 0xC0101010) /\
    lget (entries s) 48 = Some zero_entry.
Proof.
  destruct (init_idt_ok (fun n => 0xC0100000 + 16 * (n mod 32)) (fun n => 0xC0101000 + 16 * (n mod 16))
    0xC0110000 empty_table []) as (s & Hs & Hg & Hz & _); [intros n; zlia | intros n; zlia |].
  exists s. split; [exact Hs |]. split; [| apply Hz; lia].
  destruct (Hg 33) as (e & He & Hb & _); [lia |]. exists e. split; [exact He | exact Hb].
Defined.

End idt.

(** ** The timer *)

Module timer.

(** [timer_callback] is the address of the handler, which calls the scheduler. *)
Definition init_timer (timer_callback frequency : Z) (s : idt.t) (tr : ports)
    : outcome (idt.t * ports) :=
  let! s := idt.register_isr idt.IRQ0 timer_callback s in
  if frequency =? 0 then Fault
  else
    let divisor := 1193180 / frequency in
    let tr := outb 0x43 0x36 tr in
    let low := u8 (Z.land divisor 0xFF) in
    let high := u8 (Z.land (Z.shiftr divisor 8) 0xFF) in
    let tr := outb 0x40 low tr in
    let tr := outb 0x40 high tr in
    Ok (s, tr).

Lemma init_timer_run cb f s tr s' :
  f <> 0 -> idt.register_isr idt.IRQ0 cb s = Ok s' -> exists tr', init_timer cb f s tr = Ok (s', tr').
Proof.
  intros Hf Hr. unfold init_timer. rewrite Hr. cbn [obind]. rewrite (proj2 (Z.eqb_neq f 0)) by done.
  by eexists.
Qed.

(** The two bytes written to the counter are the divisor when the frequency
    is at least 19 Hz; below that the counter gets only the low 16 bits. *)
Theorem timer_divisor cb f s tr :
  0 < f < 4294967296 ->
  exists s' low high, init_timer cb f s tr =
      Ok (s', tr ++ [(0x43, 0x36); (0x40, low); (0x40, high)]) /\
    arr_get idt.INTERRUPT_NUM (idt.interrupt_handlers s') idt.IRQ0 = Some cb /\
    low + 256 * high = (1193180 / f) mod 65536 /\
    (19 <= f -> low + 256 * high = 1193180 / f).
Proof.
  intros Hf. unfold init_timer, idt.register_isr.
  rewrite arr_set_in by (unfold idt.IRQ0, idt.INTERRUPT_NUM, u8; zlia). cbn [obind or_fault].
  destruct (Z.eqb_spec f 0); [lia |]. unfold outb.
  rewrite <- !app_assoc. cbn [app]. set (d := 1193180 / f).
  assert (H8 : forall x, Z.land x 0xFF = x mod 256) by (intros; by apply (land_low x 8)).
  assert (0 <= d) by (apply Z.div_pos; lia).
  assert (Hd : 19 <= f -> d < 65536) by (intros; apply Z.div_lt_upper_bound; lia).
  eexists _, _, _. split; [reflexivity |]. split_and!.
  - cbn. rewrite arr_get_in by (unfold idt.IRQ0, idt.INTERRUPT_NUM; lia).
    change (u8 idt.IRQ0) with idt.IRQ0. by rewrite lookup_insert_eq.
  - rewrite !H8, Z.shiftr_div_pow2 by lia. change (2 ^ 8) with 256. unfold u8. clearbody d. zlia.
  - intros H19. specialize (Hd H19). rewrite !H8, Z.shiftr_div_pow2 by lia.
    change (2 ^ 8) with 256. unfold u8. clearbody d. zlia.
Qed.

Lemma timer_divisor_witness :
  exists s low high, init_timer 0xC0101234 100 (idt.mk [] 0 0 ∅) [] =
      Ok (s, [(0x43, 0x36); (0x40, low); (0x40, high)]) /\ low + 256 * high = 11931.
Proof.
  destruct (timer_divisor 0xC0101234 100 (idt.mk [] 0 0 ∅) []) as (s & low & high & Ht & _ & Hd & _); [lia |].
  exists s, low, high. split; [exact Ht | exact Hd].
Defined.

End timer.
