(* ===== verification/Pmm.v ===== *)
(** * Physical pages ([lib/pmm.cc], [include/pmm.h])

    The stack of free pages.  [pages] is the list of free pages it stands for,
    the next one to hand out last. *)

From stdpp Require Import prelude gmap strings.
From Stdlib Require Import ZArith Lia.
From S2P Require Import Prelude CString.

Module pmm.

Definition PMM_MAX_SIZE : Z := 0x20000000.
Definition PMM_PAGE_SIZE : Z := 0x1000.
Definition PAGE_MAX_SIZE : Z := PMM_MAX_SIZE / PMM_PAGE_SIZE.

(** [pmm_stack], [pmm_stack_top] and [phy_page_count]. *)
Record t := mk { pmm_stack : gmap Z Z; pmm_stack_top : Z; phy_page_count : Z }.

(** The length of [pmm_stack]. *)
Definition stack_len : Z := PAGE_MAX_SIZE + 1.

Definition pmm_alloc_page (s : t) : outcome (Z * t) :=
  kassert (negb (pmm_stack_top s =? 0)) "out of memory" (
    let! p := or_fault (arr_get stack_len (pmm_stack s) (pmm_stack_top s)) in
    Ok (p, mk (pmm_stack s) (u32 (pmm_stack_top s - 1)) (phy_page_count s))).

(** The loop of the overload that takes an address. *)
Fixpoint alloc_page_loop (fuel : nat) (pma i : Z) (s : t) : outcome (Z * t) :=
  match fuel with
  | O => NoFuel
  | S f =>
      if i <=? pmm_stack_top s then
        let! x := or_fault (arr_get stack_len (pmm_stack s) i) in
        if x =? pma then
          let! last := or_fault (arr_get stack_len (pmm_stack s) (pmm_stack_top s)) in
          let! st := or_fault (arr_set stack_len (pmm_stack s) i last) in
          Ok (x, mk st (u32 (pmm_stack_top s - 1)) (phy_page_count s))
        else alloc_page_loop f pma (u32 (i + 1)) s
      else Ok (0, s)
  end.

Definition pmm_alloc_page_at (fuel : nat) (pma : Z) (s : t) : outcome (Z * t) :=
  alloc_page_loop fuel pma 0 s.

Definition pmm_free_page (p : Z) (s : t) : outcome t :=
  kassert (negb (pmm_stack_top s =? PAGE_MAX_SIZE)) "out of pmm_stack" (
    let top := u32 (pmm_stack_top s + 1) in
    let! st := or_fault (arr_set stack_len (pmm_stack s) top p) in
    Ok (mk st top (phy_page_count s))).

(** ** [init_pmm] *)

(** The fields of [mmap_entry_t] at address [e]. *)
Definition base_addr_low (m : mem) (e : Z) : Z := load32 m (e + 4).
Definition base_addr_high (m : mem) (e : Z) : Z := load32 m (e + 8).
Definition length_low (m : mem) (e : Z) : Z := load32 m (e + 12).
Definition length_high (m : mem) (e : Z) : Z := load32 m (e + 16).
Definition type_ (m : mem) (e : Z) : Z := load32 m (e + 20).

Definition sizeof_mmap_entry : Z := 24.

(** The inner [while] of [init_pmm]. *)
Definition add_page_body (limit : Z) (st : Z * t) : outcome (Z * t + t) :=
  let '(page_addr, s) := st in
  if (page_addr <? limit) && (page_addr <=? PMM_MAX_SIZE) then
    let! s := pmm_free_page page_addr s in
    Ok (inl (u32 (page_addr + PMM_PAGE_SIZE),
             mk (pmm_stack s) (pmm_stack_top s) (u32 (phy_page_count s + 1))))
  else Ok (inr s).

(** Enough turns for the pages below [PMM_MAX_SIZE], and the last test. *)
Definition page_fuel : nat := Z.to_nat (PAGE_MAX_SIZE + 2).

Definition add_pages (page_addr limit : Z) (s : t) : outcome t :=
  iter page_fuel (add_page_body limit) (page_addr, s).

(** The body of the [for] over the memory map; [kern_size] is the linker's
    [kern_end - kern_start]. *)
Definition use_entry (kern_size : Z) (m : mem) (e : Z) (s : t) : outcome t :=
  if (type_ m e =? 1) && (base_addr_low m e =? 0x100000) then
    let page_addr := u32 (base_addr_low m e + kern_size) in
    let limit := u32 (base_addr_low m e + length_low m e) in
    add_pages page_addr limit s
  else Ok s.

Fixpoint scan_map (fuel : nat) (kern_size : Z) (m : mem) (e end_ : Z) (s : t) : outcome t :=
  match fuel with
  | O => NoFuel
  | S f =>
      if e <? end_ then
        let! s := use_entry kern_size m e s in
        scan_map f kern_size m (u32 (e + sizeof_mmap_entry)) end_ s
      else Ok s
  end.

(** [mmap_addr] and [mmap_length] come from the boot loader.  The end pointer
    adds [mmap_length] to a pointer to [mmap_entry_t], so it counts entries. *)
Definition init_pmm (fuel : nat) (kern_size : Z) (m : mem) (mmap_addr mmap_length : Z) (s : t)
    : outcome t :=
  let s := mk (pmm_stack s) (u32 (-1)) 0 in
  let mmap_start_addr := mmap_addr in
  let mmap_end_addr := u32 (mmap_addr + sizeof_mmap_entry * mmap_length) in
  scan_map fuel kern_size m mmap_start_addr mmap_end_addr s.

End pmm.
Import pmm.

(** ** The free list *)

Section pages.
Implicit Types (s : t) (l : list Z) (p : Z).

(** The stack [s] holds the free pages [l]. *)
Record pages s l : Prop := {
  pg_top : pmm_stack_top s = u32 (Z.of_nat (length l) - 1);
  pg_len : Z.of_nat (length l) <= stack_len;
  pg_get : forall i p, l !! i = Some p -> default 0 (pmm_stack s !! Z.of_nat i) = p
}.

Lemma stack_len_val : stack_len = 131073.
Proof. reflexivity. Qed.

Lemma page_max_val : PAGE_MAX_SIZE = 131072.
Proof. reflexivity. Qed.

Lemma pages_top s l : pages s l -> l <> [] -> pmm_stack_top s = Z.of_nat (length l) - 1.
Proof.
  intros [Ht Hl _] Hne. rewrite stack_len_val in Hl. rewrite Ht, u32_small; [done |].
  destruct l; [done |]. simpl length in *. lia.
Qed.

Lemma pages_read s l i p :
  pages s l -> l !! i = Some p -> arr_get stack_len (pmm_stack s) (Z.of_nat i) = Some p.
Proof.
  intros [_ Hl Hg] Hi. pose proof (lookup_lt_Some _ _ _ Hi).
  rewrite arr_get_in by lia. f_equal. by apply Hg.
Qed.

(** Freeing a page pushes it. *)
Lemma free_page_ok s l p :
  pages s l -> Z.of_nat (length l) <= PAGE_MAX_SIZE ->
  exists s', pmm_free_page p s = Ok s' /\ pages s' (l ++ [p]) /\
    phy_page_count s' = phy_page_count s.
Proof.
  intros [Ht Hl Hg] Hroom. rewrite page_max_val in Hroom. rewrite stack_len_val in Hl.
  unfold pmm_free_page, kassert. rewrite Ht, page_max_val.
  assert (Hne : u32 (Z.of_nat (length l) - 1) <> 131072 /\
            u32 (u32 (Z.of_nat (length l) - 1) + 1) = Z.of_nat (length l)).
  { destruct l as [| x l]; simpl length in *; [by vm_compute |].
    rewrite !u32_small by (rewrite ?u32_small; lia). lia. }
  destruct Hne as [Hne Hup]. destruct (Z.eqb_spec (u32 (Z.of_nat (length l) - 1)) 131072); [done |].
  cbn [negb]. rewrite Hup, stack_len_val, arr_set_in by lia. cbn [obind or_fault].
  eexists. split; [done |]. split; [| done]. split; cbn.
  - rewrite length_app. simpl. rewrite u32_small by lia. lia.
  - rewrite length_app, stack_len_val. simpl. lia.
  - intros i q Hi. apply lookup_app_Some in Hi as [Hi | [Hge Hi]].
    + pose proof (lookup_lt_Some _ _ _ Hi). rewrite lookup_insert_ne by lia. by apply Hg.
    + destruct (i - length l)%nat as [| j] eqn:E; [| done]. injection Hi as <-.
      replace i with (length l) by lia. by rewrite lookup_insert_eq.
Qed.

Lemma alloc_page_step s l :
  pages s l ->
  match l with
  | [] => pmm_alloc_page s = Fault
  | [_] => pmm_alloc_page s = Hang "out of memory"
  | _ => exists l' p s', l = l' ++ [p] /\ pmm_alloc_page s = Ok (p, s') /\ pages s' l' /\
           phy_page_count s' = phy_page_count s
  end.
Proof.
  intros Hp. destruct l as [| x [| y l]].
  - unfold pmm_alloc_page, kassert. rewrite (pg_top _ _ Hp).
    change (u32 (Z.of_nat (length []) - 1)) with 4294967295. cbn [Z.eqb negb].
    rewrite arr_get_out by (rewrite stack_len_val; lia). done.
  - unfold pmm_alloc_page, kassert. rewrite (pages_top _ _ Hp) by done. done.
  - destruct (exists_last (l := x :: y :: l)) as (l' & p & Hl); [done |]. rewrite Hl in *.
    assert (Hne : l' <> []) by (destruct l'; [by simplify_eq/= | done]).
    assert (Hlen : (0 < length l')%nat) by (destruct l'; [done | simpl; lia]).
    assert (Hlast : (l' ++ [p]) !! length l' = Some p) by (by rewrite list_lookup_middle).
    exists l', p. unfold pmm_alloc_page, kassert.
    rewrite (pages_top _ _ Hp) by (by destruct l').
    rewrite length_app. cbn [length].
    replace (Z.of_nat (length l' + 1) - 1) with (Z.of_nat (length l')) by lia.
    destruct (Z.eqb_spec (Z.of_nat (length l')) 0); [lia |]. cbn [negb].
    rewrite (pages_read _ _ _ _ Hp Hlast). cbn [obind or_fault].
    eexists. split; [done |]. split; [done |]. split; [| done].
    destruct Hp as [_ Hsz Hg]. rewrite length_app in Hsz. cbn [length] in Hsz.
    split; cbn; [done | lia |]. intros i q Hi. apply Hg. by apply lookup_app_l_Some.
Qed.

(** Allocation on every free list.  With two pages or more the last one is
    taken off; a single page is never handed out, the assertion fails; with none the
    assertion passes and the array is read out of bounds. *)
Theorem alloc_page_cases s l :
  pages s l ->
  match l with
  | [] => pmm_alloc_page s = Fault
  | [_] => pmm_alloc_page s = Hang "out of memory"
  | _ => exists l' p s', l = l' ++ [p] /\ pmm_alloc_page s = Ok (p, s') /\ pages s' l' /\
           phy_page_count s' = phy_page_count s
  end.
Proof. apply alloc_page_step. Qed.

(** With two pages or more, the last one is handed out. *)
Lemma alloc_last s l p :
  pages s (l ++ [p]) -> l <> [] ->
  exists s', pmm_alloc_page s = Ok (p, s') /\ pages s' l.
Proof.
  intros Hp Hne. pose proof (alloc_page_step _ _ Hp) as Hc. destruct l as [| x l]; [done |].
  destruct (l ++ [p]) as [| y r] eqn:E; [by destruct l |]. cbn [app] in Hc. rewrite E in Hc.
  destruct Hc as (l' & q & s' & Hl & Ha & Hp' & _). rewrite <- E, app_comm_cons in Hl.
  apply app_inj_tail in Hl as [<- <-]. by exists s'.
Qed.

(** A page freed is the next page allocated. *)
Theorem free_alloc_page s l p :
  pages s l -> l <> [] -> Z.of_nat (length l) <= PAGE_MAX_SIZE ->
  exists s1 s2, pmm_free_page p s = Ok s1 /\ pmm_alloc_page s1 = Ok (p, s2) /\ pages s2 l.
Proof.
  intros Hp Hne Hlen. destruct (free_page_ok s l p Hp Hlen) as (s1 & Hf & Hp1 & _).
  destruct (alloc_last s1 l p Hp1 Hne) as (s2 & Ha & Hp2). by exists s1, s2.
Qed.

(** *** The search for one page *)

(** The list has a last page; the loop reads up to it. *)
Lemma pages_last s l z :
  pages s (l ++ [z]) ->
  pmm_stack_top s = Z.of_nat (length l) /\ Z.of_nat (length l) < 131073 /\
  arr_get stack_len (pmm_stack s) (Z.of_nat (length l)) = Some z.
Proof.
  intros Hp. rewrite (pages_top _ _ Hp) by (by destruct l).
  pose proof (pg_len _ _ Hp) as Hl. rewrite stack_len_val in Hl.
  rewrite length_app in *. cbn [length] in *.
  split_and!; [lia | lia |]. apply (pages_read _ _ _ _ Hp). by rewrite list_lookup_middle.
Qed.

(** The test of the loop at a page that is not the one asked for. *)
Lemma alloc_page_loop_skip f pma s l z d y :
  pages s (l ++ [z]) -> (l ++ [z]) !! d = Some y -> y <> pma ->
  alloc_page_loop (S f) pma (Z.of_nat d) s = alloc_page_loop f pma (Z.of_nat (S d)) s.
Proof.
  intros Hp Hy Hne. destruct (pages_last _ _ _ Hp) as (Ht & Hl & _).
  pose proof (lookup_lt_Some _ _ _ Hy) as Hd. rewrite length_app in Hd. cbn [length] in Hd.
  cbn [alloc_page_loop]. rewrite Ht, (proj2 (Z.leb_le _ _)) by lia.
  rewrite (pages_read _ _ _ _ Hp Hy). cbn [obind or_fault].
  rewrite (proj2 (Z.eqb_neq y pma)), u32_small by (done || lia). f_equal. lia.
Qed.

Lemma alloc_page_loop_hit f pma s l z i n :
  pages s (l ++ [z]) -> (l ++ [z]) !! i = Some pma ->
  (forall j y, (l ++ [z]) !! j = Some y -> (j < i)%nat -> y <> pma) -> (n <= i)%nat -> (n < f)%nat ->
  alloc_page_loop f pma (Z.of_nat (i - n)) s =
    Ok (pma, mk (<[Z.of_nat i := z]> (pmm_stack s)) (u32 (Z.of_nat (length l) - 1)) (phy_page_count s)).
Proof.
  intros Hp Hi Hmin. pose proof (lookup_lt_Some _ _ _ Hi) as Hil. rewrite length_app in Hil.
  cbn [length] in Hil. destruct (pages_last _ _ _ Hp) as (Ht & Hl & Hz).
  revert f. induction n as [| n IH]; intros [| f] Hn Hf; try lia.
  - rewrite Nat.sub_0_r. cbn [alloc_page_loop]. rewrite Ht, (proj2 (Z.leb_le _ _)) by lia.
    rewrite (pages_read _ _ _ _ Hp Hi). cbn [obind or_fault]. rewrite Z.eqb_refl, Hz.
    cbn [obind or_fault]. by rewrite stack_len_val, arr_set_in by lia.
  - destruct (lookup_lt_is_Some_2 (l ++ [z]) (i - S n)) as [y Hy]; [rewrite length_app; simpl; lia |].
    rewrite (alloc_page_loop_skip _ _ _ _ _ _ _ Hp Hy) by (apply (Hmin _ _ Hy); lia).
    replace (S (i - S n)) with (i - n)%nat by lia. apply IH; lia.
Qed.

Lemma alloc_page_loop_miss f pma s l z n :
  pages s (l ++ [z]) -> Forall (fun x => x <> pma) (l ++ [z]) ->
  (n <= length l + 1)%nat -> (n < f)%nat ->
  alloc_page_loop f pma (Z.of_nat (length l + 1 - n)) s = Ok (0, s).
Proof.
  intros Hp HF. destruct (pages_last _ _ _ Hp) as (Ht & Hl & _).
  revert f. induction n as [| n IH]; intros [| f] Hn Hf; try lia.
  - rewrite Nat.sub_0_r. cbn [alloc_page_loop]. by rewrite Ht, (proj2 (Z.leb_gt _ _)) by lia.
  - destruct (lookup_lt_is_Some_2 (l ++ [z]) (length l + 1 - S n)) as [y Hy];
      [rewrite length_app; simpl; lia |].
    rewrite (alloc_page_loop_skip _ _ _ _ _ _ _ Hp Hy) by (by eapply Forall_lookup_1 in HF).
    replace (S (length l + 1 - S n)) with (length l + 1 - n)%nat by lia. apply IH; lia.
Qed.

(** Putting the last page in the place of another removes that one. *)
Lemma pages_replace s l z i :
  pages s (l ++ [z]) -> (i < length l + 1)%nat ->
  pages (mk (<[Z.of_nat i := z]> (pmm_stack s)) (u32 (Z.of_nat (length l) - 1)) (phy_page_count s))
    (<[i := z]> l).
Proof.
  intros Hp Hi. destruct (pages_last _ _ _ Hp) as (_ & Hl & _).
  split; cbn; rewrite ?length_insert; [done | rewrite stack_len_val; lia |].
  intros j q Hj. destruct Hp as [_ _ Hg]. apply list_lookup_insert_Some in Hj.
  destruct Hj as [(-> & -> & _) | (Hij & Hj)]; [by rewrite lookup_insert_eq |].
  rewrite lookup_insert_ne by lia. apply Hg. by apply lookup_app_l_Some.
Qed.

Lemma replace_last_perm (l : list Z) (z pma : Z) (i : nat) :
  (l ++ [z]) !! i = Some pma -> l ++ [z] ≡ₚ pma :: <[i := z]> l.
Proof.
  intros Hi. pose proof (lookup_lt_Some _ _ _ Hi) as Hil. rewrite length_app in Hil.
  cbn [length] in Hil. destruct (decide (i = length l)) as [-> | Hne].
  - rewrite list_lookup_middle in Hi by done. injection Hi as ->.
    rewrite list_insert_ge by lia. symmetry. apply Permutation_cons_append.
  - rewrite lookup_app_l in Hi by lia. rewrite insert_take_drop by lia.
    rewrite <- (take_drop_middle l i pma Hi) at 1. rewrite <- app_assoc. cbn [app].
    by rewrite <- !Permutation_middle, app_nil_r.
Qed.

(** Asking for one page: it is removed, the last page taking its place,
    or 0 is returned and nothing changes. *)
Theorem alloc_page_at_ok fuel pma s l z :
  pages s (l ++ [z]) -> (length l + 1 < fuel)%nat ->
  match list_find (fun x => x = pma) (l ++ [z]) with
  | Some (i, _) => exists s', pmm_alloc_page_at fuel pma s = Ok (pma, s') /\
      pages s' (<[i := z]> l) /\ l ++ [z] ≡ₚ pma :: <[i := z]> l
  | None => pmm_alloc_page_at fuel pma s = Ok (0, s)
  end.
Proof.
  intros Hp Hfuel. unfold pmm_alloc_page_at.
  destruct (list_find (fun x => x = pma) (l ++ [z])) as [[i x] |] eqn:E.
  - apply list_find_Some in E as (Hi & -> & Hmin).
    pose proof (lookup_lt_Some _ _ _ Hi) as Hil. rewrite length_app in Hil. cbn [length] in Hil.
    pose proof (alloc_page_loop_hit fuel pma s l z i i Hp Hi Hmin) as Hrun.
    rewrite Nat.sub_diag in Hrun. eexists. split; [apply Hrun; lia |].
    split; [by apply pages_replace | by apply replace_last_perm].
  - apply list_find_None in E.
    pose proof (alloc_page_loop_miss fuel pma s l z (length l + 1) Hp E) as Hrun.
    rewrite Nat.sub_diag in Hrun. apply Hrun; lia.
Qed.

(** *** The pages of a memory area *)

(** The addresses from [start] in steps of a page, below [limit] and not above
    [PMM_MAX_SIZE]. *)
Definition page_list (start limit : Z) : list Z :=
  map (fun k => start + PMM_PAGE_SIZE * k)
    (seqZ 0 ((Z.min limit (PMM_MAX_SIZE + 1) - start + 4095) / 4096)).

Lemma page_list_elem start limit x :
  x ∈ page_list start limit <->
  start <= x < limit /\ x <= PMM_MAX_SIZE /\ (x - start) mod 4096 = 0.
Proof.
  unfold page_list, PMM_PAGE_SIZE. rewrite list_elem_of_fmap. split.
  - intros (k & -> & Hk%elem_of_seqZ). split_and!; zlia.
  - intros (Hx & Hm & Ha). exists ((x - start) / 4096). rewrite elem_of_seqZ. split; zlia.
Qed.

Lemma page_list_NoDup start limit : NoDup (page_list start limit).
Proof.
  unfold page_list. apply NoDup_fmap_2_strong; [| apply NoDup_seqZ].
  unfold PMM_PAGE_SIZE. intros. lia.
Qed.

Lemma page_list_cons start limit :
  start < limit -> start <= PMM_MAX_SIZE ->
  page_list start limit = start :: page_list (start + PMM_PAGE_SIZE) limit.
Proof.
  intros Hl Hm. unfold page_list, PMM_PAGE_SIZE, PMM_MAX_SIZE in *.
  set (q := Z.min limit (536870912 + 1)).
  replace ((q - start + 4095) / 4096) with (1 + (q - (start + 4096) + 4095) / 4096) by zlia.
  rewrite seqZ_app by zlia. cbn [app]. change (seqZ 0 1) with [0].
  rewrite map_app. cbn [map app]. f_equal; [lia |].
  rewrite <- (fmap_add_seqZ 1 0). rewrite map_map. apply map_ext. intros. lia.
Qed.

Lemma page_list_nil start limit :
  limit <= start \/ PMM_MAX_SIZE < start -> page_list start limit = [].
Proof.
  intros H. unfold page_list, PMM_MAX_SIZE in *. rewrite seqZ_nil; [done | zlia].
Qed.

Lemma page_list_length start limit :
  0 <= start -> Z.of_nat (length (page_list start limit)) <= stack_len.
Proof.
  intros H. unfold page_list. rewrite length_map, length_seqZ, stack_len_val.
  unfold PMM_MAX_SIZE. zlia.
Qed.

Lemma add_pages_ok start limit s l :
  pages s l -> 0 <= start < 4294967296 ->
  Z.of_nat (length l + length (page_list start limit)) <= stack_len ->
  phy_page_count s = Z.of_nat (length l) ->
  exists s', add_pages start limit s = Ok s' /\ pages s' (l ++ page_list start limit) /\
    phy_page_count s' = Z.of_nat (length (l ++ page_list start limit)).
Proof.
  intros Hp Hs Hlen Hc. unfold add_pages.
  assert (Hfuel : (length (page_list start limit) < page_fuel)%nat).
  { assert (Z.of_nat (length (page_list start limit)) <= 131073) by (apply page_list_length; lia).
    unfold page_fuel. rewrite page_max_val. lia. }
  remember page_fuel as fuel eqn:E. clear E. revert start s l Hp Hs Hlen Hc Hfuel.
  induction fuel as [| f IH]; intros start s l Hp Hs Hlen Hc Hfuel; [lia |].
  cbn [iter]. unfold add_page_body at 1.
  destruct (Z.ltb_spec start limit), (Z.leb_spec start PMM_MAX_SIZE); cbn [andb].
  2-4: rewrite page_list_nil in * by lia; rewrite app_nil_r; by exists s.
  rewrite page_list_cons in * by done. cbn [length] in *.
  rewrite stack_len_val in Hlen.
  destruct (free_page_ok s l start Hp) as (s1 & -> & Hp1 & Hc1); [rewrite page_max_val; lia |].
  cbn [obind]. rewrite Hc1, Hc, (u32_small (_ + 1)) by lia.
  unfold PMM_MAX_SIZE, PMM_PAGE_SIZE in *. rewrite u32_small by lia.
  set (s2 := mk _ _ _).
  destruct (IH (start + 4096) s2 (l ++ [start])) as (s' & Hi & Hp' & Hc').
  - destruct Hp1 as [? ? ?]. by split.
  - lia.
  - rewrite length_app, stack_len_val. cbn [length]. lia.
  - rewrite length_app. cbn. lia.
  - lia.
  - exists s'. rewrite <- app_assoc in Hp', Hc'. cbn [app] in Hp', Hc'. done.
Qed.

(** What one entry of the memory map contributes. *)
Definition entry_pages (kern_size : Z) (m : mem) (e : Z) : list Z :=
  if decide (type_ m e = 1 /\ base_addr_low m e = 0x100000) then
    page_list (u32 (base_addr_low m e + kern_size)) (u32 (base_addr_low m e + length_low m e))
  else [].

(** What [n] entries from [e] contribute. *)
Fixpoint map_pages (kern_size : Z) (m : mem) (e : Z) (n : nat) : list Z :=
  match n with
  | O => []
  | S n' => entry_pages kern_size m e ++ map_pages kern_size m (e + sizeof_mmap_entry) n'
  end.

Lemma use_entry_ok ks m e s l :
  pages s l -> phy_page_count s = Z.of_nat (length l) ->
  Z.of_nat (length l + length (entry_pages ks m e)) <= stack_len ->
  exists s', use_entry ks m e s = Ok s' /\ pages s' (l ++ entry_pages ks m e) /\
    phy_page_count s' = Z.of_nat (length (l ++ entry_pages ks m e)).
Proof.
  intros Hp Hc Hlen. unfold use_entry, entry_pages in *.
  destruct (Z.eqb_spec (type_ m e) 1), (Z.eqb_spec (base_addr_low m e) 0x100000); cbn [andb];
    rewrite ?decide_False in * by tauto; try (rewrite app_nil_r; by exists s).
  rewrite decide_True in * by done. apply add_pages_ok; auto using u32_range.
Qed.

Lemma scan_map_ok n fuel ks m e s l :
  pages s l -> phy_page_count s = Z.of_nat (length l) -> (n < fuel)%nat ->
  0 <= e -> e + sizeof_mmap_entry * Z.of_nat n < 4294967296 ->
  Z.of_nat (length l + length (map_pages ks m e n)) <= stack_len ->
  exists s', scan_map fuel ks m e (e + sizeof_mmap_entry * Z.of_nat n) s = Ok s' /\
    pages s' (l ++ map_pages ks m e n) /\
    phy_page_count s' = Z.of_nat (length (l ++ map_pages ks m e n)).
Proof.
  unfold sizeof_mmap_entry.
  revert fuel e s l. induction n as [| n IH]; intros [| f] e s l Hp Hc Hf He Hb Hlen; try lia;
    cbn [scan_map map_pages] in *.
  - rewrite app_nil_r. destruct (Z.ltb_spec e (e + 24 * Z.of_nat 0)); [lia |]. by exists s.
  - destruct (Z.ltb_spec e (e + 24 * Z.of_nat (S n))); [| lia].
    rewrite length_app in Hlen. destruct (use_entry_ok ks m e s l Hp Hc) as (s1 & -> & Hp1 & Hc1); [lia |].
    cbn [obind]. unfold sizeof_mmap_entry in *. rewrite u32_small by lia.
    replace (e + 24 * Z.of_nat (S n)) with (e + 24 + 24 * Z.of_nat n) by lia.
    rewrite app_assoc. apply IH; try done; try lia. rewrite length_app. lia.
Qed.

Lemma init_pmm_run fuel ks m addr len s :
  0 <= addr -> 0 <= len -> addr + sizeof_mmap_entry * len < 4294967296 ->
  (Z.to_nat len < fuel)%nat ->
  Z.of_nat (length (map_pages ks m addr (Z.to_nat len))) <= stack_len ->
  exists s', init_pmm fuel ks m addr len s = Ok s' /\
    pages s' (map_pages ks m addr (Z.to_nat len)) /\
    phy_page_count s' = Z.of_nat (length (map_pages ks m addr (Z.to_nat len))).
Proof.
  intros Ha Hl Hb Hf Hlen. unfold init_pmm. unfold sizeof_mmap_entry in *.
  rewrite (u32_small (addr + _)) by lia.
  replace (addr + 24 * len) with (addr + 24 * Z.of_nat (Z.to_nat len)) by lia.
  apply (scan_map_ok (Z.to_nat len) fuel ks m addr (mk (pmm_stack s) (u32 (-1)) 0) []);
    unfold sizeof_mmap_entry; try done; try lia.
Qed.

(** The areas that [init_pmm] uses. *)
Definition usable (m : mem) (e : Z) : Prop := type_ m e = 1 /\ base_addr_low m e = 0x100000.

(** The number of entries of a map of [len] bytes ([mmap_length] is the size of the buffer). *)
Definition entry_count (len : Z) : nat := Z.to_nat (len / sizeof_mmap_entry).

Lemma map_pages_app ks m e a b :
  map_pages ks m e (a + b) = map_pages ks m e a ++ map_pages ks m (e + sizeof_mmap_entry * Z.of_nat a) b.
Proof.
  revert e. induction a as [| a IH]; intros e; cbn [Nat.add map_pages].
  - cbn. by rewrite Z.add_0_r.
  - rewrite IH, <- app_assoc. do 3 f_equal. unfold sizeof_mmap_entry. lia.
Qed.

Lemma map_pages_none ks m e n :
  (forall i, 0 <= i < Z.of_nat n -> ~ usable m (e + sizeof_mmap_entry * i)) -> map_pages ks m e n = [].
Proof.
  unfold sizeof_mmap_entry. revert e. induction n as [| n IH]; intros e Hu; [done |]. cbn [map_pages].
  unfold entry_pages. rewrite decide_False by (specialize (Hu 0 ltac:(lia)); rewrite Z.mul_0_r, Z.add_0_r in Hu; exact Hu).
  apply IH. intros i Hi. replace (e + sizeof_mmap_entry + 24 * i) with (e + 24 * (i + 1)) by (unfold sizeof_mmap_entry; lia).
  apply Hu. lia.
Qed.

Lemma map_pages_elem ks m e n p :
  p ∈ map_pages ks m e n <->
  exists i, 0 <= i < Z.of_nat n /\ usable m (e + sizeof_mmap_entry * i) /\
    u32 (0x100000 + ks) <= p < u32 (0x100000 + length_low m (e + sizeof_mmap_entry * i)) /\ p <= PMM_MAX_SIZE /\
    (p - u32 (0x100000 + ks)) mod PMM_PAGE_SIZE = 0.
Proof.
  unfold sizeof_mmap_entry. revert e. induction n as [| n IH]; intros e; cbn [map_pages].
  - split; [by intros ?%not_elem_of_nil | intros (i & ? & _); lia].
  - rewrite elem_of_app, IH. unfold entry_pages, sizeof_mmap_entry. split.
    + intros [Hp | (i & Hi & H')].
      * case_decide as Hu; [| by apply not_elem_of_nil in Hp]. exists 0. rewrite Z.mul_0_r, Z.add_0_r.
        apply page_list_elem in Hp. destruct Hu as [Ht Hb]. rewrite Hb in Hp. split; [lia |]. split; [done | exact Hp].
      * exists (i + 1). replace (e + 24 * (i + 1)) with (e + 24 + 24 * i) by lia. split; [lia | exact H'].
    + intros (i & Hi & Hu & Hp). destruct (decide (i = 0)) as [-> | Hne].
      * left. rewrite Z.mul_0_r, Z.add_0_r in *. rewrite decide_True by exact Hu. apply page_list_elem.
        destruct Hu as [_ Hb]. by rewrite Hb.
      * right. exists (i - 1). replace (e + 24 + 24 * (i - 1)) with (e + 24 * i) by lia. split; [lia | done].
Qed.

(** C31: init_pmm terminates, and the page counter is the length of the free list.  The loop takes
    [mmap_length], the size of the map in bytes, for its number of entries: the free list is the pages
    of the map, followed by the pages of what looks like usable areas in the bytes after the map.  The
    pages of a map are those of the areas of type 1 that start at 1 MB, after the kernel and up to
    512 MB.  When nothing after the map looks like such an area the free list is exactly the pages
    of the map. *)
Theorem init_pmm_ok fuel ks m addr len s :
  0 <= addr -> 0 <= len -> addr + sizeof_mmap_entry * len < 4294967296 ->
  (Z.to_nat len < fuel)%nat ->
  Z.of_nat (length (map_pages ks m addr (Z.to_nat len))) <= stack_len ->
  let n := entry_count len in
  let rest := addr + sizeof_mmap_entry * Z.of_nat n in
  exists s', init_pmm fuel ks m addr len s = Ok s' /\
    phy_page_count s' = Z.of_nat (length (map_pages ks m addr (Z.to_nat len))) /\
    pages s' (map_pages ks m addr (Z.to_nat len)) /\
    map_pages ks m addr (Z.to_nat len) = map_pages ks m addr n ++ map_pages ks m rest (Z.to_nat len - n) /\
    (forall p, p ∈ map_pages ks m addr n <->
       exists i, 0 <= i < Z.of_nat n /\ usable m (addr + sizeof_mmap_entry * i) /\
         u32 (0x100000 + ks) <= p < u32 (0x100000 + length_low m (addr + sizeof_mmap_entry * i)) /\
         p <= PMM_MAX_SIZE /\ (p - u32 (0x100000 + ks)) mod PMM_PAGE_SIZE = 0) /\
    ((forall i, Z.of_nat n <= i < len -> ~ usable m (addr + sizeof_mmap_entry * i)) ->
       pages s' (map_pages ks m addr n)).
Proof.
  intros Ha Hl Hb Hf Hlen n rest.
  destruct (init_pmm_run fuel ks m addr len s Ha Hl Hb Hf Hlen) as (s' & Hr & Hp & Hc).
  assert (Hn : (n <= Z.to_nat len)%nat) by (unfold n, entry_count, sizeof_mmap_entry; zlia).
  assert (Happ : map_pages ks m addr (Z.to_nat len) = map_pages ks m addr n ++ map_pages ks m rest (Z.to_nat len - n)).
  { rewrite <- map_pages_app. f_equal. lia. }
  exists s'. split; [exact Hr |]. split; [exact Hc |]. split; [exact Hp |]. split; [exact Happ |].
  split; [intros p; apply map_pages_elem |]. intros Hu. rewrite Happ, (map_pages_none _ _ rest), app_nil_r in Hp; [exact Hp |].
  intros i Hi. unfold rest. replace (addr + sizeof_mmap_entry * Z.of_nat n + sizeof_mmap_entry * i) with
    (addr + sizeof_mmap_entry * (Z.of_nat n + i)) by lia. apply Hu. lia.
Qed.

(** With one usable area, the free pages are distinct and page aligned when
    the kernel's end is, and they are all the pages between the end of the kernel and the
    end of the area, up to 512 MB. *)
Theorem free_pages_sound ks m e :
  type_ m e = 1 -> base_addr_low m e = 0x100000 -> 0 <= ks < 0x20000000 ->
  0 <= length_low m e < 0xFFF00000 ->
  NoDup (entry_pages ks m e) /\
  (forall p, p ∈ entry_pages ks m e <->
     0x100000 + ks <= p < 0x100000 + length_low m e /\ p <= PMM_MAX_SIZE /\
     (p - ks) mod 4096 = 0).
Proof.
  intros Ht Hb Hk Hl. unfold entry_pages. rewrite decide_True by done.
  split; [apply page_list_NoDup |]. intros p. rewrite page_list_elem, Hb.
  rewrite !u32_small by lia. split; intros (?&?&?); split_and!; try done; zlia.
Qed.

End pages.

(** ** The memory map is overrun *)

(** A memory map of one entry (24 bytes at address 0), followed by a word pattern
    that looks like another usable entry. *)
Definition one_entry (e : Z) (m : mem) : mem :=
  store32 (e + 20) 1 (store32 (e + 12) 0x2000 (store32 (e + 4) 0x100000 m)).

Definition overrun_map : mem := one_entry 24 (one_entry 0 ∅).

(** The boot loader reports a length of 24 bytes, one entry; [init_pmm] reads
    24 entries, and what follows the map adds the same pages a second time. *)
Theorem init_pmm_overruns :
  entry_pages 0x1000 overrun_map 0 = [0x101000] /\
  exists s, init_pmm 25 0x1000 overrun_map 0 24 (mk ∅ 0 0) = Ok s /\
    pages s [0x101000; 0x101000].
Proof.
  split; [by vm_compute |].
  destruct (init_pmm_run 25 0x1000 overrun_map 0 24 (mk ∅ 0 0)) as (s & Hs & Hp & _);
    try (unfold sizeof_mmap_entry; lia).
  - by vm_compute.
  - exists s. split; [done |]. by replace (map_pages _ _ _ _) with [0x101000; 0x101000] in Hp by (by vm_compute).
Qed.

(** ** Concrete free lists *)

Definition two_pages : t := mk (<[0 := 0x101000]> (<[1 := 0x102000]> ∅)) 1 2.

Lemma two_pages_ok : pages two_pages ([0x101000] ++ [0x102000]).
Proof.
  split; [done | rewrite stack_len_val; simpl; lia |].
  intros [| [| i]] p; [by intros [= <-] | by intros [= <-] | done].
Qed.

Lemma alloc_page_cases_witness :
  exists l' p s', [0x101000; 0x102000] = l' ++ [p] /\ pmm_alloc_page two_pages = Ok (p, s') /\
    pages s' l' /\ phy_page_count s' = phy_page_count two_pages.
Proof. exact (alloc_page_cases two_pages [0x101000; 0x102000] two_pages_ok). Defined.

Lemma free_alloc_page_witness :
  exists s1 s2, pmm_free_page 0x103000 two_pages = Ok s1 /\ pmm_alloc_page s1 = Ok (0x103000, s2) /\
    pages s2 [0x101000; 0x102000].
Proof.
  apply (free_alloc_page two_pages [0x101000; 0x102000] 0x103000 two_pages_ok); [done |].
  rewrite page_max_val. simpl. lia.
Defined.

Lemma alloc_page_at_ok_witness :
  exists s', pmm_alloc_page_at 3 0x101000 two_pages = Ok (0x101000, s') /\ pages s' [0x102000] /\
    [0x101000; 0x102000] ≡ₚ [0x101000; 0x102000].
Proof. exact (alloc_page_at_ok 3 0x101000 two_pages [0x101000] 0x102000 two_pages_ok ltac:(simpl; lia)). Defined.

(** One area of two pages, the first of them the kernel's, and nothing after the map. *)
Definition clean_map : mem := one_entry 0 ∅.

Lemma clean_map_clean i : 1 <= i < 24 -> ~ usable clean_map (0 + sizeof_mmap_entry * i).
Proof.
  intros Hi [Ht _]. assert (Hall : forallb (fun i => negb (type_ clean_map (0 + sizeof_mmap_entry * i) =? 1)) (seqZ 1 23) = true)
    by (vm_compute; reflexivity).
  rewrite forallb_forall in Hall. specialize (Hall i). rewrite Ht in Hall. discriminate Hall.
  apply list_elem_of_In, elem_of_seqZ. lia.
Qed.

Lemma init_pmm_ok_witness :
  exists s, init_pmm 25 0x1000 clean_map 0 24 (mk ∅ 0 0) = Ok s /\ pages s [0x101000] /\
    phy_page_count s = 1.
Proof.
  destruct (init_pmm_ok 25 0x1000 clean_map 0 24 (mk ∅ 0 0)) as (s & Hr & Hc & _ & _ & _ & Hp);
    [lia | lia | unfold sizeof_mmap_entry; lia | simpl; lia | vm_compute; congruence |].
  exists s. split; [exact Hr |]. split; [exact (Hp clean_map_clean) | exact Hc].
Defined.

Lemma free_pages_sound_witness :
  NoDup (entry_pages 0x1000 overrun_map 0) /\ 0x101000 ∈ entry_pages 0x1000 overrun_map 0.
Proof.
  destruct (free_pages_sound 0x1000 overrun_map 0) as [Hnd Hin];
    [reflexivity | reflexivity | lia | vm_compute; split; congruence |].
  split; [exact Hnd |]. apply Hin. vm_compute. split_and!; congruence.
Defined.
