(* ===== verification/Vmm.v ===== *)
(** * Virtual memory ([include/vmm.h], [lib/vmm.cc])

    [PageTable] and [PageDictionary] with their entries as 32-bit words.  The
    page dictionary points to its tables by physical address, so following an
    entry goes through the address at which the linker put the dictionary; an
    address that is not one of the reserved tables faults. *)

From stdpp Require Import prelude gmap strings.
From Stdlib Require Import ZArith Lia.
From S2P Require Import Prelude CString Interrupts Pmm.

Definition PAGE_OFFSET : Z := 0xC0000000.
Definition PMA (x : Z) : Z := u32 (x - PAGE_OFFSET).
Definition VMA (x : Z) : Z := u32 (x + PAGE_OFFSET).

Definition PAGE_PRESENT : Z := 1.
Definition PAGE_WRITE : Z := 2.
Definition ENTRY_ADDR : Z := 0xFFFFF000.
Definition PAGE_SIZE : Z := 4096.
Definition TABLE_MAX_SIZE : Z := 1024.
Definition DICTIONARY_MAX_SIZE : Z := 1024.
Definition TABLE_RESERVE : Z := 128.

(** [entry & PAGE_PRESENT]. *)
Definition present (e : Z) : bool := negb (Z.land e PAGE_PRESENT =? 0).

(** [(pte & ENTRY_ADDR) | page_offset]. *)
Definition frame_addr (pte off : Z) : Z := Z.lor (Z.land pte ENTRY_ADDR) off.

Module PageTable.

(** [entries]. *)
Abbreviation t := (gmap Z Z).

Definition table_index (addr : Z) : Z := Z.land (Z.shiftr addr 12) 0x3FF.

Definition page_offset (addr : Z) : Z := Z.land addr 0xFFF.

Definition at_ (vma : Z) (pt : t) : outcome Z :=
  let! pte := or_fault (arr_get TABLE_MAX_SIZE pt (table_index vma)) in
  if negb (present pte) then Ok 0 else Ok (frame_addr pte (page_offset vma)).

(** [operator[]], which allocates the page on a miss. *)
Definition index (vma : Z) (pt : t) (pm : pmm.t) : outcome (Z * t * pmm.t) :=
  let! pte := or_fault (arr_get TABLE_MAX_SIZE pt (table_index vma)) in
  if negb (present pte) then
    let! '(page, pm) := pmm.pmm_alloc_page pm in
    let pte := Z.lor (Z.lor page PAGE_PRESENT) PAGE_WRITE in
    let! pt := or_fault (arr_set TABLE_MAX_SIZE pt (table_index vma) pte) in
    Ok (frame_addr pte (page_offset vma), pt, pm)
  else Ok (frame_addr pte (page_offset vma), pt, pm).

Definition insert (vma pma : Z) (pt : t) : outcome t :=
  let pte := Z.lor (Z.lor (Z.land pma ENTRY_ADDR) PAGE_PRESENT) PAGE_WRITE in
  or_fault (arr_set TABLE_MAX_SIZE pt (table_index vma) pte).

End PageTable.

Module PageDictionary.
Section PageDictionary.
(** The address of the dictionary, whose first member is [entries]. *)
Context (self : Z).

Record t := mk {
  entries : gmap Z Z;
  reserve : gmap Z PageTable.t;
  table_count : Z
}.

Definition make : t := mk ∅ ∅ 0.

(** [&reserve[i]]: after the 1024 entries, tables of 4096 bytes. *)
Definition reserve_addr (i : Z) : Z := u32 (self + 4 * DICTIONARY_MAX_SIZE + PAGE_SIZE * i).

(** The table at an address, by its index in [reserve]. *)
Definition table_at (a : Z) : outcome Z :=
  let off := a - (self + 4 * DICTIONARY_MAX_SIZE) in
  if decide (0 <= off < PAGE_SIZE * TABLE_RESERVE /\ off mod PAGE_SIZE = 0) then
    Ok (off / PAGE_SIZE)
  else Fault.

Definition get_table (i : Z) (d : t) : PageTable.t := default ∅ (reserve d !! i).

Definition set_table (i : Z) (pt : PageTable.t) (d : t) : t :=
  mk (entries d) (<[i := pt]> (reserve d)) (table_count d).

Definition dict_index (addr : Z) : Z := Z.land (Z.shiftr addr 22) 0x3FF.

(** The word [set_pde] stores. *)
Definition pde_of (raw : Z) : Z :=
  Z.lor (Z.lor (PMA (Z.land raw ENTRY_ADDR)) PAGE_PRESENT) PAGE_WRITE.

Definition set_page_table (i raw : Z) (d : t) : outcome t :=
  let! es := or_fault (arr_set DICTIONARY_MAX_SIZE (entries d) i (pde_of raw)) in
  Ok (mk es (reserve d) (table_count d)).

Definition real_page_table (pde : Z) : Z := VMA (Z.land ENTRY_ADDR pde).

Definition alloc_table (d : t) : outcome (Z * t) :=
  kassert (table_count d <? TABLE_RESERVE) "no page table available" (
    Ok (reserve_addr (table_count d), mk (entries d) (reserve d) (u32 (table_count d + 1)))).

Definition at_ (vma : Z) (d : t) : outcome Z :=
  let! pde := or_fault (arr_get DICTIONARY_MAX_SIZE (entries d) (dict_index vma)) in
  if negb (present pde) then Ok 0
  else
    let! i := table_at (real_page_table pde) in
    PageTable.at_ vma (get_table i d).

(** The table for an address, allocated if there is none: the part common to
    [operator[]] and [insert].  The result is its index in [reserve]. *)
Definition find_table (vma : Z) (d : t) : outcome (Z * t) :=
  let! pde := or_fault (arr_get DICTIONARY_MAX_SIZE (entries d) (dict_index vma)) in
  let! d :=
    (if negb (present pde) then
       let! '(raw, d) := alloc_table d in set_page_table (dict_index vma) raw d
     else Ok d) in
  let! pde := or_fault (arr_get DICTIONARY_MAX_SIZE (entries d) (dict_index vma)) in
  let! i := table_at (real_page_table pde) in
  Ok (i, d).

(** [operator[]]. *)
Definition index (vma : Z) (d : t) (pm : pmm.t) : outcome (Z * t * pmm.t) :=
  let! '(i, d) := find_table vma d in
  let! '(a, pt, pm) := PageTable.index vma (get_table i d) pm in
  Ok (a, set_table i pt d, pm).

Definition insert (vma pma : Z) (d : t) : outcome t :=
  let! '(i, d) := find_table vma d in
  let! pt := PageTable.insert vma pma (get_table i d) in
  Ok (set_table i pt d).

(** The value loaded into [cr3]. *)
Definition register_dictionary : Z := PMA self.

(** [page_fault_handler]; [cr2] is the faulting address. *)
Definition page_fault_handler (cr2 err_code : Z) (d : t) (pm : pmm.t) : outcome (t * pmm.t) :=
  if Z.land err_code PAGE_PRESENT =? 0 then
    let! '(_, d, pm) := index cr2 d pm in Ok (d, pm)
  else Ok (d, pm).

(** The loop of [init_vmm], from [i], for [n] more turns. *)
Fixpoint map_kernel (n : nat) (i : Z) (d : t) : outcome t :=
  match n with
  | O => Ok d
  | S n' =>
      let! d := insert (VMA (Z.shiftl i 12)) (u32 (Z.shiftl i 12)) d in
      map_kernel n' (i + 1) d
  end.

(** [handler] is the address of [page_fault_handler]; the last result is [cr3]. *)
Definition init_vmm (handler : Z) (d : t) (it : idt.t) : outcome (t * idt.t * Z) :=
  let! d := map_kernel 1024 0 d in
  let! it := idt.register_isr 14 handler it in
  Ok (d, it, register_dictionary).

End PageDictionary.
End PageDictionary.

(** ** Page numbers and flags *)

Lemma table_index_val a : 0 <= a < 4294967296 -> PageTable.table_index a = a / 4096 mod 1024.
Proof.
  intros Ha. unfold PageTable.table_index. change 0x3FF with (2 ^ 10 - 1).
  rewrite land_low, Z.shiftr_div_pow2 by lia. done.
Qed.

Lemma dict_index_val a : 0 <= a < 4294967296 -> PageDictionary.dict_index a = a / 4194304.
Proof.
  intros Ha. unfold PageDictionary.dict_index. change 0x3FF with (2 ^ 10 - 1).
  rewrite land_low, Z.shiftr_div_pow2 by lia. change (2 ^ 22) with 4194304.
  change (2 ^ 10) with 1024. zlia.
Qed.

Lemma page_offset_val a : PageTable.page_offset a = a mod 4096.
Proof. unfold PageTable.page_offset. change 0xFFF with (2 ^ 12 - 1). by rewrite land_low by lia. Qed.

Lemma entry_addr_val x : 0 <= x < 4294967296 -> Z.land x ENTRY_ADDR = x - x mod 4096.
Proof.
  intros Hx. unfold ENTRY_ADDR. change 0xFFFFF000 with (2 ^ 32 - 2 ^ 12).
  by rewrite land_high by (simpl; lia).
Qed.

(** The flags are or-ed into the low bits of an aligned address. *)
Lemma flags_val x :
  x mod 4096 = 0 -> Z.lor (Z.lor x PAGE_PRESENT) PAGE_WRITE = x + 3.
Proof.
  intros Hx. unfold PAGE_PRESENT, PAGE_WRITE. rewrite <- Z.lor_assoc. change (Z.lor 1 2) with 3.
  apply (lor_add x 3 12); [lia | done | lia].
Qed.

Lemma present_flags x : x mod 4096 = 0 -> present (x + 3) = true.
Proof.
  intros Hx. unfold present, PAGE_PRESENT. change 1 with (2 ^ 1 - 1). rewrite land_low by lia.
  change (2 ^ 1) with 2. by replace ((x + 3) mod 2) with 1 by zlia.
Qed.

Lemma frame_addr_val x off :
  0 <= x < 4294967296 -> x mod 4096 = 0 -> 0 <= off < 4096 -> frame_addr (x + 3) off = x + off.
Proof.
  intros Hx Hm Ho. unfold frame_addr. rewrite entry_addr_val by zlia.
  replace (x + 3 - (x + 3) mod 4096) with x by zlia.
  apply (lor_add x off 12); [lia | done | lia].
Qed.

(** Two addresses in the same page. *)
Definition same_page (a b : Z) : Prop := a / 4096 = b / 4096.

#[export] Instance same_page_dec a b : Decision (same_page a b).
Proof. unfold same_page. apply _. Defined.

Lemma same_page_index a b :
  0 <= a < 4294967296 -> 0 <= b < 4294967296 ->
  same_page a b <->
  PageDictionary.dict_index a = PageDictionary.dict_index b /\
  PageTable.table_index a = PageTable.table_index b.
Proof.
  intros Ha Hb. rewrite !dict_index_val, !table_index_val by done. unfold same_page. split.
  - intros H. split; zlia.
  - intros [H1 H2]. zlia.
Qed.

Lemma table_index_range a : 0 <= a < 4294967296 -> 0 <= PageTable.table_index a < TABLE_MAX_SIZE.
Proof. intros. rewrite table_index_val by done. unfold TABLE_MAX_SIZE. zlia. Qed.

Lemma dict_index_range a :
  0 <= a < 4294967296 -> 0 <= PageDictionary.dict_index a < DICTIONARY_MAX_SIZE.
Proof. intros. rewrite dict_index_val by done. unfold DICTIONARY_MAX_SIZE. zlia. Qed.

(** ** Page tables *)

(** An entry is absent or a page address with the two flags. *)
Definition pte_ok (pte : Z) : Prop :=
  present pte = true -> 0 <= pte < 4294967296 /\ pte mod 4096 = 3.

Definition table_ok (pt : PageTable.t) : Prop := forall k, pte_ok (default 0 (pt !! k)).

Lemma pte_ok_flags x : 0 <= x < 4294967296 -> x mod 4096 = 0 -> pte_ok (x + 3).
Proof. intros ???. split; zlia. Qed.

Lemma table_ok_set k x pt :
  table_ok pt -> 0 <= x < 4294967296 -> x mod 4096 = 0 -> table_ok (<[k := x + 3]> pt).
Proof.
  intros Ht Hx Hm j. destruct (decide (k = j)) as [-> | Hne].
  - rewrite lookup_insert_eq. by apply pte_ok_flags.
  - rewrite lookup_insert_ne by done. apply Ht.
Qed.

Lemma pt_at_set vma vma' x pt :
  0 <= vma < 4294967296 -> 0 <= vma' < 4294967296 -> 0 <= x < 4294967296 -> x mod 4096 = 0 ->
  PageTable.at_ vma' (<[PageTable.table_index vma := x + 3]> pt) =
    if decide (PageTable.table_index vma' = PageTable.table_index vma) then Ok (x + vma' mod 4096)
    else PageTable.at_ vma' pt.
Proof.
  intros Hv Hv' Hx Hm. unfold PageTable.at_.
  rewrite !arr_get_in by (apply table_index_range; done). cbn [obind or_fault].
  case_decide as He.
  - rewrite He, lookup_insert_eq. cbn [default from_option]. change (id (x + 3)) with (x + 3).
    rewrite present_flags by done. cbn [negb].
    by rewrite page_offset_val, frame_addr_val by zlia.
  - by rewrite lookup_insert_ne by congruence.
Qed.

(** ** Page dictionaries *)

Section dictionary.
Context (self : Z).
Hypothesis Hself : self mod 4096 = 0 /\ PAGE_OFFSET <= self /\ self + 4096 * 129 < 4294967296.

Import PageDictionary.

Abbreviation dict_t := (t).

Implicit Types (d : dict_t) (vma pma : Z).

(** The dictionary's entry for an address. *)
Definition pde d vma : Z := default 0 (entries d !! dict_index vma).

(** The entry that points to the reserved table [j]. *)
Definition pde_for (j : Z) : Z := pde_of (reserve_addr self j).

Record wf d : Prop := {
  w_count : 0 <= table_count d <= TABLE_RESERVE;
  w_entry : forall i, present (default 0 (entries d !! i)) = true ->
    exists j, 0 <= j < table_count d /\ default 0 (entries d !! i) = pde_for j;
  w_inj : forall i i', present (default 0 (entries d !! i)) = true ->
    default 0 (entries d !! i) = default 0 (entries d !! i') -> i = i';
  w_fresh : forall j k, table_count d <= j -> default 0 (get_table j d !! k) = 0;
  w_tables : forall j, table_ok (get_table j d)
}.

Lemma pde_for_val j : 0 <= j < 128 -> pde_for j = self + 4096 + 4096 * j - PAGE_OFFSET + 3.
Proof.
  intros Hj. unfold pde_for, pde_of, reserve_addr, PMA, DICTIONARY_MAX_SIZE, PAGE_SIZE, PAGE_OFFSET in *.
  rewrite (u32_small (self + _ + _)) by lia. rewrite entry_addr_val by lia.
  replace (self + 4 * 1024 + 4096 * j - (self + 4 * 1024 + 4096 * j) mod 4096 - 3221225472)
    with (self + 4096 + 4096 * j - 3221225472) by zlia.
  rewrite u32_small by lia. rewrite flags_val by zlia. done.
Qed.

Lemma pde_for_present j : 0 <= j < 128 -> present (pde_for j) = true.
Proof.
  intros Hj. rewrite pde_for_val by done. apply present_flags. unfold PAGE_OFFSET. zlia.
Qed.

Lemma pde_for_inj j j' : 0 <= j < 128 -> 0 <= j' < 128 -> pde_for j = pde_for j' -> j = j'.
Proof. intros Hj Hj'. rewrite !pde_for_val by done. lia. Qed.

(** Following an entry leads back to its table. *)
Lemma table_at_pde j : 0 <= j < 128 -> table_at self (real_page_table (pde_for j)) = Ok j.
Proof.
  intros Hj. unfold real_page_table. rewrite pde_for_val, Z.land_comm by done.
  unfold VMA, table_at, DICTIONARY_MAX_SIZE, PAGE_SIZE, TABLE_RESERVE, PAGE_OFFSET in *.
  rewrite entry_addr_val by lia.
  replace (self + 4096 + 4096 * j - 3221225472 + 3 -
    (self + 4096 + 4096 * j - 3221225472 + 3) mod 4096 + 3221225472)
    with (self + 4096 + 4096 * j) by zlia.
  rewrite u32_small by lia. rewrite decide_True by zlia. f_equal. zlia.
Qed.

Lemma pde_get d vma :
  0 <= vma < 4294967296 ->
  arr_get DICTIONARY_MAX_SIZE (entries d) (dict_index vma) = Some (pde d vma).
Proof. intros Hv. rewrite arr_get_in by (by apply dict_index_range). done. Qed.

Lemma at_absent d vma :
  0 <= vma < 4294967296 -> present (pde d vma) = false -> at_ self vma d = Ok 0.
Proof. intros Hv Hp. unfold at_. rewrite pde_get by done. cbn [obind or_fault]. by rewrite Hp. Qed.

Lemma at_present d vma j :
  0 <= vma < 4294967296 -> 0 <= j < 128 -> pde d vma = pde_for j ->
  at_ self vma d = PageTable.at_ vma (get_table j d).
Proof.
  intros Hv Hj Hp. unfold at_. rewrite pde_get by done. cbn [obind or_fault].
  rewrite Hp, pde_for_present, table_at_pde by done. done.
Qed.

Lemma pt_at_empty pt vma :
  0 <= vma < 4294967296 -> (forall k, default 0 (pt !! k) = 0) -> PageTable.at_ vma pt = Ok 0.
Proof.
  intros Hv Hz. unfold PageTable.at_. rewrite arr_get_in by (by apply table_index_range).
  cbn [obind or_fault]. by rewrite Hz.
Qed.

(** The table of an address exists or is made; no translation changes. *)
(** The dictionary after [alloc_table]: a new table at [vma]'s entry. *)
Definition add_table (d : t) (vma : Z) : t :=
  mk (<[dict_index vma := pde_for (table_count d)]> (entries d)) (reserve d) (u32 (table_count d + 1)).

Lemma add_table_entry d vma i :
  default 0 (entries (add_table d vma) !! i) =
    if decide (i = dict_index vma) then pde_for (table_count d) else default 0 (entries d !! i).
Proof.
  cbn. case_decide as Hi; [subst; by rewrite lookup_insert_eq |].
  by rewrite lookup_insert_ne by congruence.
Qed.

Lemma add_table_wf d vma :
  wf d -> 0 <= vma < 4294967296 -> present (pde d vma) = false -> table_count d < TABLE_RESERVE ->
  wf (add_table d vma).
Proof.
  intros Hw Hv Hp Hroom. assert (Hc := w_count _ Hw). unfold TABLE_RESERVE in *.
  assert (Hcount : table_count (add_table d vma) = table_count d + 1) by (cbn; by rewrite u32_small by lia).
  assert (Hcases : forall i, present (default 0 (entries d !! i)) = true ->
            i <> dict_index vma /\ default 0 (entries d !! i) <> pde_for (table_count d)).
  { intros i Hi. split; [intros ->; unfold pde in Hp; congruence |]. intros He.
    destruct (w_entry _ Hw _ Hi) as (j & Hj & He'). rewrite He in He'.
    apply pde_for_inj in He'; lia. }
  split.
  - rewrite Hcount. unfold TABLE_RESERVE. lia.
  - intros i. rewrite add_table_entry, Hcount. case_decide; [exists (table_count d); split; [lia | done] |].
    intros Hi. destruct (w_entry _ Hw _ Hi) as (j & Hj & He). exists j. split; [lia | done].
  - intros i i'. rewrite !add_table_entry. repeat case_decide; subst; try done.
    + intros _ He. destruct (Hcases i') as [_ Hne]; [rewrite <- He; apply pde_for_present; lia |].
      congruence.
    + intros Hi He. by destruct (Hcases i Hi).
    + apply (w_inj _ Hw).
  - intros j k. rewrite Hcount. intros Hj. apply (w_fresh _ Hw). lia.
  - apply (w_tables _ Hw).
Qed.

Lemma add_table_at d vma vma' :
  wf d -> 0 <= vma < 4294967296 -> present (pde d vma) = false -> table_count d < TABLE_RESERVE ->
  0 <= vma' < 4294967296 -> at_ self vma' (add_table d vma) = at_ self vma' d.
Proof.
  intros Hw Hv Hp Hroom Hv'. assert (Hc := w_count _ Hw). unfold TABLE_RESERVE in *.
  assert (Hcount : table_count (add_table d vma) = table_count d + 1) by (cbn; by rewrite u32_small by lia).
  pose proof (add_table_wf d vma Hw Hv Hp Hroom) as Hw'.
  assert (He' : pde (add_table d vma) vma' =
    if decide (dict_index vma' = dict_index vma) then pde_for (table_count d) else pde d vma')
    by apply add_table_entry.
  case_decide as He.
  - rewrite (at_present (add_table d vma) _ (table_count d)) by (done || lia).
    rewrite (at_absent d) by (try done; unfold pde; by rewrite He).
    apply pt_at_empty; [done |]. intros k. apply (w_fresh _ Hw). lia.
  - destruct (present (pde d vma')) eqn:Hp'; [| by rewrite !at_absent by congruence].
    destruct (w_entry _ Hw _ Hp') as (j & Hj & Hej). fold (pde d vma') in Hej.
    by rewrite (at_present (add_table d vma) _ j), (at_present d _ j) by (done || lia || congruence).
Qed.

Lemma find_table_ok d vma :
  wf d -> 0 <= vma < 4294967296 ->
  present (pde d vma) = true \/ table_count d < TABLE_RESERVE ->
  exists j d', find_table self vma d = Ok (j, d') /\ wf d' /\ 0 <= j < table_count d' /\
    pde d' vma = pde_for j /\ table_count d <= table_count d' <= table_count d + 1 /\
    (present (pde d vma) = true -> d' = d) /\
    (present (pde d vma) = false -> forall k, default 0 (get_table j d' !! k) = 0) /\
    forall vma', 0 <= vma' < 4294967296 -> at_ self vma' d' = at_ self vma' d.
Proof.
  intros Hw Hv Hroom. unfold find_table. rewrite pde_get by done. cbn [obind or_fault].
  assert (Hc := w_count _ Hw). unfold TABLE_RESERVE in *.
  destruct (present (pde d vma)) eqn:Hp; cbn [negb].
  - cbn [obind]. rewrite pde_get by done. cbn [obind or_fault].
    destruct (w_entry _ Hw _ Hp) as (j & Hj & He). fold (pde d vma) in He. rewrite He.
    rewrite table_at_pde by lia. cbn [obind]. exists j, d. split_and!; try done; try lia.
  - destruct Hroom as [| Hroom]; [done |].
    unfold alloc_table, kassert, TABLE_RESERVE. destruct (Z.ltb_spec (table_count d) 128); [| lia].
    cbn [obind]. unfold set_page_table. fold (pde_for (table_count d)). cbn [entries].
    rewrite arr_set_in by (by apply dict_index_range). cbn [obind or_fault].
    change (mk _ _ _) with (add_table d vma).
    assert (Hpde : pde (add_table d vma) vma = pde_for (table_count d))
      by (unfold pde; rewrite add_table_entry; by case_decide).
    rewrite pde_get by done. cbn [obind or_fault]. rewrite Hpde, table_at_pde by lia. cbn [obind].
    assert (Hcount : table_count (add_table d vma) = table_count d + 1) by (cbn; by rewrite u32_small by lia).
    exists (table_count d), (add_table d vma). split_and!; try lia; try done.
    + by apply add_table_wf.
    + intros _ k. apply (w_fresh _ Hw). lia.
    + intros vma' Hv'. by apply add_table_at.
Qed.

(** Replacing a table changes the translations that go through it. *)
Lemma set_table_wf d j pt :
  wf d -> 0 <= j < table_count d -> table_ok pt -> wf (set_table j pt d).
Proof.
  intros Hw Hj Hpt. split; try apply Hw.
  - intros j' k Hj'. unfold get_table, set_table in *. cbn in *.
    rewrite lookup_insert_ne by lia. by apply (w_fresh _ Hw).
  - intros j'. unfold get_table, set_table. cbn. destruct (decide (j = j')) as [-> | Hne].
    + by rewrite lookup_insert_eq.
    + rewrite lookup_insert_ne by done. apply (w_tables _ Hw).
Qed.

Lemma set_table_at d j vma vma' pt :
  wf d -> 0 <= vma < 4294967296 -> 0 <= vma' < 4294967296 -> 0 <= j < table_count d ->
  pde d vma = pde_for j ->
  at_ self vma' (set_table j pt d) =
    if decide (dict_index vma' = dict_index vma) then PageTable.at_ vma' pt else at_ self vma' d.
Proof.
  intros Hw Hv Hv' Hj Hp. assert (Hc := w_count _ Hw). unfold TABLE_RESERVE in Hc.
  assert (Hpde : pde (set_table j pt d) vma' = pde d vma') by done.
  case_decide as He.
  - rewrite (at_present _ _ j); [| done | lia | rewrite Hpde; unfold pde in *; congruence].
    unfold get_table, set_table. cbn. by rewrite lookup_insert_eq.
  - destruct (present (pde d vma')) eqn:Hp'; [| rewrite !at_absent by congruence; done].
    destruct (w_entry _ Hw _ Hp') as (j' & Hj' & Hej). fold (pde d vma') in Hej.
    rewrite (at_present _ _ j') by (done || lia || congruence).
    rewrite (at_present d _ j') by (done || lia). f_equal.
    unfold get_table, set_table. cbn. rewrite lookup_insert_ne; [done |]. intros ->.
    apply He. apply (w_inj _ Hw); [done |]. unfold pde in *. congruence.
Qed.

Lemma insert_step d vma pma :
  wf d -> 0 <= vma < 4294967296 -> 0 <= pma < 4294967296 ->
  present (pde d vma) = true \/ table_count d < TABLE_RESERVE ->
  exists d', insert self vma pma d = Ok d' /\ wf d' /\ present (pde d' vma) = true /\
    table_count d' <= table_count d + 1 /\
    (present (pde d vma) = true -> table_count d' = table_count d) /\
    forall vma', 0 <= vma' < 4294967296 ->
      at_ self vma' d' =
        if decide (same_page vma' vma) then Ok (pma - pma mod 4096 + vma' mod 4096)
        else at_ self vma' d.
Proof.
  intros Hw Hv Hpm Hroom.
  destruct (find_table_ok d vma Hw Hv Hroom) as (j & d1 & Hf & Hw1 & Hj & Hp1 & [_ Hcnt] & Hkeep & _ & Hat).
  unfold insert. rewrite Hf. cbn [obind]. unfold PageTable.insert.
  rewrite entry_addr_val, flags_val by zlia.
  rewrite arr_set_in by (by apply table_index_range). cbn [obind or_fault].
  eexists. split; [done |]. split.
  { apply set_table_wf; [done | done |]. apply table_ok_set; [apply Hw1 | zlia | zlia]. }
  split.
  { change (present (pde d1 vma) = true). rewrite Hp1. apply pde_for_present.
    pose proof (w_count _ Hw1). unfold TABLE_RESERVE in *. lia. }
  split; [exact Hcnt |]. split; [intros Hp; by rewrite (Hkeep Hp) |].
  intros vma' Hv'. rewrite (set_table_at d1 j vma) by done. rewrite Hat by done.
  rewrite pt_at_set by zlia.
  destruct (decide (same_page vma' vma)) as [Hs | Hs]; rewrite same_page_index in Hs by done.
  - rewrite !decide_True by tauto. done.
  - destruct (decide (dict_index vma' = dict_index vma)) as [He | He]; [| done].
    rewrite decide_False by tauto. rewrite <- Hat by done. symmetry. apply at_present; [done | |].
    + pose proof (w_count _ Hw1). unfold TABLE_RESERVE in *. lia.
    + unfold pde in *. congruence.
Qed.

(** insert maps one page and leaves every other translation alone. *)
Theorem insert_at d vma pma :
  wf d -> 0 <= vma < 4294967296 -> 0 <= pma < 4294967296 ->
  present (pde d vma) = true \/ table_count d < TABLE_RESERVE ->
  exists d', insert self vma pma d = Ok d' /\ wf d' /\ present (pde d' vma) = true /\
    forall vma', 0 <= vma' < 4294967296 ->
      at_ self vma' d' =
        if decide (same_page vma' vma) then Ok (pma - pma mod 4096 + vma' mod 4096)
        else at_ self vma' d.
Proof.
  intros Hw Hv Hp Hr. destruct (insert_step d vma pma Hw Hv Hp Hr) as (d' & ?&?&?&_&_&?). by exists d'.
Qed.

(** The page table entry for an address; 0 when it has no table. *)
Definition pte d vma : Z :=
  match table_at self (real_page_table (pde d vma)) with
  | Ok j => default 0 (get_table j d !! PageTable.table_index vma)
  | _ => 0
  end.

Definition mapped d vma : bool := present (pde d vma) && present (pte d vma).

(** Where a page is mapped, and where it is not. *)
Lemma at_page d vma vma' :
  wf d -> 0 <= vma < 4294967296 -> 0 <= vma' < 4294967296 -> same_page vma' vma ->
  if mapped d vma
  then exists p, 0 <= p /\ p mod 4096 = 0 /\ at_ self vma' d = Ok (p + vma' mod 4096)
  else at_ self vma' d = Ok 0.
Proof.
  intros Hw Hv Hv' Hs. apply same_page_index in Hs as [Hd Ht]; [| done | done].
  assert (Hp : pde d vma' = pde d vma) by (unfold pde; by rewrite Hd).
  unfold mapped. destruct (present (pde d vma)) eqn:E; cbn [andb]; [| apply at_absent; congruence].
  destruct (w_entry _ Hw _ E) as (j & Hj & Hpj). change (default 0 _) with (pde d vma) in Hpj.
  assert (Hj' : 0 <= j < 128) by (pose proof (w_count _ Hw); unfold TABLE_RESERVE in *; lia).
  rewrite (at_present d vma' j) by congruence. unfold pte. rewrite Hpj, table_at_pde by done.
  unfold PageTable.at_. rewrite arr_get_in by (by apply table_index_range). cbn [obind or_fault].
  rewrite Ht. destruct (present (default 0 (get_table j d !! _))) eqn:E2; cbn [negb]; [| done].
  destruct (w_tables _ Hw j _ E2) as [Hr Hm]. set (e := default 0 _) in *.
  exists (e - 3). split_and!; [zlia | zlia |]. rewrite page_offset_val.
  replace e with (e - 3 + 3) at 1 by lia. by rewrite frame_addr_val by zlia.
Qed.

Lemma pt_index_hit pt vma pm :
  0 <= vma < 4294967296 -> present (default 0 (pt !! PageTable.table_index vma)) = true ->
  exists a, PageTable.at_ vma pt = Ok a /\ PageTable.index vma pt pm = Ok (a, pt, pm).
Proof.
  intros Hv Hp. unfold PageTable.at_, PageTable.index.
  rewrite arr_get_in by (by apply table_index_range). cbn [obind or_fault]. rewrite Hp. cbn [negb].
  eexists. done.
Qed.

Lemma pt_index_miss pt vma pm pm' p :
  0 <= vma < 4294967296 -> present (default 0 (pt !! PageTable.table_index vma)) = false ->
  pmm.pmm_alloc_page pm = Ok (p, pm') -> 0 <= p < 4294967296 -> p mod 4096 = 0 ->
  PageTable.index vma pt pm =
    Ok (p + vma mod 4096, <[PageTable.table_index vma := p + 3]> pt, pm').
Proof.
  intros Hv Hp Ha Hpr Hpm. unfold PageTable.index.
  rewrite arr_get_in by (by apply table_index_range). cbn [obind or_fault]. rewrite Hp. cbn [negb].
  rewrite Ha. cbn [obind]. rewrite flags_val by done.
  rewrite arr_set_in by (by apply table_index_range). cbn [obind or_fault].
  by rewrite page_offset_val, frame_addr_val by zlia.
Qed.

(** The entry of [vma] once its table is [pt]. *)
Lemma pte_set_table d vma j pt :
  0 <= j < 128 -> pde d vma = pde_for j ->
  pte (set_table j pt d) vma = default 0 (pt !! PageTable.table_index vma).
Proof.
  intros Hj Hp. unfold pte. change (pde (set_table j pt d) vma) with (pde d vma).
  rewrite Hp, table_at_pde by done. unfold get_table, set_table. cbn. by rewrite lookup_insert_eq.
Qed.

Lemma index_step d vma pm l p :
  wf d -> 0 <= vma < 4294967296 ->
  present (pde d vma) = true \/ table_count d < TABLE_RESERVE ->
  Pmm.pages pm (l ++ [p]) -> l <> [] -> 0 <= p < 4294967296 -> p mod 4096 = 0 ->
  exists a d' pm', index self vma d pm = Ok (a, d', pm') /\ wf d' /\
    at_ self vma d' = Ok a /\ mapped d' vma = true /\
    (if mapped d vma then pm' = pm else Pmm.pages pm' l) /\
    table_count d' <= table_count d + 1 /\
    forall vma', 0 <= vma' < 4294967296 ->
      at_ self vma' d' =
        if negb (mapped d vma) && bool_decide (same_page vma' vma) then Ok (p + vma' mod 4096)
        else at_ self vma' d.
Proof.
  intros Hw Hv Hroom Hpm Hne Hpr Hpa.
  destruct (find_table_ok d vma Hw Hv Hroom) as (j & d1 & Hf & Hw1 & Hj & Hp1 & [_ Hcnt] & Hkeep & Hzero & Hat).
  assert (Hj' : 0 <= j < 128) by (pose proof (w_count _ Hw1); unfold TABLE_RESERVE in *; lia).
  assert (Hpd : present (pde d1 vma) = true) by (rewrite Hp1; by apply pde_for_present).
  assert (Hmapped : mapped d vma = present (default 0 (get_table j d1 !! PageTable.table_index vma))).
  { unfold mapped. destruct (present (pde d vma)) eqn:E; cbn [andb].
    - assert (d1 = d) as -> by auto. unfold pte. by rewrite Hp1, table_at_pde.
    - by rewrite Hzero. }
  unfold index. rewrite Hf. cbn [obind]. rewrite Hmapped.
  destruct (present (default 0 (get_table j d1 !! _))) eqn:E.
  - destruct (pt_index_hit (get_table j d1) vma pm Hv E) as (a & Ha & ->). cbn [obind negb andb].
    assert (Hsame : forall vma', 0 <= vma' < 4294967296 ->
              at_ self vma' (set_table j (get_table j d1) d1) = at_ self vma' d1).
    { intros vma' Hv'. rewrite (set_table_at d1 j vma) by done. case_decide as He; [| done].
      symmetry. apply at_present; [done | done |]. unfold pde in *. congruence. }
    eexists _, _, _. split; [reflexivity |]. split_and!; try done.
    + apply set_table_wf; [done | done |]. apply (w_tables _ Hw1).
    + by rewrite Hsame, (at_present d1 _ j).
    + unfold mapped. rewrite pte_set_table by done. change (pde (set_table _ _ d1) vma) with (pde d1 vma).
      by rewrite Hpd, E.
    + intros vma' Hv'. rewrite Hsame, Hat by done. done.
  - destruct (alloc_last _ _ _ Hpm Hne) as (pm' & Ha & Hpm').
    rewrite (pt_index_miss _ _ _ _ _ Hv E Ha Hpr Hpa). cbn [obind negb andb].
    eexists _, _, _. split; [reflexivity |].
    assert (Hnew : forall vma', 0 <= vma' < 4294967296 ->
      at_ self vma' (set_table j (<[PageTable.table_index vma := p + 3]> (get_table j d1)) d1) =
        if bool_decide (same_page vma' vma) then Ok (p + vma' mod 4096) else at_ self vma' d).
    { intros vma' Hv'. rewrite (set_table_at d1 j vma), pt_at_set by done.
      rewrite <- Hat by done. case_bool_decide as Hs; rewrite same_page_index in Hs by done.
      - rewrite !decide_True by tauto. done.
      - case_decide as He; [| done]. rewrite decide_False by tauto. symmetry.
        apply at_present; [done | done |]. unfold pde in *. congruence. }
    split_and!; try done.
    + apply set_table_wf; [done | done |]. apply table_ok_set; [apply Hw1 | done | done].
    + rewrite Hnew by done. by rewrite bool_decide_true.
    + unfold mapped. rewrite pte_set_table by done. change (pde (set_table _ _ d1) vma) with (pde d1 vma).
      rewrite Hpd, lookup_insert_eq. cbn. by apply present_flags.
Qed.

(** C16: The subscript operator.  On a mapped address nothing changes and no page
    is taken; otherwise the next free page is mapped at its page, and nowhere else.  Either
    way the address is mapped afterwards, and [at] gives the address returned. *)
Theorem index_maps d vma pm l p :
  wf d -> 0 <= vma < 4294967296 ->
  present (pde d vma) = true \/ table_count d < TABLE_RESERVE ->
  Pmm.pages pm (l ++ [p]) -> l <> [] -> 0 <= p < 4294967296 -> p mod 4096 = 0 ->
  exists a d' pm', index self vma d pm = Ok (a, d', pm') /\ wf d' /\
    at_ self vma d' = Ok a /\ mapped d' vma = true /\
    (if mapped d vma then pm' = pm else Pmm.pages pm' l) /\
    forall vma', 0 <= vma' < 4294967296 ->
      at_ self vma' d' =
        if negb (mapped d vma) && bool_decide (same_page vma' vma) then Ok (p + vma' mod 4096)
        else at_ self vma' d.
Proof.
  intros Hw Hv Hroom Hpm Hne Hpr Hpa.
  destruct (index_step d vma pm l p Hw Hv Hroom Hpm Hne Hpr Hpa) as (a & d' & pm' & H').
  exists a, d', pm'. tauto.
Qed.

(** The page fault handler maps the page of the faulting address when the
    fault is for a page that is not present, so that the address translates afterwards, and
    does nothing for a protection fault. *)
Theorem page_fault_maps d cr2 err pm l p :
  wf d -> 0 <= cr2 < 4294967296 -> table_count d < TABLE_RESERVE ->
  Pmm.pages pm (l ++ [p]) -> l <> [] -> 0 <= p < 4294967296 -> p mod 4096 = 0 ->
  exists d' pm', page_fault_handler self cr2 err d pm = Ok (d', pm') /\ wf d' /\
    (Z.land err PAGE_PRESENT = 0 -> mapped d' cr2 = true) /\
    (Z.land err PAGE_PRESENT <> 0 -> d' = d /\ pm' = pm).
Proof.
  intros Hw Hv Hroom Hpm Hne Hpr Hpa. unfold page_fault_handler.
  destruct (Z.eqb_spec (Z.land err PAGE_PRESENT) 0) as [He | He].
  - destruct (index_step d cr2 pm l p) as (a & d' & pm' & -> & Hw' & _ & Hm & _); auto.
    cbn [obind]. exists d', pm'. by split_and!.
  - exists d, pm. by split_and!.
Qed.

(** *** The kernel's mapping *)

Lemma make_wf : wf make.
Proof.
  split; unfold make; cbn; intros; rewrite ?lookup_empty in *; done.
Qed.

Lemma at_make vma : 0 <= vma < 4294967296 -> at_ self vma make = Ok 0.
Proof. intros Hv. apply at_absent; [done |]. unfold pde, make. cbn. by rewrite lookup_empty. Qed.

(** The translations after the first [i] turns of the loop. *)
Definition kernel_map (i vma : Z) : outcome Z :=
  if decide (PAGE_OFFSET <= vma < PAGE_OFFSET + 4096 * i) then Ok (vma - PAGE_OFFSET) else Ok 0.

Lemma map_kernel_ok n i d :
  wf d -> 0 <= i -> i + Z.of_nat n <= 1024 ->
  present (pde d PAGE_OFFSET) = true /\ table_count d = 1 \/ table_count d = 0 ->
  (forall vma, 0 <= vma < 4294967296 -> at_ self vma d = kernel_map i vma) ->
  exists d', map_kernel self n i d = Ok d' /\ wf d' /\ table_count d' <= 1 /\
    forall vma, 0 <= vma < 4294967296 -> at_ self vma d' = kernel_map (i + Z.of_nat n) vma.
Proof.
  revert i d. induction n as [| n IH]; intros i d Hw Hi Hn Hroom Hat; cbn [map_kernel].
  - exists d. rewrite Z.add_0_r. split_and!; try done. lia.
  - rewrite Z.shiftl_mul_pow2 by lia. change (2 ^ 12) with 4096.
    unfold VMA, PAGE_OFFSET in *. rewrite !u32_small by lia.
    assert (Hdi : dict_index (i * 4096 + 3221225472) = dict_index 3221225472).
    { rewrite !dict_index_val by lia. zlia. }
    destruct (insert_step d (i * 4096 + 3221225472) (i * 4096)) as (d1 & -> & Hw1 & Hp1 & Hc1 & Hk1 & Hat1);
      try done; try lia.
    { unfold pde, TABLE_RESERVE in *. rewrite Hdi. destruct Hroom as [[? _] |]; [by left | right; lia]. }
    cbn [obind]. destruct (IH (i + 1) d1) as (d' & Hd' & Hw' & Hc' & Hat'); try done; try lia.
    + left. split; [unfold pde in *; by rewrite <- Hdi |]. destruct Hroom as [[Hp ?] | ?].
      * rewrite Hk1; [done |]. unfold pde in *. by rewrite Hdi.
      * destruct (w_entry _ Hw1 _ Hp1) as (j & ? & _). lia.
    + intros vma Hv. rewrite Hat1, Hat by done. unfold kernel_map, PAGE_OFFSET, same_page.
      repeat case_decide; try done; try (exfalso; zlia). f_equal. zlia.
    + exists d'. replace (i + Z.of_nat (S n)) with (i + 1 + Z.of_nat n) by lia. done.
Qed.

Lemma init_vmm_run handler it :
  exists d it', init_vmm self handler make it = Ok (d, it', self - PAGE_OFFSET) /\ wf d /\
    table_count d <= 1 /\ idt.register_isr 14 handler it = Ok it' /\
    forall vma, 0 <= vma < 4294967296 ->
      at_ self vma d =
        Ok (if decide (PAGE_OFFSET <= vma < PAGE_OFFSET + 0x400000) then vma - PAGE_OFFSET else 0).
Proof.
  unfold init_vmm. destruct (map_kernel_ok 1024 0 make make_wf) as (d & Hm & Hw & Hc & Hat); try done.
  - by right.
  - intros vma Hv. rewrite at_make by done. unfold kernel_map. rewrite decide_False by lia. done.
  - rewrite Hm. cbn [obind]. unfold idt.register_isr.
    rewrite arr_set_in by (vm_compute; done). cbn [obind or_fault].
    eexists _, _. split_and!; [| done | done | done |].
    + unfold register_dictionary, PMA, PAGE_OFFSET in *. rewrite u32_small by lia. reflexivity.
    + intros vma Hv. rewrite Hat by done. unfold kernel_map. change (0 + Z.of_nat 1024) with 1024.
      change (4096 * 1024) with 0x400000. by case_decide.
Qed.

(** C32: After [init_vmm] the 4 MB above [PAGE_OFFSET] are mapped to the first 4 MB
    of physical memory and nothing else is mapped, interrupt 14 leads to the page fault
    handler, and [cr3] holds the physical address of the dictionary. *)
Theorem init_vmm_ok handler it :
  exists d it', init_vmm self handler make it = Ok (d, it', self - PAGE_OFFSET) /\ wf d /\
    arr_get idt.INTERRUPT_NUM (idt.interrupt_handlers it') 14 = Some handler /\
    forall vma, 0 <= vma < 4294967296 ->
      at_ self vma d =
        Ok (if decide (PAGE_OFFSET <= vma < PAGE_OFFSET + 0x400000) then vma - PAGE_OFFSET else 0).
Proof.
  destruct (init_vmm_run handler it) as (d & it' & -> & Hw & _ & Hi & Hat). exists d, it'.
  split_and!; try done. unfold idt.register_isr in Hi.
  rewrite arr_set_in in Hi by (vm_compute; done). injection Hi as <-. cbn.
  rewrite arr_get_in by (unfold idt.INTERRUPT_NUM; lia).
  change (u8 14) with 14. by rewrite lookup_insert_eq.
Qed.

End dictionary.

(** ** A concrete address space *)

Import PageDictionary.

(** The dictionary of the witnesses is at 0xC0100000, in the kernel's window. *)
Definition self0 : Z := 0xC0100000.

Lemma self0_ok : self0 mod 4096 = 0 /\ PAGE_OFFSET <= self0 /\ self0 + 4096 * 129 < 4294967296.
Proof. unfold self0, PAGE_OFFSET. split_and!; done || lia. Qed.

(** A translation is added to the empty dictionary, and is the only one. *)
Lemma insert_at_witness :
  exists d, insert self0 0x08000123 0x00400000 make = Ok d /\ at_ self0 0x08000456 d = Ok 0x00400456 /\
    at_ self0 0x08001456 d = Ok 0.
Proof.
  destruct (insert_at self0 self0_ok make 0x08000123 0x00400000 (make_wf self0))
    as (d & Hi & _ & _ & Hat); [lia | lia | right; vm_compute; congruence |].
  exists d. split; [exact Hi |]. split; rewrite Hat by lia.
  - rewrite decide_True by done. reflexivity.
  - rewrite decide_False by done. apply at_make. lia.
Defined.

Lemma index_maps_witness :
  exists a d pm, index self0 0x08000123 make Pmm.two_pages = Ok (a, d, pm) /\
    at_ self0 0x08000123 d = Ok a /\ Pmm.pages pm [0x101000] /\
    at_ self0 0x08000FFF d = Ok 0x102FFF.
Proof.
  destruct (index_maps self0 self0_ok make 0x08000123 Pmm.two_pages [0x101000] 0x102000
    (make_wf self0)) as (a & d & pm & Hi & _ & Ha & _ & Hpm & Hat);
    [lia | right; vm_compute; congruence | exact Pmm.two_pages_ok | done | lia | done |].
  exists a, d, pm. split; [exact Hi |]. split; [exact Ha |]. split; [exact Hpm |].
  rewrite Hat by lia. reflexivity.
Defined.

Lemma page_fault_maps_witness :
  exists d pm, page_fault_handler self0 0x08000123 2 make Pmm.two_pages = Ok (d, pm) /\
    mapped self0 d 0x08000123 = true.
Proof.
  destruct (page_fault_maps self0 self0_ok make 0x08000123 2 Pmm.two_pages [0x101000] 0x102000
    (make_wf self0)) as (d & pm & Hf & _ & Hm & _);
    [lia | vm_compute; congruence | exact Pmm.two_pages_ok | done | lia | done |].
  exists d, pm. split; [exact Hf |]. apply Hm. reflexivity.
Defined.

Lemma init_vmm_ok_witness :
  exists d it, init_vmm self0 0xC0101234 make (idt.mk [] 0 0 ∅) = Ok (d, it, 0x00100000) /\
    at_ self0 0xC00B8000 d = Ok 0xB8000 /\ at_ self0 0xC0400000 d = Ok 0.
Proof.
  destruct (init_vmm_ok self0 self0_ok 0xC0101234 (idt.mk [] 0 0 ∅)) as (d & it & Hi & _ & _ & Hat).
  exists d, it. split; [exact Hi |]. split; rewrite Hat by lia; reflexivity.
Defined.
