(* ===== verification/Console.v ===== *)
(** * The console ([lib/console.cc], [include/console.h])

    The text screen: the 80x25 cells of [video_memory], the cursor, and the
    cursor registers of the controller, which are reached through ports.
    Module [spec] is the terminal the code is meant to be: 25 rows of 80 cells,
    a column and a row.  A C string is the list of the bytes before its final zero. *)

From stdpp Require Import prelude gmap strings.
From Stdlib Require Import ZArith Lia.
From S2P Require Import Prelude.

(** [enum real_color]. *)
Inductive real_color_t :=
| rc_black | rc_blue | rc_green | rc_cyan | rc_red | rc_magenta | rc_brown | rc_light_grey
| rc_dark_grey | rc_light_blue | rc_light_green | rc_light_cyan | rc_light_red
| rc_light_magenta | rc_light_brown | rc_white.

Definition color_value (c : real_color_t) : Z :=
  match c with
  | rc_black => 0 | rc_blue => 1 | rc_green => 2 | rc_cyan => 3 | rc_red => 4
  | rc_magenta => 5 | rc_brown => 6 | rc_light_grey => 7 | rc_dark_grey => 8
  | rc_light_blue => 9 | rc_light_green => 10 | rc_light_cyan => 11 | rc_light_red => 12
  | rc_light_magenta => 13 | rc_light_brown => 14 | rc_white => 15
  end.

Module console.

(** The static variables of the file, and the port writes so far. *)
Record t := mk {
  video_memory : gmap Z Z;
  cursor_x : Z;
  cursor_y : Z;
  out : ports
}.

Definition CELLS : Z := 80 * 25.

Definition move_cursor (s : t) : t :=
  let cursor_loc := u16 (cursor_y s * 80 + cursor_x s) in
  mk (video_memory s) (cursor_x s) (cursor_y s)
    (outb 0x3D5 cursor_loc (outb 0x3D4 15
      (outb 0x3D5 (Z.shiftr cursor_loc 8) (outb 0x3D4 14 (out s))))).

Definition make_color (back fore : real_color_t) : Z :=
  u8 (Z.lor (Z.shiftl (color_value back) 4) (Z.land 0x0F (color_value fore))).

(** [ch] is a signed [char]. *)
Definition make_char (ch color : Z) : Z :=
  u16 (Z.lor (Z.shiftl color 8) (u16 (schar ch))).

(** [video_memory[i] = v] for [n] indices from [i]. *)
Fixpoint fill (n : nat) (i v : Z) (vm : gmap Z Z) : outcome (gmap Z Z) :=
  match n with
  | O => Ok vm
  | S n' => let! vm := or_fault (arr_set CELLS vm i v) in fill n' (i + 1) v vm
  end.

(** [video_memory[i] = video_memory[i+80]] for [n] indices from [i]. *)
Fixpoint copy_up (n : nat) (i : Z) (vm : gmap Z Z) : outcome (gmap Z Z) :=
  match n with
  | O => Ok vm
  | S n' =>
      let! c := or_fault (arr_get CELLS vm (i + 80)) in
      let! vm := or_fault (arr_set CELLS vm i c) in
      copy_up n' (i + 1) vm
  end.

Definition blank : Z := make_char 32 (make_color rc_black rc_white).

Definition console_clear (s : t) : outcome t :=
  let! vm := fill (Z.to_nat (80 * 25)) 0 blank (video_memory s) in
  Ok (move_cursor (mk vm 0 0 (out s))).

Definition scroll (s : t) : outcome t :=
  if 25 <=? cursor_y s then
    let! vm := copy_up (Z.to_nat (24 * 80)) 0 (video_memory s) in
    let! vm := fill (Z.to_nat (25 * 80 - 24 * 80)) (24 * 80) blank vm in
    Ok (mk vm (cursor_x s) 24 (out s))
  else Ok s.

(** The [switch] of [console_putc]. *)
Definition put_switch (c ch : Z) (s : t) : outcome t :=
  if c =? 8 then
    Ok (if cursor_x s =? 0 then s
        else mk (video_memory s) (u8 (cursor_x s - 1)) (cursor_y s) (out s))
  else if c =? 9 then
    Ok (mk (video_memory s) (u8 (Z.land (cursor_x s + 8) (Z.lnot 7))) (cursor_y s) (out s))
  else if c =? 13 then Ok (mk (video_memory s) 0 (cursor_y s) (out s))
  else if c =? 10 then Ok (mk (video_memory s) 0 (u8 (cursor_y s + 1)) (out s))
  else if 32 <=? schar c then
    let! vm := or_fault (arr_set CELLS (video_memory s) (cursor_y s * 80 + cursor_x s) ch) in
    Ok (mk vm (u8 (cursor_x s + 1)) (cursor_y s) (out s))
  else Ok s.

Definition wrap (s : t) : t :=
  if 80 <=? cursor_x s then mk (video_memory s) 0 (u8 (cursor_y s + 1)) (out s) else s.

Definition console_putc (c : Z) (back fore : real_color_t) (s : t) : outcome t :=
  let ch := make_char c (make_color back fore) in
  let! s := put_switch c ch s in
  let! s := scroll (wrap s) in
  Ok (move_cursor s).

Fixpoint console_write (str : list Z) (back fore : real_color_t) (s : t) : outcome t :=
  match str with
  | [] => Ok s
  | c :: str' => let! s := console_putc c back fore s in console_write str' back fore s
  end.

Definition console_write_hex_single (n : Z) (back fore : real_color_t) (s : t) : outcome t :=
  if n <? 10 then console_putc (u8 (48 + n)) back fore s
  else console_putc (u8 (65 + n - 10)) back fore s.

(** The loop of [console_write_hex]; the shifts left to do, and [started]. *)
Fixpoint hex_loop (shifts : list Z) (n : Z) (started : bool) (back fore : real_color_t)
    (s : t) : outcome (bool * t) :=
  match shifts with
  | [] => Ok (started, s)
  | i :: shifts' =>
      let slice := u8 (Z.shiftr (Z.land n (u32 (Z.shiftl 0xF i))) i) in
      if negb started && negb (slice =? 0) then
        let! s := console_write_hex_single slice back fore s in
        hex_loop shifts' n true back fore s
      else if started then
        let! s := console_write_hex_single slice back fore s in
        hex_loop shifts' n started back fore s
      else hex_loop shifts' n started back fore s
  end.

Definition console_write_hex (n : Z) (back fore : real_color_t) (s : t) : outcome t :=
  let! '(started, s) := hex_loop [28; 24; 20; 16; 12; 8; 4; 0] n false back fore s in
  if started then Ok s else console_write_hex_single 0 back fore s.

(** The recursion of [console_write_dec]; a 32-bit number has ten digits. *)
Fixpoint write_dec (fuel : nat) (n : Z) (back fore : real_color_t) (s : t) : outcome t :=
  match fuel with
  | O => NoFuel
  | S f =>
      if n <? 10 then console_putc (u8 (48 + n)) back fore s
      else
        let! s := write_dec f (n / 10) back fore s in
        console_putc (u8 (48 + n mod 10)) back fore s
  end.

Definition console_write_dec : Z -> real_color_t -> real_color_t -> t -> outcome t := write_dec 10.

End console.

(** ** The specification *)

Module spec.

(** A terminal: the cell of each row and column, and the cursor. *)
Record term := mk { cell : Z -> Z -> Z; col : Z; row : Z }.

Definition set_cell (r c v : Z) (f : Z -> Z -> Z) : Z -> Z -> Z :=
  fun r' c' => if (r' =? r) && (c' =? c) then v else f r' c'.

(** One character, before wrapping and scrolling. *)
Definition advance (c v : Z) (t : term) : term :=
  if c =? 8 then mk (cell t) (Z.max 0 (col t - 1)) (row t)
  else if c =? 9 then mk (cell t) (8 * (col t / 8 + 1)) (row t)
  else if c =? 13 then mk (cell t) 0 (row t)
  else if c =? 10 then mk (cell t) 0 (row t + 1)
  else if (32 <=? c) && (c <? 128) then
    mk (set_cell (row t) (col t) v (cell t)) (col t + 1) (row t)
  else t.

Definition wrap (t : term) : term :=
  if 80 <=? col t then mk (cell t) 0 (row t + 1) else t.

Definition scroll (b : Z) (t : term) : term :=
  if row t =? 25 then
    mk (fun r c => if r <? 24 then cell t (r + 1) c else b) (col t) 24
  else t.

Definition putc (b c v : Z) (t : term) : term := scroll b (wrap (advance c v t)).

(** [attr] gives the cell of a character in the colours in use. *)
Definition write (b : Z) (attr : Z -> Z) (str : list Z) (t : term) : term :=
  fold_left (fun t c => putc b c (attr c) t) str t.

(** The digits of [n] in base [b], most significant first. *)
Fixpoint digits (fuel : nat) (b n : Z) : list Z :=
  match fuel with
  | O => []
  | S f => if n <? b then [n] else digits f b (n / b) ++ [n mod b]
  end.

(** Reading a number back. *)
Definition value (b : Z) (ds : list Z) : Z := fold_left (fun a d => a * b + d) ds 0.

Definition digit_char (d : Z) : Z := if d <? 10 then 48 + d else 55 + d.

Definition dec (n : Z) : list Z := map digit_char (digits 10 10 n).
Definition hex (n : Z) : list Z := map digit_char (digits 8 16 n).

End spec.

(** ** Lemmas *)

Import console.

Section proofs.
Implicit Types (s : t) (vm : gmap Z Z) (u : spec.term).

Definition at_ vm i : Z := default 0 (vm !! i).

Lemma fill_ok n i v vm :
  0 <= i -> i + Z.of_nat n <= CELLS ->
  exists vm', fill n i v vm = Ok vm' /\
    forall j, at_ vm' j = if decide (i <= j < i + Z.of_nat n) then v else at_ vm j.
Proof.
  unfold CELLS. revert i vm. induction n as [| n IH]; intros i vm Hi Hn; cbn [fill]; unfold CELLS in *.
  - exists vm. split; [done |]. intros j. by rewrite decide_False by lia.
  - rewrite arr_set_in by lia. cbn [or_fault obind].
    destruct (IH (i + 1) (<[i := v]> vm)) as (vm' & -> & Hj); try lia.
    exists vm'. split; [done |]. intros j. rewrite Hj. unfold at_.
    destruct (decide (i = j)) as [-> | Hne].
    + rewrite decide_False, decide_True, lookup_insert_eq by lia. done.
    + rewrite lookup_insert_ne by done.
      repeat case_decide; done || lia.
Qed.

Lemma copy_up_ok n i vm :
  0 <= i -> i + Z.of_nat n <= CELLS - 80 ->
  exists vm', copy_up n i vm = Ok vm' /\
    forall j, at_ vm' j = if decide (i <= j < i + Z.of_nat n) then at_ vm (j + 80) else at_ vm j.
Proof.
  unfold CELLS. revert i vm. induction n as [| n IH]; intros i vm Hi Hn; cbn [copy_up]; unfold CELLS in *.
  - exists vm. split; [done |]. intros j. by rewrite decide_False by lia.
  - rewrite arr_get_in by lia. cbn [or_fault obind].
    rewrite arr_set_in by lia. cbn [or_fault obind].
    destruct (IH (i + 1) (<[i := default 0 (vm !! (i + 80))]> vm)) as (vm' & -> & Hj); try lia.
    exists vm'. split; [done |]. intros j. rewrite Hj. unfold at_.
    destruct (decide (i = j)) as [-> | Hne].
    + rewrite decide_False, decide_True, lookup_insert_eq by lia. done.
    + rewrite (lookup_insert_ne _ i j) by done. destruct (decide (i + 1 <= j < _)).
      * by rewrite (lookup_insert_ne _ i (j + 80)), decide_True by lia.
      * by rewrite decide_False by lia.
Qed.

(** A console shows a terminal. *)
Record shows s u : Prop := {
  sh_x : cursor_x s = spec.col u;
  sh_y : cursor_y s = spec.row u;
  sh_col : 0 <= spec.col u < 80;
  sh_row : 0 <= spec.row u < 25;
  sh_cell : forall r c, 0 <= r < 25 -> 0 <= c < 80 ->
    at_ (video_memory s) (r * 80 + c) = spec.cell u r c
}.

(** Shown, but for the cursor, which may have left the screen. *)
Definition drawn s u : Prop :=
  cursor_x s = spec.col u /\ cursor_y s = spec.row u /\
  forall r c, 0 <= r < 25 -> 0 <= c < 80 ->
    at_ (video_memory s) (r * 80 + c) = spec.cell u r c.

Lemma tab_stop x : 0 <= x < 80 -> u8 (Z.land (x + 8) (Z.lnot 7)) = 8 * (x / 8 + 1).
Proof.
  intros Hx.
  assert (H : forallb (fun x => u8 (Z.land (x + 8) (Z.lnot 7)) =? 8 * (x / 8 + 1)) (seqZ 0 80) = true)
    by reflexivity.
  rewrite forallb_forall in H. apply Z.eqb_eq, H, list_elem_of_In, elem_of_seqZ. lia.
Qed.

Lemma printable_schar c : byte_ok c -> (32 <=? schar c) = (32 <=? c) && (c <? 128).
Proof.
  unfold byte_ok, schar. intros Hb. destruct (Z.ltb_spec c 128); [by rewrite andb_true_r |].
  rewrite andb_false_r. apply Z.leb_gt. lia.
Qed.

Lemma put_glyph_ok s u ch :
  shows s u ->
  exists vm, arr_set CELLS (video_memory s) (spec.row u * 80 + spec.col u) ch = Some vm /\
    forall r c, 0 <= r < 25 -> 0 <= c < 80 ->
      at_ vm (r * 80 + c) = spec.set_cell (spec.row u) (spec.col u) ch (spec.cell u) r c.
Proof.
  intros [Hx Hy Hc Hr Hcell]. unfold CELLS. rewrite arr_set_in by lia.
  eexists. split; [reflexivity |]. intros r c Hr' Hc'. unfold spec.set_cell, at_.
  destruct (Z.eqb_spec r (spec.row u)), (Z.eqb_spec c (spec.col u)); subst; cbn [andb];
    rewrite ?lookup_insert_eq, ?lookup_insert_ne by lia; try done; by apply Hcell.
Qed.

Lemma put_switch_ok c ch s u :
  shows s u -> byte_ok c ->
  exists s', put_switch c ch s = Ok s' /\ drawn s' (spec.advance c ch u) /\ out s' = out s /\
    0 <= spec.col (spec.advance c ch u) <= 80 /\ 0 <= spec.row (spec.advance c ch u) <= 25 /\
    (spec.row (spec.advance c ch u) = 25 -> spec.col (spec.advance c ch u) < 80).
Proof.
  intros Hs Hb. pose proof Hs as [Hx Hy Hc Hr Hcell]. unfold put_switch, spec.advance.
  rewrite printable_schar by done. rewrite Hx, Hy, tab_stop by done.
  destruct (c =? 8); [| destruct (c =? 9); [| destruct (c =? 13);
    [| destruct (c =? 10); [| destruct (_ && _)]]]].
  6: by exists s; split_and!; try done; lia.
  5: { destruct (put_glyph_ok s u ch Hs) as (vm & -> & Hvm). cbn [or_fault obind].
       eexists. split; [reflexivity |]. unfold drawn. cbn.
       rewrite u8_small by lia. by split_and!; try done; lia. }
  all: eexists; split; [reflexivity |]; unfold drawn; cbn.
  - destruct (Z.eqb_spec (spec.col u) 0); cbn; rewrite ?u8_small by lia; split_and!; done || lia.
  - split_and!; done || zlia.
  - split_and!; done || lia.
  - rewrite u8_small by lia. split_and!; done || lia.
Qed.

Lemma wrap_ok s u :
  drawn s u -> 0 <= spec.row u <= 25 -> drawn (wrap s) (spec.wrap u).
Proof.
  intros (Hx & Hy & Hcell) Hr. unfold wrap, spec.wrap. rewrite Hx.
  destruct (80 <=? spec.col u); unfold drawn; cbn; rewrite ?u8_small by lia; split_and!; done || lia.
Qed.

Lemma scroll_ok s u :
  drawn s u -> 0 <= spec.col u < 80 -> 0 <= spec.row u <= 25 ->
  exists s', scroll s = Ok s' /\ shows s' (spec.scroll blank u) /\ out s' = out s.
Proof.
  intros (Hx & Hy & Hcell) Hc Hr. unfold scroll, spec.scroll. rewrite Hy.
  destruct (Z.eqb_spec (spec.row u) 25) as [-> | Hne].
  2: { rewrite (proj2 (Z.leb_gt _ _)) by lia. exists s. split_and!; try done. split; done || lia. }
  cbn [Z.leb Z.compare Pos.compare Pos.compare_cont].
  destruct (copy_up_ok (Z.to_nat (24 * 80)) 0 (video_memory s)) as (vm & -> & Hvm); [done.. |].
  cbn [obind].
  destruct (fill_ok (Z.to_nat (25 * 80 - 24 * 80)) (24 * 80) blank vm) as (vm' & -> & Hvm'); [done.. |].
  eexists. split; [reflexivity |]. split; [| done]. split; cbn; try done; try lia.
  intros r c Hr' Hc'. rewrite Hvm', Hvm. destruct (Z.ltb_spec r 24).
  - rewrite decide_False, decide_True by lia. replace (r * 80 + c + 80) with ((r + 1) * 80 + c) by lia.
    apply Hcell; lia.
  - rewrite decide_True by lia. done.
Qed.

(** The writes that point the controller at a cell. *)
Definition cursor_writes (u : spec.term) : ports :=
  [(0x3D4, 14); (0x3D5, (spec.row u * 80 + spec.col u) / 256);
   (0x3D4, 15); (0x3D5, (spec.row u * 80 + spec.col u) mod 256)].

Lemma move_cursor_ok s u : shows s u ->
  shows (move_cursor s) u /\ out (move_cursor s) = out s ++ cursor_writes u.
Proof.
  intros Hs. pose proof Hs as [Hx Hy Hc Hr Hcell]. split; [by split |].
  unfold move_cursor, outb, cursor_writes. cbn [out]. rewrite Hx, Hy, <- !app_assoc. cbn [app].
  rewrite (u16_small (_ * 80 + _)) by lia. rewrite Z.shiftr_div_pow2 by lia. change (2 ^ 8) with 256.
  rewrite (u8_small (_ / 256)) by zlia. done.
Qed.

Lemma putc_step c back fore s u :
  shows s u -> byte_ok c ->
  let u' := spec.putc blank c (make_char c (make_color back fore)) u in
  exists s', console_putc c back fore s = Ok s' /\ shows s' u' /\
    out s' = out s ++ cursor_writes u'.
Proof.
  intros Hs Hb u'. unfold console_putc.
  destruct (put_switch_ok c (make_char c (make_color back fore)) s u Hs Hb)
    as (s1 & -> & Hd & Ho & Hc & Hr & Hrc).
  cbn [obind]. apply wrap_ok in Hd; [| lia].
  destruct (scroll_ok (wrap s1) _ Hd) as (s2 & -> & Hs2 & Ho2).
  - unfold spec.wrap. destruct (Z.leb_spec 80 (spec.col (spec.advance c (make_char c (make_color back fore)) u)));
      cbn; lia.
  - unfold spec.wrap. destruct (Z.leb_spec 80 (spec.col (spec.advance c (make_char c (make_color back fore)) u)));
      cbn; lia.
  - cbn [obind]. eexists. split; [reflexivity |]. destruct (move_cursor_ok _ _ Hs2) as [Hm Hmo].
    split; [done |]. rewrite Hmo, Ho2. f_equal. unfold wrap. case_match; cbn; done.
Qed.

(** [console_putc] is the terminal's step.  It never writes outside the
    screen, the cursor stays on the screen, and the controller is told its position. *)
Theorem putc_refines c back fore s u :
  shows s u -> byte_ok c ->
  let u' := spec.putc blank c (make_char c (make_color back fore)) u in
  exists s', console_putc c back fore s = Ok s' /\ shows s' u' /\
    out s' = out s ++ cursor_writes u'.
Proof. apply putc_step. Qed.

Lemma write_steps str back fore s u :
  shows s u -> Forall byte_ok str ->
  let u' := spec.write blank (fun c => make_char c (make_color back fore)) str u in
  exists s', console_write str back fore s = Ok s' /\ shows s' u' /\
    (str <> [] -> exists tr, out s' = tr ++ cursor_writes u').
Proof.
  intros Hs Hb u'. subst u'. unfold spec.write.
  revert s u Hs. induction Hb as [| c str Hc Hstr IH]; intros s u Hs; cbn [console_write fold_left].
  - by exists s.
  - destruct (putc_step c back fore s u Hs Hc) as (s1 & -> & Hs1 & Ho). cbn [obind].
    destruct str as [| c' str].
    + exists s1. split_and!; [done | done |]. intros _. eexists. exact Ho.
    + destruct (IH _ _ Hs1) as (s' & -> & Hs' & Hout). exists s'. split_and!; [done | done |].
      intros _. by apply Hout.
Qed.

(** C30: a string is written by its characters, and the last position told to the
    controller is the final cursor. *)
Theorem write_refines str back fore s u :
  shows s u -> Forall byte_ok str ->
  let u' := spec.write blank (fun c => make_char c (make_color back fore)) str u in
  exists s', console_write str back fore s = Ok s' /\ shows s' u' /\
    (str <> [] -> exists tr, out s' = tr ++ cursor_writes u').
Proof. apply write_steps. Qed.

Lemma clear_step s :
  exists s', console_clear s = Ok s' /\ shows s' (spec.mk (fun _ _ => blank) 0 0) /\
    out s' = out s ++ [(0x3D4, 14); (0x3D5, 0); (0x3D4, 15); (0x3D5, 0)].
Proof.
  unfold console_clear.
  destruct (fill_ok (Z.to_nat (80 * 25)) 0 blank (video_memory s)) as (vm & -> & Hvm); [done.. |].
  cbn [obind]. eexists. split; [reflexivity |].
  apply (move_cursor_ok (mk vm 0 0 (out s)) (spec.mk (fun _ _ => blank) 0 0)).
  split; cbn; try done; try lia. intros r c Hr Hc. rewrite Hvm, decide_True by lia. done.
Qed.

(** [console_clear] blanks the screen, whatever it held, and homes the cursor. *)
Theorem clear_refines s :
  exists s', console_clear s = Ok s' /\ shows s' (spec.mk (fun _ _ => blank) 0 0) /\
    out s' = out s ++ [(0x3D4, 14); (0x3D5, 0); (0x3D4, 15); (0x3D5, 0)].
Proof. apply clear_step. Qed.

Lemma console_write_app l1 l2 back fore s :
  console_write (l1 ++ l2) back fore s =
    let! s' := console_write l1 back fore s in console_write l2 back fore s'.
Proof.
  revert s. induction l1 as [| c l1 IH]; intros s; [done |]. cbn [app console_write].
  destruct (console_putc c back fore s); [apply IH | done..].
Qed.

Lemma console_write_one c back fore s : console_write [c] back fore s = console_putc c back fore s.
Proof. cbn. by destruct (console_putc c back fore s). Qed.

(** *** Numbers *)

Lemma digits_value f b n :
  2 <= b -> 0 <= n < b ^ Z.of_nat f -> (0 < f)%nat ->
  spec.value b (spec.digits f b n) = n /\ Forall (fun d => 0 <= d < b) (spec.digits f b n) /\
  (0 < n -> exists d ds, spec.digits f b n = d :: ds /\ d <> 0).
Proof.
  intros Hb. revert n. induction f as [| f IH]; intros n Hn Hf; [lia |]. cbn [spec.digits].
  destruct (Z.ltb_spec n b).
  - split_and!; [cbn; lia | repeat constructor; lia | intros; exists n, []; split; [done | lia]].
  - rewrite Nat2Z.inj_succ, Z.pow_succ_r in Hn by lia.
    destruct f as [| f]; [simpl in Hn; lia |].
    destruct (IH (n / b)) as (Hv & HF & Hd); [| lia |].
    { split; [apply Z.div_pos; lia |]. apply Z.div_lt_upper_bound; lia. }
    pose proof (Z.mod_pos_bound n b). split_and!.
    + unfold spec.value in *. rewrite fold_left_app, Hv. cbn. pose proof (Z.div_mod n b). lia.
    + apply Forall_app. split; [done |]. repeat constructor; lia.
    + intros _. destruct Hd as (d & ds & -> & Hd); [| by exists d, (ds ++ [n mod b])].
      apply Z.div_str_pos. lia.
Qed.

Lemma write_dec_ok f n back fore s :
  0 <= n < 10 ^ Z.of_nat f -> (0 < f)%nat ->
  write_dec f n back fore s = console_write (map spec.digit_char (spec.digits f 10 n)) back fore s.
Proof.
  revert n. induction f as [| f IH]; intros n Hn Hf; [lia |]. cbn [write_dec spec.digits].
  assert (Hd : forall d, 0 <= d < 10 -> u8 (48 + d) = spec.digit_char d).
  { intros d ?. unfold spec.digit_char. rewrite (proj2 (Z.ltb_lt d 10)) by lia. apply u8_small. lia. }
  destruct (Z.ltb_spec n 10).
  - cbn [map]. rewrite console_write_one, Hd by lia. done.
  - rewrite Nat2Z.inj_succ, Z.pow_succ_r in Hn by lia. destruct f as [| f]; [simpl in Hn; lia |].
    rewrite map_app, console_write_app. cbn [map].
    rewrite <- IH by (lia || (split; [zlia | apply Z.div_lt_upper_bound; lia])).
    destruct (write_dec (S f) (n / 10) back fore s); cbn [obind]; try done.
    rewrite console_write_one, Hd by zlia. done.
Qed.

(** The [k] low digits of [n], zeros included. *)
Fixpoint pad (k : nat) (n : Z) : list Z :=
  match k with
  | O => []
  | S k' => n / 16 ^ Z.of_nat k' mod 16 :: pad k' n
  end.

Lemma pad_snoc k n : pad (S k) n = pad k (n / 16) ++ [n mod 16].
Proof.
  induction k as [| k IH]; [cbn; by rewrite Z.div_1_r |].
  change (pad (S (S k)) n) with (n / 16 ^ Z.of_nat (S k) mod 16 :: pad (S k) n).
  rewrite IH. cbn [pad app]. do 2 f_equal.
  rewrite Nat2Z.inj_succ, Z.pow_succ_r, Z.div_div by lia. done.
Qed.

Lemma digits_pad f k n :
  (0 < k <= f)%nat -> 16 ^ (Z.of_nat k - 1) <= n < 16 ^ Z.of_nat k \/ k = 1%nat /\ n = 0 ->
  spec.digits f 16 n = pad k n.
Proof.
  revert k n. induction f as [| f IH]; intros k n Hk Hn; [lia |]. cbn [spec.digits].
  destruct k as [| k]; [lia |]. destruct (Z.ltb_spec n 16).
  - assert (k = 0%nat) as ->.
    { destruct Hn as [Hn | [? _]]; [| lia]. destruct k as [| k]; [done |].
      replace (Z.of_nat (S (S k)) - 1) with (Z.succ (Z.of_nat k)) in Hn by lia.
      rewrite Z.pow_succ_r in Hn by lia. pose proof (Z.pow_pos_nonneg 16 (Z.of_nat k)). lia. }
    cbn. rewrite Z.div_1_r, Z.mod_small; [done |]. destruct Hn as [Hn | [_ ->]]; [| lia]. simpl in Hn. lia.
  - destruct Hn as [Hn | [_ ->]]; [| lia].
    destruct k as [| k]; [simpl in Hn; lia |].
    rewrite (pad_snoc (S k)), (IH (S k)); [done | lia |]. left.
    replace (Z.of_nat (S (S k)) - 1) with (Z.succ (Z.of_nat (S k) - 1)) in Hn by lia.
    rewrite Z.pow_succ_r in Hn by lia.
    replace (Z.of_nat (S (S k))) with (Z.succ (Z.of_nat (S k))) in Hn by lia.
    rewrite Z.pow_succ_r in Hn by lia. split.
    + apply Z.div_le_lower_bound; lia.
    + apply Z.div_lt_upper_bound; lia.
Qed.

Lemma hex_single_ok d back fore s :
  0 <= d < 16 -> console_write_hex_single d back fore s = console_write [spec.digit_char d] back fore s.
Proof.
  intros Hd. unfold console_write_hex_single, spec.digit_char. rewrite console_write_one.
  destruct (Z.ltb_spec d 10); rewrite u8_small by lia; [done |]. f_equal. lia.
Qed.

Lemma slice_ok n i :
  0 <= n -> 0 <= i <= 28 -> u8 (Z.shiftr (Z.land n (u32 (Z.shiftl 15 i))) i) = n / 2 ^ i mod 16.
Proof.
  intros Hn Hi. rewrite (u32_small (Z.shiftl 15 i)).
  - rewrite Z.shiftr_land, Z.shiftr_shiftl_l, Z.sub_diag, Z.shiftr_div_pow2 by lia.
    change (Z.shiftl 15 0) with (2 ^ 4 - 1). rewrite land_low by lia. apply u8_small.
    change (2 ^ 4) with 16. zlia.
  - rewrite Z.shiftl_mul_pow2 by lia. pose proof (Z.pow_pos_nonneg 2 i).
    assert (2 ^ i <= 2 ^ 28) by (apply Z.pow_le_mono_r; lia). change (2 ^ 28) with 268435456 in *. lia.
Qed.

Definition shifts (k : nat) : list Z := map (fun j => 4 * Z.of_nat j) (rev (seq 0 k)).

Lemma shifts_S k : shifts (S k) = 4 * Z.of_nat k :: shifts k.
Proof. unfold shifts. rewrite seq_S, rev_app_distr. done. Qed.

Lemma shift_digit k n : n / 2 ^ (4 * Z.of_nat k) = n / 16 ^ Z.of_nat k.
Proof. by rewrite Z.pow_mul_r by lia. Qed.

(** Once a digit is out, the rest of the loop writes all the lower digits. *)
Lemma hex_loop_started k n back fore s :
  (k <= 8)%nat -> 0 <= n ->
  hex_loop (shifts k) n true back fore s =
    let! s' := console_write (map spec.digit_char (pad k n)) back fore s in Ok (true, s').
Proof.
  intros Hk Hn. revert s. induction k as [| k IH]; intros s; [done |].
  rewrite shifts_S. cbn [hex_loop pad map console_write negb andb].
  rewrite slice_ok, shift_digit by lia. rewrite hex_single_ok by zlia. rewrite console_write_one.
  destruct (console_putc _ back fore s); cbn [obind]; try done. apply IH. lia.
Qed.

(** Before, it skips the leading zeros. *)
Lemma hex_loop_fresh k n back fore s :
  (k <= 8)%nat -> 0 <= n < 16 ^ Z.of_nat k ->
  hex_loop (shifts k) n false back fore s =
    if n =? 0 then Ok (false, s)
    else let! s' := console_write (map spec.digit_char (spec.digits 8 16 n)) back fore s in Ok (true, s').
Proof.
  revert n s. induction k as [| k IH]; intros n s Hk Hn.
  - simpl in Hn. assert (n = 0) as -> by lia. done.
  - rewrite Nat2Z.inj_succ, Z.pow_succ_r in Hn by lia.
    rewrite shifts_S. cbn [hex_loop negb andb]. rewrite slice_ok, shift_digit by lia.
    pose proof (Z.pow_pos_nonneg 16 (Z.of_nat k)) as Hp.
    destruct (Z.lt_ge_cases n (16 ^ Z.of_nat k)) as [Hlt | Hge].
    + rewrite Z.div_small by lia. cbn [Z.modulo Z.eqb negb]. rewrite Zmod_0_l. apply IH; lia.
    + assert (Hq : 1 <= n / 16 ^ Z.of_nat k < 16).
      { split; [apply Z.div_le_lower_bound; lia | apply Z.div_lt_upper_bound; lia]. }
      rewrite Z.mod_small by lia. destruct (Z.eqb_spec (n / 16 ^ Z.of_nat k) 0); [lia |].
      destruct (Z.eqb_spec n 0); [lia |]. cbn [negb].
      rewrite (digits_pad 8 (S k)) by (lia || (left; rewrite Nat2Z.inj_succ, Z.pow_succ_r by lia; split;
        [replace (Z.succ (Z.of_nat k) - 1) with (Z.of_nat k) by lia |]; lia)).
      cbn [pad map console_write]. rewrite (Z.mod_small (n / _)) by lia.
      rewrite hex_single_ok, console_write_one by lia.
      destruct (console_putc _ back fore s); cbn [obind]; try done. apply hex_loop_started; lia.
Qed.

Lemma write_dec_text n back fore s :
  0 <= n < 4294967296 -> console_write_dec n back fore s = console_write (spec.dec n) back fore s.
Proof. intros Hn. apply write_dec_ok; [simpl |]; lia. Qed.

Lemma write_hex_text n back fore s :
  0 <= n < 4294967296 -> console_write_hex n back fore s = console_write (spec.hex n) back fore s.
Proof.
  intros Hn. unfold console_write_hex. change [28; 24; 20; 16; 12; 8; 4; 0] with (shifts 8).
  rewrite hex_loop_fresh by (simpl; lia). destruct (Z.eqb_spec n 0) as [-> | Hne]; cbn [obind].
  - by rewrite hex_single_ok.
  - unfold spec.hex. by destruct (console_write _ back fore s).
Qed.

(** a 32-bit number is written as its decimal, or hexadecimal, digits,
    most significant first and without leading zeros; the digits read back as the number. *)
Theorem write_number n back fore s :
  0 <= n < 4294967296 ->
  console_write_dec n back fore s = console_write (spec.dec n) back fore s /\
  console_write_hex n back fore s = console_write (spec.hex n) back fore s /\
  spec.value 10 (spec.digits 10 10 n) = n /\ spec.value 16 (spec.digits 8 16 n) = n /\
  (0 < n -> forall b f, (b, f) = (10, 10%nat) \/ (b, f) = (16, 8%nat) ->
    exists d ds, spec.digits f b n = d :: ds /\ d <> 0).
Proof.
  intros Hn. pose proof (digits_value 10 10 n) as (Hv & _ & Hd); [lia | simpl; lia | lia |].
  pose proof (digits_value 8 16 n) as (Hv' & _ & Hd'); [lia | simpl; lia | lia |]. split_and!; try done.
  - by apply write_dec_text.
  - by apply write_hex_text.
  - intros Hp b f [[= -> ->] | [= -> ->]]; auto.
Qed.
End proofs.

(** ** A concrete screen *)

Definition zero_screen : console.t := console.mk ∅ 0 0 [].
Definition zero_term : spec.term := spec.mk (fun _ _ => 0) 0 0.

Lemma zero_shows : shows zero_screen zero_term.
Proof. split; cbn; try done; lia. Qed.

Lemma putc_refines_witness :
  exists s, console_putc 65 rc_black rc_white zero_screen = Ok s /\ cursor_x s = 1 /\
    at_ (video_memory s) 0 = 0x0F41.
Proof.
  destruct (putc_refines 65 rc_black rc_white zero_screen zero_term zero_shows) as (s & Hs & Hsh & _);
    [unfold byte_ok; lia |].
  exists s. split; [exact Hs |]. destruct Hsh as [Hx _ _ _ Hc]. split; [exact Hx |].
  exact (Hc 0 0 ltac:(lia) ltac:(lia)).
Defined.

(** "A", a new line and "B". *)
Lemma write_refines_witness :
  exists s, console_write [65; 10; 66] rc_black rc_white zero_screen = Ok s /\
    cursor_x s = 1 /\ cursor_y s = 1 /\ at_ (video_memory s) 80 = 0x0F42.
Proof.
  destruct (write_refines [65; 10; 66] rc_black rc_white zero_screen zero_term zero_shows)
    as (s & Hs & Hsh & _); [repeat constructor; lia |].
  exists s. split; [exact Hs |]. destruct Hsh as [Hx Hy _ _ Hc].
  split; [exact Hx |]. split; [exact Hy |]. exact (Hc 1 0 ltac:(lia) ltac:(lia)).
Defined.

Lemma write_number_witness :
  console_write_dec 1024 rc_black rc_white zero_screen =
    console_write [49; 48; 50; 52] rc_black rc_white zero_screen /\
  console_write_hex 1024 rc_black rc_white zero_screen =
    console_write [52; 48; 48] rc_black rc_white zero_screen.
Proof.
  destruct (write_number 1024 rc_black rc_white zero_screen) as (Hd & Hh & _); [lia |].
  split; [exact Hd | exact Hh].
Defined.
