(* ===== verification/Printk.v ===== *)
(** * [printk] ([include/printk.h])

    The overloads of [printk] are selected by the type of the argument, so an
    argument carries its type; the template's recursion on its arguments is the
    recursion of [printk] on the list. *)

From stdpp Require Import prelude gmap strings.
From Stdlib Require Import ZArith Lia.
From S2P Require Import Prelude Console Interrupts.

Inductive Format := kNone | kDec | kHex.

#[export] Instance Format_eq_dec : EqDecision Format.
Proof. solve_decision. Defined.

(** The argument types the kernel prints: [char], [const char*] (and
    [const uint8_t*]), [uint32_t], and [int] with what is promoted to it. *)
Inductive arg :=
| AChar (c : Z)
| AStr (s : list Z)
| AUInt (n : Z)
| AInt (n : Z).

Module printk.

(** The overloads for one value. *)
Definition printk_uint (n : Z) (f : Format) (s : console.t) : outcome console.t :=
  match f with
  | kDec => console.console_write_dec n rc_black rc_white s
  | kHex => console.console_write_hex n rc_black rc_white s
  | kNone => console.console_write_dec n rc_black rc_white s
  end.

Definition printk_one (a : arg) (f : Format) (s : console.t) : outcome console.t :=
  match a with
  | AChar c => console.console_putc c rc_black rc_white s
  | AStr str => console.console_write str rc_black rc_white s
  | AUInt n => printk_uint n f s
  | AInt n => printk_uint (u32 n) f s
  end.

(** [strfind(format, '%')]: what is before [pos], and what is at [pos]. *)
Fixpoint upto (ch : Z) (str : list Z) : list Z * list Z :=
  match str with
  | [] => ([], [])
  | c :: str' => if c =? ch then ([], str) else let '(a, b) := upto ch str' in (c :: a, b)
  end.

(** The template, on the arguments left; without arguments it is the overload
    for a string. *)
Fixpoint printk (format : list Z) (args : list arg) (s : console.t) : outcome console.t :=
  match args with
  | [] => printk_one (AStr format) kNone s
  | head :: tail =>
      let '(before, pos) := upto 37 format in
      let! s := console.console_write before rc_black rc_white s in
      match pos with
      | _ :: d :: rest =>
          let! s :=
            (if d =? 100 then printk_one head kDec s
             else if d =? 120 then printk_one head kHex s
             else if (d =? 115) || (d =? 99) then printk_one head kNone s
             else
               let! s := printk_one (AChar 37) kNone s in
               printk_one (AChar d) kNone s) in
          printk rest tail s
      | _ => Ok s
      end
  end.

(** Calls of [printk], one after the other. *)
Fixpoint print_all (ls : list (list Z * list arg)) (c : console.t) : outcome console.t :=
  match ls with
  | [] => Ok c
  | (fmt, args) :: ls' => let! c := printk.printk fmt args c in print_all ls' c
  end.

(** *** The text [printk] writes *)

Definition show (a : arg) (hexadecimal : bool) : list Z :=
  match a with
  | AChar c => [c]
  | AStr str => str
  | AUInt n => if hexadecimal then spec.hex n else spec.dec n
  | AInt n => if hexadecimal then spec.hex (u32 n) else spec.dec (u32 n)
  end.

(** What the directive [%d] makes of its argument. *)
Definition conversion (d : Z) (a : arg) : list Z :=
  if (d =? 100) || (d =? 115) || (d =? 99) then show a false
  else if d =? 120 then show a true
  else [37; d].

Fixpoint render (format : list Z) (args : list arg) : list Z :=
  match args with
  | [] => format
  | a :: args' =>
      let '(before, pos) := upto 37 format in
      before ++ match pos with
                | _ :: d :: rest => conversion d a ++ render rest args'
                | _ => []
                end
  end.

Definition arg_ok (a : arg) : Prop :=
  match a with
  | AChar c => byte_ok c
  | AStr str => Forall byte_ok str
  | AUInt n => 0 <= n < 4294967296
  | AInt _ => True
  end.

Lemma printk_uint_ok n f s :
  0 <= n < 4294967296 ->
  printk_uint n f s =
    console.console_write (if decide (f = kHex) then spec.hex n else spec.dec n) rc_black rc_white s.
Proof.
  intros Hn. destruct f; [by apply write_dec_text | by apply write_dec_text | by apply write_hex_text].
Qed.

Lemma printk_one_ok a f s :
  arg_ok a ->
  printk_one a f s = console.console_write (show a (bool_decide (f = kHex))) rc_black rc_white s.
Proof.
  intros Ha. destruct a; cbn [printk_one show arg_ok] in *;
    rewrite ?printk_uint_ok, ?console_write_one by (done || apply u32_range); try done;
    case_bool_decide; by rewrite ?decide_True, ?decide_False by done.
Qed.

Lemma printk_text format args s :
  Forall arg_ok args ->
  printk format args s = console.console_write (render format args) rc_black rc_white s.
Proof.
  intros Ha. revert format s. induction Ha as [| a args Ha _ IH]; intros format s; [done |].
  cbn [printk render]. destruct (upto 37 format) as [before pos].
  rewrite console_write_app. destruct (console.console_write before rc_black rc_white s) as [s1 | | |]; try done.
  cbn [obind]. destruct pos as [| p [| d rest]]; [done.. |].
  rewrite console_write_app. unfold conversion.
  destruct (Z.eqb_spec d 100), (Z.eqb_spec d 120), (Z.eqb_spec d 115), (Z.eqb_spec d 99);
    try lia; cbn [orb]; rewrite ?(printk_one_ok a) by done; cbn [bool_decide decide];
    try (destruct (console.console_write (show a _) rc_black rc_white s1); cbn [obind]; solve [auto]).
  cbn [console.console_write]. cbn [printk_one].
  destruct (console.console_putc 37 rc_black rc_white s1) as [s2 | | |]; cbn [obind]; try done.
  destruct (console.console_putc d rc_black rc_white s2) as [s3 | | |]; cbn [obind]; auto.
Qed.

(** What is printed is made of characters. *)
Lemma digit_bytes f b n :
  2 <= b <= 16 -> 0 <= n < b ^ Z.of_nat f -> (0 < f)%nat ->
  Forall byte_ok (map spec.digit_char (spec.digits f b n)).
Proof.
  intros Hb Hn Hf. destruct (digits_value f b n) as (_ & HF & _); try lia.
  apply Forall_map. eapply Forall_impl; [exact HF |]. intros d Hd. cbn in Hd.
  unfold compose, spec.digit_char, byte_ok. destruct (d <? 10); lia.
Qed.

Lemma show_bytes a h : arg_ok a -> Forall byte_ok (show a h).
Proof.
  intros Ha. assert (Hu : forall n, 0 <= n < 4294967296 -> Forall byte_ok (if h then spec.hex n else spec.dec n)).
  { intros n Hn. destruct h; apply digit_bytes; simpl; lia. }
  destruct a; cbn [show arg_ok] in *; [by apply Forall_singleton | done | by apply Hu | apply Hu, u32_range].
Qed.

Lemma upto_bytes ch bs before pos :
  upto ch bs = (before, pos) -> Forall byte_ok bs -> Forall byte_ok before /\ Forall byte_ok pos.
Proof.
  revert before pos. induction bs as [| c bs IH]; intros before pos Hu Hbs; cbn [upto] in Hu;
    [by injection Hu as <- <- |].
  apply Forall_cons in Hbs as [Hc Hbs]. destruct (c =? ch); [injection Hu as <- <-; auto |].
  destruct (upto ch bs) as [b' p']. injection Hu as <- <-. destruct (IH b' p' eq_refl Hbs). auto.
Qed.

Lemma render_bytes format args :
  Forall byte_ok format -> Forall arg_ok args -> Forall byte_ok (render format args).
Proof.
  intros Hf Ha. revert format Hf. induction Ha as [| a args Ha _ IH]; intros format Hf; [done |].
  cbn [render]. destruct (upto 37 format) as [before pos] eqn:E.
  destruct (upto_bytes _ _ _ _ E Hf) as [Hb Hp]. apply Forall_app. split; [done |].
  destruct pos as [| p [| d rest]]; [done.. |]. rewrite !Forall_cons in Hp. destruct Hp as (_ & Hd & Hr).
  apply Forall_app. split; [| by apply IH]. unfold conversion.
  repeat case_match; try (by apply show_bytes). apply Forall_cons. split; [done | by apply Forall_singleton].
Qed.

(** On a well-formed screen, printing succeeds. *)
Lemma printk_says format args s u :
  shows s u -> Forall byte_ok format -> Forall arg_ok args ->
  exists s' u', printk format args s = Ok s' /\
    console.console_write (render format args) rc_black rc_white s = Ok s' /\ shows s' u'.
Proof.
  intros Hs Hf Ha. rewrite printk_text by done.
  destruct (write_steps (render format args) rc_black rc_white s u Hs (render_bytes _ _ Hf Ha)) as (s' & Hw & Hs' & _).
  by eexists _, _.
Qed.

Lemma print_all_says ls c u :
  shows c u -> Forall (fun x => Forall byte_ok (fst x) /\ Forall arg_ok (snd x)) ls ->
  exists c' u', print_all ls c = Ok c' /\ shows c' u' /\
    console.console_write (ls ≫= (fun x => render (fst x) (snd x))) rc_black rc_white c = Ok c'.
Proof.
  intros Hc Hls. revert c u Hc. induction Hls as [| [fmt args] ls [Hf Ha] _ IH]; intros c u Hc; [by exists c, u |].
  cbn [print_all fst snd] in *.
  destruct (printk_says fmt args c u Hc Hf Ha) as (c1 & u1 & -> & Hw & Hc1). cbn [obind].
  destruct (IH c1 u1 Hc1) as (c2 & u2 & -> & Hc2 & Hw2). exists c2, u2. split_and!; try done.
  change (console.console_write (render fmt args ++ (ls ≫= (fun x => render (fst x) (snd x))))
    rc_black rc_white c = Ok c2). by rewrite console_write_app, Hw.
Qed.

(** C36: [printk] writes to the console exactly the text that [render] gives:
    the format with each directive replaced by its argument's characters. *)
Theorem printk_renders format args s :
  Forall arg_ok args ->
  printk format args s = console.console_write (render format args) rc_black rc_white s.
Proof. apply printk_text. Qed.

(** "x=%x%c" with 255 and "!". *)
Lemma printk_renders_witness :
  printk [120; 61; 37; 120; 37; 99] [AUInt 255; AChar 33] zero_screen =
    console.console_write [120; 61; 70; 70; 33] rc_black rc_white zero_screen.
Proof.
  apply (printk_renders [120; 61; 37; 120; 37; 99] [AUInt 255; AChar 33] zero_screen).
  repeat constructor; lia.
Defined.

End printk.
