(* ===== verification/Keyboard.v ===== *)
(** * The keyboard ([lib/keyboard.cc])

    The scan-code translation of class [KeyBoard] and the interrupt handler that
    echoes what is typed.  A scan code is an argument: it is what the controller
    answers on port 0x60. *)

From stdpp Require Import prelude gmap strings.
From Stdlib Require Import ZArith Lia.
From S2P Require Import Prelude Console Printk Interrupts.

Module keyboard.

(** [char keyboard[128]]: the initialised elements, the others being 0. *)
Definition keymap : list Z :=
  [ 0; 27; 49; 50; 51; 52; 53; 54; 55; 56; 57; 48;
    45; 61; 8; 9; 113; 119; 101; 114; 116; 121; 117; 105;
    111; 112; 91; 93; 10; 0; 97; 115; 100; 102; 103; 104;
    106; 107; 108; 59; 39; 96; 0; 92; 122; 120; 99; 118;
    98; 110; 109; 44; 46; 47; 0; 42; 0; 32 ].

Definition keyboard : list Z := keymap ++ replicate (128 - length keymap) 0.

(** The data members of [KeyBoard]. *)
Record t := mk { is_shifting : bool; is_ctrling : bool; is_capslock : bool }.

Definition make : t := mk false false false.

(** The predicates on scan codes, in the order of the source. *)
Definition IsRelease (k : Z) : bool := negb (Z.land k 0x80 =? 0).
Definition IsPress (k : Z) : bool := negb (IsRelease k).
Definition IsShift (k : Z) : bool := let k := Z.land k 0x7F in (k =? 42) || (k =? 54).
Definition IsCtrl (k : Z) : bool := let k := Z.land k 0x7F in k =? 29.
Definition IsCapslock (k : Z) : bool := let k := Z.land k 0x7F in k =? 58.

(** ['A' - 'a'] is -32. *)
Definition caps_on (res : Z) : Z := u8 (res + (65 - 97)).

Definition shift_on (res : Z) : Z :=
  if (97 <=? schar res) && (schar res <=? 122) then u8 (res + (65 - 97))
  else u8 (res - (65 - 97)).

(** [TypeIn], on the scan code [k]: the character, 0 for none. *)
Definition TypeIn (k : Z) (s : t) : outcome (Z * t) :=
  if IsShift k then Ok (0, mk (if IsRelease k then false else true) (is_ctrling s) (is_capslock s))
  else if IsCtrl k then Ok (0, mk (is_shifting s) (if IsRelease k then false else true) (is_capslock s))
  else if IsCapslock k then
    Ok (0, if IsPress k then mk (is_shifting s) (is_ctrling s) (if is_capslock s then false else true)
           else s)
  else if IsRelease k then Ok (0, s)
  else
    let! res := or_fault (lget keyboard k) in
    let res := if is_capslock s then caps_on res else res in
    let res := if is_shifting s then shift_on res else res in
    Ok (res, s).

(** The handler: the static [KeyBoard], and the console. *)
Definition keyboard_isr (k : Z) (s : t) (con : console.t) : outcome (t * console.t) :=
  let! '(ch, s) := TypeIn k s in
  if negb (ch =? 0) then
    let! con := printk.printk [37; 99] [AChar ch] con in Ok (s, con)
  else Ok (s, con).

(** [handler] is the address of [keyboard_isr]. *)
Definition init_keyboard (handler : Z) (it : idt.t) : outcome idt.t :=
  idt.register_isr idt.IRQ1 handler it.

(** Typing a sequence of scan codes: the characters, and the state. *)
Fixpoint type_all (ks : list Z) (s : t) : outcome (list Z * t) :=
  match ks with
  | [] => Ok ([], s)
  | k :: ks' =>
      let! '(c, s) := TypeIn k s in
      let! '(cs, s) := type_all ks' s in
      Ok (c :: cs, s)
  end.

(** ** The specification *)

(** The lower-case letter on a key. *)
Definition letter (k : Z) : option Z :=
  match lget keyboard k with
  | Some c => if (97 <=? c) && (c <=? 122) then Some c else None
  | None => None
  end.

Definition upper (c : Z) : Z := c - 32.

(** The key of a scan code; its top bit says it is released. *)
Definition key_of (k : Z) : Z := k mod 128.

Definition released (k : Z) : bool := 128 <=? k.

(** The modifiers after a scan code: shift (and control) is held from its press
    to its release, and each press of caps lock turns it over. *)
Definition modifiers (k : Z) (s : t) : t :=
  mk (if bool_decide (key_of k ∈ [42; 54]) then negb (released k) else is_shifting s)
     (if key_of k =? 29 then negb (released k) else is_ctrling s)
     (if k =? 58 then negb (is_capslock s) else is_capslock s).

(** The character a scan code stands for, for the keys whose character does
    not depend on what is not a letter. *)
Definition typed (k : Z) (s : t) : option Z :=
  if released k || bool_decide (k ∈ [29; 42; 54; 58]) then Some 0
  else match letter k with
       | Some c => Some (if xorb (is_shifting s) (is_capslock s) then upper c else c)
       | None => if is_shifting s || is_capslock s then None else lget keyboard k
       end.

(** ** Lemmas *)

Definition agrees (k : Z) (s : t) : bool :=
  match TypeIn k s with
  | Ok (c, s') =>
      Bool.eqb (is_shifting s') (is_shifting (modifiers k s)) &&
      Bool.eqb (is_ctrling s') (is_ctrling (modifiers k s)) &&
      Bool.eqb (is_capslock s') (is_capslock (modifiers k s)) &&
      (0 <=? c) && (c <? 256) &&
      match typed k s with Some c' => c =? c' | None => true end
  | _ => false
  end.

Lemma agrees_all s : forallb (fun k => agrees k s) (seqZ 0 256) = true.
Proof. destruct s as [[] [] []]; vm_compute; reflexivity. Qed.

Lemma type_in_run k s :
  byte_ok k ->
  exists c, TypeIn k s = Ok (c, modifiers k s) /\ byte_ok c /\
    forall c', typed k s = Some c' -> c = c'.
Proof.
  intros Hk. pose proof (byte_check (fun k => agrees k s) k (agrees_all s) Hk) as H.
  cbn beta in H. unfold agrees in H. destruct (TypeIn k s) as [[c s'] | | |]; try done.
  bprop. exists c. split_and!.
  - f_equal. f_equal. destruct s' as [a b d]. unfold modifiers in *. cbn in *.
    repeat match goal with H : Bool.eqb _ _ = true |- _ => apply Bool.eqb_prop in H; subst end. done.
  - split; lia.
  - intros c' Hc. rewrite Hc in *. lia.
Qed.

(** on every byte and in every state, [TypeIn] returns: it keeps the
    modifiers right, types letters in the case that shift and caps lock select, types
    nothing for releases and modifier keys, and the key's own character when neither
    modifier is on. *)
Theorem type_in_spec k s :
  byte_ok k ->
  exists c, TypeIn k s = Ok (c, modifiers k s) /\ byte_ok c /\
    forall c', typed k s = Some c' -> c = c'.
Proof. apply type_in_run. Qed.

Definition presses (k : Z) (ks : list Z) : nat := length (filter (fun x => x = k) ks).

Lemma modifiers_caps k s :
  is_capslock (modifiers k s) = xorb (is_capslock s) (k =? 58).
Proof. cbn. destruct (k =? 58), (is_capslock s); done. Qed.

(** C37: whatever is typed, caps lock is on exactly when it has been pressed an
    odd number of times since it was off, and shift is held exactly when the last event of
    a shift key was a press. *)
Theorem type_all_modifiers ks s :
  Forall byte_ok ks ->
  exists cs s', type_all ks s = Ok (cs, s') /\ length cs = length ks /\
    is_capslock s' = xorb (is_capslock s) (Nat.odd (presses 58 ks)) /\
    is_shifting s' =
      match last (filter (fun k => key_of k ∈ [42; 54]) ks) with
      | Some k => negb (released k)
      | None => is_shifting s
      end.
Proof.
  intros Hks. revert s. induction Hks as [| k ks Hk _ IH]; intros s; cbn [type_all].
  - exists [], s. rewrite xorb_false_r. done.
  - destruct (type_in_run k s Hk) as (c & -> & _ & _). cbn [obind].
    destruct (IH (modifiers k s)) as (cs & s' & -> & Hlen & Hc & Hs). cbn [obind].
    exists (c :: cs), s'. split_and!; [done | cbn; lia | |].
    + rewrite Hc, modifiers_caps, xorb_assoc. f_equal. unfold presses. rewrite filter_cons.
      destruct (Z.eqb_spec k 58); case_decide; try done.
      cbn [length]. rewrite Nat.odd_succ, <- Nat.negb_odd. by destruct (Nat.odd _).
    + rewrite Hs, filter_cons. cbn [modifiers is_shifting].
      destruct (decide (key_of k ∈ [42; 54])) as [Hin | Hin].
      * rewrite bool_decide_true by done. rewrite last_cons.
        destruct (last (filter _ ks)); done.
      * rewrite bool_decide_false by done. done.
Qed.

Lemma keyboard_isr_run k s con u :
  byte_ok k -> shows con u ->
  exists c con', keyboard_isr k s con = Ok (modifiers k s, con') /\
    shows con' (if c =? 0 then u
                else spec.putc console.blank c
                       (console.make_char c (console.make_color rc_black rc_white)) u) /\
    forall c', typed k s = Some c' -> c = c'.
Proof.
  intros Hk Hu. destruct (type_in_run k s Hk) as (c & Ht & Hc & Hty). unfold keyboard_isr.
  rewrite Ht. cbn [obind]. exists c. destruct (c =? 0); cbn [negb]; [by exists con |].
  rewrite printk.printk_text by (repeat constructor; apply Hc).
  change (printk.render [37; 99] [AChar c]) with [c]. rewrite console_write_one.
  destruct (putc_step c rc_black rc_white con u Hu Hc) as (con' & -> & Hs & _). cbn [obind].
  by exists con'.
Qed.

(** the handler returns whatever the scan code and the modifiers, and writes
    at most the one character typed on a screen that stays well formed. *)
Theorem keyboard_isr_echo k s con u :
  byte_ok k -> shows con u ->
  exists c con', keyboard_isr k s con = Ok (modifiers k s, con') /\
    shows con' (if c =? 0 then u
                else spec.putc console.blank c
                       (console.make_char c (console.make_color rc_black rc_white)) u) /\
    forall c', typed k s = Some c' -> c = c'.
Proof. apply keyboard_isr_run. Qed.

(** Shift adds 32 to the code of a key that is not a letter: with shift held,
    the key 1 types Q and the key F1 a space; and with caps lock on the key 1 types the
    control character 17. *)
Lemma shift_is_wrong_off_letters :
  TypeIn 2 (mk true false false) = Ok (81, mk true false false) /\
  TypeIn 59 (mk true false false) = Ok (32, mk true false false) /\
  TypeIn 2 (mk false false true) = Ok (17, mk false false true).
Proof. by vm_compute. Qed.

(** The key A (30) with shift held. *)
Lemma type_in_spec_witness : TypeIn 30 (mk true false false) = Ok (65, mk true false false).
Proof.
  destruct (type_in_spec 30 (mk true false false)) as (c & Ht & _ & Hc); [unfold byte_ok; lia |].
  rewrite Ht. f_equal. f_equal. apply Hc. reflexivity.
Defined.

(** Shift down, A, shift up, caps lock pressed and released, A. *)
Lemma type_all_modifiers_witness :
  exists cs s, type_all [42; 30; 170; 58; 186; 30] make = Ok (cs, s) /\ is_capslock s = true /\
    is_shifting s = false.
Proof.
  destruct (type_all_modifiers [42; 30; 170; 58; 186; 30] make) as (cs & s & Ht & _ & Hc & Hs);
    [repeat constructor; lia |].
  exists cs, s. split; [exact Ht |]. split; [rewrite Hc; reflexivity | rewrite Hs; reflexivity].
Defined.

Lemma keyboard_isr_echo_witness :
  exists con, keyboard_isr 30 make zero_screen = Ok (make, con) /\ console.cursor_x con = 1.
Proof.
  destruct (keyboard_isr_echo 30 make zero_screen zero_term) as (c & con & Hi & Hsh & Hc);
    [unfold byte_ok; lia | exact zero_shows |].
  assert (c = 97) as -> by (apply Hc; reflexivity).
  exists con. split; [exact Hi |]. exact (sh_x _ _ Hsh).
Defined.

End keyboard.
