(* ===== verification/Scheduler.v ===== *)
(** * The task scheduler ([include/scheduler.h], [include/task.h], [lib/kthread.cc])

    Task structures live in a store indexed by address, which a freed task
    leaves; the stacks are bytes of memory, the heap that of [Heap].  The run queue is
    the circular list through [next]; [ring] relates it to a list of addresses. *)

From stdpp Require Import prelude gmap strings.
From Stdlib Require Import ZArith Lia.
From S2P Require Import Prelude CString Heap Console Printk.

Inductive TaskState := kTaskUninit | kTaskSleeping | kTaskRunnable | kTaskZombie.

(** The registers that a switch saves. *)
Record task_context := mk_context {
  esp : Z; ebp : Z; ebx : Z; esi : Z; edi : Z; eflags : Z
}.

Record task_struct := mk_task {
  state : TaskState;
  pid : Z;
  kstack : Z;
  context : task_context;
  next : Z
}.

Module TaskScheduler.
Section TaskScheduler.

(** The addresses of [kern_stack] and of [kthread_exit], and the static heap. *)
Context (kern_stack kthread_exit : Z) (allocator : ImplicitListAllocator.t).

Definition STACK_SIZE : Z := 0x1000.

(** The data members, and what the scheduler acts on: the task structures,
    memory, the console and the registers of the processor. *)
Record t := mk {
  runnable_tasks_ : Z;
  running_ : Z;
  waiting_tasks_ : Z;
  pid_cnt_ : Z;
  tasks : gmap Z task_struct;
  memory : mem;
  con : console.t;
  cpu : task_context
}.

Definition set_tasks (ts : gmap Z task_struct) (s : t) : t :=
  mk (runnable_tasks_ s) (running_ s) (waiting_tasks_ s) (pid_cnt_ s) ts (memory s) (con s) (cpu s).

Definition load (ts : gmap Z task_struct) (p : Z) : outcome task_struct := or_fault (ts !! p).

Definition with_next (v : Z) (tk : task_struct) : task_struct :=
  mk_task (state tk) (pid tk) (kstack tk) (context tk) v.

Definition with_context (c : task_context) (tk : task_struct) : task_struct :=
  mk_task (state tk) (pid tk) (kstack tk) c (next tk).

Definition zero_context : task_context := mk_context 0 0 0 0 0 0.

(** The constructor; [raw] is what [kern_stack] holds where the context is. *)
Definition make (raw : task_context) (m : mem) (c : console.t) (r : task_context) : t :=
  mk kern_stack kern_stack 0 1
    {[ kern_stack := mk_task kTaskRunnable 0 kern_stack raw kern_stack ]} m c r.

(** [while (cur->next != runnable_tasks_) cur = cur->next;] *)
Fixpoint last_loop (fuel : nat) (ts : gmap Z task_struct) (head cur : Z) : outcome Z :=
  match fuel with
  | O => NoFuel
  | S f =>
      let! tk := load ts cur in
      if next tk =? head then Ok cur else last_loop f ts head (next tk)
  end.

(** The words that [submit] pushes on the new stack. *)
Definition push_frame (p npid fn : Z) (m : mem) : mem :=
  store32 (p + STACK_SIZE - 16) fn
    (store32 (p + STACK_SIZE - 12) kthread_exit
      (store32 (p + STACK_SIZE - 8) 0 (store32 (p + STACK_SIZE - 4) npid m))).

Definition submit (fuel : nat) (fn : Z) (s : t) : outcome (Z * t) :=
  let! '(new_task, m) := kmalloc fuel allocator STACK_SIZE (memory s) in
  kassert (negb (new_task =? 0)) "Scheduler submit error" (
    let npid := pid_cnt_ s in
    let m := push_frame new_task npid fn m in
    let ctx := mk_context (new_task + STACK_SIZE - 16) 0 0 0 0 0x200 in
    let tk := mk_task kTaskRunnable npid (running_ s) ctx (runnable_tasks_ s) in
    let ts := <[new_task := tk]> (tasks s) in
    let! cur := last_loop fuel ts (runnable_tasks_ s) (runnable_tasks_ s) in
    let ts := alter (with_next new_task) cur ts in
    Ok (npid, mk (runnable_tasks_ s) (running_ s) (waiting_tasks_ s) (u32 (npid + 1)) ts m
                (con s) (cpu s))).

(** [switch_to] ([lib/switch_to.s]): save the registers in [last]'s context, load
    [target]'s; the [ret] that follows takes the return address on the new stack. *)
Definition switch_to (last target : Z) (s : t) : outcome t :=
  let! _ := load (tasks s) last in
  let ts := alter (with_context (cpu s)) last (tasks s) in
  let! tk := load ts target in
  Ok (mk (runnable_tasks_ s) (running_ s) (waiting_tasks_ s) (pid_cnt_ s) ts (memory s) (con s)
        (context tk)).

Definition change_task_to (target : Z) (s : t) : outcome t :=
  if running_ s =? target then Ok s
  else
    let last := running_ s in
    switch_to last target
      (mk (runnable_tasks_ s) target (waiting_tasks_ s) (pid_cnt_ s) (tasks s) (memory s)
         (con s) (cpu s)).

Definition schedule (s : t) : outcome t :=
  if running_ s =? 0 then Ok s
  else let! tk := load (tasks s) (running_ s) in change_task_to (next tk) s.

(** The [do ... while] of [find_task]; 0 is [nullptr]. *)
Fixpoint find_loop (fuel : nat) (ts : gmap Z task_struct) (head p res : Z) : outcome Z :=
  match fuel with
  | O => NoFuel
  | S f =>
      let! tk := load ts res in
      if pid tk =? p then Ok res
      else
        let res := next tk in
        let! tk := load ts res in
        if negb (next tk =? head) then find_loop f ts head p res else Ok 0
  end.

Definition find_task (fuel : nat) (p : Z) (s : t) : outcome Z :=
  find_loop fuel (tasks s) (runnable_tasks_ s) p (runnable_tasks_ s).

(** [while (cur != task) { cur = cur->next; prev = prev->next; }] *)
Fixpoint exit_loop (fuel : nat) (ts : gmap Z task_struct) (task prev cur : Z) : outcome (Z * Z) :=
  match fuel with
  | O => NoFuel
  | S f =>
      if cur =? task then Ok (prev, cur)
      else
        let! c := load ts cur in
        let! p := load ts prev in
        exit_loop f ts task (next p) (next c)
  end.

(** "thread %d exit\n". *)
Definition exit_message : list Z :=
  [116; 104; 114; 101; 97; 100; 32; 37; 100; 32; 101; 120; 105; 116; 10].

Definition exit (fuel : nat) (task : Z) (s : t) : outcome t :=
  let! tk := load (tasks s) task in
  let npid := pid tk in
  let head := runnable_tasks_ s in
  let! h := load (tasks s) head in
  let! s :=
    (if next h =? head then
       Ok (mk head 0 (waiting_tasks_ s) (pid_cnt_ s) (alter (with_next 0) head (tasks s))
             (memory s) (con s) (cpu s))
     else
       let! '(prev, cur) := exit_loop fuel (tasks s) task head (next h) in
       let! c := load (tasks s) cur in
       let! _ := load (tasks s) prev in
       Ok (set_tasks (alter (with_next (next c)) prev (tasks s)) s)) in
  let m := kfree task (memory s) in
  let! c := printk.printk exit_message [AUInt npid] (con s) in
  Ok (mk (runnable_tasks_ s) (running_ s) (waiting_tasks_ s) (pid_cnt_ s)
        (delete task (tasks s)) m c (cpu s)).

Definition kill (fuel : nat) (p : Z) (s : t) : outcome t :=
  let! task := find_task fuel p s in exit fuel task s.

(** ** [lib/kthread.cc]: the static scheduler *)

Definition init_kthread := make.
Definition kthread := submit.
Definition kthread_schedule := schedule.
Definition kthread_exit_ := kill.

End TaskScheduler.
End TaskScheduler.
Import TaskScheduler.

(** ** The run queue *)

(** The tasks of [l] are linked in that order, the last to [z]. *)
Fixpoint links (ts : gmap Z task_struct) (l : list Z) (z : Z) : Prop :=
  match l with
  | [] => True
  | p :: l' => next <$> ts !! p = Some (hd z l') /\ links ts l' z
  end.

(** The circular list that starts at [r]. *)
Record ring (ts : gmap Z task_struct) (r : Z) (l : list Z) : Prop := {
  ring_links : links ts (r :: l) r;
  ring_nodup : NoDup (r :: l);
  ring_null : 0 ∉ r :: l
}.

Section proofs.
Implicit Types (ts : gmap Z task_struct).

Lemma links_app ts l1 p l2 z : links ts (l1 ++ p :: l2) z <-> links ts l1 p /\ links ts (p :: l2) z.
Proof.
  induction l1 as [| q l1 IH]; [cbn; tauto |]. cbn [app links]. rewrite IH.
  destruct l1; cbn; tauto.
Qed.

Lemma links_ext ts ts' l z :
  (forall p, p ∈ l -> next <$> ts' !! p = next <$> ts !! p) -> links ts l z -> links ts' l z.
Proof.
  induction l as [| p l IH]; [done |]. cbn [links]. intros Hx [Hp Hl]. split.
  - rewrite Hx; [done |]. apply elem_of_cons. by left.
  - apply IH; [| done]. intros q Hq. apply Hx, elem_of_cons. by right.
Qed.

Lemma links_next ts l1 p l2 z : links ts (l1 ++ p :: l2) z -> next <$> ts !! p = Some (hd z l2).
Proof. intros [_ [H _]]%links_app. done. Qed.

Lemma load_next ts p v : next <$> ts !! p = Some v -> exists tk, load ts p = Ok tk /\ next tk = v.
Proof. unfold load. destruct (ts !! p) as [tk |]; [| done]. intros [= <-]. by exists tk. Qed.

Lemma next_alter ts p v q :
  next <$> alter (with_next v) p ts !! q = if decide (p = q) then const v <$> ts !! q else next <$> ts !! q.
Proof.
  case_decide as H; [subst; rewrite lookup_alter_eq | by rewrite lookup_alter_ne].
  by destruct (ts !! q).
Qed.

(** The last element before the first. *)
Lemma last_loop_ok ts r l1 p l2 fuel :
  links ts (l1 ++ p :: l2) r -> r ∉ l2 -> (length l2 < fuel)%nat ->
  last_loop fuel ts r p = Ok (default p (last l2)).
Proof.
  revert l1 p fuel. induction l2 as [| q l2 IH]; intros l1 p fuel Hl Hr Hf;
    (destruct fuel as [| fuel]; [simpl in Hf; lia |]); cbn [last_loop];
    destruct (load_next _ _ _ (links_next _ _ _ _ _ Hl)) as (tk & -> & Hn); cbn [obind];
    rewrite Hn; cbn [hd].
  - by rewrite Z.eqb_refl.
  - apply not_elem_of_cons in Hr as [Hq Hr]. rewrite (proj2 (Z.eqb_neq _ _)) by done.
    rewrite (IH (l1 ++ [p])).
    + rewrite last_cons. by destruct (last l2).
    + by rewrite <- app_assoc.
    + done.
    + simpl in Hf. lia.
Qed.

Lemma pid_alter_next ts v p q : pid <$> alter (with_next v) p ts !! q = pid <$> ts !! q.
Proof.
  destruct (decide (p = q)) as [-> | Hne]; [rewrite lookup_alter_eq | by rewrite lookup_alter_ne].
  by destruct (ts !! q).
Qed.

(** A store to [next] keeps the rest of every task. *)
Lemma next_only_alter ts v p q :
  with_next 0 <$> alter (with_next v) p ts !! q = with_next 0 <$> ts !! q.
Proof.
  destruct (decide (p = q)) as [-> | Hne]; [rewrite lookup_alter_eq | by rewrite lookup_alter_ne].
  by destruct (ts !! q).
Qed.

Lemma next_only_pid (o o' : option task_struct) :
  with_next 0 <$> o = with_next 0 <$> o' -> pid <$> o = pid <$> o'.
Proof. destruct o as [[] |], o' as [[] |]; try done. cbn. unfold with_next. cbn. congruence. Qed.

Lemma next_only_context (o o' : option task_struct) :
  with_next 0 <$> o = with_next 0 <$> o' -> context <$> o = context <$> o'.
Proof. destruct o as [[] |], o' as [[] |]; try done. cbn. unfold with_next. cbn. congruence. Qed.

Lemma links_alter_out ts v p l z : p ∉ l -> links ts l z -> links (alter (with_next v) p ts) l z.
Proof.
  intros Hp. apply links_ext. intros q Hq. rewrite next_alter, decide_False by (by intros ->). done.
Qed.

Lemma links_snoc ts l0 z p r :
  links ts (l0 ++ [z]) r -> NoDup (l0 ++ [z]) -> z <> p -> next <$> ts !! p = Some r ->
  links (alter (with_next p) z ts) (l0 ++ [z; p]) r.
Proof.
  intros [Hl Hz]%links_app Hnd Hne Hp. apply NoDup_app in Hnd as (_ & Hz0 & _).
  apply links_app. split.
  - apply links_alter_out; [| done]. intros Hin. apply (Hz0 z Hin). by apply list_elem_of_singleton.
  - cbn [links hd]. rewrite !next_alter, decide_True, decide_False by done. split_and!; try done.
    destruct Hz as [Hz _]. by destruct (ts !! z).
Qed.

Lemma links_remove ts l1 a x l2 z :
  links ts (l1 ++ a :: x :: l2) z -> NoDup (l1 ++ a :: x :: l2) ->
  links (alter (with_next (hd z l2)) a ts) (l1 ++ a :: l2) z.
Proof.
  intros [Hl Ha]%links_app Hnd. apply NoDup_app in Hnd as (_ & Hd & Hnd).
  apply NoDup_cons in Hnd as [Ha' Hnd]. apply NoDup_cons in Hnd as [_ Hnd].
  destruct Ha as [Ha [Hx Hl2]]. apply links_app. split.
  - apply links_alter_out; [| done]. intros Hin. apply (Hd a Hin), elem_of_cons. by left.
  - cbn [links]. rewrite next_alter, decide_True by done. split; [by destruct (ts !! a) |].
    apply links_alter_out; [| done]. intros Hin. apply Ha', elem_of_cons. by right.
Qed.

Lemma links_delete ts p l z : p ∉ l -> links ts l z -> links (delete p ts) l z.
Proof. intros Hp. apply links_ext. intros q Hq. by rewrite lookup_delete_ne by (intros ->; done). Qed.

Lemma links_in ts l z p : links ts l z -> p ∈ l -> is_Some (ts !! p).
Proof.
  intros Hl (l1 & l2 & ->)%list_elem_of_split. apply links_next in Hl.
  destruct (ts !! p); [done | done].
Qed.
End proofs.

Section queue.
Context (kern_stack kthread_exit : Z) (allocator : ImplicitListAllocator.t).

(** What [submit] does; of the other tasks only links change. *)
Lemma submit_run fuel fn s l p m :
  ring (tasks s) (runnable_tasks_ s) l -> (length l < fuel)%nat ->
  kmalloc fuel allocator STACK_SIZE (memory s) = Ok (p, m) -> p <> 0 -> tasks s !! p = None ->
  exists s' tk, submit kthread_exit allocator fuel fn s = Ok (pid_cnt_ s, s') /\
    ring (tasks s') (runnable_tasks_ s') (l ++ [p]) /\
    runnable_tasks_ s' = runnable_tasks_ s /\ running_ s' = running_ s /\
    pid_cnt_ s' = u32 (pid_cnt_ s + 1) /\
    tasks s' !! p = Some tk /\ state tk = kTaskRunnable /\ pid tk = pid_cnt_ s /\
    context tk = mk_context (p + STACK_SIZE - 16) 0 0 0 0 0x200 /\
    memory s' = push_frame kthread_exit p (pid_cnt_ s) fn m /\ cpu s' = cpu s /\
    forall q, q <> p -> with_next 0 <$> tasks s' !! q = with_next 0 <$> tasks s !! q.
Proof.
  intros Hr Hf Hk Hp Hfresh. pose proof Hr as [Hl Hnd H0]. unfold submit. rewrite Hk. cbn [obind].
  rewrite (proj2 (Z.eqb_neq p 0)) by done. cbn [negb kassert].
  set (r := runnable_tasks_ s) in *.
  set (tk := mk_task kTaskRunnable (pid_cnt_ s) (running_ s) _ r).
  assert (Hin : forall q, q ∈ r :: l -> q <> p).
  { intros q Hq ->. apply list_elem_of_split in Hq as (l1 & l2 & E). rewrite E in Hl.
    apply links_next in Hl. by rewrite Hfresh in Hl. }
  assert (Hl' : links (<[p := tk]> (tasks s)) (r :: l) r).
  { eapply links_ext; [| exact Hl]. intros q Hq. by rewrite lookup_insert_ne by (apply not_eq_sym; auto). }
  rewrite (last_loop_ok _ r [] r l) by (done || by apply NoDup_cons in Hnd as [? _]). cbn [obind].
  set (z := default r (last l)).
  assert (Hz : exists l0, r :: l = l0 ++ [z]).
  { destruct l as [| x l0] using rev_ind; [by exists [] |]. exists (r :: l0).
    subst z. by rewrite last_snoc. }
  destruct Hz as [l0 Hz].
  assert (Hzin : z ∈ r :: l) by (rewrite Hz; apply elem_of_app; right; by apply list_elem_of_singleton).
  assert (Hzp : z <> p) by auto.
  eexists _, tk. split; [reflexivity |]. cbn [tasks runnable_tasks_ running_ pid_cnt_ memory].
  split_and!; try done.
  - split.
    + change (r :: l ++ [p]) with ((r :: l) ++ [p]). rewrite Hz, <- app_assoc. cbn [app].
      apply links_snoc; [by rewrite <- Hz | by rewrite <- Hz | done |]. by rewrite lookup_insert_eq.
    + change (r :: l ++ [p]) with ((r :: l) ++ [p]). apply NoDup_app. split_and!; [done | | apply NoDup_singleton].
      intros q Hq ->%list_elem_of_singleton. by apply (Hin p).
    + change (r :: l ++ [p]) with ((r :: l) ++ [p]). rewrite elem_of_app, list_elem_of_singleton.
      intros [? | ?]; [done | congruence].
  - rewrite lookup_alter_ne by done. by rewrite lookup_insert_eq.
  - intros q Hq. rewrite next_only_alter. by rewrite lookup_insert_ne.
Qed.

(** [submit] puts the new task at the end of the run queue, ready to run:
    [switch_to] it and the processor starts [fn] with [kthread_exit] as its return
    address, whose argument is the new pid.  Nothing else changes. *)
Theorem submit_appends fuel fn s l p m :
  ring (tasks s) (runnable_tasks_ s) l -> (length l < fuel)%nat ->
  kmalloc fuel allocator STACK_SIZE (memory s) = Ok (p, m) -> p <> 0 -> tasks s !! p = None ->
  exists s' tk, submit kthread_exit allocator fuel fn s = Ok (pid_cnt_ s, s') /\
    ring (tasks s') (runnable_tasks_ s') (l ++ [p]) /\
    runnable_tasks_ s' = runnable_tasks_ s /\ running_ s' = running_ s /\
    pid_cnt_ s' = u32 (pid_cnt_ s + 1) /\
    tasks s' !! p = Some tk /\ state tk = kTaskRunnable /\ pid tk = pid_cnt_ s /\
    context tk = mk_context (p + STACK_SIZE - 16) 0 0 0 0 0x200 /\
    memory s' = push_frame kthread_exit p (pid_cnt_ s) fn m /\
    forall q, q <> p -> pid <$> tasks s' !! q = pid <$> tasks s !! q.
Proof.
  intros Hr Hf Hk Hp Hfresh.
  destruct (submit_run fuel fn s l p m Hr Hf Hk Hp Hfresh)
    as (s' & tk & Hs & ? & ? & ? & ? & ? & ? & ? & ? & ? & _ & Hq).
  exists s', tk. split_and!; try done. intros q Hne. by apply next_only_pid, Hq.
Qed.
End queue.

(** ** Scheduling is round robin *)

(** [x] runs, and the tasks of [q] wait in that order, with their contexts. *)
Record runs (s : t) (x : Z) (q : list (Z * task_context)) : Prop := {
  runs_task : running_ s = x;
  runs_null : 0 ∉ x :: q.*1;
  runs_nodup : NoDup (x :: q.*1);
  runs_links : links (tasks s) (x :: q.*1) x;
  runs_context : forall p c, (p, c) ∈ q -> context <$> tasks s !! p = Some c
}.

(** A thread runs until the timer interrupt: it may change the registers. *)
Definition set_cpu (c : task_context) (s : t) : t :=
  mk (runnable_tasks_ s) (running_ s) (waiting_tasks_ s) (pid_cnt_ s) (tasks s) (memory s) (con s) c.

Fixpoint run (fs : list (task_context -> task_context)) (s : t) : outcome t :=
  match fs with
  | [] => Ok s
  | f :: fs' => let! s := schedule (set_cpu (f (cpu s)) s) in run fs' s
  end.

Section scheduling.
Implicit Types (ts : gmap Z task_struct) (s : t) (q : list (Z * task_context)).

(** The run queue can be entered at any of its tasks. *)
Lemma tasks_rotate ts r l l1 x l2 :
  ring ts r l -> r :: l = l1 ++ x :: l2 -> links ts (x :: l2 ++ l1) x.
Proof.
  intros [Hl _ _] E. rewrite E in Hl. apply links_app in Hl as [Hl1 Hl2].
  change (x :: l2 ++ l1) with ((x :: l2) ++ l1).
  destruct l1 as [| y l1].
  - rewrite app_nil_r. cbn [app] in E. by injection E as -> ->.
  - injection E as <- _. by apply links_app.
Qed.

Lemma runs_set_cpu c s x q : runs s x q -> runs (set_cpu c s) x q.
Proof. by intros []. Qed.

Lemma next_alter_context ts c p r : next <$> alter (with_context c) p ts !! r = next <$> ts !! r.
Proof.
  destruct (decide (p = r)) as [-> | Hne]; [rewrite lookup_alter_eq | by rewrite lookup_alter_ne].
  by destruct (ts !! r).
Qed.

Lemma schedule_step s x q :
  runs s x q ->
  match q with
  | [] => schedule s = Ok s
  | (y, c) :: q' => exists s', schedule s = Ok s' /\ cpu s' = c /\ runs s' y (q' ++ [(x, cpu s)])
  end.
Proof.
  intros [Hx H0 Hnd Hl Hc]. unfold schedule. rewrite Hx.
  assert (x <> 0) by (intros ->; apply H0, elem_of_cons; by left).
  rewrite (proj2 (Z.eqb_neq x 0)) by done.
  pose proof Hl as [Hn _]. destruct (load_next _ _ _ Hn) as (tk & Ht & Hnext). rewrite Ht. cbn [obind].
  unfold change_task_to. rewrite Hx, Hnext. destruct q as [| [y c] q]; cbn [fmap list_fmap fst hd] in *.
  { by rewrite Z.eqb_refl. }
  apply NoDup_cons in Hnd as [Hxq Hnd]. assert (Hxy : x <> y) by (intros ->; apply Hxq, elem_of_cons; by left).
  rewrite (proj2 (Z.eqb_neq x y)) by done. unfold switch_to. cbn [tasks cpu]. rewrite Ht. cbn [obind].
  assert (Hy : context <$> tasks s !! y = Some c) by (apply Hc, elem_of_cons; by left).
  unfold load. rewrite lookup_alter_ne by done. destruct (tasks s !! y) as [tky |] eqn:Ey; [| done].
  injection Hy as <-. cbn [or_fault obind]. eexists. split; [reflexivity |]. split; [done |].
  assert (Hq : (q ++ [(x, cpu s)]).*1 = q.*1 ++ [x]) by (by rewrite fmap_app).
  split; cbn [running_ tasks]; rewrite ?Hq.
  - done.
  - change (y :: q.*1 ++ [x]) with ((y :: q.*1) ++ [x]).
    rewrite elem_of_app, list_elem_of_singleton. rewrite elem_of_cons in H0. tauto.
  - change (y :: q.*1 ++ [x]) with ((y :: q.*1) ++ [x]). apply NoDup_app.
    split_and!; [done | | apply NoDup_singleton].
    intros p Hp ->%list_elem_of_singleton. by apply Hxq.
  - eapply links_ext; [intros p _; apply next_alter_context |].
    change (y :: q.*1 ++ [x]) with ((y :: q.*1) ++ [x]). apply links_app.
    destruct Hl as [_ Hl]. cbn [hd] in Hn. split; [done |]. cbn [links hd]. done.
  - intros p c [Hp | Hp]%elem_of_app.
    + rewrite lookup_alter_ne; [apply Hc, elem_of_cons; by right |]. intros <-. apply Hxq, elem_of_cons. right.
      apply list_elem_of_fmap. by exists (x, c).
    + apply list_elem_of_singleton in Hp. injection Hp as -> ->. rewrite lookup_alter_eq.
      unfold load in Ht. destruct (tasks s !! x); [| done]. done.
Qed.

(** A switch changes neither the screen nor memory. *)
Lemma schedule_frame s s' : schedule s = Ok s' -> con s' = con s /\ memory s' = memory s.
Proof.
  unfold schedule, change_task_to, switch_to. case_match; [by intros [= <-] |].
  destruct (load (tasks s) (running_ s)) as [tk | | |] eqn:E; cbn [obind]; [| done..]. case_match; [by intros [= <-] |].
  cbn [tasks cpu]. rewrite E. cbn [obind].
  destruct (load _ (next tk)) as [tk' | | |]; cbn [obind]; [| done..]. by intros [= <-].
Qed.

(** [schedule] resumes the task that has waited longest, with the registers
    it was left with, and puts the running one at the end of the queue with its own;
    a task alone goes on. *)
Theorem schedule_fifo s x q :
  runs s x q ->
  match q with
  | [] => schedule s = Ok s
  | (y, c) :: q' => exists s', schedule s = Ok s' /\ cpu s' = c /\ runs s' y (q' ++ [(x, cpu s)])
  end.
Proof. apply schedule_step. Qed.

Lemma run_until fs s x q1 z c q2 :
  runs s x (q1 ++ (z, c) :: q2) -> length fs = S (length q1) ->
  exists s', run fs s = Ok s' /\ running_ s' = z /\ cpu s' = c.
Proof.
  revert fs s x q2. induction q1 as [| [y d] q1 IH]; intros fs s x q2 Hr Hf;
    (destruct fs as [| f fs]; [done |]); cbn [run];
    apply (runs_set_cpu (f (cpu s))), schedule_step in Hr; cbn [app] in Hr;
    destruct Hr as (s' & -> & Hcpu & Hr); cbn [obind].
  - destruct fs; [| done]. exists s'. split_and!; try done. apply Hr.
  - rewrite <- app_assoc in Hr. cbn [app] in Hr. apply (IH fs s' y _ Hr). simpl in Hf. lia.
Qed.

(** C18: no task starves and none sees the others' registers.  With n tasks, the
    task that runs is running again after exactly n switches, and its registers are what
    it left them, whatever the threads between did to theirs. *)
Theorem round_robin s x q f fs :
  runs s x q -> length fs = length q ->
  exists s', run (f :: fs) s = Ok s' /\ running_ s' = x /\ cpu s' = f (cpu s).
Proof.
  intros Hr Hlen. cbn [run]. apply (runs_set_cpu (f (cpu s))) in Hr.
  pose proof (schedule_step _ _ _ Hr) as Hs. destruct q as [| [y c] q].
  - rewrite Hs. cbn [obind]. destruct fs; [| done]. eexists. split; [reflexivity |].
    split; [apply Hr | done].
  - destruct Hs as (s' & -> & _ & Hr'). cbn [obind].
    apply (run_until fs s' y q x _ []); [done |]. simpl in Hlen. lia.
Qed.
End scheduling.

(** ** Killing a task *)

Section killing.
Implicit Types (ts : gmap Z task_struct) (s : t).

Definition has_pid ts (p x : Z) : Prop := pid <$> ts !! x = Some p.

Lemma load_pid ts l1 x l2 z :
  links ts (l1 ++ x :: l2) z ->
  exists tk, load ts x = Ok tk /\ next tk = hd z l2 /\ has_pid ts (pid tk) x.
Proof.
  intros Hl. destruct (load_next _ _ _ (links_next _ _ _ _ _ Hl)) as (tk & Hlo & Hn).
  exists tk. split_and!; [done | done |]. unfold load, has_pid in *. destruct (ts !! x); naive_solver.
Qed.

(** The search, from an element [y] whose followers do not include the head:
    it finds the pid in [y :: la] or in [x], unless [x] is the last. *)
Lemma find_loop_ok ts r p l0 la x l2 fuel :
  links ts (l0 ++ la ++ x :: l2) r -> r ∉ tail (la ++ x :: l2) -> (length la < fuel)%nat ->
  Forall (fun y => ~ has_pid ts p y) la -> has_pid ts p x ->
  find_loop fuel ts r p (hd x la) = Ok (if decide (la <> [] /\ l2 = []) then 0 else x).
Proof.
  revert l0 fuel. induction la as [| y la IH]; intros l0 fuel Hl Hr Hf HF Hx;
    (destruct fuel as [| fuel]; [simpl in Hf; lia |]); cbn [find_loop app hd] in *.
  - destruct (load_pid _ _ _ _ _ Hl) as (tk & -> & _ & Hp). cbn [obind].
    unfold has_pid in *. rewrite decide_False by tauto.
    replace (pid tk) with p by congruence. by rewrite Z.eqb_refl.
  - apply Forall_cons in HF as [Hy HF].
    destruct (load_pid _ _ _ _ _ Hl) as (tk & -> & Hn & Hp). cbn [obind].
    destruct (Z.eqb_spec (pid tk) p) as [<- | _]; [done |]. rewrite Hn.
    assert (Hl' : links ts ((l0 ++ [y]) ++ la ++ x :: l2) r) by (by rewrite <- app_assoc).
    assert (Hh : hd r (la ++ x :: l2) = hd x la) by (by destruct la).
    rewrite Hh. cbn [tail] in Hr.
    assert (Hnx : exists tk', load ts (hd x la) = Ok tk' /\ next tk' = hd r (tail (la ++ x :: l2))).
    { destruct la as [| z la]; cbn [app hd tail] in *.
      - destruct (load_pid _ _ _ _ _ Hl') as (tk' & ? & ? & _). by exists tk'.
      - destruct (load_pid _ _ _ _ _ Hl') as (tk' & ? & ? & _). by exists tk'. }
    destruct Hnx as (tk' & -> & Hn'). cbn [obind]. rewrite Hn'.
    destruct (tail (la ++ x :: l2)) as [| w rest] eqn:Et; cbn [hd].
    + rewrite Z.eqb_refl. cbn [negb]. destruct la as [| z la]; [| by destruct la].
      cbn in Et. subst. by rewrite decide_True.
    + assert (Hw : w <> r).
      { intros ->. apply Hr. destruct (la ++ x :: l2) as [| v r'] eqn:E; [done |].
        cbn in Et. subst. apply elem_of_cons. right. apply elem_of_cons. by left. }
      rewrite (proj2 (Z.eqb_neq w r)) by done. cbn [negb].
      rewrite (IH (l0 ++ [y])); try done; [| | simpl in Hf; lia].
      * f_equal. destruct l2, la; repeat case_decide; naive_solver.
      * intros Hin. apply Hr. destruct (la ++ x :: l2); [done |]. cbn in Et. subst.
        apply elem_of_cons. by right.
Qed.

(** The walk to the task and the one before it. *)
Lemma exit_loop_ok ts r l0 a la x l2 fuel :
  links ts (l0 ++ a :: la ++ x :: l2) r -> x ∉ la -> (length la < fuel)%nat ->
  exit_loop fuel ts x a (hd x la) = Ok (default a (last la), x).
Proof.
  revert l0 a fuel. induction la as [| y la IH]; intros l0 a fuel Hl Hx Hf;
    (destruct fuel as [| fuel]; [simpl in Hf; lia |]); cbn [exit_loop app hd] in *.
  - by rewrite Z.eqb_refl.
  - apply not_elem_of_cons in Hx as [Hyx Hx]. rewrite (proj2 (Z.eqb_neq y x)) by done.
    destruct (load_pid _ _ _ _ _ Hl) as (tka & -> & Hna & _).
    assert (Hl' : links ts ((l0 ++ [a]) ++ y :: la ++ x :: l2) r) by (by rewrite <- app_assoc).
    destruct (load_pid _ _ _ _ _ Hl') as (tky & -> & Hny & _). cbn [obind].
    rewrite Hna, Hny. cbn [hd].
    replace (hd r (la ++ x :: l2)) with (hd x la) by (by destruct la).
    rewrite (IH (l0 ++ [a])); [| done | done | simpl in Hf; lia].
    rewrite last_cons. by destruct (last la).
Qed.

Lemma exit_print_ok n c u :
  0 <= n < 4294967296 -> shows c u ->
  exists c' u', printk.printk exit_message [AUInt n] c = Ok c' /\ shows c' u'.
Proof.
  intros Hn Hs. destruct (printk.printk_says exit_message [AUInt n] c u Hs) as (c' & u' & ? & _ & ?);
    [by repeat constructor | by apply Forall_singleton |]. by exists c', u'.
Qed.

(** Cutting the chain of [next] pointers at the task before a member. *)
Lemma chain_split (r : Z) l1 : exists l0 a, a = default r (last l1) /\ forall l, r :: l1 ++ l = l0 ++ a :: l.
Proof.
  destruct l1 as [| y l1 _] using rev_ind; [by exists [], r |]. exists (r :: l1), y.
  split; [by rewrite last_snoc |]. intros l. by rewrite <- app_assoc.
Qed.

Lemma NoDup_remove (l1 l2 : list Z) x : NoDup (l1 ++ x :: l2) -> x ∉ l1 ++ l2 /\ NoDup (l1 ++ l2).
Proof. rewrite <- Permutation_middle. apply NoDup_cons. Qed.

(** The queue without one of its tasks, once the task before it skips it and it is freed. *)
Lemma ring_removed ts r l1 x l2 :
  ring ts r (l1 ++ x :: l2) ->
  ring (delete x (alter (with_next (hd r l2)) (default r (last l1)) ts)) r (l1 ++ l2).
Proof.
  intros [Hl Hnd H0]. destruct (chain_split r l1) as (l0 & a & <- & E). rewrite E in Hl, Hnd.
  pose proof Hnd as Hnd'. rewrite <- E, app_comm_cons in Hnd'.
  destruct (NoDup_remove _ _ _ Hnd') as [Hx Hn].
  split; [| done |].
  - change (r :: l1 ++ l2) with ((r :: l1) ++ l2). apply links_delete; [done |]. cbn [app]. rewrite E.
    by apply links_remove with x.
  - intros Hin. apply H0. rewrite elem_of_cons, elem_of_app in *. rewrite elem_of_cons. tauto.
Qed.

(** [kill] of a task in the middle of the queue. *)
Lemma kill_run fuel p s u l1 x l2 :
  ring (tasks s) (runnable_tasks_ s) (l1 ++ x :: l2) -> l2 <> [] ->
  has_pid (tasks s) p x -> 0 <= p < 4294967296 ->
  Forall (fun y => ~ has_pid (tasks s) p y) (runnable_tasks_ s :: l1) ->
  shows (con s) u -> (S (length l1) < fuel)%nat ->
  exists s', kill fuel p s = Ok s' /\
    ring (tasks s') (runnable_tasks_ s') (l1 ++ l2) /\ tasks s' !! x = None /\
    runnable_tasks_ s' = runnable_tasks_ s /\ running_ s' = running_ s /\
    memory s' = kfree x (memory s) /\
    forall q, q <> x -> pid <$> tasks s' !! q = pid <$> tasks s !! q.
Proof.
  intros Hr Hl2 Hx Hp HF Hu Hf. set (r := runnable_tasks_ s) in *. pose proof Hr as [Hl Hnd _].
  change (r :: l1 ++ x :: l2) with ((r :: l1) ++ x :: l2) in Hl, Hnd.
  destruct (NoDup_remove _ _ _ Hnd) as [Hxn Hn]. pose proof Hn as [Hrn _]%NoDup_cons.
  assert (Hrx : r ∉ l1 ++ x :: l2) by (by apply NoDup_cons in Hnd as [? _]).
  assert (Hxl1 : x ∉ l1) by (rewrite elem_of_app, elem_of_cons in Hxn; tauto).
  unfold kill, find_task. fold r.
  assert (Hfind := find_loop_ok (tasks s) r p [] (r :: l1) x l2 fuel). cbn [hd app tail] in Hfind.
  rewrite Hfind by done. cbn [obind]. clear Hfind. rewrite decide_False by naive_solver.
  unfold exit. fold r.
  destruct (load_pid _ _ _ _ _ Hl) as (tkx & Htx & Hnx & Hpx). rewrite Htx. cbn [obind].
  assert (pid tkx = p) as -> by (unfold has_pid in *; congruence).
  destruct (load_pid (tasks s) [] r (l1 ++ x :: l2) r Hl) as (tkr & Htr & Hnr & _).
  rewrite Htr. cbn [obind].
  assert (Hnr' : next tkr = hd x l1) by (rewrite Hnr; by destruct l1).
  assert (hd x l1 <> r).
  { intros <-. destruct l1 as [| y l1]; cbn in Hrx; apply Hrx, elem_of_cons; by left. }
  rewrite Hnr', (proj2 (Z.eqb_neq _ _)) by done.
  rewrite (exit_loop_ok (tasks s) r [] r l1 x l2 fuel Hl Hxl1) by lia. cbn [obind].
  rewrite Htx. cbn [obind].
  destruct (chain_split r l1) as (l0 & a & Ha & E). rewrite <- Ha. cbn [app] in Hl. rewrite E in Hl.
  destruct (load_pid _ _ _ _ _ Hl) as (tka & Hta & _ & _). rewrite Hta. cbn [obind].
  destruct (exit_print_ok p (con s) u Hp Hu) as (c' & u' & Hc & _).
  cbn [set_tasks con memory tasks runnable_tasks_]. rewrite Hc. cbn [obind].
  eexists. split; [reflexivity |]. cbn [set_tasks runnable_tasks_ running_ tasks memory].
  rewrite Hnx. split_and!; try done.
  - rewrite Ha. by apply ring_removed.
  - by rewrite lookup_delete_eq.
  - intros q Hq. rewrite lookup_delete_ne by done. apply pid_alter_next.
Qed.

(** C28: killing a task that is neither the first of the run queue nor the last
    takes it out of the queue and frees it; the others, their order and the running task
    stay. *)
Theorem kill_removes fuel p s u l1 x l2 :
  ring (tasks s) (runnable_tasks_ s) (l1 ++ x :: l2) -> l2 <> [] ->
  has_pid (tasks s) p x -> 0 <= p < 4294967296 ->
  Forall (fun y => ~ has_pid (tasks s) p y) (runnable_tasks_ s :: l1) ->
  shows (con s) u -> (S (length l1) < fuel)%nat ->
  exists s', kill fuel p s = Ok s' /\
    ring (tasks s') (runnable_tasks_ s') (l1 ++ l2) /\ tasks s' !! x = None /\
    runnable_tasks_ s' = runnable_tasks_ s /\ running_ s' = running_ s /\
    memory s' = kfree x (memory s) /\
    forall q, q <> x -> pid <$> tasks s' !! q = pid <$> tasks s !! q.
Proof. apply kill_run. Qed.

(** [find_task] never looks at the last task of a longer queue: killing it (or
    its own exit) dereferences the null pointer. *)
Theorem kill_last_faults fuel p s l x :
  ring (tasks s) (runnable_tasks_ s) (l ++ [x]) -> has_pid (tasks s) p x ->
  Forall (fun y => ~ has_pid (tasks s) p y) (runnable_tasks_ s :: l) ->
  tasks s !! 0 = None -> (S (length l) < fuel)%nat ->
  kill fuel p s = Fault.
Proof.
  intros [Hl Hnd _] Hx HF H0 Hf. unfold kill, find_task. set (r := runnable_tasks_ s) in *.
  assert (Hfind := find_loop_ok (tasks s) r p [] (r :: l) x [] fuel). cbn [hd app tail] in Hfind.
  rewrite Hfind by (done || by apply NoDup_cons in Hnd as [? _]).
  rewrite decide_True by naive_solver. cbn [obind]. unfold exit, load. by rewrite H0.
Qed.

(** When the first task of a longer queue exits, [runnable_tasks_] is left
    pointing at the freed structure, which the next [submit] reads. *)
Theorem exit_first_dangles fuel p s u l :
  ring (tasks s) (runnable_tasks_ s) l -> l <> [] -> has_pid (tasks s) p (runnable_tasks_ s) ->
  0 <= p < 4294967296 -> shows (con s) u -> (length l < fuel)%nat ->
  exists s', kill fuel p s = Ok s' /\ tasks s' !! runnable_tasks_ s' = None.
Proof.
  intros [Hl Hnd H0] Hne Hp Hp32 Hu Hf. unfold kill, find_task. set (r := runnable_tasks_ s) in *.
  assert (Hfind := find_loop_ok (tasks s) r p [] [] r l fuel). cbn [hd app tail] in Hfind.
  rewrite Hfind by (done || (simpl; lia) || by apply NoDup_cons in Hnd as [? _]).
  rewrite decide_False by naive_solver. cbn [obind]. unfold exit. fold r.
  destruct (load_pid (tasks s) [] r l r Hl) as (tkr & Htr & Hnr & Hpr). rewrite Htr. cbn [obind].
  apply NoDup_cons in Hnd as [Hrl Hnd]. destruct l as [| y l]; [done |]. cbn [hd] in Hnr.
  rewrite Hnr. rewrite (proj2 (Z.eqb_neq y r)) by (intros ->; apply Hrl, elem_of_cons; by left).
  assert (Hround : links (tasks s) ([] ++ r :: (y :: l) ++ r :: []) y).
  { cbn [app]. change (r :: y :: l ++ [r]) with ((r :: y :: l) ++ [r]). apply links_app.
    split; [done |]. cbn [links hd]. split; [| done]. by destruct Hl. }
  change y with (hd r (y :: l)).
  rewrite (exit_loop_ok (tasks s) y [] r (y :: l) r [] fuel Hround) by done. cbn [obind].
  rewrite Htr. cbn [obind].
  assert (Hlast : exists tkl, load (tasks s) (default r (last (y :: l))) = Ok tkl).
  { destruct (links_in _ _ _ (default r (last (y :: l))) Hl) as [tkl Htl].
    - destruct l as [| z l _] using rev_ind; [right; left |]. change (y :: l ++ [z]) with ((y :: l) ++ [z]).
      rewrite last_snoc. cbn. rewrite !elem_of_cons, elem_of_app, list_elem_of_singleton. tauto.
    - exists tkl. unfold load. by rewrite Htl. }
  destruct Hlast as [tkl ->]. cbn [obind].
  assert (pid tkr = p) as -> by (unfold has_pid in *; congruence).
  destruct (exit_print_ok p (con s) u Hp32 Hu) as (c' & u' & Hc & _).
  cbn [set_tasks con memory tasks runnable_tasks_]. rewrite Hc. cbn [obind].
  eexists. split; [reflexivity |]. cbn. by rewrite lookup_delete_eq.
Qed.
End killing.

(** ** Concrete schedulers *)

Definition test_heap : ImplicitListAllocator.t := ImplicitListAllocator.mk 0x10000 0x20000.
Definition test_mem : mem := snd (ImplicitListAllocator.make 0x10000 0x20000 ∅).

(** The scheduler of the constructor, with [kern_stack] at 0x1000. *)
Definition fresh_scheduler : t := make 0x1000 zero_context test_mem zero_screen zero_context.

Lemma fresh_ring : ring (tasks fresh_scheduler) (runnable_tasks_ fresh_scheduler) [].
Proof.
  split; [vm_compute; done | apply NoDup_singleton | by intros ?%list_elem_of_singleton].
Qed.

Lemma submit_appends_witness :
  exists s tk, submit 0xC0102000 test_heap 5 0xC0101000 fresh_scheduler = Ok (1, s) /\
    ring (tasks s) 0x1000 [0x10004] /\ tasks s !! 0x10004 = Some tk /\
    context tk = mk_context 0x10FF4 0 0 0 0 0x200.
Proof.
  destruct (submit_appends 0xC0102000 test_heap 5 0xC0101000 fresh_scheduler [] 0x10004
    _ fresh_ring ltac:(simpl; lia) eq_refl ltac:(done) eq_refl)
    as (s & tk & Hs & Hr & Hrun & _ & _ & Ht & _ & _ & Hc & _).
  exists s, tk. split; [exact Hs |]. split; [| split; [exact Ht | exact Hc]].
  rewrite Hrun in Hr. exact Hr.
Defined.

(** Three tasks, the first running. *)
Definition three_tasks : t :=
  mk 100 100 0 3
    (<[100 := mk_task kTaskRunnable 0 0 zero_context 200]>
      (<[200 := mk_task kTaskRunnable 1 0 (mk_context 2 0 0 0 0 0) 300]>
        (<[300 := mk_task kTaskRunnable 2 0 (mk_context 3 0 0 0 0 0) 100]> ∅)))
    test_mem zero_screen (mk_context 1 0 0 0 0 0).

Lemma three_ring : ring (tasks three_tasks) (runnable_tasks_ three_tasks) ([] ++ 200 :: [300]).
Proof.
  split; [vm_compute; done | |]; apply (bool_decide_eq_true_1 _); vm_compute; done.
Qed.

Lemma three_runs :
  runs three_tasks 100 [(200, mk_context 2 0 0 0 0 0); (300, mk_context 3 0 0 0 0 0)].
Proof.
  split; cbn; try done.
  - apply (bool_decide_eq_true_1 _). vm_compute. done.
  - apply (bool_decide_eq_true_1 _). vm_compute. done.
  - intros p c. rewrite !elem_of_cons, elem_of_nil. by intros [[= -> ->] | [[= -> ->] | []]].
Qed.

Lemma schedule_fifo_witness :
  exists s, schedule three_tasks = Ok s /\ cpu s = mk_context 2 0 0 0 0 0 /\ running_ s = 200.
Proof.
  destruct (schedule_fifo three_tasks 100 [(200, mk_context 2 0 0 0 0 0); (300, mk_context 3 0 0 0 0 0)]
    three_runs) as (s & Hs & Hc & Hr).
  exists s. split; [exact Hs |]. split; [exact Hc | exact (runs_task _ _ _ Hr)].
Defined.

(** Each thread overwrites the registers while it runs. *)
Lemma round_robin_witness :
  exists s, run [fun _ => mk_context 11 7 0 0 0 0; fun _ => mk_context 12 8 0 0 0 0;
                 fun _ => mk_context 13 9 0 0 0 0] three_tasks = Ok s /\
    running_ s = 100 /\ cpu s = mk_context 11 7 0 0 0 0.
Proof.
  apply (round_robin three_tasks 100 [(200, mk_context 2 0 0 0 0 0); (300, mk_context 3 0 0 0 0 0)]
    (fun _ => mk_context 11 7 0 0 0 0)); [exact three_runs | reflexivity].
Defined.

Lemma kill_removes_witness :
  exists s, kill 5 1 three_tasks = Ok s /\ ring (tasks s) (runnable_tasks_ s) [300] /\
    tasks s !! 200 = None.
Proof.
  destruct (kill_removes 5 1 three_tasks zero_term [] 200 [300] three_ring)
    as (s & Hs & Hr & Hn & _); [done | done | lia | | exact zero_shows | simpl; lia |].
  - repeat constructor. by vm_compute.
  - exists s. split; [exact Hs |]. split; [exact Hr | exact Hn].
Defined.
