(* ===== verification/Threads.v ===== *)
(** * The life of a kernel thread

    From [kthread] to its last instruction: the frame that [submit] builds at the top of the new
    stack is what the processor finds there when [switch_to] returns, when the thread's function
    returns and when [kthread_exit] returns. *)

From stdpp Require Import prelude gmap strings.
From Stdlib Require Import ZArith Lia.
From S2P Require Import Prelude CString Heap Console Printk Scheduler.
Import TaskScheduler.

Module returning.

(** [ret]: the word on the stack is the next address to execute. *)
Definition ret (s : t) : Z * t :=
  let c := cpu s in
  (load32 (memory s) (esp c),
   set_cpu (mk_context (u32 (esp c + 4)) (ebp c) (ebx c) (esi c) (edi c) (eflags c)) s).

(** The task at an address as the running one. *)
Definition set_running (x : Z) (s : t) : t :=
  mk (runnable_tasks_ s) x (waiting_tasks_ s) (pid_cnt_ s) (tasks s) (memory s) (con s) (cpu s).

End returning.
Import returning.

Section life.
Context (kthread_exit : Z) (allocator : ImplicitListAllocator.t).
Implicit Types (s : t) (p fn npid : Z).

(** The registers that a new thread starts with: interrupts are enabled. *)
Definition start_context p : task_context := mk_context (p + STACK_SIZE - 16) 0 0 0 0 0x200.

(** The words of a new stack above the stack pointer. *)
Record frame_at (m : mem) p npid : Prop := {
  fr_exit : load32 m (p + STACK_SIZE - 12) = kthread_exit;
  fr_null : load32 m (p + STACK_SIZE - 8) = 0;
  fr_pid : load32 m (p + STACK_SIZE - 4) = npid
}.

Lemma push_frame_words p npid fn m :
  0 <= npid < 4294967296 -> 0 <= fn < 4294967296 -> 0 <= kthread_exit < 4294967296 ->
  let m' := push_frame kthread_exit p npid fn m in
  load32 m' (p + STACK_SIZE - 16) = fn /\ frame_at m' p npid.
Proof.
  intros ???. unfold push_frame.
  split; [| split]; repeat first [rewrite load32_store32_eq by lia | rewrite load32_store32_ne by lia]; done.
Qed.

(** The waiting tasks after a [submit]: the new one comes where the rotation of the queue
    ends, before the first task of the queue. *)
Lemma submit_runs fuel fn s x q1 q2 p m :
  runs s x (q2 ++ q1) -> ring (tasks s) (runnable_tasks_ s) (tail (q1.*1 ++ x :: q2.*1)) ->
  runnable_tasks_ s = hd x q1.*1 ->
  (length (q1 ++ q2) < fuel)%nat ->
  kmalloc fuel allocator STACK_SIZE (memory s) = Ok (p, m) -> p <> 0 -> tasks s !! p = None ->
  exists s', submit kthread_exit allocator fuel fn s = Ok (pid_cnt_ s, s') /\
    runs s' x (q2 ++ (p, start_context p) :: q1) /\ cpu s' = cpu s /\
    memory s' = push_frame kthread_exit p (pid_cnt_ s) fn m.
Proof.
  intros Hruns Hr Hhd Hf Hk Hp Hfresh.
  destruct (submit_run kthread_exit allocator fuel fn s _ p m Hr) as
    (s' & tk & Hs & Hring & Hrun & Hrunning & _ & Ht & _ & _ & Hc & Hm & Hcpu & Hq); try done.
  { destruct q1; cbn in *; rewrite ?length_app, ?length_fmap in *; cbn in *; rewrite ?length_fmap; lia. }
  exists s'. split; [done |]. split; [| done]. rewrite Hrun in Hring.
  assert (E : runnable_tasks_ s :: tail (q1.*1 ++ x :: q2.*1) ++ [p] = q1.*1 ++ x :: q2.*1 ++ [p]).
  { rewrite Hhd. by destruct q1; cbn; rewrite <- ?app_assoc. }
  pose proof (ring_nodup _ _ _ Hring) as Hnd. pose proof (ring_null _ _ _ Hring) as H0.
  rewrite E in Hnd, H0.
  assert (Hperm : x :: (q2 ++ (p, start_context p) :: q1).*1 ≡ₚ q1.*1 ++ x :: q2.*1 ++ [p]).
  { rewrite fmap_app. cbn. solve_Permutation. }
  split.
  - rewrite Hrunning. apply Hruns.
  - by rewrite Hperm.
  - by rewrite Hperm.
  - rewrite fmap_app, fmap_cons. cbn [fst].
    replace (q2.*1 ++ p :: q1.*1) with ((q2.*1 ++ [p]) ++ q1.*1) by (by rewrite <- app_assoc).
    by eapply tasks_rotate.
  - intros y c Hy. destruct (decide (y = p)) as [-> | Hne].
    + assert ((p, c) ∈ q2 ++ q1 \/ c = start_context p) as [Hin | ->].
      { rewrite elem_of_app, elem_of_cons in *. naive_solver. }
      * apply (runs_context _ _ _ Hruns) in Hin. by rewrite Hfresh in Hin.
      * by rewrite Ht; cbn; rewrite Hc.
    + rewrite (next_only_context _ (tasks s !! y)) by (by apply Hq).
      apply (runs_context _ _ _ Hruns). rewrite elem_of_app, elem_of_cons in *. naive_solver.
Qed.

Lemma run_memory fs s s' : run fs s = Ok s' -> memory s' = memory s.
Proof.
  revert s. induction fs as [| f fs IH]; intros s; cbn [run]; [by intros [= <-] |].
  destruct (schedule _) as [s1 | | |] eqn:E; cbn [obind]; [| done..].
  intros Hr. destruct (schedule_frame _ _ E) as [_ Hm]. by rewrite (IH _ Hr), Hm.
Qed.

(** C27: [kthread] puts the new thread where its turn comes after the tasks that wait between
    the running one and the first of the queue.  When its turn has come, [switch_to] returns into
    [fn], with interrupts enabled.  When [fn] returns, having kept the frame, the processor
    enters [kthread_exit] with the thread's pid as its argument, and with 0 as its return
    address. *)
Theorem thread_life fuel fn s x q1 q2 p m fs :
  runs s x (q2 ++ q1) -> ring (tasks s) (runnable_tasks_ s) (tail (q1.*1 ++ x :: q2.*1)) ->
  runnable_tasks_ s = hd x q1.*1 -> (length (q1 ++ q2) < fuel)%nat ->
  kmalloc fuel allocator STACK_SIZE (memory s) = Ok (p, m) -> tasks s !! p = None ->
  0 < p -> p + STACK_SIZE < 4294967296 -> 0 <= pid_cnt_ s < 4294967296 ->
  0 <= fn < 4294967296 -> 0 <= kthread_exit < 4294967296 ->
  length fs = S (length q2) ->
  exists s1 s2, kthread kthread_exit allocator fuel fn s = Ok (pid_cnt_ s, s1) /\
    run fs s1 = Ok s2 /\ running_ s2 = p /\ eflags (cpu s2) = 0x200 /\
    fst (ret s2) = fn /\ esp (cpu (snd (ret s2))) = p + STACK_SIZE - 12 /\
    frame_at (memory s2) p (pid_cnt_ s) /\
    forall s3, esp (cpu s3) = p + STACK_SIZE - 12 -> frame_at (memory s3) p (pid_cnt_ s) ->
      fst (ret s3) = kthread_exit /\
      load32 (memory s3) (esp (cpu (snd (ret s3)))) = 0 /\
      load32 (memory s3) (esp (cpu (snd (ret s3))) + 4) = pid_cnt_ s.
Proof.
  intros Hruns Hr Hhd Hf Hk Hfresh Hp Hp32 Hpid Hfn Hexit Hlen.
  destruct (submit_runs fuel fn s x q1 q2 p m) as (s1 & Hs & Hruns1 & _ & Hm); try done; [lia |].
  destruct (run_until fs s1 x q2 p _ q1 Hruns1 Hlen) as (s2 & Hrun & Hp2 & Hc2).
  exists s1, s2. split; [done |]. split; [done |]. split; [done |].
  destruct (push_frame_words p (pid_cnt_ s) fn m Hpid Hfn Hexit) as [Hw Hfr].
  rewrite <- Hm, <- (run_memory _ _ _ Hrun) in Hw, Hfr. unfold ret. cbn. rewrite Hc2. cbn.
  unfold STACK_SIZE in *. rewrite u32_small by lia. split_and!; try done; [lia |].
  intros s3 He []. rewrite He, u32_small by lia.
  split; [done |]. split; [by replace (p + 4096 - 12 + 4) with (p + 4096 - 8) by lia |].
  by replace (p + 4096 - 12 + 4 + 4) with (p + 4096 - 4) by lia.
Qed.

(** A thread in the middle of the queue that ends itself: [kthread_exit] returns, to address
    0 by [thread_life], and [running_] still points to the freed task, which the next tick reads. *)
Theorem exit_own_dangles fuel npid s u l1 x l2 :
  ring (tasks s) (runnable_tasks_ s) (l1 ++ x :: l2) -> l2 <> [] -> running_ s = x ->
  has_pid (tasks s) npid x -> 0 <= npid < 4294967296 ->
  Forall (fun y => ~ has_pid (tasks s) npid y) (runnable_tasks_ s :: l1) ->
  shows (con s) u -> (S (length l1) < fuel)%nat ->
  exists s', kthread_exit_ fuel npid s = Ok s' /\ running_ s' = x /\ kthread_schedule s' = Fault.
Proof.
  intros Hr Hl2 Hx Hpid Hn HF Hu Hf.
  destruct (kill_run fuel npid s u l1 x l2 Hr Hl2 Hpid Hn HF Hu Hf)
    as (s' & Hk & _ & Hgone & _ & Hrun & _).
  exists s'. split; [done |]. rewrite Hrun, Hx. split; [done |].
  unfold kthread_schedule, schedule, load. rewrite Hrun, Hx, Hgone.
  rewrite (proj2 (Z.eqb_neq x 0)); [done |]. intros ->. apply (ring_null _ _ _ Hr).
  rewrite elem_of_cons, elem_of_app, elem_of_cons. tauto.
Qed.

End life.

(** ** A thread on the scheduler of the constructor *)

(** Memory when the stack has been allocated. *)
Definition test_stack : mem :=
  match kmalloc 5 test_heap STACK_SIZE test_mem with Ok (_, m) => m | _ => test_mem end.

Lemma thread_life_witness :
  exists s1 s2, kthread 0xC0102000 test_heap 5 0xC0101000 fresh_scheduler = Ok (1, s1) /\
   run [fun c => c] s1 = Ok s2 /\ running_ s2 = 0x10004 /\ fst (ret s2) = 0xC0101000.
Proof.
  destruct (thread_life 0xC0102000 test_heap 5 0xC0101000 fresh_scheduler 0x1000 [] [] 0x10004
    test_stack [fun c => c]) as (s1 & s2 & Hs & Hr & Hp & _ & Hf & _); try exact eq_refl; try done.
  - split; cbn; try done; [by intros ?%list_elem_of_singleton | apply NoDup_singleton |].
    by intros p c ?%elem_of_nil.
  - exact fresh_ring.
  - simpl. lia.
  - exists s1, s2. split; [exact Hs |]. split; [exact Hr |]. split; [exact Hp | exact Hf].
Defined.

Lemma exit_own_dangles_witness :
  exists s, kthread_exit_ 5 1 (set_running 200 three_tasks) = Ok s /\ kthread_schedule s = Fault.
Proof.
  destruct (exit_own_dangles 5 1 (set_running 200 three_tasks) zero_term [] 200 [300] three_ring)
    as (s & Hs & _ & Hf); [done | done | done | lia | | exact zero_shows | simpl; lia |].
  - repeat constructor. by vm_compute.
  - exists s. split; [exact Hs | exact Hf].
Defined.
