(* ===== verification/Preempt.v ===== *)
(** * [submit] under the timer interrupt

    [TaskScheduler::submit] and the [alloc] it calls run with interrupts enabled.  Here they
    are machines that make one access to the shared data at a time ([submitting]), the timer may call
    [schedule] between any two ([drive]), and the other threads run meanwhile.  A [submit] so interrupted
    is one that puts its task in the queue at once, at one of its steps: [submit_preempted].  Two threads in it at
    the same time lose a task or share a stack: [submits_race], [allocs_race]. *)

From stdpp Require Import prelude gmap strings.
From Stdlib Require Import ZArith Lia.
From S2P Require Import Prelude CString Heap Console Printk Scheduler Threads.
Import ImplicitListAllocator TaskScheduler.

Module submitting.

(** Threads with their registers. *)
Abbreviation threads := (list (Z * task_context)).

Section submitting.
Context (kthread_exit : Z) (allocator : ImplicitListAllocator.t).

(** [alloc]: between the test of a block and the stores to its headers, the pointer and the
    sizes are in registers. *)
Inductive alloc_at :=
| Scan (cur : Z)
| Take (cur block_size : Z)
| Remain (cur remain_size : Z)
| Got (pos : Z).

Definition alloc_step (size : Z) (a : alloc_at) (m : mem) : alloc_at * mem :=
  match a with
  | Scan cur =>
      if cur =? mend_ allocator then (Got 0, m)
      else
        let block_size := size_of_block m cur in
        if (size <=? block_size) && negb (is_allocated m cur) then (Take cur block_size, m)
        else (Scan (next_block m cur), m)
  | Take cur block_size =>
      let remain_size := u32 (block_size - 4 - size) in
      if 0 <? remain_size then (Remain cur remain_size, record cur size kAllocated m)
      else (Got (u32 (cur + 4)), record cur block_size kAllocated m)
  | Remain cur remain_size =>
      (Got (u32 (cur + 4)), record (slice_block cur size) remain_size kFree m)
  | Got pos => (Got pos, m)
  end.

(** [submit], from the call of [kmalloc] to its return. *)
Inductive submit_at :=
| Alloc (a : alloc_at) (fn : Z)
| Zero (new_task fn : Z)
| SetState (new_task fn : Z)
| SetKstack (new_task fn : Z)
| SetPid (new_task fn : Z)
| PushPid (new_task fn : Z)
| PushNull (new_task fn : Z)
| PushExit (new_task fn : Z)
| PushFn (new_task fn : Z)
| SetEsp (new_task : Z)
| SetEflags (new_task : Z)
| SetNext (new_task : Z)
| Walk (new_task cur : Z)
| Link (new_task cur : Z)
| Return (new_task : Z)
| Returned (p : Z).

Definition call_submit (fn : Z) : submit_at := Alloc (Scan (mstart_ allocator)) fn.

Definition set_mem (m : mem) (s : t) : t :=
  mk (runnable_tasks_ s) (running_ s) (waiting_tasks_ s) (pid_cnt_ s) (tasks s) m (con s) (cpu s).

(** A store to the task structure at [p]. *)
Definition put (f : task_struct -> task_struct) (p : Z) (s : t) : outcome t :=
  let! _ := load (tasks s) p in Ok (set_tasks (alter f p (tasks s)) s).

Definition with_esp (v : Z) (tk : task_struct) : task_struct :=
  let c := context tk in with_context (mk_context v (ebp c) (ebx c) (esi c) (edi c) (eflags c)) tk.

Definition with_eflags (v : Z) (tk : task_struct) : task_struct :=
  let c := context tk in with_context (mk_context (esp c) (ebp c) (ebx c) (esi c) (edi c) v) tk.

Definition submit_step (pc : submit_at) (s : t) : outcome (submit_at * t) :=
  match pc with
  | Alloc a fn =>
      match alloc_step (round_up STACK_SIZE) a (memory s) with
      | (Got p, m) => kassert (negb (p =? 0)) "Scheduler submit error" (Ok (Zero p fn, set_mem m s))
      | (a, m) => Ok (Alloc a fn, set_mem m s)
      end
  | Zero p fn =>
      Ok (SetState p fn, set_tasks (<[p := mk_task kTaskUninit 0 0 zero_context 0]> (tasks s)) s)
  | SetState p fn =>
      let! s := put (fun tk => mk_task kTaskRunnable (pid tk) (kstack tk) (context tk) (next tk)) p s in
      Ok (SetKstack p fn, s)
  | SetKstack p fn =>
      let! s := put (fun tk => mk_task (state tk) (pid tk) (running_ s) (context tk) (next tk)) p s in
      Ok (SetPid p fn, s)
  | SetPid p fn =>
      let n := pid_cnt_ s in
      let! s := put (fun tk => mk_task (state tk) n (kstack tk) (context tk) (next tk)) p s in
      Ok (PushPid p fn, mk (runnable_tasks_ s) (running_ s) (waiting_tasks_ s) (u32 (n + 1)) (tasks s)
                          (memory s) (con s) (cpu s))
  | PushPid p fn =>
      let! tk := load (tasks s) p in
      Ok (PushNull p fn, set_mem (store32 (p + STACK_SIZE - 4) (pid tk) (memory s)) s)
  | PushNull p fn => Ok (PushExit p fn, set_mem (store32 (p + STACK_SIZE - 8) 0 (memory s)) s)
  | PushExit p fn => Ok (PushFn p fn, set_mem (store32 (p + STACK_SIZE - 12) kthread_exit (memory s)) s)
  | PushFn p fn => Ok (SetEsp p, set_mem (store32 (p + STACK_SIZE - 16) fn (memory s)) s)
  | SetEsp p => let! s := put (with_esp (p + STACK_SIZE - 16)) p s in Ok (SetEflags p, s)
  | SetEflags p => let! s := put (with_eflags 0x200) p s in Ok (SetNext p, s)
  | SetNext p =>
      let! s := put (with_next (runnable_tasks_ s)) p s in Ok (Walk p (runnable_tasks_ s), s)
  | Walk p cur =>
      let! tk := load (tasks s) cur in
      if next tk =? runnable_tasks_ s then Ok (Link p cur, s) else Ok (Walk p (next tk), s)
  | Link p cur => let! s := put (with_next p) cur s in Ok (Return p, s)
  | Return p => let! tk := load (tasks s) p in Ok (Returned (pid tk), s)
  | Returned p => Ok (Returned p, s)
  end.

(** The running thread makes a step, of [submit] if it is in it, and its registers change; or
    the timer interrupts it. *)
Inductive event := Run (f : task_context -> task_context) | Tick.

(** [pcs]: where the threads that are in [submit] are. *)
Fixpoint drive (evs : list event) (pcs : gmap Z submit_at) (s : t) : outcome (gmap Z submit_at * t) :=
  match evs with
  | [] => Ok (pcs, s)
  | Tick :: evs' => let! s := schedule s in drive evs' pcs s
  | Run f :: evs' =>
      let s := set_cpu (f (cpu s)) s in
      match pcs !! running_ s with
      | None => drive evs' pcs s
      | Some pc =>
          let! '(pc, s) := submit_step pc s in drive evs' (<[running_ s := pc]> pcs) s
      end
  end.

(** ** The specification: threads in the order of their turns, the first one running *)

(** A new thread gets its turn before the first of the queue. *)
Fixpoint insert_before (r : Z) (e : Z * task_context) (q : threads) : threads :=
  match q with
  | [] => [e]
  | y :: q' => if y.1 =? r then e :: y :: q' else y :: insert_before r e q'
  end.

Definition enter (r : Z) (e : Z * task_context) (th : threads) : threads :=
  match th with [] => [] | x :: q => x :: insert_before r e q end.

(** [k] steps of [sub] are left to its return; the step before the last one adds the thread. *)
Definition spec_step (sub r : Z) (e : Z * task_context) (ev : event) (st : nat * threads) : nat * threads :=
  match ev, st with
  | _, (k, []) => (k, [])
  | Tick, (k, x :: q) => (k, q ++ [x])
  | Run f, (k, (x, c) :: q) =>
      let th := (x, f c) :: q in
      if x =? sub then (pred k, if (k =? 2)%nat then enter r e th else th) else (k, th)
  end.

Definition spec_run (sub r : Z) (e : Z * task_context) (evs : list event) (st : nat * threads) :
    nat * threads :=
  foldl (fun st ev => spec_step sub r e ev st) st evs.

End submitting.
End submitting.
Import submitting.

Section preempted.
Context (kthread_exit : Z) (allocator : ImplicitListAllocator.t).
Implicit Types (s : t) (th q : threads) (r p sub : Z) (l : list Z) (pc : submit_at) (evs : list event).

Abbreviation astep := (alloc_step allocator (round_up STACK_SIZE)).
Abbreviation sstep := (submit_step kthread_exit allocator).

(** ** The threads of a state *)

(** The queue is [r :: l], and [th] is that queue from the running thread on, with the
    registers of each. *)
Record threaded s r l th : Prop := {
  td_ring : ring (tasks s) r l;
  td_first : runnable_tasks_ s = r;
  td_turns : exists l1 l2, r :: l = l1 ++ l2 /\ th.*1 = l2 ++ l1;
  td_running : head th = Some (running_ s, cpu s);
  td_contexts : forall x c, (x, c) ∈ tail th -> context <$> tasks s !! x = Some c
}.

Lemma threaded_in s r l th x : threaded s r l th -> x ∈ th.*1 <-> x ∈ r :: l.
Proof. intros [_ _ (l1 & l2 & -> & ->) _ _]. rewrite !elem_of_app. tauto. Qed.

Lemma threaded_running s r l th : threaded s r l th -> running_ s ∈ r :: l.
Proof.
  intros H. apply (threaded_in _ _ _ _ _ H). destruct th as [| y q]; [by destruct H |].
  pose proof (td_running _ _ _ _ H) as [= ->]. by left.
Qed.

(** What the threads depend on. *)
Lemma threaded_frame s s' r l th :
  threaded s r l th -> (forall x, x ∈ r :: l -> tasks s' !! x = tasks s !! x) ->
  runnable_tasks_ s' = runnable_tasks_ s -> running_ s' = running_ s -> cpu s' = cpu s ->
  threaded s' r l th.
Proof.
  intros H Ht Hr Hx Hc. pose proof H as [[Hl Hnd H0] Hf Hrot Hrun Hctx]. split; try congruence.
  - split; try done. eapply links_ext; [| exact Hl]. intros z Hz. by rewrite Ht.
  - intros x c Hin. rewrite Ht; [by apply Hctx |]. apply (threaded_in _ _ _ _ _ H).
    destruct th as [| y q]; [by apply elem_of_nil in Hin |]. right. apply list_elem_of_fmap. by exists (x, c).
Qed.

Lemma threaded_cpu s r l x c d q :
  threaded s r l ((x, c) :: q) -> threaded (set_cpu d s) r l ((x, d) :: q).
Proof. intros [??? [= -> _] ?]. by split. Qed.

(** A tick keeps all but the contexts of the queue, and gives the next thread its turn. *)
Lemma schedule_tasks s s' :
  schedule s = Ok s' ->
  pid_cnt_ s' = pid_cnt_ s /\ runnable_tasks_ s' = runnable_tasks_ s /\
  (tasks s' = tasks s \/ tasks s' = alter (with_context (cpu s)) (running_ s) (tasks s)).
Proof.
  unfold schedule, change_task_to, switch_to. case_match; [intros [= <-]; by split_and!; [.. | left] |].
  destruct (load (tasks s) (running_ s)) as [tk | | |] eqn:E; cbn [obind]; [| done..].
  case_match; [intros [= <-]; by split_and!; [.. | left] |].
  cbn [tasks cpu]. rewrite E. cbn [obind].
  destruct (load _ (next tk)) as [tk' | | |]; cbn [obind]; [| done..]. intros [= <-]. by split_and!; [.. | right].
Qed.

(** What a tick never changes in a task. *)
Definition identity (tk : task_struct) : TaskState * Z * Z := (state tk, pid tk, kstack tk).

Lemma identity_alter f p z (ts : gmap Z task_struct) :
  (forall tk, identity (f tk) = identity tk) -> identity <$> alter f p ts !! z = identity <$> ts !! z.
Proof.
  intros Hf. destruct (decide (p = z)) as [-> | Hne]; [rewrite lookup_alter_eq | by rewrite lookup_alter_ne].
  destruct (ts !! z); cbn; [by rewrite Hf | done].
Qed.

(** The running thread somewhere in the queue. *)
Lemma threaded_split s r l x c q :
  threaded s r l ((x, c) :: q) -> exists l1 l2, r :: l = l1 ++ x :: l2 /\ q.*1 = l2 ++ l1.
Proof.
  intros [_ _ (l1 & [| y l2] & E & Hq) _ _]; cbn in Hq.
  - rewrite app_nil_r in E. subst l1. exists [], q.*1. by rewrite app_nil_r.
  - injection Hq as -> ->. by exists l1, l2.
Qed.

Lemma threaded_runs s r l x c q : threaded s r l ((x, c) :: q) -> runs s x q /\ cpu s = c.
Proof.
  intros H. destruct (threaded_split _ _ _ _ _ _ H) as (l1 & l2 & E & Hq).
  pose proof H as [Hr _ _ [= -> ->] Hctx]. split; [| done].
  assert (Hp : running_ s :: q.*1 ≡ₚ r :: l) by (rewrite E, Hq; solve_Permutation).
  split; [done | rewrite Hp; apply Hr | rewrite Hp; apply Hr | | done].
  rewrite Hq. by eapply tasks_rotate.
Qed.

Lemma threaded_tick s r l x c q :
  threaded s r l ((x, c) :: q) ->
  exists s', schedule s = Ok s' /\ threaded s' r l (q ++ [(x, c)]) /\
    memory s' = memory s /\ pid_cnt_ s' = pid_cnt_ s /\
    (forall z, z ∉ r :: l -> tasks s' !! z = tasks s !! z) /\
    forall z, identity <$> tasks s' !! z = identity <$> tasks s !! z.
Proof.
  intros H. destruct (threaded_runs _ _ _ _ _ _ H) as [Hruns <-].
  pose proof (schedule_step _ _ _ Hruns) as Hs. destruct q as [| [y d] q]; [by exists s |].
  destruct Hs as (s' & Hs & <- & Hruns'). exists s'. split; [done |].
  destruct (schedule_frame _ _ Hs) as [_ Hm]. destruct (schedule_tasks _ _ Hs) as (Hn & Hf & Hts).
  destruct (threaded_split _ _ _ _ _ _ H) as (l1 & l2 & E & Hq).
  pose proof (threaded_running _ _ _ _ H) as Hrun.
  split; [| split; [done |]; split; [done |]; split].
  - pose proof H as [[Hl Hnd H0] Hf0 _ [= Hx] _]. split.
    + split; try done. eapply links_ext; [| exact Hl]. intros z _.
      destruct Hts as [-> | ->]; [done | apply next_alter_context].
    + congruence.
    + exists (l1 ++ [x]), l2. rewrite <- app_assoc. split; [done |]. rewrite fmap_app, Hq. by rewrite <- app_assoc.
    + cbn. destruct Hruns' as [<- _ _ _ _]. done.
    + cbn. apply Hruns'.
  - intros z Hz. destruct Hts as [-> | ->]; [done |]. apply lookup_alter_ne. by intros <-.
  - intros z. destruct Hts as [-> | ->]; [done |]. by apply identity_alter.
Qed.

(** ** The machine of [alloc] *)

Definition returns (a : alloc_at) : bool := match a with Got _ => true | _ => false end.

(** The machine returns at the step after the next [n]. *)
Fixpoint allocs (n : nat) (a : alloc_at) (m : mem) (p : Z) (m' : mem) : Prop :=
  match n with
  | O => astep a m = (Got p, m')
  | S n' => returns (astep a m).1 = false /\ allocs n' (astep a m).1 (astep a m).2 p m'
  end.

(** [alloc] is its machine, in as many steps as blocks looked at and two for the headers. *)
Lemma alloc_machine fuel cur m p m' :
  alloc_loop fuel allocator cur (round_up STACK_SIZE) m = Ok (p, m') ->
  exists n, (n <= fuel + 2)%nat /\ allocs n (Scan cur) m p m'.
Proof.
  revert cur. induction fuel as [| fuel IH]; intros cur; [done |]. cbn [alloc_loop].
  destruct (cur =? mend_ allocator) eqn:E.
  { intros [= <- <-]. exists 0%nat. split; [lia |]. cbn [allocs alloc_step]. by rewrite E. }
  destruct (_ && _) eqn:E2.
  - unfold take_block. intros [= <- <-].
    destruct (0 <? u32 (size_of_block m cur - 4 - round_up STACK_SIZE)) eqn:E3;
      [exists 2%nat | exists 1%nat]; (split; [lia |]); cbn [allocs alloc_step]; rewrite E, E2;
      cbn [fst snd returns alloc_step]; by rewrite E3.
  - intros (n & Hn & Ha)%IH. exists (S n). split; [lia |]. cbn [allocs alloc_step]. by rewrite E, E2.
Qed.

(** ** Turns of the specification *)

Section turns.
Context (sub r : Z) (e : Z * task_context).
Abbreviation srun := (spec_run sub r e).

Lemma length_insert_before q : length (insert_before r e q) = S (length q).
Proof. induction q as [| y q IH]; [done |]. cbn. case_match; cbn; [done | by rewrite IH]. Qed.

Lemma spec_run_app es1 es2 st : srun (es1 ++ es2) st = srun es2 (srun es1 st).
Proof. apply foldl_app. Qed.

(** The steps of one thread in its turn. *)
Lemma run_turn fs k x c q :
  exists c' q', srun (map Run fs) (k, (x, c) :: q) = (if x =? sub then (k - length fs)%nat else k, (x, c') :: q') /\
    (q' = q \/ x = sub /\ (2 <= k)%nat /\ (k - length fs < 2)%nat /\ q' = insert_before r e q).
Proof.
  revert k c q. induction fs as [| f fs IH]; intros k c q; cbn [map length].
  - exists c, q. rewrite Nat.sub_0_r. split; [by destruct (x =? sub) | by left].
  - unfold spec_run. cbn [foldl spec_step]. destruct (x =? sub) eqn:E.
    + apply Z.eqb_eq in E. destruct (k =? 2)%nat eqn:E2.
      * apply Nat.eqb_eq in E2 as ->. destruct (IH 1%nat (f c) (insert_before r e q)) as (c' & q' & Hr & Hq).
        exists c', q'. split; [exact Hr |].
        destruct Hq as [-> | (_ & Hk & _)]; [right; split_and!; (done || lia) | lia].
      * apply Nat.eqb_neq in E2. destruct (IH (pred k) (f c) q) as (c' & q' & Hr & Hq).
        exists c', q'. split; [etransitivity; [exact Hr | f_equal; lia] |].
        destruct Hq as [-> | (? & ? & ? & ->)]; [by left | right; split_and!; (done || lia)].
    + destruct (IH k (f c) q) as (c' & q' & Hr & Hq). exists c', q'.
      split; [exact Hr |]. destruct Hq as [-> | (-> & _)]; [by left | by rewrite Z.eqb_refl in E].
Qed.

Lemma spec_run_returned es th : (srun es (0%nat, th)).1 = 0%nat.
Proof.
  revert th. induction es as [| ev es IH]; intros th; [done |]. unfold spec_run in *. cbn [foldl].
  destruct ev, th as [| [x c] q]; cbn [spec_step]; try apply IH. case_match; apply IH.
Qed.

(** Every thread has its turns, of at least one step: the submitter makes its [k] steps. *)
Definition slices (ts : list (list (task_context -> task_context))) : list event :=
  concat (map (fun fs => map Run fs ++ [Tick]) ts).

Lemma turns_suffice ts n k th i c :
  Forall (fun fs => fs <> []) ts -> th !! i = Some (sub, c) ->
  (length th + (if 2 <=? k then 1 else 0) <= n)%nat -> (k * n + i <= length ts)%nat ->
  (srun (slices ts) (k, th)).1 = 0%nat.
Proof.
  intros HF. revert k th i c. induction HF as [| fs ts Hfs HF IH]; intros k th i c Hi Hn Hlen.
  - apply lookup_lt_Some in Hi. cbn in *. nia.
  - unfold slices in *. cbn [map concat]. rewrite !spec_run_app. destruct th as [| [x d] q]; [done |].
    destruct (run_turn fs k x d q) as (d' & q' & -> & Hq). cbn [spec_run foldl spec_step].
    destruct fs as [| f fs]; [done |]. cbn [length] in *.
    assert (Hlq : (length q' <= length q \/ 2 <= k /\ k - S (length fs) < 2 /\ length q' = S (length q))%nat).
    { destruct Hq as [-> | (_ & ? & ? & ->)]; [by left |]. right. rewrite length_insert_before. lia. }
    destruct (x =? sub) eqn:E.
    + apply Z.eqb_eq in E as ->.
      destruct (decide (k = 0%nat)) as [-> | Hk]; [apply spec_run_returned |].
      assert ((2 <= k -> S (length q) + 1 <= n) /\ S (length q) <= n)%nat as [Hn2 Hn1].
      { destruct (Nat.leb_spec 2 k); lia. }
      assert ((k - S (length fs)) * n + n <= k * n)%nat by nia.
      assert (Hl : (length (q' ++ [(sub, d')]) + (if 2 <=? k - S (length fs) then 1 else 0) <= n)%nat).
      { rewrite length_app. cbn [length]. destruct (Nat.leb_spec 2 (k - S (length fs))); lia. }
      apply (IH _ _ (length q') d'); [by rewrite lookup_app_r, Nat.sub_diag | exact Hl |].
      rewrite length_app in Hl. cbn [length] in Hl. lia.
    + destruct Hq as [-> | (-> & _)]; [| by rewrite Z.eqb_refl in E].
      destruct i as [| i]; [cbn in Hi; injection Hi as -> _; by rewrite Z.eqb_refl in E |].
      cbn in Hi. apply (IH _ _ i c); [by apply lookup_app_l_Some | rewrite length_app; cbn [length]; lia | lia].
Qed.
End turns.

(** ** One thread in [submit] *)

Ltac unpack :=
  repeat match goal with
  | H : _ /\ _ |- _ => destruct H
  | H : exists _, _ |- _ => destruct H
  | H : False |- _ => destruct H
  end.

Section one.
Context (sub fn p r npid : Z) (l : list Z) (m : mem) (ids : Z -> option (TaskState * Z * Z)).

Definition pushed (n : nat) : mem :=
  foldl (fun m '(off, w) => store32 (p + STACK_SIZE - off) w m) m
    (take n [(4, npid); (8, 0); (12, kthread_exit); (16, fn)]).

Definition start_esp : task_context := mk_context (p + STACK_SIZE - 16) 0 0 0 0 0.

(** The new task, memory and the counter when [k] steps are left. *)
Definition has s (k left : nat) (tk : task_struct) (m' : mem) (n : Z) : Prop :=
  k = left /\ tasks s !! p = Some tk /\ memory s = m' /\ pid_cnt_ s = n.

(** Before the new task is linked. *)
Definition unlinked s (k : nat) (pc : submit_at) : Prop :=
  let len := length l in
  match pc with
  | Alloc a fn' =>
      fn' = fn /\ pid_cnt_ s = npid /\
      exists n, allocs n a (memory s) p m /\ k = (S n + len + 14)%nat
  | Zero p' fn' => p' = p /\ fn' = fn /\ memory s = m /\ pid_cnt_ s = npid /\ k = (len + 14)%nat
  | SetState p' fn' =>
      p' = p /\ fn' = fn /\ has s k (len + 13) (mk_task kTaskUninit 0 0 zero_context 0) m npid
  | SetKstack p' fn' =>
      p' = p /\ fn' = fn /\ has s k (len + 12) (mk_task kTaskRunnable 0 0 zero_context 0) m npid
  | SetPid p' fn' =>
      p' = p /\ fn' = fn /\ has s k (len + 11) (mk_task kTaskRunnable 0 sub zero_context 0) m npid
  | PushPid p' fn' => p' = p /\ fn' = fn /\
      has s k (len + 10) (mk_task kTaskRunnable npid sub zero_context 0) m (u32 (npid + 1))
  | PushNull p' fn' => p' = p /\ fn' = fn /\
      has s k (len + 9) (mk_task kTaskRunnable npid sub zero_context 0) (pushed 1) (u32 (npid + 1))
  | PushExit p' fn' => p' = p /\ fn' = fn /\
      has s k (len + 8) (mk_task kTaskRunnable npid sub zero_context 0) (pushed 2) (u32 (npid + 1))
  | PushFn p' fn' => p' = p /\ fn' = fn /\
      has s k (len + 7) (mk_task kTaskRunnable npid sub zero_context 0) (pushed 3) (u32 (npid + 1))
  | SetEsp p' => p' = p /\
      has s k (len + 6) (mk_task kTaskRunnable npid sub zero_context 0) (pushed 4) (u32 (npid + 1))
  | SetEflags p' => p' = p /\
      has s k (len + 5) (mk_task kTaskRunnable npid sub start_esp 0) (pushed 4) (u32 (npid + 1))
  | SetNext p' => p' = p /\
      has s k (len + 4) (mk_task kTaskRunnable npid sub (start_context p) 0) (pushed 4) (u32 (npid + 1))
  | Walk p' cur => p' = p /\ exists la lb, r :: l = la ++ cur :: lb /\
      has s k (length lb + 3) (mk_task kTaskRunnable npid sub (start_context p) r) (pushed 4) (u32 (npid + 1))
  | Link p' cur => p' = p /\ (exists la, r :: l = la ++ [cur]) /\
      has s k 2 (mk_task kTaskRunnable npid sub (start_context p) r) (pushed 4) (u32 (npid + 1))
  | Return _ | Returned _ => False
  end.

(** After it is linked, when it may have run. *)
Definition linked s (k : nat) (pc : submit_at) : Prop :=
  identity <$> tasks s !! p = Some (kTaskRunnable, npid, sub) /\ memory s = pushed 4 /\
  pid_cnt_ s = u32 (npid + 1) /\
  match pc with Return p' => p' = p /\ k = 1%nat | Returned n => n = npid /\ k = 0%nat | _ => False end.

Record before s (k : nat) pc th : Prop := {
  bf_threads : threaded s r l th;
  bf_phase : unlinked s k pc;
  bf_others : forall z, z <> p -> identity <$> tasks s !! z = ids z
}.

Record after s (k : nat) pc th : Prop := {
  af_threads : threaded s r (l ++ [p]) th;
  af_phase : linked s k pc;
  af_others : forall z, z <> p -> identity <$> tasks s !! z = ids z
}.

Hypothesis Hp : p <> 0.
Hypothesis Hout : p ∉ r :: l.

Lemma unlinked_left s k pc : unlinked s k pc -> (2 <= k)%nat.
Proof. destruct pc; cbn; unfold has; intros; unpack; lia. Qed.

Lemma linked_left s k pc : linked s k pc -> (k <= 1)%nat.
Proof. intros (_ & _ & _ & H). destruct pc; unpack; lia. Qed.

(** What the phases depend on. *)
Lemma unlinked_kept s s' k pc :
  unlinked s k pc -> tasks s' !! p = tasks s !! p -> memory s' = memory s -> pid_cnt_ s' = pid_cnt_ s ->
  unlinked s' k pc.
Proof. intros H Ht Hm Hn. unfold unlinked, has in *. by rewrite Ht, Hm, Hn. Qed.

Lemma linked_kept s s' k pc :
  linked s k pc -> identity <$> tasks s' !! p = identity <$> tasks s !! p -> memory s' = memory s ->
  pid_cnt_ s' = pid_cnt_ s -> linked s' k pc.
Proof. intros H Ht Hm Hn. unfold linked in *. by rewrite Ht, Hm, Hn. Qed.

Lemma put_ok f s tk :
  tasks s !! p = Some tk -> put f p s = Ok (set_tasks (alter f p (tasks s)) s) /\
    alter f p (tasks s) !! p = Some (f tk).
Proof. intros Ht. unfold put, load. rewrite Ht. split; [done |]. by rewrite lookup_alter_eq, Ht. Qed.

(** A step that touches nothing but the new task. *)
Definition private s s' : Prop :=
  runnable_tasks_ s' = runnable_tasks_ s /\ running_ s' = running_ s /\ cpu s' = cpu s /\
  forall z, z <> p -> tasks s' !! z = tasks s !! z.

Lemma private_put f s : private s (set_tasks (alter f p (tasks s)) s).
Proof. split_and!; try done. intros z Hz. by apply lookup_alter_ne. Qed.

Lemma step_alloc a s k :
  unlinked s k (Alloc a fn) ->
  exists pc' s', sstep (Alloc a fn) s = Ok (pc', s') /\ unlinked s' (pred k) pc' /\ private s s'.
Proof.
  intros (_ & Hn & n & Ha & ->). cbn [submit_step]. destruct n as [| n]; cbn [allocs] in Ha.
  - rewrite Ha, (proj2 (Z.eqb_neq p 0)) by done. cbn [negb kassert].
    eexists _, _. split; [reflexivity |]. split; [| by split_and!]. by split_and!.
  - destruct (astep a (memory s)) as [a' m']. cbn [fst snd] in Ha. destruct Ha as [Hr Ha].
    destruct a'; try done; eexists _, _; (split; [reflexivity |]); (split; [| by split_and!]);
      split_and!; try done; exists n; (split; [done | lia]).
Qed.

(** The walk along the queue. *)
Lemma step_walk s k cur :
  ring (tasks s) r l -> runnable_tasks_ s = r -> unlinked s k (Walk p cur) ->
  exists pc', sstep (Walk p cur) s = Ok (pc', s) /\ unlinked s (pred k) pc'.
Proof.
  intros [Hl Hnd _] Hfirst (_ & la & lb & E & -> & Ht & Hm & Hn). cbn [submit_step]. rewrite E in Hl.
  destruct (load_next _ _ _ (links_next _ _ _ _ _ Hl)) as (tk & -> & Hnext). cbn [obind].
  rewrite Hfirst, Hnext. destruct lb as [| y lb]; cbn [hd length].
  - rewrite Z.eqb_refl. exists (Link p cur). split; [done |]. split; [done |]. split; [by exists la | by split_and!].
  - rewrite (proj2 (Z.eqb_neq y r)).
    + exists (Walk p y). split; [done |]. split; [done |]. exists (la ++ [cur]), lb.
      rewrite <- app_assoc. split; [done |]. by split_and!.
    + intros ->. apply NoDup_cons in Hnd as [Hr _]. apply Hr.
      destruct la; injection E as -> ->; set_solver.
Qed.

(** Every step before the store to the last task's [next] is private, and takes one off the count. *)
Lemma step_unlinked s k pc :
  ring (tasks s) r l -> runnable_tasks_ s = r -> running_ s = sub ->
  unlinked s k pc -> k <> 2%nat ->
  exists pc' s', sstep pc s = Ok (pc', s') /\ unlinked s' (pred k) pc' /\ private s s'.
Proof.
  intros Hr Hfirst Hrun H Hk. destruct pc as [a fn' | | | | | | | | | | | | p' cur | | |].
  { pose proof H as [-> _]. by apply step_alloc. }
  12: { pose proof H as [-> _]. destruct (step_walk s k cur Hr Hfirst H) as (pc' & Hs & H').
        exists pc', s. by split_and!. }
  all: cbn in H; unfold has in H; unpack; subst; try done; cbn [submit_step].
  all: try match goal with H : tasks ?s !! ?p = Some ?tk |- context [put ?f ?p ?s] =>
         let Hput := fresh "Hput" in destruct (put_ok f s tk H) as [-> Hput] end.
  all: unfold load; try match goal with H : tasks _ !! _ = Some _ |- _ => rewrite H end; cbn [obind or_fault].
  all: eexists _, _; (split; [reflexivity |]); (split; [| first [apply private_put | split_and!; try done]]).
  all: try (intros z Hz; cbn; first [by apply lookup_alter_ne | by apply lookup_insert_ne]).
  all: cbn [unlinked]; unfold has; cbn [set_tasks set_mem tasks memory pid_cnt_ Z.eqb].
  all: split_and!; try done; try lia; try (by rewrite lookup_insert_eq); try (by rewrite Hput; cbn; congruence).
  all: try match goal with H : memory ?s = _ |- store32 _ _ (memory ?s) = _ => by rewrite H end; try congruence.
  exists [], l. split; [cbn; by rewrite Hfirst |].
  split_and!; try done; [lia | rewrite Hput; cbn; by rewrite Hfirst].
Qed.

(** The new thread among the others. *)
Lemma insert_before_out e q : r ∉ q.*1 -> insert_before r e q = q ++ [e].
Proof.
  induction q as [| y q IH]; [done |]. cbn. intros [Hy Hq]%not_elem_of_cons.
  rewrite (proj2 (Z.eqb_neq _ _)) by done. by rewrite IH.
Qed.

Lemma insert_before_at e q c q' : r ∉ q.*1 -> insert_before r e (q ++ (r, c) :: q') = q ++ e :: (r, c) :: q'.
Proof.
  induction q as [| y q IH]; cbn; [by rewrite Z.eqb_refl |]. intros [Hy Hq]%not_elem_of_cons.
  rewrite (proj2 (Z.eqb_neq _ _)) by done. by rewrite IH.
Qed.

Lemma enter_turns e x q l1 l2 :
  NoDup (r :: l) -> r :: l = l1 ++ x.1 :: l2 -> q.*1 = l2 ++ l1 ->
  (enter r e (x :: q)).*1 = (x.1 :: l2 ++ [e.1]) ++ l1 /\
  forall y, y ∈ insert_before r e q -> y = e \/ y ∈ q.
Proof.
  intros Hnd E Hq. cbn. destruct l1 as [| r' l1].
  - rewrite app_nil_r in *. injection E as <- ->. rewrite insert_before_out.
    + rewrite fmap_app, Hq. split; [done |]. set_solver.
    + rewrite Hq. by apply NoDup_cons in Hnd as [? _].
  - injection E as <- ->. apply fmap_app_inv in Hq as (q1 & q2 & Hq1 & Hq2 & ->).
    destruct q2 as [| [r' c] q2]; [done |]. injection Hq2 as <- Hl1.
    rewrite insert_before_at.
    + rewrite fmap_app. cbn. rewrite <- Hq1, Hl1, <- app_assoc. split; [done |]. set_solver.
    + rewrite <- Hq1. apply NoDup_cons in Hnd as [Hr _]. set_solver.
Qed.

(** The last task of the queue takes the new one as its next. *)
Lemma ring_link ts la cur :
  ring ts r l -> r :: l = la ++ [cur] -> next <$> ts !! p = Some r ->
  ring (alter (with_next p) cur ts) r (l ++ [p]).
Proof.
  intros [Hl Hnd H0] E Hn.
  assert (Hc : cur <> p) by (intros ->; apply Hout; rewrite E; set_solver).
  assert (E2 : r :: l ++ [p] = la ++ [cur; p]) by (rewrite app_comm_cons, E, <- app_assoc; done).
  split; [| rewrite app_comm_cons..].
  - rewrite E2. rewrite E in Hl, Hnd. by apply links_snoc.
  - apply NoDup_app. split_and!; [done | set_solver | apply NoDup_singleton].
  - set_solver.
Qed.

(** The store that links the new task puts it at the end of the queue. *)
Lemma step_link s pc th :
  threaded s r l th -> running_ s = sub -> unlinked s 2 pc ->
  exists s', sstep pc s = Ok (Return p, s') /\ running_ s' = running_ s /\ linked s' 1 (Return p) /\
    threaded s' r (l ++ [p]) (enter r (p, start_context p) th) /\
    forall z, identity <$> tasks s' !! z = identity <$> tasks s !! z.
Proof.
  intros H Hrun Hu. destruct pc as [| | | | | | | | | | | | | p' cur | |];
    cbn in Hu; unfold has in Hu; unpack; try lia; subst p'.
  match goal with E : r :: l = ?la ++ [cur] |- _ => rename la into la0, E into Hla end.
  match goal with E : tasks s !! p = Some _ |- _ => rename E into Hpt end.
  pose proof (td_ring _ _ _ _ H) as Hring.
  assert (Hc : is_Some (tasks s !! cur)).
  { apply (links_in _ _ _ _ (ring_links _ _ _ Hring)).
    rewrite Hla, elem_of_app, list_elem_of_singleton. by right. }
  destruct Hc as [tkc Hc]. cbn [submit_step]. unfold put, load. rewrite Hc. cbn [or_fault obind].
  assert (Hid : forall z, identity <$> alter (with_next p) cur (tasks s) !! z = identity <$> tasks s !! z)
    by (intros z; by apply identity_alter).
  eexists. split; [reflexivity |]. split; [done |]. split; [| split; [| exact Hid]].
  - unfold linked. cbn [set_tasks tasks memory pid_cnt_]. rewrite Hid, Hpt. by split_and!.
  - destruct th as [| [x c] q]; [by destruct H |].
    destruct (threaded_split _ _ _ _ _ _ H) as (l1 & l2 & E & Hq).
    destruct (enter_turns (p, start_context p) (x, c) q l1 l2) as [Hth Hins]; [apply Hring | done | done |].
    pose proof H as [_ Hf _ Hhd Hctx]. split; cbn [set_tasks tasks runnable_tasks_ running_ cpu]; try done.
    + apply (ring_link _ la0); [done | done |]. by rewrite Hpt.
    + exists l1, (x :: l2 ++ [p]). split; [| by rewrite Hth].
      rewrite app_comm_cons, E, <- !app_assoc. done.
    + intros y d Hy. rewrite (next_only_context _ (tasks s !! y)) by apply next_only_alter.
      destruct (Hins _ Hy) as [[= -> ->] | Hin]; [by rewrite Hpt | by apply Hctx].
Qed.

(** ** Any sequence of events *)

(** The state and the place of the submitter when [fst st] of its steps are left. *)
Definition reached (st : nat * threads) pc s : Prop := before s st.1 pc st.2 \/ after s st.1 pc st.2.

Lemma reached_tick st pc s :
  reached st pc s -> exists s', schedule s = Ok s' /\
    reached (spec_step sub r (p, start_context p) Tick st) pc s'.
Proof.
  destruct st as [k th]. assert (Hnil : forall l, threaded s r l th -> exists x c q, th = (x, c) :: q).
  { intros l' Hth. destruct th as [| [x c] q]; [by destruct Hth | by eauto]. }
  intros [[Hth Hph Hot] | [Hth Hph Hot]]; cbn [fst snd] in *;
    destruct (Hnil _ Hth) as (x & c & q & ->);
    destruct (threaded_tick _ _ _ _ _ _ Hth) as (s' & Hs & Hth' & Hm & Hn & Hsame & Hid);
    exists s'; (split; [done |]); cbn [spec_step].
  - left. split; [done | | by intros; rewrite Hid; apply Hot].
    by eapply unlinked_kept; [exact Hph | apply Hsame | ..].
  - right. split; [done | | by intros; rewrite Hid; apply Hot]. by eapply linked_kept.
Qed.

Lemma reached_other st pc s f :
  reached st pc s -> running_ s <> sub ->
  reached (spec_step sub r (p, start_context p) (Run f) st) pc (set_cpu (f (cpu s)) s).
Proof.
  destruct st as [k th]. intros [[Hth Hph Hot] | [Hth Hph Hot]] Hne; cbn [fst snd] in *;
    (destruct th as [| [x c] q]; [by destruct Hth |]); pose proof (td_running _ _ _ _ Hth) as [= -> ->];
    cbn [spec_step]; rewrite (proj2 (Z.eqb_neq _ _)) by done; [left | right];
    (split; [by eapply threaded_cpu | exact Hph | exact Hot]).
Qed.

Lemma step_linked s k pc :
  linked s k pc -> exists pc', sstep pc s = Ok (pc', s) /\ linked s (pred k) pc'.
Proof.
  intros (Ht & Hm & Hn & Hpc). destruct pc as [| | | | | | | | | | | | | | p' | n]; try done; destruct Hpc as [-> ->].
  - cbn [submit_step]. unfold load. destruct (tasks s !! p) as [tk |] eqn:E; [| done].
    cbn [or_fault obind]. exists (Returned (pid tk)). split; [done |].
    unfold linked. rewrite E. split; [done |]. by injection Ht.
  - exists (Returned npid). split; [done |]. by split_and!.
Qed.

Lemma reached_own st pc s f :
  reached st pc s -> running_ s = sub ->
  exists pc' s', sstep pc (set_cpu (f (cpu s)) s) = Ok (pc', s') /\ running_ s' = sub /\
    reached (spec_step sub r (p, start_context p) (Run f) st) pc' s'.
Proof.
  destruct st as [k th]. intros [[Hth Hph Hot] | [Hth Hph Hot]] Hrun; cbn [fst snd] in *;
    (destruct th as [| [x c] q]; [by destruct Hth |]); pose proof (td_running _ _ _ _ Hth) as [= -> ->];
    cbn [spec_step]; rewrite Hrun, Z.eqb_refl; apply (threaded_cpu _ _ _ _ _ (f (cpu s))) in Hth;
    rewrite Hrun in Hth; set (s1 := set_cpu _ s) in *.
  - change (unlinked s1 k pc) in Hph. destruct (k =? 2)%nat eqn:Ek.
    + apply Nat.eqb_eq in Ek as ->.
      destruct (step_link s1 pc _ Hth Hrun Hph) as (s' & Hs & Hrun' & Hl' & Hth' & Hid).
      exists (Return p), s'. split; [done |]. split; [by rewrite Hrun' |]. right. split; [done | done |].
      intros z Hz. rewrite Hid. by apply Hot.
    + apply Nat.eqb_neq in Ek. pose proof (td_first _ _ _ _ Hth) as Hf. pose proof (td_ring _ _ _ _ Hth) as Hr.
      destruct (step_unlinked s1 k pc Hr Hf Hrun Hph Ek) as (pc' & s' & Hs & Hu & Hf' & Hr' & Hc' & Ht').
      exists pc', s'. split; [done |]. split; [by rewrite Hr' |]. left. split; [| done |].
      * eapply threaded_frame; [exact Hth | | congruence | done | done].
        intros z Hz. apply Ht'. by intros ->.
      * intros z Hz. cbn [fst snd]. rewrite Ht' by done. by apply Hot.
  - change (linked s1 k pc) in Hph. pose proof (linked_left _ _ _ Hph).
    destruct (step_linked s1 k pc Hph) as (pc' & Hs & Hl). exists pc', s1.
    split; [done |]. split; [done |]. right. rewrite (proj2 (Nat.eqb_neq k 2)) by lia. by split.
Qed.

Lemma drive_reached evs st pc s :
  reached st pc s ->
  exists pc' s', drive kthread_exit allocator evs {[sub := pc]} s = Ok ({[sub := pc']}, s') /\
    reached (spec_run sub r (p, start_context p) evs st) pc' s'.
Proof.
  revert st pc s. induction evs as [| ev evs IH]; intros st pc s H; [by exists pc, s |].
  unfold spec_run. cbn [drive foldl]. destruct ev as [f |].
  - cbn zeta. change (running_ (set_cpu (f (cpu s)) s)) with (running_ s).
    destruct (decide (running_ s = sub)) as [Hrun | Hne].
    + rewrite Hrun, lookup_singleton_eq.
      destruct (reached_own st pc s f H Hrun) as (pc' & s' & -> & Hrun' & H'). cbn [obind].
      rewrite Hrun', insert_singleton_eq. by apply IH.
    + rewrite lookup_singleton_ne by done. apply IH. by apply reached_other.
  - destruct (reached_tick st pc s H) as (s' & -> & H'). cbn [obind]. by apply IH.
Qed.
End one.

(** ** Without interruption the machine is [submit] *)

Definition alone pc s (n : Z) s' : Prop :=
  exists j, drive kthread_exit allocator (replicate j (Run id)) {[running_ s := pc]} s =
    Ok ({[running_ s := Returned n]}, s').

Lemma alone_step pc s pc1 s1 n s' :
  sstep pc s = Ok (pc1, s1) -> running_ s1 = running_ s -> alone pc1 s1 n s' -> alone pc s n s'.
Proof.
  intros Hs Hr [j Hj]. exists (S j). cbn [replicate drive]. cbn zeta.
  change (running_ (set_cpu (id (cpu s)) s)) with (running_ s). rewrite lookup_singleton_eq.
  replace (set_cpu (id (cpu s)) s) with s by (by destruct s). rewrite Hs. cbn [obind].
  by rewrite Hr, insert_singleton_eq, <- Hr.
Qed.

Lemma alone_alloc fn k a s p m n s' :
  allocs k a (memory s) p m -> p <> 0 -> alone (Zero p fn) (set_mem m s) n s' -> alone (Alloc a fn) s n s'.
Proof.
  intros Ha Hp H. revert a s Ha H. induction k as [| k IH]; intros a s Ha H; cbn [allocs] in Ha.
  - eapply alone_step; [| | exact H]; [| done]. cbn [submit_step]. rewrite Ha.
    by rewrite (proj2 (Z.eqb_neq p 0)).
  - destruct (astep a (memory s)) as [a1 m1] eqn:E. cbn [fst snd] in Ha. destruct Ha as [Hr Ha].
    apply (alone_step _ s (Alloc a1 fn) (set_mem m1 s)); [| done | by apply IH].
    cbn [submit_step]. rewrite E. by destruct a1.
Qed.

Lemma alone_walk p s fuel cur last n s' :
  last_loop fuel (tasks s) (runnable_tasks_ s) cur = Ok last ->
  alone (Link p last) s n s' -> alone (Walk p cur) s n s'.
Proof.
  intros Hl H. revert cur Hl. induction fuel as [| fuel IH]; intros cur; cbn [last_loop]; [done |].
  destruct (load (tasks s) cur) as [tk | | |] eqn:E; cbn [obind]; [| done..].
  destruct (next tk =? runnable_tasks_ s) eqn:E2.
  - intros [= ->]. apply (alone_step _ _ (Link p last) s); [| done..]. cbn [submit_step].
    rewrite E. cbn [obind]. by rewrite E2.
  - intros Hl. apply (alone_step _ _ (Walk p (next tk)) s); [| done | by apply IH]. cbn [submit_step].
    rewrite E. cbn [obind]. by rewrite E2.
Qed.

Lemma alone_put pc f g p s tk ts pc1 n s' :
  sstep pc s = (let! s := put f p s in Ok (pc1, g s)) -> (forall s, running_ (g s) = running_ s) ->
  tasks s = <[p := tk]> ts ->
  alone pc1 (g (set_tasks (<[p := f tk]> ts) s)) n s' -> alone pc s n s'.
Proof.
  intros Hs Hg Ht H. apply (alone_step _ _ pc1 (g (set_tasks (<[p := f tk]> ts) s))); [| by rewrite Hg | done].
  rewrite Hs. unfold put, load. rewrite Ht, lookup_insert_eq. cbn [or_fault obind]. by rewrite alter_insert_eq.
Qed.

Lemma last_loop_load fuel ts head cur z : last_loop fuel ts head cur = Ok z -> is_Some (ts !! z).
Proof.
  revert cur. induction fuel as [| fuel IH]; intros cur; cbn [last_loop]; [done |]. unfold load.
  destruct (ts !! cur) as [tk |] eqn:E; cbn [or_fault obind]; [| done].
  case_match; [intros [= <-]; by rewrite E | apply IH].
Qed.

(** A thread that is not interrupted in it runs [submit]. *)
Lemma submit_alone fuel fn s n s' :
  submit kthread_exit allocator fuel fn s = Ok (n, s') -> alone (call_submit allocator fn) s n s'.
Proof.
  destruct s as [r x w c0 ts m0 co cp]. unfold submit.
  cbn [memory tasks running_ runnable_tasks_ pid_cnt_ waiting_tasks_ con cpu].
  destruct (kmalloc fuel allocator STACK_SIZE m0) as [[p m] | | |] eqn:Ek; cbn [obind]; [| done..].
  destruct (p =? 0) eqn:Ep; cbn [negb kassert]; [done |]. apply Z.eqb_neq in Ep.
  remember (push_frame kthread_exit p c0 fn m) as mf eqn:Emf.
  destruct (last_loop _ _ _ _) as [cur | | |] eqn:El; cbn [obind]; [| done..]. intros [= <- <-].
  destruct (alloc_machine _ _ _ _ _ Ek) as (k & _ & Ha).
  eapply alone_alloc; [exact Ha | done |].
  eapply alone_step; [reflexivity | done |]. cbv [set_tasks set_mem]; cbn.
  do 2 (eapply (alone_put _ _ id); [reflexivity | done | done |]; cbv [set_tasks id]; cbn).
  eapply (alone_put _ _ (fun s => mk (runnable_tasks_ s) (running_ s) (waiting_tasks_ s) (u32 (c0 + 1)) (tasks s)
                          (memory s) (con s) (cpu s))); [reflexivity | done | done |]; cbv [set_tasks]; cbn.
  eapply alone_step; [cbn; unfold load; rewrite lookup_insert_eq; reflexivity | done |].
  do 3 (eapply alone_step; [reflexivity | done |]).
  cbn [set_mem runnable_tasks_ running_ waiting_tasks_ pid_cnt_ tasks memory con cpu].
  change (store32 (p + STACK_SIZE - 16) fn _) with (push_frame kthread_exit p c0 fn m). rewrite <- Emf.
  do 2 (eapply (alone_put _ _ id); [reflexivity | done | done |]; cbv [set_tasks id]; cbn).
  eapply alone_step; [unfold submit_step, put, load; cbn; rewrite lookup_insert_eq; reflexivity | done |].
  cbv [set_tasks]; cbn. rewrite alter_insert_eq. unfold with_next at 1; cbn.
  eapply alone_walk; [exact El |].
  destruct (last_loop_load _ _ _ _ _ El) as [tkc Hc].
  eapply alone_step; [unfold submit_step, put, load; cbn [tasks]; rewrite Hc; reflexivity | done |].
  cbv [set_tasks]; cbn [tasks runnable_tasks_ running_ waiting_tasks_ pid_cnt_ memory con cpu].
  eapply alone_step; [unfold submit_step, load; cbn [tasks] | |].
  - match goal with |- context [alter ?f cur ?ts0 !! p] => pose proof (pid_alter_next ts0 p cur p) as Hpid end.
    rewrite lookup_insert_eq in Hpid. destruct (alter _ _ _ !! p) as [tk |]; [| done].
    cbn in Hpid |- *. injection Hpid as ->. reflexivity.
  - done.
  - by exists 0%nat.
Qed.

(** ** A preempted [submit] *)

Lemma start_before fuel fn s r l sub c q p m :
  threaded s r l ((sub, c) :: q) -> kmalloc fuel allocator STACK_SIZE (memory s) = Ok (p, m) ->
  exists k, (k <= fuel + length q + 17)%nat /\
    before sub fn p r (pid_cnt_ s) l m (fun z => identity <$> tasks s !! z) s k (call_submit allocator fn)
      ((sub, c) :: q).
Proof.
  intros H Hk. destruct (alloc_machine _ _ _ _ _ Hk) as (n & Hn & Ha).
  exists (S n + length l + 14)%nat. split.
  - destruct (threaded_split _ _ _ _ _ _ H) as (l1 & l2 & E & Hq).
    apply (f_equal length) in E, Hq. rewrite length_app in E, Hq. rewrite length_fmap in Hq. cbn in E. lia.
  - split; [done | | done]. split_and!; try done. by exists n.
Qed.

(** C13: [submit] may be interrupted by the timer after any of its accesses, any number of times, and the other
    threads run in between.  It does the same as if it put its task in the queue at once, at the step
    before its last: the threads are those of the specification after the same events, the new
    one ready to start [fn] and last in the queue.  It never fails, and when each turn of a
    thread has at least one step it returns the new pid after as many turns as the bound says. *)
Theorem submit_preempted fuel fn s r l sub c q p m :
  threaded s r l ((sub, c) :: q) ->
  kmalloc fuel allocator STACK_SIZE (memory s) = Ok (p, m) -> p <> 0 -> p ∉ r :: l ->
  exists k, (k <= fuel + length q + 17)%nat /\
    (forall evs, let st := spec_run sub r (p, start_context p) evs (k, (sub, c) :: q) in
       exists pc s', drive kthread_exit allocator evs {[sub := call_submit allocator fn]} s = Ok ({[sub := pc]}, s') /\
         threaded s' r (if (2 <=? st.1)%nat then l else l ++ [p]) st.2 /\
         (forall z, z <> p -> identity <$> tasks s' !! z = identity <$> tasks s !! z) /\
         ((st.1 < 2)%nat -> identity <$> tasks s' !! p = Some (kTaskRunnable, pid_cnt_ s, sub) /\
            memory s' = push_frame kthread_exit p (pid_cnt_ s) fn m) /\
         (st.1 = 0%nat -> pc = Returned (pid_cnt_ s))) /\
    forall ts, Forall (fun fs => fs <> []) ts -> (k * (length q + 2) <= length ts)%nat ->
      (spec_run sub r (p, start_context p) (slices ts) (k, (sub, c) :: q)).1 = 0%nat.
Proof.
  intros H Hk Hp Hout. destruct (start_before fuel fn s r l sub c q p m H Hk) as (k & Hkb & Hb).
  exists k. split; [done |]. split.
  - intros evs st. destruct (drive_reached sub fn p r (pid_cnt_ s) l m _ Hp Hout evs (k, (sub, c) :: q)
      (call_submit allocator fn) s (or_introl Hb)) as (pc & s' & Hd & Hr).
    exists pc, s'. split; [done |]. fold st in Hr. destruct Hr as [[Hth Hph Hot] | [Hth Hph Hot]].
    + pose proof (unlinked_left _ _ _ _ _ _ _ _ _ _ Hph). destruct (Nat.leb_spec 2 st.1); [| lia].
      split_and!; try done; lia.
    + pose proof (linked_left _ _ _ _ _ _ _ _ Hph). destruct (Nat.leb_spec 2 st.1); [lia |].
      destruct Hph as (Ht & Hm & _ & Hpc). split_and!; try done.
      intros E. destruct pc; try done; [lia | by destruct Hpc as [-> _]].
  - intros ts HF Hl. eapply (turns_suffice _ _ _ ts (length q + 2) k _ 0 c); [done | done | | lia].
    cbn [length]. destruct (2 <=? k)%nat; lia.
Qed.
End preempted.

(** ** Three threads, the first in [submit] *)

Lemma three_threaded :
  threaded three_tasks 100 [200; 300]
    [(100, mk_context 1 0 0 0 0 0); (200, mk_context 2 0 0 0 0 0); (300, mk_context 3 0 0 0 0 0)].
Proof.
  split; try done; [exact three_ring | by exists [], [100; 200; 300] |].
  intros x c. cbn [tail]. rewrite !elem_of_cons, elem_of_nil. by intros [[= -> ->] | [[= -> ->] | []]].
Qed.

Lemma submit_preempted_witness :
  exists evs s, drive 0xC0102000 test_heap evs {[100 := call_submit test_heap 0xC0101000]} three_tasks =
      Ok ({[100 := Returned 3]}, s) /\
    identity <$> tasks s !! 0x10004 = Some (kTaskRunnable, 3, 100) /\
    ring (tasks s) 100 [200; 300; 0x10004].
Proof.
  destruct (submit_preempted 0xC0102000 test_heap 5 0xC0101000 three_tasks 100 [200; 300] 100
    (mk_context 1 0 0 0 0 0) _ 0x10004 test_stack three_threaded eq_refl ltac:(done)
    ltac:(apply (bool_decide_eq_true_1 _); by vm_compute)) as (k & Hk & Hall & Hturns).
  specialize (Hturns (replicate (24 * 4) [id]) ltac:(by apply Forall_replicate)
    ltac:(rewrite length_replicate; cbn in *; lia)).
  destruct (Hall (slices (replicate (24 * 4) [id]))) as (pc & s & Hd & Hth & _ & Hp & Hret).
  rewrite Hturns in Hth, Hp, Hret. rewrite (Hret eq_refl) in Hd.
  exists (slices (replicate (24 * 4) [id])), s. split; [exact Hd |].
  split; [exact (proj1 (Hp ltac:(lia))) | exact (td_ring _ _ _ _ Hth)].
Defined.

(** ** Two threads in [submit] at the same time *)

Definition both_submit : gmap Z submit_at :=
  {[ 100 := call_submit test_heap 0xC0101000; 200 := call_submit test_heap 0xC0102000 ]}.

(** [n] steps of the running thread. *)
Definition steps (n : nat) : list event := replicate n (Run id).

(** The first thread is interrupted before its store to the last task, and the second puts
    its own new task there: both get their pid, and the second one's task is in no queue. *)
Lemma submits_race :
  exists s, drive 0xC0103000 test_heap (steps 17 ++ [Tick] ++ steps 21 ++ [Tick; Tick; Tick] ++ steps 2)
      both_submit three_tasks = Ok ({[ 100 := Returned 3; 200 := Returned 4 ]}, s) /\
    ring (tasks s) 100 [200; 300; 0x10004] /\ identity <$> tasks s !! 0x11008 = Some (kTaskRunnable, 4, 200).
Proof.
  eexists. split; [vm_compute; reflexivity |]. split; [| vm_compute; reflexivity].
  split; [by vm_compute | |]; apply (bool_decide_eq_true_1 _); by vm_compute.
Qed.

(** The first thread is interrupted in [alloc] between the test of a block and the store to its
    header, and the second is given the same block: one task structure and one stack for both. *)
Lemma allocs_race :
  exists s, drive 0xC0103000 test_heap (steps 1 ++ [Tick] ++ steps 3 ++ [Tick; Tick] ++ steps 2)
      both_submit three_tasks =
    Ok ({[ 100 := Zero 0x10004 0xC0101000; 200 := Zero 0x10004 0xC0102000 ]}, s).
Proof. eexists. vm_compute. reflexivity. Qed.
