(* ===== verification/Ide.v ===== *)
(** * The IDE driver ([lib/ide.cc], [include/ide.h], [include/block_dev.h])

    The driver against a device that is reached only through ports.  [Device] is
    the port interface; [AtaDisk] states what the ATA standard promises of a disk behind
    it, and the theorems hold of every such device.  A buffer is the list of its bytes:
    an access past its end is [Fault]. *)

From stdpp Require Import prelude gmap strings.
From Stdlib Require Import ZArith Lia.
From S2P Require Import Prelude.

(** The port instructions of [lib/common.cc]: [dev_ins] and [dev_outs] are the
    string forms, on the bytes of 32-bit words; [dev_hlt] is [cpu_hlt]. *)
Class Device (D : Type) := {
  dev_inb : Z -> D -> Z * D;
  dev_outb : Z -> Z -> D -> D;
  dev_ins : Z -> nat -> D -> list Z * D;
  dev_outs : Z -> list Z -> D -> D;
  dev_hlt : D -> D
}.

(** ** Buffers *)

Definition put_bytes (off : nat) (bs buf : list Z) : option (list Z) :=
  if decide (off + length bs <= length buf)%nat
  then Some (take off buf ++ bs ++ drop (off + length bs) buf) else None.

Definition get_bytes (off n : nat) (buf : list Z) : option (list Z) :=
  if decide (off + n <= length buf)%nat then Some (take n (drop off buf)) else None.

(** A [uint32_t] among bytes. *)
Definition get32 (off : nat) (buf : list Z) : outcome Z :=
  let! bs := or_fault (get_bytes off 4 buf) in Ok (le_decode bs).

Module ide.

Definition SECTSIZE : Z := 512.
Definition STAT_BSY : Z := 0x80.
Definition STAT_DF : Z := 0x20.
Definition STAT_ERR : Z := 0x01.
Definition IDE_CMD_READ : Z := 0x20.
Definition IDE_CMD_WRITE : Z := 0x30.
Definition IDE_CMD_IDENTIFY : Z := 0xEC.
Definition IOBASE : Z := 0x1F0.
Definition IOCTRL : Z := 0x3F4.
Definition ISA_DATA : Z := 0.
Definition ISA_CTRL : Z := 2.
Definition ISA_SDH : Z := 6.
Definition ISA_STATUS : Z := 7.
Definition ISA_LBA_LOW : Z := 3.
Definition ISA_LBA_MID : Z := 4.
Definition ISA_LBA_HIGH : Z := 5.
Definition ISA_LBA_TOP : Z := 6.
Definition ISA_SECCNT : Z := 2.
Definition ISA_COMMAND : Z := 7.
Definition MAX_DISK_NSECS : Z := 0x10000000.
Definition kMaxSectors : Z := 128.
Definition IDE_IDENT_MODEL : nat := 54.
Definition IDE_IDENT_CMDSETS : nat := 164.
Definition IDE_IDENT_MAX_LBA : nat := 120.
Definition IDE_IDENT_MAX_LBA_EXT : nat := 200.
Definition IDE_DESC_LEN : nat := 40.

(** [struct ide_device]. *)
Record ide_device := mk_device { valid : Z; sets : Z; size : Z; desc : list Z }.

(** In static storage. *)
Definition zero_device : ide_device := mk_device 0 0 0 (replicate (S IDE_DESC_LEN) 0).

Section ide.
Context {D : Type} `{Device D}.

(** The loop polls until the device is not busy. *)
Fixpoint ide_wait_ready (fuel : nat) (iobase : Z) (check_error : bool) (d : D) : outcome (Z * D) :=
  match fuel with
  | O => NoFuel
  | S f =>
      let '(r, d) := dev_inb (u16 (iobase + ISA_STATUS)) d in
      if negb (Z.land r STAT_BSY =? 0) then ide_wait_ready f iobase check_error (dev_hlt d)
      else if check_error && negb (Z.land r (Z.lor STAT_DF STAT_ERR) =? 0) then Ok (-1, d)
      else Ok (0, d)
  end.

Definition ide_get_desc (dev : ide_device) : list Z := desc dev.

(** [desc[i] = data[i + 1]; desc[i + 1] = data[i];] for [n] pairs from [i]. *)
Fixpoint copy_desc (n : nat) (i : nat) (data dst : list Z) : outcome (list Z) :=
  match n with
  | O => Ok dst
  | S n' =>
      let! b := or_fault (data !! (i + 1)%nat) in
      let! dst := or_fault (lset dst (Z.of_nat i) b) in
      let! a := or_fault (data !! i) in
      let! dst := or_fault (lset dst (Z.of_nat (i + 1)) a) in
      copy_desc n' (i + 2) data dst
  end.

(** [do { desc[i] = 0; } while (i-- > 0 && desc[i] == ' ');] *)
Fixpoint trim_desc (i : nat) (dst : list Z) : outcome (list Z) :=
  let! dst := or_fault (lset dst (Z.of_nat i) 0) in
  match i with
  | O => Ok dst
  | S i' =>
      let! c := or_fault (dst !! i') in
      if c =? 32 then trim_desc i' dst else Ok dst
  end.

Definition ide_init (fuel : nat) (dev : ide_device) (d : D) : outcome (Z * ide_device * D) :=
  let! '(_, d) := ide_wait_ready fuel IOBASE false d in
  let d := dev_outb (IOBASE + ISA_SDH) 0xE0 d in
  let! '(_, d) := ide_wait_ready fuel IOBASE false d in
  let d := dev_outb (IOBASE + ISA_COMMAND) IDE_CMD_IDENTIFY d in
  let! '(_, d) := ide_wait_ready fuel IOBASE false d in
  let '(status, d) := dev_inb (IOBASE + ISA_STATUS) d in
  let! '(absent, d) :=
    (if status =? 0 then Ok (true, d)
     else let! '(r, d) := ide_wait_ready fuel IOBASE true d in Ok (negb (r =? 0), d)) in
  if (absent : bool) then Ok (-1, dev, d)
  else
    let '(ident, d) := dev_ins (IOBASE + ISA_DATA) 128 d in
    let! cmdsets := get32 IDE_IDENT_CMDSETS ident in
    let! sectors := (if negb (Z.land cmdsets (Z.shiftl 1 26) =? 0)
                     then get32 IDE_IDENT_MAX_LBA_EXT ident
                     else get32 IDE_IDENT_MAX_LBA ident) in
    let! dst := copy_desc (IDE_DESC_LEN / 2) 0 (drop IDE_IDENT_MODEL ident) (desc dev) in
    let! dst := trim_desc IDE_DESC_LEN dst in
    Ok (0, mk_device 1 cmdsets sectors dst, d).

Definition ide_device_valid (dev : ide_device) : bool := valid dev =? 1.

Definition ide_get_nr_block (dev : ide_device) : Z :=
  if ide_device_valid dev then s32 (size dev) else 0.

(** The seven port writes that start a transfer. *)
Definition issue (cmd n secno : Z) (d : D) : D :=
  let d := dev_outb (IOCTRL + ISA_CTRL) 0 d in
  let d := dev_outb (IOBASE + ISA_SECCNT) (u8 n) d in
  let d := dev_outb (IOBASE + ISA_LBA_LOW) (u8 (Z.land secno 0xFF)) d in
  let d := dev_outb (IOBASE + ISA_LBA_MID) (u8 (Z.land (Z.shiftr secno 8) 0xFF)) d in
  let d := dev_outb (IOBASE + ISA_LBA_HIGH) (u8 (Z.land (Z.shiftr secno 16) 0xFF)) d in
  let d := dev_outb (IOBASE + ISA_LBA_TOP) (u8 (Z.lor 0xE0 (Z.land (Z.shiftr secno 24) 0xF))) d in
  dev_outb (IOBASE + ISA_COMMAND) cmd d.

(** [for (; n > 0; n--, out += SECTSIZE)]: the value returned when it is not 0,
    and [n] and [out] after the loop. *)
Fixpoint read_sectors (fuel n : nat) (out : nat) (buf : list Z) (d : D)
    : outcome (Z * nat * nat * list Z * D) :=
  match n with
  | O => Ok (0, 0%nat, out, buf, d)
  | S n' =>
      let! '(ret, d) := ide_wait_ready fuel IOBASE true d in
      if negb (ret =? 0) then Ok (ret, n, out, buf, d)
      else
        let '(bs, d) := dev_ins IOBASE 128 d in
        let! buf := or_fault (put_bytes out bs buf) in
        read_sectors fuel n' (out + 512) buf d
  end.

Fixpoint write_sectors (fuel n : nat) (input : nat) (buf : list Z) (d : D)
    : outcome (Z * nat * nat * D) :=
  match n with
  | O => Ok (0, 0%nat, input, d)
  | S n' =>
      let! '(ret, d) := ide_wait_ready fuel IOBASE true d in
      if negb (ret =? 0) then Ok (ret, n, input, d)
      else
        let! bs := or_fault (get_bytes input 512 buf) in
        write_sectors fuel n' (input + 512) buf (dev_outs IOBASE bs d)
  end.

(** The [do ... while (nsecs)] loops: [turns] bounds the number of chunks. *)
Fixpoint read_loop (turns fuel : nat) (secno nsecs : Z) (out : nat) (buf : list Z) (d : D)
    : outcome (Z * list Z * D) :=
  match turns with
  | O => NoFuel
  | S turns' =>
      let n := Z.min nsecs kMaxSectors in
      let nsecs := u32 (nsecs - n) in
      let! '(_, d) := ide_wait_ready fuel IOBASE false d in
      let d := issue IDE_CMD_READ n secno d in
      let! '(ret, n, out, buf, d) := read_sectors fuel (Z.to_nat n) out buf d in
      if negb (ret =? 0) then Ok (ret, buf, d)
      else
        let secno := u32 (secno + Z.of_nat n) in
        let out := (out + n * 512)%nat in
        if negb (nsecs =? 0) then read_loop turns' fuel secno nsecs out buf d else Ok (0, buf, d)
  end.

Fixpoint write_loop (turns fuel : nat) (secno nsecs : Z) (input : nat) (buf : list Z) (d : D)
    : outcome (Z * D) :=
  match turns with
  | O => NoFuel
  | S turns' =>
      let n := Z.min nsecs kMaxSectors in
      let nsecs := u32 (nsecs - n) in
      let! '(_, d) := ide_wait_ready fuel IOBASE false d in
      let d := issue IDE_CMD_WRITE n secno d in
      let! '(ret, n, input, d) := write_sectors fuel (Z.to_nat n) input buf d in
      if negb (ret =? 0) then Ok (ret, d)
      else
        let secno := u32 (secno + Z.of_nat n) in
        let input := (input + n * 512)%nat in
        if negb (nsecs =? 0) then write_loop turns' fuel secno nsecs input buf d else Ok (0, d)
  end.

(** One turn per chunk of 128 sectors, and one for none. *)
Definition turns (nsecs : Z) : nat := S (Z.to_nat nsecs).

Definition secno_ok (secno nsecs : Z) : bool :=
  (secno <? MAX_DISK_NSECS) && (u32 (secno + nsecs) <=? MAX_DISK_NSECS).

Definition ide_read_secs (fuel : nat) (dev : ide_device) (secno : Z) (buf : list Z) (nsecs : Z)
    (d : D) : outcome (Z * list Z * D) :=
  kassert (ide_device_valid dev) "ide device error" (
  kassert (secno_ok secno nsecs) "secno error!" (
    read_loop (turns nsecs) fuel secno nsecs 0 buf d)).

Definition ide_write_secs (fuel : nat) (dev : ide_device) (secno : Z) (buf : list Z) (nsecs : Z)
    (d : D) : outcome (Z * D) :=
  kassert (valid dev =? 1) "ide device error" (
  kassert (secno_ok secno nsecs) "secno error!" (
    write_loop (turns nsecs) fuel secno nsecs 0 buf d)).

(** [io_type_t]; a value that is neither takes the [default]. *)
Inductive io_type_t := IO_READ | IO_WRITE | IO_OTHER.

Record io_request_t := mk_request {
  io_type : io_type_t; req_secno : Z; req_nsecs : Z; buffer : list Z; bsize : Z
}.

(** The value returned, the buffer and the device. *)
Definition ide_request (fuel : nat) (dev : ide_device) (req : io_request_t) (d : D)
    : outcome (Z * list Z * D) :=
  match io_type req with
  | IO_READ =>
      if bsize req <? u32 (SECTSIZE * req_nsecs req) then Ok (-1, buffer req, d)
      else ide_read_secs fuel dev (req_secno req) (buffer req) (req_nsecs req) d
  | IO_WRITE =>
      if bsize req <? u32 (SECTSIZE * req_nsecs req) then Ok (-1, buffer req, d)
      else
        let! '(r, d) := ide_write_secs fuel dev (req_secno req) (buffer req) (req_nsecs req) d in
        Ok (r, buffer req, d)
  | IO_OTHER => Ok (-1, buffer req, d)
  end.

Definition ide_ioctl (op flag : Z) : Z := if negb (op =? 0) && negb (flag =? 0) then -1 else 0.

End ide.
End ide.
Import ide.

(** ** The disk behind the ports *)

(** What the drive does with the next data words. *)
Inductive phase := Idle | Reading (lba : Z) (n : nat) | Writing (lba : Z) (n : nat) | Identify | Other.

(** The registers of the drive, the sectors of the disk, and the 512 bytes that identify
    the drive. *)
Record ata := mk_ata {
  sectors : Z -> list Z;
  ident_data : list Z;
  a_seccnt : Z; a_low : Z; a_mid : Z; a_high : Z; a_top : Z;
  a_phase : phase
}.

Definition set_phase (p : phase) (a : ata) : ata :=
  mk_ata (sectors a) (ident_data a) (a_seccnt a) (a_low a) (a_mid a) (a_high a) (a_top a) p.

Definition set_sector (lba : Z) (bs : list Z) (a : ata) : ata :=
  mk_ata (fun x => if x =? lba then bs else sectors a x) (ident_data a)
    (a_seccnt a) (a_low a) (a_mid a) (a_high a) (a_top a) (a_phase a).

Definition ata_lba (a : ata) : Z :=
  a_low a + 256 * a_mid a + 65536 * a_high a + 16777216 * (a_top a mod 16).

(** A sector count of 0 means 256. *)
Definition ata_count (a : ata) : nat := if a_seccnt a =? 0 then 256 else Z.to_nat (a_seccnt a).

Definition ata_command (cmd : Z) (a : ata) : ata :=
  set_phase (if cmd =? 0x20 then Reading (ata_lba a) (ata_count a)
             else if cmd =? 0x30 then Writing (ata_lba a) (ata_count a)
             else if cmd =? 0xEC then Identify else Other) a.

(** A write to a register. *)
Definition ata_outb (p v : Z) (a : ata) : ata :=
  let '(mk_ata s id c l m h t ph) := a in
  if p =? 0x1F2 then mk_ata s id v l m h t ph
  else if p =? 0x1F3 then mk_ata s id c v m h t ph
  else if p =? 0x1F4 then mk_ata s id c l v h t ph
  else if p =? 0x1F5 then mk_ata s id c l m v t ph
  else if p =? 0x1F6 then mk_ata s id c l m h v ph
  else if p =? 0x1F7 then ata_command v a
  else a.

Definition next_read (lba : Z) (n : nat) : phase := match n with O => Idle | _ => Reading (lba + 1) n end.
Definition next_write (lba : Z) (n : nat) : phase := match n with O => Idle | _ => Writing (lba + 1) n end.

(** A device that is an ATA disk without defects: it is busy for a bounded
    number of polls, its registers are those of [ata], and a data transfer moves the
    next sector. *)
Class AtaDisk (D : Type) `{Device D} := {
  ata_of : D -> ata;
  busy : D -> nat;
  busy_bound : nat;
  busy_le : forall d, (busy d <= busy_bound)%nat;
  status_busy : forall d k, busy d = S k -> exists r d',
    dev_inb 0x1F7 d = (r, d') /\ Z.land r 0x80 <> 0 /\
    ata_of (dev_hlt d') = ata_of d /\ busy (dev_hlt d') = k;
  status_ready : forall d, busy d = O -> exists r d',
    dev_inb 0x1F7 d = (r, d') /\ Z.land r 0x80 = 0 /\ Z.land r 0x40 <> 0 /\ Z.land r 0x21 = 0 /\
    ata_of d' = ata_of d /\ busy d' = O;
  outb_law : forall p v d, busy d = O -> ata_of (dev_outb p v d) = ata_outb p v (ata_of d);
  outb_ready : forall p v d, busy d = O -> p <> 0x1F7 -> busy (dev_outb p v d) = O;
  ins_law : forall d lba n, busy d = O -> a_phase (ata_of d) = Reading lba (S n) -> exists d',
    dev_ins 0x1F0 128 d = (sectors (ata_of d) lba, d') /\
    ata_of d' = set_phase (next_read lba n) (ata_of d);
  outs_law : forall d lba n bs, busy d = O -> a_phase (ata_of d) = Writing lba (S n) ->
    length bs = 512%nat ->
    ata_of (dev_outs 0x1F0 bs d) = set_sector lba bs (set_phase (next_write lba n) (ata_of d));
  ident_law : forall d, busy d = O -> a_phase (ata_of d) = Identify -> exists d',
    dev_ins 0x1F0 128 d = (ident_data (ata_of d), d') /\ ata_of d' = set_phase Idle (ata_of d)
}.

(** ** Lemmas on buffers *)

Lemma put_bytes_in off bs buf :
  (off + length bs <= length buf)%nat ->
  put_bytes off bs buf = Some (take off buf ++ bs ++ drop (off + length bs) buf).
Proof. intros Hle. unfold put_bytes. by rewrite decide_True. Qed.

Lemma put_bytes_length off bs buf buf' : put_bytes off bs buf = Some buf' -> length buf' = length buf.
Proof.
  unfold put_bytes. case_decide; [| done]. intros [= <-].
  rewrite !length_app, length_take, length_drop. lia.
Qed.

Lemma put_bytes_app off a b buf buf1 :
  put_bytes off a buf = Some buf1 ->
  put_bytes (off + length a) b buf1 = put_bytes off (a ++ b) buf.
Proof.
  intros H1. pose proof (put_bytes_length _ _ _ _ H1) as Hlen. unfold put_bytes in *.
  case_decide; [| done]. injection H1 as <-. rewrite !length_app in *. repeat case_decide; try done; try lia.
  assert (Ht : length (take off buf) = off) by (rewrite length_take; lia).
  f_equal. rewrite <- !app_assoc. rewrite take_app, drop_app, Ht.
  rewrite (take_ge (take off buf)), (drop_ge (take off buf)) by lia.
  replace (off + length a - off)%nat with (length a) by lia.
  replace (off + length a + length b - off)%nat with (length a + length b)%nat by lia.
  rewrite take_app_length. rewrite drop_app, (drop_ge a) by lia.
  replace (length a + length b - length a)%nat with (length b) by lia.
  rewrite drop_drop, Nat.add_assoc. cbn [app]. by rewrite <- app_assoc.
Qed.

Lemma put_bytes_nil off buf : (off <= length buf)%nat -> put_bytes off [] buf = Some buf.
Proof.
  intros Hle. rewrite put_bytes_in by (simpl; lia). simpl. rewrite Nat.add_0_r. by rewrite take_drop.
Qed.

(** ** Lemmas on the driver *)

Section driver.
Context {D : Type} `{AtaDisk D}.
Implicit Types d : D.

(** Nothing but time has passed. *)
Definition settled d d' : Prop := ata_of d' = ata_of d /\ busy d' = O.

Lemma wait_ready_ok fuel ce d :
  (busy_bound < fuel)%nat ->
  exists d', ide_wait_ready fuel IOBASE ce d = Ok (0, d') /\ settled d d'.
Proof.
  intros Hf. assert (Hb : (busy d < fuel)%nat) by (pose proof (busy_le d); lia). clear Hf.
  revert d Hb. induction fuel as [| fuel IH]; intros d Hb; [lia |]. cbn [ide_wait_ready].
  change (u16 (IOBASE + ISA_STATUS)) with 0x1F7. unfold STAT_BSY.
  destruct (busy d) as [| k] eqn:E.
  - destruct (status_ready d E) as (r & d' & -> & Hr & _ & He & Ha & Hb'). rewrite Hr. cbn [Z.eqb negb].
    change (Z.lor STAT_DF STAT_ERR) with 0x21. rewrite He. rewrite andb_false_r. by exists d'.
  - destruct (status_busy d k E) as (r & d' & -> & Hr & Ha & Hb').
    rewrite (proj2 (Z.eqb_neq _ _) Hr). cbn [negb].
    destruct (IH (dev_hlt d')) as (d2 & -> & Ha2 & Hb2); [lia |].
    exists d2. split; [done |]. split; congruence.
Qed.

Lemma issue_ok cmd n secno d :
  busy d = O -> 0 <= n <= 128 -> 0 <= secno < 0x10000000 ->
  sectors (ata_of (issue cmd n secno d)) = sectors (ata_of d) /\
  a_phase (ata_of (issue cmd n secno d)) =
    let count := if n =? 0 then 256%nat else Z.to_nat n in
    if cmd =? 0x20 then Reading secno count
    else if cmd =? 0x30 then Writing secno count else if cmd =? 0xEC then Identify else Other.
Proof.
  intros Hb Hn Hs. unfold issue.
  change (IOCTRL + ISA_CTRL) with 0x3F6. change (IOBASE + ISA_SECCNT) with 0x1F2.
  change (IOBASE + ISA_LBA_LOW) with 0x1F3. change (IOBASE + ISA_LBA_MID) with 0x1F4.
  change (IOBASE + ISA_LBA_HIGH) with 0x1F5. change (IOBASE + ISA_LBA_TOP) with 0x1F6.
  change (IOBASE + ISA_COMMAND) with 0x1F7.
  rewrite !outb_law by (repeat apply outb_ready; done).
  destruct (ata_of d) as [s id c l m h t ph]. cbn [ata_outb Z.eqb Pos.eqb]. unfold ata_command, set_phase.
  cbn [sectors a_phase a_seccnt]. split; [done |].
  assert (Hl : forall x, u8 (Z.land x 0xFF) = x mod 256).
  { intros x. change 0xFF with (2 ^ 8 - 1). rewrite land_low by lia. change (2 ^ 8) with 256.
    unfold u8. zlia. }
  unfold ata_lba, ata_count. cbn [a_seccnt a_low a_mid a_high a_top]. rewrite !Hl, !Z.shiftr_div_pow2 by lia.
  rewrite (u8_small n) by lia.
  assert (Ht : u8 (Z.lor 0xE0 (Z.land (secno / 2 ^ 24) 0xF)) mod 16 = secno / 2 ^ 24).
  { change 0xF with (2 ^ 4 - 1). rewrite land_low by lia.
    rewrite (lor_add 0xE0 _ 4) by (done || (apply Z.mod_pos_bound; lia)).
    change (2 ^ 4) with 16. change (2 ^ 24) with 16777216. unfold u8. zlia. }
  rewrite Ht.
  replace (secno mod 256 + 256 * (secno / 2 ^ 8 mod 256) + 65536 * (secno / 2 ^ 16 mod 256) +
    16777216 * (secno / 2 ^ 24)) with secno
    by (change (2 ^ 8) with 256; change (2 ^ 16) with 65536; change (2 ^ 24) with 16777216; zlia).
  done.
Qed.

(** The bytes of [n] sectors in a row. *)
Fixpoint sectors_at (s : Z -> list Z) (lba : Z) (n : nat) : list Z :=
  match n with
  | O => []
  | S n' => s lba ++ sectors_at s (lba + 1) n'
  end.

Definition disk_ok (s : Z -> list Z) : Prop := forall lba, length (s lba) = 512%nat.

Lemma length_sectors_at s lba n : disk_ok s -> length (sectors_at s lba n) = (512 * n)%nat.
Proof. intros Hs. revert lba. induction n; intros lba; cbn [sectors_at]; [done |]. rewrite length_app, Hs, IHn. lia. Qed.

Lemma read_sectors_ok fuel n lba out buf d :
  (busy_bound < fuel)%nat -> disk_ok (sectors (ata_of d)) ->
  (n <> 0%nat -> a_phase (ata_of d) = Reading lba n) -> (out + 512 * n <= length buf)%nat ->
  exists buf' d', read_sectors fuel n out buf d = Ok (0, 0%nat, (out + 512 * n)%nat, buf', d') /\
    put_bytes out (sectors_at (sectors (ata_of d)) lba n) buf = Some buf' /\
    sectors (ata_of d') = sectors (ata_of d).
Proof.
  intros Hf. revert lba out buf d. induction n as [| n IH]; intros lba out buf d Hd Hp Hl;
    cbn [read_sectors sectors_at].
  - exists buf, d. rewrite Nat.mul_0_r, Nat.add_0_r. split_and!; [done | | done]. apply put_bytes_nil. lia.
  - destruct (wait_ready_ok fuel true d Hf) as (d1 & -> & Ha1 & Hb1). cbn [obind Z.eqb negb].
    specialize (Hp ltac:(done)). rewrite <- Ha1 in Hp.
    destruct (ins_law d1 lba n Hb1 Hp) as (d2 & Hins & Ha2).
    change (dev_ins IOBASE 128 d1) with (dev_ins 0x1F0 128 d1). rewrite Hins, Ha1.
    assert (Hlen := Hd lba). set (bs := sectors (ata_of d) lba) in *.
    rewrite (put_bytes_in out bs buf) by lia. cbn [or_fault obind].
    set (buf1 := take out buf ++ bs ++ drop (out + length bs) buf).
    assert (Hput : put_bytes out bs buf = Some buf1) by (apply put_bytes_in; lia).
    assert (Hs2 : sectors (ata_of d2) = sectors (ata_of d)) by (rewrite Ha2, Ha1; done).
    destruct (IH (lba + 1) (out + 512)%nat buf1 d2) as (buf' & d' & -> & Hput' & Hs').
    + by rewrite Hs2.
    + intros Hn. rewrite Ha2. by destruct n.
    + rewrite (put_bytes_length _ _ _ _ Hput). lia.
    + exists buf', d'. split_and!.
      * by replace (out + 512 + 512 * n)%nat with (out + 512 * S n)%nat by lia.
      * rewrite <- (put_bytes_app _ _ _ _ _ Hput), <- Hs2, Hlen. exact Hput'.
      * congruence.
Qed.

(** Sector [i] of what a read of [nsecs] sectors leaves in the buffer. *)
Definition read_image (s : Z -> list Z) (secno : Z) (nsecs : nat) : list Z :=
  mjoin ((fun i => s (secno + Z.of_nat (i mod 128))) <$> seq 0 nsecs).

Lemma read_image_short s secno n : (n <= 128)%nat -> read_image s secno n = sectors_at s secno n.
Proof.
  intros Hn. unfold read_image.
  assert (Hgen : forall k j, (j + k <= 128)%nat ->
    mjoin ((fun i => s (secno + Z.of_nat (i mod 128))) <$> seq j k) = sectors_at s (secno + Z.of_nat j) k).
  { induction k as [| k IH]; intros j Hk; [done |]. cbn [seq fmap list_fmap mjoin list_join sectors_at].
    rewrite Nat.mod_small by lia. f_equal. unfold mjoin in IH.
    replace (secno + Z.of_nat j + 1) with (secno + Z.of_nat (S j)) by lia. apply IH. lia. }
  rewrite (Hgen n 0%nat) by lia. f_equal. lia.
Qed.

Lemma read_image_long s secno n :
  read_image s secno (128 + n) = sectors_at s secno 128 ++ read_image s secno n.
Proof.
  rewrite <- read_image_short by lia. unfold read_image.
  rewrite seq_app, fmap_app, join_app. f_equal. f_equal.
  rewrite <- (fmap_add_seq 128 0), <- list_fmap_compose. apply list_fmap_ext. intros _ i _. unfold compose.
  do 2 f_equal. rewrite Nat.add_comm. change 128%nat with (1 * 128)%nat at 1. by rewrite Nat.Div0.mod_add.
Qed.

Lemma length_mjoin_const {A} (f : A -> list Z) (l : list A) k :
  (forall x, length (f x) = k) -> length (mjoin (f <$> l)) = (k * length l)%nat.
Proof.
  intros Hk. induction l as [| x l IH]; [simpl; lia |]. rewrite fmap_cons.
  change (mjoin (f x :: (f <$> l))) with (f x ++ mjoin (f <$> l)).
  rewrite length_app, Hk, IH. simpl. lia.
Qed.

Lemma length_read_image s secno n : disk_ok s -> length (read_image s secno n) = (512 * n)%nat.
Proof. intros Hs. unfold read_image. rewrite (length_mjoin_const _ _ 512), length_seq by auto. done. Qed.

Lemma read_loop_ok turns fuel secno nsecs out buf d :
  (busy_bound < fuel)%nat -> disk_ok (sectors (ata_of d)) -> 0 <= secno < 0x10000000 ->
  0 < nsecs < 4294967296 -> (Z.to_nat nsecs <= turns)%nat ->
  (out + 512 * Z.to_nat nsecs <= length buf)%nat ->
  exists buf' d', read_loop turns fuel secno nsecs out buf d = Ok (0, buf', d') /\
    put_bytes out (read_image (sectors (ata_of d)) secno (Z.to_nat nsecs)) buf = Some buf' /\
    sectors (ata_of d') = sectors (ata_of d).
Proof.
  intros Hf. revert nsecs out buf d. induction turns as [| turns IH];
    intros nsecs out buf d Hd Hs Hn Ht Hl; [lia |]. cbn [read_loop].
  destruct (wait_ready_ok fuel false d Hf) as (d1 & -> & Ha1 & Hb1). cbn [obind].
  unfold kMaxSectors. set (n := Z.min nsecs 128).
  destruct (issue_ok IDE_CMD_READ n secno d1 Hb1 ltac:(lia) Hs) as [Hs2 Hp2].
  set (d2 := issue IDE_CMD_READ n secno d1) in *. cbn [IDE_CMD_READ Z.eqb Pos.eqb] in Hp2.
  rewrite (proj2 (Z.eqb_neq n 0)) in Hp2 by lia.
  destruct (read_sectors_ok fuel (Z.to_nat n) secno out buf d2 Hf) as (buf1 & d3 & -> & Hput & Hs3);
    [by rewrite Hs2, Ha1 | by intros _ | lia |].
  cbn [obind Z.eqb negb]. rewrite Hs2, Ha1 in Hput, Hs3. rewrite u32_small by lia.
  destruct (Z.eqb_spec (nsecs - n) 0) as [He | Hne]; cbn [negb].
  - exists buf1, d3. split_and!; [done | | done]. rewrite read_image_short by lia.
    by replace (Z.to_nat nsecs) with (Z.to_nat n) by lia.
  - assert (Hn128 : n = 128 /\ 128 < nsecs) by lia.
    destruct Hn128 as [Hn128 Hlong]. clearbody n. subst n. rewrite Z.add_0_r, (u32_small secno) by lia. rewrite Nat.add_0_r.
    assert (Hlen := put_bytes_length _ _ _ _ Hput).
    destruct (IH (nsecs - 128) (out + 512 * Z.to_nat 128)%nat buf1 d3) as (buf' & d' & -> & Hput' & Hs');
      [by rewrite Hs3 | done | lia | lia | lia |].
    exists buf', d'. split_and!; [done | | congruence].
    replace (Z.to_nat nsecs) with (128 + Z.to_nat (nsecs - 128))%nat by lia. rewrite read_image_long.
    change (Z.to_nat 128) with 128%nat in Hput, Hput'.
    rewrite <- (put_bytes_app _ _ _ _ _ Hput). rewrite length_sectors_at by done.
    rewrite <- Hs3. exact Hput'.
Qed.

Lemma read_secs_run fuel dev secno nsecs buf d :
  (busy_bound < fuel)%nat -> disk_ok (sectors (ata_of d)) -> valid dev = 1 ->
  0 <= secno < 0x10000000 -> 0 < nsecs -> secno + nsecs <= 0x10000000 ->
  length buf = (512 * Z.to_nat nsecs)%nat ->
  exists buf' d', ide_read_secs fuel dev secno buf nsecs d = Ok (0, buf', d') /\
    sectors (ata_of d') = sectors (ata_of d) /\
    buf' = read_image (sectors (ata_of d)) secno (Z.to_nat nsecs) /\
    (nsecs <= 128 -> buf' = sectors_at (sectors (ata_of d)) secno (Z.to_nat nsecs)).
Proof.
  intros Hf Hd Hv Hs Hn Hm Hlen. unfold ide_read_secs, ide_device_valid, secno_ok, MAX_DISK_NSECS.
  rewrite Hv. cbn [Z.eqb Pos.eqb kassert]. rewrite u32_small by lia.
  rewrite (proj2 (Z.ltb_lt _ _)), (proj2 (Z.leb_le _ _)) by lia. cbn [andb kassert].
  destruct (read_loop_ok (turns nsecs) fuel secno nsecs 0 buf d) as (buf' & d' & -> & Hput & Hs');
    try done; [lia | unfold turns; lia | lia |].
  exists buf', d'. assert (Hi := length_read_image (sectors (ata_of d)) secno (Z.to_nat nsecs) Hd).
  rewrite put_bytes_in in Hput by lia. injection Hput as <-. cbn [Nat.add]. rewrite drop_ge, app_nil_r by lia.
  cbn [app]. split_and!; try done. intros Hle. apply read_image_short. lia.
Qed.

(** C21: reading [nsecs] sectors returns 0, leaves the disk as it was and fills
    the buffer.  Up to 128 sectors they are the sectors asked for; past that the second
    and later chunks start again at [secno], because the inner loop leaves [n] at 0 and
    [secno += n] adds nothing. *)
Theorem read_secs_spec fuel dev secno nsecs buf d :
  (busy_bound < fuel)%nat -> disk_ok (sectors (ata_of d)) -> valid dev = 1 ->
  0 <= secno < 0x10000000 -> 0 < nsecs -> secno + nsecs <= 0x10000000 ->
  length buf = (512 * Z.to_nat nsecs)%nat ->
  exists buf' d', ide_read_secs fuel dev secno buf nsecs d = Ok (0, buf', d') /\
    sectors (ata_of d') = sectors (ata_of d) /\
    buf' = read_image (sectors (ata_of d)) secno (Z.to_nat nsecs) /\
    (nsecs <= 128 -> buf' = sectors_at (sectors (ata_of d)) secno (Z.to_nat nsecs)).
Proof. apply read_secs_run. Qed.

(** The disk after [n] sectors of [bs] were written from [lba]. *)
Definition write_image (s : Z -> list Z) (lba : Z) (n : nat) (bs : list Z) (x : Z) : list Z :=
  if decide (lba <= x < lba + Z.of_nat n)
  then take 512 (drop (512 * Z.to_nat (x - lba)) bs) else s x.

Lemma write_sectors_ok fuel n lba input buf d :
  (busy_bound < fuel)%nat -> (n <> 0%nat -> a_phase (ata_of d) = Writing lba n) ->
  (input + 512 * n <= length buf)%nat ->
  exists d', write_sectors fuel n input buf d = Ok (0, 0%nat, (input + 512 * n)%nat, d') /\
    forall x, sectors (ata_of d') x = write_image (sectors (ata_of d)) lba n (drop input buf) x.
Proof.
  intros Hf. revert lba input d. induction n as [| n IH]; intros lba input d Hp Hl; cbn [write_sectors].
  - exists d. rewrite Nat.mul_0_r, Nat.add_0_r. split; [done |]. intros x. unfold write_image.
    by rewrite decide_False by lia.
  - destruct (wait_ready_ok fuel true d Hf) as (d1 & -> & Ha1 & Hb1). cbn [obind Z.eqb negb].
    specialize (Hp ltac:(done)). rewrite <- Ha1 in Hp.
    unfold get_bytes. rewrite decide_True by lia. cbn [or_fault obind].
    set (bs := take 512 (drop input buf)).
    assert (Hbs : length bs = 512%nat) by (subst bs; rewrite length_take, length_drop; lia).
    assert (Ha2 := outs_law d1 lba n bs Hb1 Hp Hbs).
    change (dev_outs 0x1F0 bs d1) with (dev_outs IOBASE bs d1) in Ha2.
    set (d2 := dev_outs IOBASE bs d1) in *.
    destruct (IH (lba + 1) (input + 512)%nat d2) as (d' & -> & Hs').
    + intros Hn. rewrite Ha2. by destruct n.
    + lia.
    + exists d'. split; [by replace (input + 512 + 512 * n)%nat with (input + 512 * S n)%nat by lia |].
      intros x. rewrite Hs'. unfold write_image. rewrite drop_drop.
      destruct (decide (lba + 1 <= x < lba + 1 + Z.of_nat n)) as [Hin | Hout].
      * rewrite decide_True by lia. rewrite drop_drop. do 2 f_equal. lia.
      * rewrite Ha2. cbn [set_sector set_phase sectors]. rewrite Ha1.
        destruct (Z.eqb_spec x lba) as [-> | Hne].
        -- rewrite decide_True by lia. by rewrite Z.sub_diag, Nat.mul_0_r, drop_0.
        -- by rewrite decide_False by lia.
Qed.

Lemma write_secs_run fuel dev secno nsecs buf d :
  (busy_bound < fuel)%nat -> valid dev = 1 ->
  0 <= secno < 0x10000000 -> 0 < nsecs <= 128 -> secno + nsecs <= 0x10000000 ->
  length buf = (512 * Z.to_nat nsecs)%nat ->
  exists d', ide_write_secs fuel dev secno buf nsecs d = Ok (0, d') /\
    forall x, sectors (ata_of d') x = write_image (sectors (ata_of d)) secno (Z.to_nat nsecs) buf x.
Proof.
  intros Hf Hv Hs Hn Hm Hlen. unfold ide_write_secs, secno_ok, MAX_DISK_NSECS.
  rewrite Hv. cbn [Z.eqb Pos.eqb kassert]. rewrite u32_small by lia.
  rewrite (proj2 (Z.ltb_lt _ _)), (proj2 (Z.leb_le _ _)) by lia. cbn [andb kassert turns write_loop].
  destruct (wait_ready_ok fuel false d Hf) as (d1 & -> & Ha1 & Hb1). cbn [obind].
  unfold kMaxSectors. rewrite (Z.min_l nsecs 128) by lia.
  destruct (issue_ok IDE_CMD_WRITE nsecs secno d1 Hb1 ltac:(lia) Hs) as [Hs2 Hp2].
  set (d2 := issue IDE_CMD_WRITE nsecs secno d1) in *. cbn [IDE_CMD_WRITE Z.eqb Pos.eqb] in Hp2.
  rewrite (proj2 (Z.eqb_neq nsecs 0)) in Hp2 by lia.
  destruct (write_sectors_ok fuel (Z.to_nat nsecs) secno 0 buf d2 Hf) as (d3 & -> & Hs3);
    [by intros _ | lia |].
  cbn [obind Z.eqb negb]. rewrite Z.sub_diag. cbn [u32 Z.eqb negb].
  exists d3. split; [done |]. intros x. rewrite Hs3, Hs2, Ha1. by rewrite drop_0.
Qed.

(** C22: writing up to 128 sectors returns 0 and replaces exactly the sectors
    asked for, by the bytes of the buffer in order. *)
Theorem write_secs_spec fuel dev secno nsecs buf d :
  (busy_bound < fuel)%nat -> valid dev = 1 ->
  0 <= secno < 0x10000000 -> 0 < nsecs <= 128 -> secno + nsecs <= 0x10000000 ->
  length buf = (512 * Z.to_nat nsecs)%nat ->
  exists d', ide_write_secs fuel dev secno buf nsecs d = Ok (0, d') /\
    forall x, sectors (ata_of d') x = write_image (sectors (ata_of d)) secno (Z.to_nat nsecs) buf x.
Proof. apply write_secs_run. Qed.

Lemma write_image_ok s lba n bs :
  disk_ok s -> length bs = (512 * n)%nat -> disk_ok (write_image s lba n bs).
Proof.
  intros Hs Hb x. unfold write_image. case_decide; [| done]. rewrite length_take, length_drop. lia.
Qed.

Lemma sectors_at_ext s s' lba n : (forall x, s x = s' x) -> sectors_at s lba n = sectors_at s' lba n.
Proof. intros Hx. revert lba. induction n; intros lba; cbn [sectors_at]; [done |]. by rewrite Hx, IHn. Qed.

Lemma sectors_at_write s lba n bs :
  length bs = (512 * n)%nat -> sectors_at (write_image s lba n bs) lba n = bs.
Proof.
  intros Hb. assert (Hgen : forall k j, (j + k = n)%nat ->
    sectors_at (write_image s lba n bs) (lba + Z.of_nat j) k = drop (512 * j) bs).
  { induction k as [| k IH]; intros j Hj; cbn [sectors_at]; [by rewrite drop_ge by lia |].
    replace (lba + Z.of_nat j + 1) with (lba + Z.of_nat (S j)) by lia. rewrite IH by lia.
    unfold write_image. rewrite decide_True by lia.
    replace (Z.to_nat (lba + Z.of_nat j - lba)) with j by lia.
    rewrite <- (take_drop 512 (drop (512 * j) bs)) at 2. f_equal. rewrite drop_drop. f_equal. lia. }
  specialize (Hgen n 0%nat eq_refl). rewrite Z.add_0_r in Hgen. by rewrite Hgen, Nat.mul_0_r, drop_0.
Qed.

(** what is written is read back: sectors written from a buffer and read
    into another one give the first buffer's bytes. *)
Theorem write_read fuel dev secno nsecs buf buf0 d :
  (busy_bound < fuel)%nat -> disk_ok (sectors (ata_of d)) -> valid dev = 1 ->
  0 <= secno < 0x10000000 -> 0 < nsecs <= 128 -> secno + nsecs <= 0x10000000 ->
  length buf = (512 * Z.to_nat nsecs)%nat -> length buf0 = length buf ->
  exists d1 d2, ide_write_secs fuel dev secno buf nsecs d = Ok (0, d1) /\
    ide_read_secs fuel dev secno buf0 nsecs d1 = Ok (0, buf, d2).
Proof.
  intros Hf Hd Hv Hs Hn Hm Hlen Hlen0.
  destruct (write_secs_run fuel dev secno nsecs buf d) as (d1 & Hw & Hs1); try done.
  assert (Hd1 : disk_ok (sectors (ata_of d1))).
  { intros x. rewrite Hs1. by apply write_image_ok. }
  destruct (read_secs_run fuel dev secno nsecs buf0 d1) as (buf' & d2 & Hr & _ & _ & Hb); try done; try lia.
  exists d1, d2. split; [done |]. rewrite Hr. do 3 f_equal. rewrite Hb by lia.
  rewrite (sectors_at_ext _ _ _ _ Hs1). by apply sectors_at_write.
Qed.

(** a request whose buffer is too small, or that is neither a read nor a
    write, is refused without touching the device or the buffer. *)
Theorem request_refused fuel dev req d :
  io_type req = IO_OTHER \/
    (0 <= req_nsecs req /\ SECTSIZE * req_nsecs req < 4294967296 /\
     bsize req < SECTSIZE * req_nsecs req) ->
  ide_request fuel dev req d = Ok (-1, buffer req, d).
Proof.
  intros [Ht | (Hn & Hr & Hb)]; unfold ide_request; [by rewrite Ht |].
  unfold SECTSIZE in *. rewrite u32_small by lia. rewrite (proj2 (Z.ltb_lt _ _)) by lia.
  by destruct (io_type req).
Qed.
(** *** Identification *)

(** The characters of the model name are stored in swapped pairs, padded with spaces. *)
Fixpoint swap_pairs (l : list Z) : list Z :=
  match l with
  | a :: b :: l' => b :: a :: swap_pairs l'
  | _ => l
  end.

Fixpoint trim_end (l : list Z) : list Z :=
  match l with
  | [] => []
  | c :: l' => match trim_end l' with [] => if c =? 32 then [] else [c] | t => c :: t end
  end.

Lemma trim_end_snoc l c : trim_end (l ++ [c]) = if c =? 32 then trim_end l else l ++ [c].
Proof.
  induction l as [| a l IH]; cbn [app trim_end]; [done |].
  rewrite IH. destruct (c =? 32); [done |]. by destruct l.
Qed.

Lemma trim_end_length l : (length (trim_end l) <= length l)%nat.
Proof. induction l as [| c l IH]; cbn; [lia |]. destruct (trim_end l), (c =? 32); simpl in *; lia. Qed.

Lemma copy_desc_ok n data dst i :
  (i + 2 * n <= length data)%nat -> (i + 2 * n <= length dst)%nat ->
  copy_desc n i data dst = Ok (take i dst ++ swap_pairs (take (2 * n) (drop i data)) ++ drop (i + 2 * n) dst).
Proof.
  revert i dst. induction n as [| n IH]; intros i dst Hd Hl; cbn [copy_desc].
  { rewrite Nat.mul_0_r, take_0, Nat.add_0_r. cbn. by rewrite take_drop. }
  destruct (lookup_lt_is_Some_2 data i) as [a Ha]; [lia |].
  destruct (lookup_lt_is_Some_2 data (i + 1)) as [b Hb]; [lia |].
  rewrite Ha, Hb. cbn [or_fault obind]. rewrite lset_in, Nat2Z.id by lia. cbn [or_fault obind].
  rewrite lset_in, Nat2Z.id by (rewrite length_insert; lia). cbn [or_fault obind].
  rewrite IH by (rewrite ?length_insert; lia). f_equal.
  rewrite (drop_S _ _ _ Ha). replace (S i) with (i + 1)%nat by lia. rewrite (drop_S _ _ _ Hb).
  replace (S (i + 1)) with (i + 2)%nat by lia. replace (2 * S n)%nat with (S (S (2 * n))) by lia.
  cbn [take swap_pairs].
  assert (Ht : take (i + 2) (<[(i + 1)%nat := a]> (<[i := b]> dst)) = take i dst ++ [b; a]).
  { replace (i + 2)%nat with (S (i + 1)) by lia.
    rewrite (take_S_r _ _ a) by (rewrite list_lookup_insert_eq; [done | rewrite length_insert; lia]).
    rewrite take_insert_ge by lia. replace (i + 1)%nat with (S i) by lia.
    rewrite (take_S_r _ _ b) by (rewrite list_lookup_insert_eq; [done | lia]).
    rewrite take_insert_ge by lia. by rewrite <- app_assoc. }
  rewrite Ht, <- app_assoc. cbn [app]. do 4 f_equal.
  rewrite !drop_insert_lt by lia. f_equal. lia.
Qed.

Lemma trim_desc_ok i dst :
  (i < length dst)%nat ->
  let t := trim_end (take i dst) in
  trim_desc i dst = Ok (t ++ replicate (S i - length t) 0 ++ drop (S i) dst).
Proof.
  revert dst. induction i as [| i IH]; intros dst Hl; cbn zeta; cbn [trim_desc];
    rewrite lset_in, Nat2Z.id by lia; cbn [or_fault obind].
  { destruct dst as [| x dst]; [simpl in Hl; lia |]. done. }
  destruct (lookup_lt_is_Some_2 dst i) as [c Hc]; [lia |].
  rewrite list_lookup_insert_ne, Hc by lia. cbn [or_fault obind].
  rewrite (take_S_r _ _ _ Hc), trim_end_snoc. destruct (c =? 32).
  - rewrite IH by (rewrite length_insert; lia). f_equal. rewrite take_insert_ge by lia.
    f_equal. pose proof (trim_end_length (take i dst)) as Ht. rewrite length_take in Ht.
    set (k := length (trim_end (take i dst))) in *.
    rewrite (drop_S (<[S i := 0]> dst) 0) by (apply list_lookup_insert_eq; lia).
    rewrite drop_insert_lt by lia.
    replace (S (S i) - k)%nat with (S i - k + 1)%nat by lia. rewrite replicate_add, <- app_assoc. done.
  - rewrite length_app, length_take. simpl. replace (S (S i) - (i `min` length dst + 1))%nat with 1%nat by lia.
    cbn. f_equal. rewrite insert_take_drop by lia.
    by rewrite (take_S_r _ _ _ Hc), <- !app_assoc.
Qed.

Lemma length_swap_pairs l : length (swap_pairs l) = length l.
Proof.
  enough (H' : length (swap_pairs l) = length l /\ forall a, length (swap_pairs (a :: l)) = S (length l)) by apply H'.
  induction l as [| b l [IH1 IH2]]; [done |]. split; [apply IH2 |]. intros a. cbn. by rewrite IH1.
Qed.

Lemma land_bit x n : 0 <= n -> negb (Z.land x (Z.shiftl 1 n) =? 0) = Z.testbit x n.
Proof.
  intros Hn. destruct (Z.eqb_spec (Z.land x (Z.shiftl 1 n)) 0) as [E | E]; cbn [negb]; symmetry.
  - apply (f_equal (fun z => Z.testbit z n)) in E.
    by rewrite Z.land_spec, Z.shiftl_spec, Z.sub_diag, andb_true_r, Z.bits_0 in E by lia.
  - destruct (Z.testbit x n) eqn:E2; [done |]. exfalso. apply E. apply Z.bits_inj'. intros k Hk.
    rewrite Z.land_spec, Z.bits_0, Z.shiftl_spec by lia. destruct (Z.eq_dec k n) as [-> | Hne].
    + by rewrite E2.
    + destruct (Z.lt_ge_cases k n); [by rewrite (Z.testbit_neg_r 1), andb_false_r by lia |].
      replace (k - n) with (Z.succ (k - n - 1)) by lia.
      by rewrite (Z.testbit_odd_succ 0 (k - n - 1)) || (change 1 with (2 * 0 + 1);
        rewrite Z.testbit_odd_succ, Z.bits_0, andb_false_r by lia).
Qed.

(** The little-endian word at an offset of the identification data. *)
Definition word32 (off : nat) (bs : list Z) : Z := le_decode (take 4 (drop off bs)).

Definition model_name (ident : list Z) : list Z :=
  trim_end (swap_pairs (take IDE_DESC_LEN (drop IDE_IDENT_MODEL ident))).

Lemma get32_in off bs : (off + 4 <= length bs)%nat -> get32 off bs = Ok (word32 off bs).
Proof. intros Hl. unfold get32, get_bytes. by rewrite decide_True. Qed.

(** The identification of a drive: the number of sectors is the 48-bit one when the drive
    has that command set, and the description is the model name, a C string without the
    trailing spaces. *)
Lemma ide_init_run fuel dev d :
  (busy_bound < fuel)%nat -> length (desc dev) = S IDE_DESC_LEN ->
  length (ident_data (ata_of d)) = 512%nat ->
  let id := ident_data (ata_of d) in
  exists dev' d', ide_init fuel dev d = Ok (0, dev', d') /\ valid dev' = 1 /\
    sets dev' = word32 IDE_IDENT_CMDSETS id /\
    size dev' = word32 (if Z.testbit (sets dev') 26 then IDE_IDENT_MAX_LBA_EXT else IDE_IDENT_MAX_LBA) id /\
    desc dev' = model_name id ++ replicate (S IDE_DESC_LEN - length (model_name id)) 0 /\
    sectors (ata_of d') = sectors (ata_of d).
Proof.
  intros Hf Hdesc Hid id. fold id in Hid. unfold ide_init.
  destruct (wait_ready_ok fuel false d Hf) as (d1 & -> & Ha1 & Hb1). cbn [obind].
  set (d2 := dev_outb _ _ d1).
  destruct (wait_ready_ok fuel false d2 Hf) as (d3 & -> & Ha3 & Hb3). cbn [obind].
  set (d4 := dev_outb _ _ d3).
  destruct (wait_ready_ok fuel false d4 Hf) as (d5 & -> & Ha5 & Hb5). cbn [obind].
  assert (Hata : ata_of d5 = set_phase Identify (ata_outb (IOBASE + ISA_SDH) 0xE0 (ata_of d))).
  { rewrite Ha5. unfold d4. rewrite outb_law, Ha3 by done. unfold d2. rewrite outb_law, Ha1 by done.
    by destruct (ata_of d). }
  destruct (status_ready d5 Hb5) as (r & d6 & Hin & _ & Hr & _ & Ha6 & Hb6).
  change (IOBASE + ISA_STATUS) with 0x1F7. rewrite Hin.
  rewrite (proj2 (Z.eqb_neq r 0)) by (by intros ->).
  destruct (wait_ready_ok fuel true d6 Hf) as (d7 & -> & Ha7 & Hb7). cbn [obind Z.eqb negb].
  rewrite Ha6, Hata in Ha7.
  destruct (ident_law d7 Hb7) as (d8 & Hins & Ha8); [by rewrite Ha7|].
  change (IOBASE + ISA_DATA) with 0x1F0. rewrite Hins.
  assert (Hi7 : ident_data (ata_of d7) = id) by (rewrite Ha7; unfold id; by destruct (ata_of d)).
  rewrite Hi7. unfold IDE_DESC_LEN, IDE_IDENT_CMDSETS, IDE_IDENT_MAX_LBA, IDE_IDENT_MAX_LBA_EXT in *.
  rewrite !get32_in by lia. cbn [obind]. rewrite land_bit by lia.
  assert (Hsz : (if Z.testbit (word32 164 id) 26 then Ok (word32 200 id) else Ok (word32 120 id)) =
    Ok (word32 (if Z.testbit (word32 164 id) 26 then 200 else 120) id)) by (by destruct (Z.testbit _ _)).
  rewrite Hsz. cbn [obind]. change (40 / 2)%nat with 20%nat.
  rewrite copy_desc_ok by (rewrite ?length_drop; unfold IDE_IDENT_MODEL; lia). cbn [obind]. rewrite trim_desc_ok.
  2: { rewrite !length_app, length_take, length_swap_pairs, length_take, !length_drop.
       unfold IDE_IDENT_MODEL. lia. }
  cbn [obind]. eexists _, d8. split; [reflexivity |]. cbn [valid sets size desc]. split_and!; try done.
  - rewrite take_0, drop_0. cbn [app]. change (0 + 2 * 20)%nat with 40%nat. change (2 * 20)%nat with 40%nat.
    assert (Hl40 : length (swap_pairs (take 40 (drop IDE_IDENT_MODEL id))) = 40%nat).
    { rewrite length_swap_pairs, length_take, length_drop. unfold IDE_IDENT_MODEL. lia. }
    rewrite take_app_length' by done. rewrite (drop_ge (swap_pairs _ ++ _)), app_nil_r; [done |].
    rewrite length_app, Hl40, length_drop. lia.
  - rewrite Ha8, Ha7. by destruct (ata_of d).
Qed.

(** identifying a drive that is there returns 0 whatever the driver knew before: the device
    is valid, its size is the 48-bit one when the drive has that command set, and its
    description is the model name as a C string, without the trailing spaces and padded
    with zeros.  The sectors are not touched. *)
Theorem ide_init_ok fuel dev d :
  (busy_bound < fuel)%nat -> length (desc dev) = S IDE_DESC_LEN ->
  length (ident_data (ata_of d)) = 512%nat ->
  let id := ident_data (ata_of d) in
  exists dev' d', ide_init fuel dev d = Ok (0, dev', d') /\ valid dev' = 1 /\
    sets dev' = word32 IDE_IDENT_CMDSETS id /\
    size dev' = word32 (if Z.testbit (sets dev') 26 then IDE_IDENT_MAX_LBA_EXT else IDE_IDENT_MAX_LBA) id /\
    desc dev' = model_name id ++ replicate (S IDE_DESC_LEN - length (model_name id)) 0 /\
    sectors (ata_of d') = sectors (ata_of d).
Proof. apply ide_init_run. Qed.
End driver.

(** ** A disk *)

(** The device of the witnesses: the registers of [ata], and one busy poll after
    each command. *)
Definition disk : Type := ata * bool.

Definition disk_ins (d : disk) (n : nat) : list Z * disk :=
  match a_phase (fst d) with
  | Reading lba (S k) => (sectors (fst d) lba, (set_phase (next_read lba k) (fst d), snd d))
  | Identify => (ident_data (fst d), (set_phase Idle (fst d), snd d))
  | _ => (replicate (4 * n) 0, d)
  end.

Definition disk_outs (bs : list Z) (d : disk) : disk :=
  match a_phase (fst d) with
  | Writing lba (S k) => (set_sector lba bs (set_phase (next_write lba k) (fst d)), snd d)
  | _ => d
  end.

Definition disk_inb (p : Z) (d : disk) : Z * disk :=
  (if p =? 0x1F7 then if (snd d : bool) then 0x80 else 0x50 else 0, d).

#[export] Instance disk_device : Device disk := {|
  dev_inb := disk_inb;
  dev_outb := fun p v (d : disk) => (ata_outb p v (fst d), (p =? 0x1F7) || snd d);
  dev_ins := fun _ n d => disk_ins d n;
  dev_outs := fun _ bs d => disk_outs bs d;
  dev_hlt := fun (d : disk) => (fst d, false)
|}.

#[export, refine] Instance disk_ata : AtaDisk disk := {|
  ata_of := fun d : disk => fst d;
  busy := fun d : disk => if (snd d : bool) then 1%nat else 0%nat;
  busy_bound := 1
|}.
Proof.
  - intros [a []]; simpl; lia.
  - intros [a []] k; [| done]. intros [= <-]. eexists _, _. split_and!; done.
  - intros [a []]; [done |]. intros _. eexists _, _. split_and!; done.
  - by intros p v [a b] _.
  - intros p v [a []]; [done |]. intros _ Hp. cbn. rewrite (proj2 (Z.eqb_neq _ _)) by done. done.
  - intros [a []] lba n; [done |]. intros _ Hp. cbn in *. unfold disk_ins. cbn. rewrite Hp. by eexists.
  - intros [a []] lba n bs; [done |]. intros _ Hp _. cbn in *. unfold disk_outs. cbn. by rewrite Hp.
  - intros [a []]; [done |]. intros _ Hp. cbn in *. unfold disk_ins. cbn. rewrite Hp. by eexists.
Defined.

(** A disk whose sector [k] is filled with [k mod 256]. *)
Definition test_disk : disk :=
  (mk_ata (fun k => replicate 512 (u8 k)) (replicate 512 0) 0 0 0 0 0 Idle, false).

Definition test_device : ide_device := mk_device 1 0 1000 [].

(** The 129th sector of a longer read is the first again. *)
Lemma read_129_wraps {D} `{AtaDisk D} fuel dev secno buf (d : D) :
  (busy_bound < fuel)%nat -> disk_ok (sectors (ata_of d)) -> valid dev = 1 ->
  0 <= secno -> secno + 129 <= 0x10000000 -> length buf = (512 * 129)%nat ->
  exists buf' d', ide_read_secs fuel dev secno buf 129 d = Ok (0, buf', d') /\
    drop (512 * 128) buf' = sectors (ata_of d) secno.
Proof.
  intros Hf Hd Hv Hs Hm Hl.
  destruct (read_secs_run fuel dev secno 129 buf d) as (buf' & d' & Hr & _ & Hb & _); try done; try lia.
  exists buf', d'. split; [done |]. rewrite Hb. change (Z.to_nat 129) with (128 + 1)%nat.
  rewrite read_image_long, drop_app_length' by (by rewrite length_sectors_at).
  rewrite read_image_short by lia. cbn [sectors_at]. apply app_nil_r.
Qed.

Lemma test_disk_ok : disk_ok (sectors (ata_of test_disk)).
Proof. intros lba. apply length_replicate. Qed.

Lemma read_secs_spec_witness :
  exists d, ide_read_secs 3 test_device 7 (replicate 1024 0) 2 test_disk =
    Ok (0, replicate 512 7 ++ replicate 512 8, d).
Proof.
  destruct (read_secs_spec 3 test_device 7 2 (replicate 1024 0) test_disk) as (b & d & Hr & _ & _ & Hb);
    [simpl; lia | exact test_disk_ok | reflexivity | lia | lia | lia | reflexivity |].
  exists d. rewrite Hr, Hb by lia. reflexivity.
Defined.

Lemma write_secs_spec_witness :
  exists d, ide_write_secs 3 test_device 7 (replicate 512 9) 1 test_disk = Ok (0, d) /\
    sectors (ata_of d) 7 = replicate 512 9 /\ sectors (ata_of d) 8 = replicate 512 8.
Proof.
  destruct (write_secs_spec 3 test_device 7 1 (replicate 512 9) test_disk) as (d & Hw & Hs);
    [simpl; lia | reflexivity | lia | lia | lia | reflexivity |].
  exists d. split; [exact Hw |]. split; rewrite Hs; reflexivity.
Defined.

Lemma write_read_witness :
  exists d1 d2, ide_write_secs 3 test_device 7 (replicate 512 9) 1 test_disk = Ok (0, d1) /\
    ide_read_secs 3 test_device 7 (replicate 512 0) 1 d1 = Ok (0, replicate 512 9, d2).
Proof.
  apply (write_read 3 test_device 7 1 (replicate 512 9) (replicate 512 0) test_disk);
    [simpl; lia | exact test_disk_ok | reflexivity | lia | lia | lia | reflexivity | reflexivity].
Defined.

Lemma request_refused_witness :
  ide_request 3 test_device (mk_request IO_READ 0 2 [] 1023) test_disk = Ok (-1, [], test_disk).
Proof.
  apply (request_refused 3 test_device (mk_request IO_READ 0 2 [] 1023) test_disk).
  right. cbn. unfold SECTSIZE. lia.
Defined.

(** A drive of 1000 sectors with the name "AB", 28-bit only. *)
Definition named_disk : disk :=
  (mk_ata (fun k => replicate 512 (u8 k))
     (replicate 54 0 ++ [66; 65] ++ replicate 38 32 ++ replicate 26 0 ++ [232; 3] ++ replicate 390 0)
     0 0 0 0 0 Idle, false).

Lemma ide_init_ok_witness :
  exists dev d, ide_init 3 zero_device named_disk = Ok (0, dev, d) /\ size dev = 1000 /\
    desc dev = [65; 66] ++ replicate 39 0.
Proof.
  destruct (ide_init_ok 3 zero_device named_disk) as (dev & d & Hr & _ & Hs & Hz & Hd & _); [simpl; lia | done | done |].
  exists dev, d. split; [exact Hr |]. rewrite Hz, Hd, Hs. split; reflexivity.
Defined.
