(* ===== verification/Fs.v ===== *)
(** * The file system ([lib/fs.cc], [include/fs.h])

    The MINIX file system on the block cache and the IDE driver.  The on-disk
    structures are what they are in memory, bytes: the super block, the inodes and the
    directory entries are byte lists with accessors at the offsets of the packed structs.
    A [block_buffer*] is the address of its node in the cache. *)

From stdpp Require Import prelude gmap strings.
From Stdlib Require Import ZArith Lia.
From S2P Require Import Prelude CString LruCache LruCorrect Ide.
Import ide.

(** ** The data *)

Definition kMBRBNO : Z := 0.
Definition kSuperBlockBNO : Z := 1.
Definition kRootINO : Z := 1.
Definition kNameLen : Z := 30.
Definition kSuperMagic : Z := 0x137F.
Definition kBlockSectorFactor : Z := 2.
Definition kBlockSize : Z := 1024.
Definition kZoneBlockFactor : Z := 1.
Definition kZoneSize : Z := kBlockSize * kZoneBlockFactor.
Definition kNumInodes : Z := 128.
Definition kCacheBlocks : Z := 307.

Definition S_IFMT : Z := 0xF000.
Definition S_IFDIR : Z := 0x4000.
Definition S_IFREG : Z := 0x8000.

Definition is_regular (mode : Z) : bool := Z.land mode S_IFMT =? S_IFREG.
Definition is_directory (mode : Z) : bool := Z.land mode S_IFMT =? S_IFDIR.

Definition block_to_sector (bno : Z) : Z := u32 (bno * kBlockSectorFactor).
Definition sector_to_block (sno : Z) : Z := sno / kBlockSectorFactor.
Definition zone_to_block (zone_idx : Z) : Z := u32 (zone_idx * kZoneBlockFactor).
Definition block_to_zone (block_idx : Z) : Z := block_idx / kZoneBlockFactor.
Definition block_addr (block_idx : Z) : Z := u32 (block_idx * kBlockSize).

(** [(x-1) / y + 1] on [int]: the division truncates. *)
Definition ceil_div (x y : Z) : outcome Z :=
  if y =? 0 then Fault else Ok (Z.quot (x - 1) y + 1).

(** [struct block_buffer]. *)
Record block_buffer := mk_buffer { data : list Z; bb_count : Z; bb_lock : Z }.

Definition with_data (bs : list Z) (b : block_buffer) : block_buffer :=
  mk_buffer bs (bb_count b) (bb_lock b).

(** The array [data] has 1024 elements; those the list does not give are 0. *)
Definition bytes_of (b : block_buffer) : list Z := take 1024 (data b ++ replicate 1024 0).

(** The [n]-byte field at an offset of a packed struct. *)
Definition field (off n : nat) (bs : list Z) : Z := le_decode (take n (drop off bs)).

(** [d_inode], the first 32 bytes of [m_inode], which is 56 bytes long. *)
Definition sizeof_d_inode : Z := 32.
Definition sizeof_m_inode : Z := 56.
Definition i_mode (i : list Z) : Z := field 0 2 i.
Definition i_size (i : list Z) : Z := field 4 4 i.
Definition i_zone (i : list Z) (k : Z) : outcome Z :=
  if decide (0 <= k < 9) then Ok (field (14 + 2 * Z.to_nat k) 2 i) else Fault.

(** [super_block] is 39 bytes long; [d_super_block] is not packed: 20. *)
Definition sizeof_super_block : Z := 39.
Definition sizeof_d_super_block : Z := 20.
Definition num_inodes (sb : list Z) : Z := field 0 2 sb.
Definition num_zones (sb : list Z) : Z := field 2 2 sb.
Definition num_imap_blocks (sb : list Z) : Z := field 4 2 sb.
Definition num_zmap_blocks (sb : list Z) : Z := field 6 2 sb.

(** [dir_entry]: the inode number, and the name. *)
Definition sizeof_dir_entry : Z := 32.

Module fs.
Section fs.
Context {D : Type} `{Device D} `{NodeAlloc block_buffer}.

(** Fuel for the polling loops and the string functions, the device found by
    [ide_init], and the address of [uncache]. *)
Context (fuel : nat) (dev : ide_device) (uncache_addr : Z).

Abbreviation cache := (LRUCache.t (T := block_buffer)).

(** The global variables; the maps are the [data_] of [g_imap] and [g_zmap]. *)
Record t := mk {
  g_block_cache : cache;
  g_super_block : list Z;
  g_inode_table : list (list Z);
  g_imap : list Z;
  g_zmap : list Z;
  disk_ : D
}.

Definition with_cache (c : cache) (d : D) (s : t) : t :=
  mk c (g_super_block s) (g_inode_table s) (g_imap s) (g_zmap s) d.

(** ** Blocks *)

(** The rest of [write_block] when the block is cached. *)
Definition write_cached (bno p : Z) (c : cache) (d : D) : outcome D :=
  let! nd := LRUCache.load (LRUCache.heap c) p in
  let! '(_, d) := ide_write_secs fuel dev (block_to_sector bno) (bytes_of (value nd))
                    (block_to_sector 1) d in
  Ok d.

Definition cache_write_block (bno : Z) (c : cache) (d : D) : outcome (bool * cache * D) :=
  let! '(p, c) := LRUCache.Get kCacheBlocks bno c in
  if negb (p =? 0) then let! d := write_cached bno p c d in Ok (true, c, d)
  else Ok (false, c, d).

Definition write_block (bno : Z) (s : t) : outcome (bool * t) :=
  let! '(r, c, d) := cache_write_block bno (g_block_cache s) (disk_ s) in
  Ok (r, with_cache c d s).

(** The callback of the cache. *)
Definition uncache (bno node : Z) (c : cache) (d : D) : outcome (cache * D) :=
  let! '(_, c, d) := cache_write_block bno c d in Ok (c, d).

Definition invoke (cb k node : Z) (c : cache) (d : D) : outcome (cache * D) :=
  if cb =? uncache_addr then uncache k node c d else Fault.

Definition get_block (bno : Z) (s : t) : outcome (Z * t) :=
  let! '(p, c) := LRUCache.Get kCacheBlocks bno (g_block_cache s) in
  if p =? 0 then
    let! '(p, c, d) := LRUCache.Alloc kCacheBlocks invoke bno c (disk_ s) in
    Ok (p, with_cache c d s)
  else Ok (p, with_cache c (disk_ s) s).

(** [ide_read_secs] into the buffer at [p]. *)
Definition fill_block (bno p : Z) (c : cache) (d : D) : outcome (cache * D) :=
  let! nd := LRUCache.load (LRUCache.heap c) p in
  let! '(_, bs, d) := ide_read_secs fuel dev (block_to_sector bno) (bytes_of (value nd))
                        (block_to_sector 1) d in
  let! h := LRUCache.store_value p (with_data bs (value nd)) (LRUCache.heap c) in
  Ok (LRUCache.mk h (LRUCache.queue_ c) (LRUCache.free_ c) (LRUCache.table_ c)
        (LRUCache.count_ c) (LRUCache.cb_ c), d).

Definition read_block (bno : Z) (s : t) : outcome (Z * t) :=
  let! '(p, c) := LRUCache.Get kCacheBlocks bno (g_block_cache s) in
  if p =? 0 then
    let! '(p, c, d) := LRUCache.Alloc kCacheBlocks invoke bno c (disk_ s) in
    let! '(c, d) := fill_block bno p c d in
    Ok (p, with_cache c d s)
  else Ok (p, with_cache c (disk_ s) s).

(** Reading and writing through a [block_buffer*]. *)
Definition block_get (p : Z) (off n : Z) (s : t) : outcome (list Z) :=
  let! nd := LRUCache.load (LRUCache.heap (g_block_cache s)) p in
  or_fault (get_bytes (Z.to_nat off) (Z.to_nat n) (bytes_of (value nd))).

Definition block_put (p : Z) (off : Z) (bs : list Z) (s : t) : outcome t :=
  let c := g_block_cache s in
  let! nd := LRUCache.load (LRUCache.heap c) p in
  let! buf := or_fault (put_bytes (Z.to_nat off) bs (bytes_of (value nd))) in
  let! h := LRUCache.store_value p (with_data buf (value nd)) (LRUCache.heap c) in
  Ok (with_cache (LRUCache.mk h (LRUCache.queue_ c) (LRUCache.free_ c) (LRUCache.table_ c)
                    (LRUCache.count_ c) (LRUCache.cb_ c)) (disk_ s) s).

(** The loop of [read_blocks] for [n] items from item [i]: [off] is [src - block],
    and [put i] stores the bytes of an item at [dst]. *)
Fixpoint read_items (n : nat) (i bno block off in_size size : Z) (put : Z -> list Z -> t -> outcome t)
    (s : t) : outcome (bool * t) :=
  match n with
  | O => Ok (true, s)
  | S n' =>
      let copy bno block off s :=
        let! bs := block_get block off size s in
        let! s := put i bs s in
        read_items n' (i + 1) bno block (off + in_size) in_size size put s in
      if kBlockSize <=? off then
        let bno := u32 (bno + 1) in
        let! '(block, s) := read_block bno s in
        if block =? 0 then Ok (false, s) else copy bno block 0 s
      else copy bno block off s
  end.

Definition read_blocks (start_bno count in_size size : Z) (put : Z -> list Z -> t -> outcome t)
    (s : t) : outcome (bool * t) :=
  let! '(block, s) := read_block start_bno s in
  read_items (Z.to_nat count) 0 start_bno block 0 in_size size put s.

(** The loop of [write_blocks]: the number of the last block, or nothing when the
    function returned [false]. *)
Fixpoint write_items (n : nat) (i bno block off out_size : Z) (get : Z -> t -> outcome (list Z))
    (s : t) : outcome (option Z * t) :=
  match n with
  | O => Ok (Some bno, s)
  | S n' =>
      let copy bno block off s :=
        let! bs := get i s in
        let! s := block_put block off bs s in
        write_items n' (i + 1) bno block (off + out_size) out_size get s in
      if kBlockSize <=? off then
        let! '(_, s) := write_block bno s in
        let bno := u32 (bno + 1) in
        let! '(block, s) := get_block bno s in
        if block =? 0 then Ok (None, s) else copy bno block 0 s
      else copy bno block off s
  end.

Definition write_blocks (output_bno count out_size : Z) (get : Z -> t -> outcome (list Z)) (s : t)
    : outcome (bool * t) :=
  let! '(block, s) := get_block output_bno s in
  let! '(r, s) := write_items (Z.to_nat count) 0 output_bno block 0 out_size get s in
  match r with
  | None => Ok (false, s)
  | Some bno => let! '(_, s) := write_block bno s in Ok (true, s)
  end.

(** ** Synchronisation *)

Definition sync_super_block (s : t) : outcome t :=
  let! '(block, s) := get_block kSuperBlockBNO s in
  let! s := block_put block 0 (take (Z.to_nat sizeof_d_super_block) (g_super_block s)) s in
  let! '(_, s) := write_block kSuperBlockBNO s in
  Ok s.

Definition byte_at (l : list Z) (i : Z) : outcome (list Z) :=
  let! b := or_fault (lget l i) in Ok [b].

Definition sync_imap (s : t) : outcome t :=
  let imap_start := 2 in
  let count := num_inodes (g_super_block s) / 8 in
  let! '(_, s) := write_blocks imap_start count 1 (fun i s => byte_at (g_imap s) i) s in
  Ok s.

Definition sync_zmap (s : t) : outcome t :=
  let zmap_start := 2 + num_imap_blocks (g_super_block s) in
  let count := num_zones (g_super_block s) / 8 in
  let! '(_, s) := write_blocks zmap_start count 1 (fun i s => byte_at (g_zmap s) i) s in
  Ok s.

Definition sync_inodes (s : t) : outcome t :=
  let sb := g_super_block s in
  let inode_start := 2 + num_imap_blocks sb + num_zmap_blocks sb in
  let! '(_, s) :=
    write_blocks inode_start (num_inodes sb) sizeof_d_inode
      (fun i s => let! ino := or_fault (lget (g_inode_table s) (1 + i)) in
                  Ok (take (Z.to_nat sizeof_d_inode) ino)) s in
  Ok s.

Definition sync_all (s : t) : outcome t :=
  let! s := sync_super_block s in
  let! s := sync_imap s in
  let! s := sync_zmap s in
  sync_inodes s.

(** ** Inodes and directories *)

(** An [m_inode*] is an index of [g_inode_table]. *)
Definition inode_at (ino : Z) (s : t) : outcome (list Z) := or_fault (lget (g_inode_table s) ino).

(** [zones[k]] in the block at [p]. *)
Definition zone_entry (p k : Z) (s : t) : outcome Z :=
  let! bs := block_get p (2 * k) 2 s in Ok (le_decode bs).

Definition read_zone (inode : Z) (zone : Z) (s : t) : outcome (Z * t) :=
  let! i := inode_at inode s in
  if zone <? 7 then
    let! z := i_zone i zone in read_block z s
  else if zone <? 7 + 512 then
    let zone := u32 (zone - 7) in
    let! z := i_zone i 7 in
    let! '(zones, s) := read_block z s in
    let! z := zone_entry zones zone s in
    read_block z s
  else
    let zone := u32 (zone - (7 + 512)) in
    let! z := i_zone i 8 in
    let! '(zone_table, s) := read_block z s in
    let! z := zone_entry zone_table (zone / 512) s in
    let! '(zones, s) := read_block z s in
    let! z := zone_entry zones (zone mod 512) s in
    read_block z s.

(** The loop of [traverse_dir]; [cb] is given the address and the offset of the
    entry, and acts on the file system and on what else it captures ([W]).  [None] is
    [nullptr]. *)
Fixpoint traverse_loop {W : Type} (n : nat) (dir zone_cnt zone off : Z)
    (cb : Z -> Z -> t -> W -> outcome (bool * t * W)) (s : t) (w : W) : outcome (option Z * t * W) :=
  match n with
  | O => Ok (None, s, w)
  | S n' =>
      let! '(zone_cnt, zone, off, s) :=
        (if kZoneSize <=? off then
           let zone_cnt := zone_cnt + 1 in
           let! '(p, s) := read_zone dir zone_cnt s in Ok (zone_cnt, p, 0, s)
         else Ok (zone_cnt, zone, off, s)) in
      let! '(stop, s, w) := cb zone off s w in
      if (stop : bool) then
        let! bs := block_get zone off 2 s in Ok (Some (le_decode bs), s, w)
      else traverse_loop n' dir zone_cnt zone (off + sizeof_dir_entry) cb s w
  end.

Definition traverse_dir {W : Type} (dir : Z) (cb : Z -> Z -> t -> W -> outcome (bool * t * W)) (s : t) (w : W)
    : outcome (option Z * t * W) :=
  let! i := inode_at dir s in
  if negb (is_directory (i_mode i)) then Ok (None, s, w)
  else
    let! '(zone, s) := read_zone dir 0 s in
    let num_entries := i_size i / sizeof_dir_entry in
    traverse_loop (Z.to_nat num_entries) dir 0 zone 0 cb s w.

(** Characters in the block at [p]. *)
Definition block_reader (p : Z) (s : t) : reader := fun off =>
  let! bs := block_get p off 1 s in Ok (le_decode bs).

(** [name] is at address [pos] of the path. *)
Definition find_entry (dir : Z) (path : reader) (pos : Z) (s : t) : outcome (option Z * t) :=
  let! i := inode_at dir s in
  if negb (is_directory (i_mode i)) then Ok (None, s)
  else
    let! '(r, s, _) :=
      traverse_dir dir (fun p off s (_ : unit) =>
        let! z := strcmp fuel (block_reader p s) path (off + 2) pos in
        Ok (z =? 0, s, tt)) s tt in
    Ok (r, s).

(** The loop of [namei]; looking in a null inode is a fault. *)
Fixpoint namei_loop (turns : nat) (path : reader) (inode : option Z) (delim : Z) (s : t)
    : outcome (option Z * t) :=
  match turns with
  | O => NoFuel
  | S turns' =>
      let pos := delim + 1 in
      let! delim := strfind fuel path pos 47 in
      let! dir := or_fault inode in
      let! '(inode, s) := find_entry dir path pos s in
      let! c := path delim in
      if c =? 0 then Ok (inode, s) else namei_loop turns' path inode delim s
  end.

Definition namei (path : reader) (s : t) : outcome (option Z * t) :=
  let! c := path 0 in
  kassert (c =? 47) "path must start with /" (namei_loop fuel path (Some kRootINO) 0 s).

(** ** Initialisation *)

(** [memcpy] into the first bytes of the inode [1 + i]. *)
Definition put_inode (i : Z) (bs : list Z) (s : t) : outcome t :=
  let! ino := or_fault (lget (g_inode_table s) (1 + i)) in
  let! ino := or_fault (put_bytes 0 bs ino) in
  let! tb := or_fault (lset (g_inode_table s) (1 + i) ino) in
  Ok (mk (g_block_cache s) (g_super_block s) tb (g_imap s) (g_zmap s) (disk_ s)).

Definition put_imap (i : Z) (bs : list Z) (s : t) : outcome t :=
  let! m := or_fault (lset (g_imap s) i (default 0 (head bs))) in
  Ok (mk (g_block_cache s) (g_super_block s) (g_inode_table s) m (g_zmap s) (disk_ s)).

Definition put_zmap (i : Z) (bs : list Z) (s : t) : outcome t :=
  let! m := or_fault (lset (g_zmap s) i (default 0 (head bs))) in
  Ok (mk (g_block_cache s) (g_super_block s) (g_inode_table s) (g_imap s) m (disk_ s)).

Definition set_callback (s : t) : t :=
  with_cache (LRUCache.SetUncacheCallback uncache_addr (g_block_cache s)) (disk_ s) s.

Definition init_fs (s : t) : outcome t :=
  let! '(p, s) := read_block kSuperBlockBNO s in
  let! sb := block_get p 0 sizeof_super_block s in
  let s := mk (g_block_cache s) sb (g_inode_table s) (g_imap s) (g_zmap s) (disk_ s) in
  let s := set_callback s in
  let block_start := 2 + num_imap_blocks sb + num_zmap_blocks sb in
  let! '(_, s) := read_blocks block_start (num_inodes sb) sizeof_d_inode sizeof_d_inode put_inode s in
  let! '(_, s) := read_blocks 2 (num_inodes sb / 8) 1 1 put_imap s in
  let! '(_, s) := read_blocks (2 + num_imap_blocks sb) (num_zones sb / 8) 1 1 put_zmap s in
  Ok s.

End fs.
End fs.
Import fs.

(** ** The cache is transparent *)

(** Block numbers whose sectors exist. *)
Definition block_ok (b : Z) : Prop := 0 <= b /\ 2 * b + 2 <= 0x10000000.

Lemma cache_bounds : 1 < kCacheBlocks < 4294967296.
Proof. done. Qed.

Lemma length_bytes_of v : length (bytes_of v) = 1024%nat.
Proof. unfold bytes_of. rewrite length_take, length_app, length_replicate. lia. Qed.

Lemma bytes_of_with bs v : length bs = 1024%nat -> bytes_of (with_data bs v) = bs.
Proof.
  intros Hl. unfold bytes_of, with_data. cbn [data]. by rewrite <- Hl, take_app_length.
Qed.

Lemma block_sector b : block_ok b -> block_to_sector b = 2 * b.
Proof.
  intros [Hb0 Hb]. unfold block_to_sector, kBlockSectorFactor. rewrite u32_small by lia. lia.
Qed.

(** The numberings of blocks, sectors and zones. *)
Lemma sector_to_block_to_sector b : block_ok b -> sector_to_block (block_to_sector b) = b.
Proof.
  intros Hb. rewrite block_sector by done. unfold sector_to_block, kBlockSectorFactor.
  rewrite Z.mul_comm. by apply Z.div_mul.
Qed.

Lemma block_to_zone_to_block z : 0 <= z < 4294967296 -> block_to_zone (zone_to_block z) = z.
Proof.
  intros Hz. unfold block_to_zone, zone_to_block, kZoneBlockFactor. rewrite u32_small by lia. rewrite Z.mul_1_r. apply Z.div_1_r.
Qed.

(** Its argument has 16 bits: the address of a block past 65535 is that of another one. *)
Lemma block_addr_exact b : 0 <= b < 65536 -> block_addr b = 1024 * b.
Proof. intros Hb. unfold block_addr, kBlockSize. rewrite u32_small by lia. lia. Qed.

(** [ceil_div] rounds up from 1 on; of 0 it gives 1. *)
Lemma ceil_div_up x y :
  0 < x -> 0 < y -> exists q, ceil_div x y = Ok q /\ (q - 1) * y < x <= q * y.
Proof.
  intros Hx Hy. unfold ceil_div. rewrite (proj2 (Z.eqb_neq y 0)) by lia. eexists. split; [done |].
  rewrite Z.quot_div_nonneg by lia. pose proof (Z.div_mod (x - 1) y ltac:(lia)).
  pose proof (Z.mod_pos_bound (x - 1) y Hy). nia.
Qed.

Lemma ceil_div_zero y : 1 < y -> ceil_div 0 y = Ok 1.
Proof.
  intros Hy. unfold ceil_div. rewrite (proj2 (Z.eqb_neq y 0)) by lia.
  replace (0 - 1) with (- (1)) by lia. rewrite Z.quot_opp_l, Z.quot_small by lia. done.
Qed.

Lemma repr_at_load N (c : LRUCache.t (T := block_buffer)) l p k v :
  repr_at N c l p k v -> exists nd, LRUCache.load (LRUCache.heap c) p = Ok nd /\ value nd = v.
Proof.
  intros (q & _ & _ & _ & Hd). apply dat_load in Hd as (nd & ? & _ & ?). by exists nd.
Qed.

Lemma lookup_snoc (l : list (Z * block_buffer)) k v b :
  NoDup (l ++ [(k, v)]).*1 -> b <> k -> spec.lookup b (l ++ [(k, v)]) = spec.lookup b l.
Proof.
  intros Hnd Hne. apply option_eq. intros w. rewrite !lookup_Some; try done.
  - rewrite elem_of_app, list_elem_of_singleton. naive_solver.
  - rewrite fmap_app in Hnd. by apply NoDup_app in Hnd as [? _].
Qed.

Lemma block_get_ok {D} (s : fs.t (D := D)) l p b v off size :
  repr_at kCacheBlocks (g_block_cache s) l p b v -> 0 <= off -> 0 < size -> off + size <= kBlockSize ->
  block_get p off size s = Ok (take (Z.to_nat size) (drop (Z.to_nat off) (bytes_of v))).
Proof.
  intros Hat Ho Hs Hb. unfold block_get, kBlockSize in *.
  destruct (repr_at_load _ _ _ _ _ _ Hat) as (nd & Hload & Hv). rewrite Hload. cbn [obind]. rewrite Hv.
  unfold get_bytes. by rewrite decide_True by (rewrite length_bytes_of; lia).
Qed.

Section proofs.
Context {D : Type} `{AtaDisk D} `{NodeAlloc block_buffer}.
Context (fuel : nat) (dev : ide_device) (uncache_addr : Z).
Implicit Types (d : D) (l : list (Z * block_buffer)).

Hypothesis Hfuel : (busy_bound < fuel)%nat.
Hypothesis Hdev : valid dev = 1.

Abbreviation st := (fs.t (D := D)).
Abbreviation cinvoke := (invoke fuel dev uncache_addr).

(** Block [b] of the disk. *)
Definition disk_block d b : list Z := sectors_at (sectors (ata_of d)) (2 * b) 2.

(** A block as the file system sees it: what is cached, or what is on disk. *)
Definition content (s : st) l b : list Z :=
  match spec.lookup b l with
  | Some v => bytes_of v
  | None => disk_block (disk_ s) b
  end.

(** The cache represents [l], and the disk has sectors of 512 bytes. *)
Record good (s : st) l : Prop := {
  good_cache : repr kCacheBlocks (g_block_cache s) l;
  good_disk : disk_ok (sectors (ata_of (disk_ s)))
}.

(** The other variables are as they were. *)
Definition same_vars (s s' : st) : Prop :=
  g_super_block s' = g_super_block s /\ g_inode_table s' = g_inode_table s /\
  g_imap s' = g_imap s /\ g_zmap s' = g_zmap s.

Lemma same_vars_trans s1 s2 s3 : same_vars s1 s2 -> same_vars s2 s3 -> same_vars s1 s3.
Proof. unfold same_vars. intros (?&?&?&?) (?&?&?&?). split_and!; congruence. Qed.

Lemma good_keys s l : good s l -> NoDup l.*1.
Proof. intros [Hr _]. by eapply repr_keys. Qed.

(** A read of the two sectors of a block. *)
Lemma read_disk_block b buf d :
  block_ok b -> disk_ok (sectors (ata_of d)) -> length buf = 1024%nat ->
  exists d', ide_read_secs fuel dev (block_to_sector b) buf (block_to_sector 1) d =
      Ok (0, disk_block d b, d') /\ sectors (ata_of d') = sectors (ata_of d).
Proof.
  intros Hb Hd Hl. rewrite block_sector by done. change (block_to_sector 1) with 2. destruct Hb as [Hb0 Hb].
  destruct (read_secs_run fuel dev (2 * b) 2 buf d Hfuel Hd Hdev) as (buf' & d' & Hr & Hs & _ & Hbuf);
    [lia | done | lia | done |].
  exists d'. rewrite Hr, Hbuf by lia. done.
Qed.

Lemma fill_block_ok c l p b v d :
  repr_at kCacheBlocks c l p b v -> block_ok b -> disk_ok (sectors (ata_of d)) ->
  exists v' c' d', fill_block fuel dev b p c d = Ok (c', d') /\
    repr_at kCacheBlocks c' (update b v' l) p b v' /\ bytes_of v' = disk_block d b /\
    sectors (ata_of d') = sectors (ata_of d).
Proof.
  intros Hat Hb Hd. unfold fill_block.
  destruct (repr_at_load _ _ _ _ _ _ Hat) as (nd & Hload & Hv). rewrite Hload. cbn [obind]. rewrite Hv.
  destruct (read_disk_block b (bytes_of v) d Hb Hd (length_bytes_of v)) as (d' & -> & Hs). cbn [obind].
  destruct (store_at kCacheBlocks cinvoke cache_bounds c l p b v (with_data (disk_block d b) v) Hat)
    as (h & -> & Hat'). cbn [obind].
  eexists _, _, d'. split; [reflexivity |]. split_and!; [exact Hat' | | done].
  apply bytes_of_with. unfold disk_block. by rewrite length_sectors_at.
Qed.

Lemma read_block_ok s l b :
  good s l -> block_ok b -> b ∈ l.*1 \/ Z.of_nat (length l) < kCacheBlocks ->
  exists p s' l' v, read_block fuel dev uncache_addr b s = Ok (p, s') /\ p <> 0 /\ good s' l' /\
    repr_at kCacheBlocks (g_block_cache s') l' p b v /\ bytes_of v = content s l b /\
    (forall b', content s' l' b' = content s l b') /\
    sectors (ata_of (disk_ s')) = sectors (ata_of (disk_ s)) /\ same_vars s s' /\
    (length l' <= S (length l))%nat /\ exists c d, s' = with_cache c d s.
Proof.
  intros Hg Hb Hroom. pose proof Hg as [Hr Hd]. pose proof (good_keys _ _ Hg) as Hnd.
  unfold read_block.
  destruct (Get_at kCacheBlocks cinvoke cache_bounds (g_block_cache s) l b Hr) as (p & c & Hget & Hcb & Hm).
  rewrite Hget. cbn [obind]. destruct (spec.lookup b l) as [v |] eqn:El.
  - pose proof (repr_at_repr _ _ _ _ _ _ Hm) as (Hr' & Hp & _).
    rewrite (proj2 (Z.eqb_neq p 0)) by done.
    exists p, (with_cache c (disk_ s) s), (spec.touch b l), v.
    assert (Hc : forall b', content (with_cache c (disk_ s) s) (spec.touch b l) b' = content s l b').
    { intros b'. unfold content. rewrite <- (lookup_perm l); [done | | done]. symmetry. apply touch_perm. }
    split_and!; try done; [unfold content; by rewrite El | | by eexists _, _].
    rewrite (Permutation_length (touch_perm b l)). lia.
  - destruct Hm as (Hk & -> & ->). cbn [Z.eqb]. destruct Hroom as [? | Hroom]; [done |].
    destruct (Alloc_at kCacheBlocks cinvoke cache_bounds (g_block_cache s) l b (disk_ s) Hr Hk
      ltac:(by left)) as (p & v & c & -> & _ & Hat). cbn [obind].
    unfold spec.alloc in Hat. rewrite decide_False in Hat by lia.
    pose proof (repr_at_repr _ _ _ _ _ _ Hat) as (Hr1 & Hp & _).
    pose proof (repr_keys _ _ _ Hr1) as Hnd1.
    destruct (fill_block_ok c _ p b v (disk_ s) Hat Hb Hd) as (v' & c' & d' & -> & Hat' & Hv' & Hs).
    cbn [obind]. pose proof (repr_at_repr _ _ _ _ _ _ Hat') as (Hr2 & _ & _).
    assert (Hblk : forall b', disk_block d' b' = disk_block (disk_ s) b').
    { intros b'. unfold disk_block. by rewrite Hs. }
    exists p, (with_cache c' d' s), (update b v' (l ++ [(b, v)])), v'. split_and!; try done.
    + split; [done |]. cbn. by rewrite Hs.
    + unfold content. by rewrite El.
    + intros b'. unfold content. cbn [with_cache disk_]. rewrite Hblk, lookup_update by
        (done || (rewrite fmap_app; apply elem_of_app; right; by apply list_elem_of_singleton)).
      case_decide as Hbb; [subst b'; by rewrite El |]. by rewrite lookup_snoc.
    + unfold update. rewrite length_map, length_app. simpl. lia.
    + by eexists _, _.
Qed.

(** *** Pointers to other blocks stay valid *)

(** reading a block, when it is cached or there is room for it, gives a
    pointer to a buffer with the block's current content, and changes the content of no
    block and no byte of the disk. *)
Theorem read_block_transparent s l b :
  good s l -> block_ok b -> b ∈ l.*1 \/ Z.of_nat (length l) < kCacheBlocks ->
  exists p s' l' v, read_block fuel dev uncache_addr b s = Ok (p, s') /\ p <> 0 /\ good s' l' /\
    repr_at kCacheBlocks (g_block_cache s') l' p b v /\ bytes_of v = content s l b /\
    (forall b', content s' l' b' = content s l b') /\
    sectors (ata_of (disk_ s')) = sectors (ata_of (disk_ s)) /\ same_vars s s'.
Proof.
  intros Hg Hb Hr. destruct (read_block_ok s l b Hg Hb Hr) as (p & s' & l' & v & H').
  exists p, s', l', v. tauto.
Qed.

Lemma disk_block_write d d' b bs b' :
  (forall x, sectors (ata_of d') x = write_image (sectors (ata_of d)) (2 * b) 2 bs x) ->
  length bs = 1024%nat ->
  disk_block d' b' = if decide (b' = b) then bs else disk_block d b'.
Proof.
  intros Hs Hl. unfold disk_block. rewrite (sectors_at_ext _ _ _ _ Hs). case_decide as Hb.
  - subst b'. by apply sectors_at_write.
  - cbn [sectors_at]. unfold write_image. by rewrite !decide_False by lia.
Qed.

Lemma write_block_ok s l b :
  good s l -> block_ok b ->
  exists r s' l', write_block fuel dev b s = Ok (r, s') /\ good s' l' /\
    r = bool_decide (b ∈ l.*1) /\ same_vars s s' /\ l' ≡ₚ l /\
    (forall b', content s' l' b' = content s l b') /\
    forall b', disk_block (disk_ s') b' =
      if decide (b' = b /\ b ∈ l.*1) then content s l b else disk_block (disk_ s) b'.
Proof.
  intros Hg Hb. pose proof Hg as [Hr Hd]. pose proof (good_keys _ _ Hg) as Hnd.
  unfold write_block, cache_write_block.
  destruct (Get_at kCacheBlocks cinvoke cache_bounds (g_block_cache s) l b Hr) as (p & c & Hget & Hcb & Hm).
  rewrite Hget. cbn [obind]. destruct (spec.lookup b l) as [v |] eqn:El.
  - pose proof (repr_at_repr _ _ _ _ _ _ Hm) as (Hr' & Hp & _).
    assert (Hin : b ∈ l.*1).
    { apply lookup_Some in El; [| done]. apply list_elem_of_fmap. by exists (b, v). }
    rewrite (proj2 (Z.eqb_neq p 0)) by done. cbn [negb]. unfold write_cached.
    destruct (repr_at_load _ _ _ _ _ _ Hm) as (nd & Hload & Hv). rewrite Hload. cbn [obind]. rewrite Hv.
    rewrite block_sector by done. change (block_to_sector 1) with 2. pose proof Hb as [Hb0 Hb1].
    destruct (write_secs_run fuel dev (2 * b) 2 (bytes_of v) (disk_ s) Hfuel Hdev) as (d' & -> & Hs);
      [lia | lia | lia | by rewrite length_bytes_of |]. cbn [obind].
    assert (Hblk := fun b' => disk_block_write _ _ _ _ b' Hs (length_bytes_of v)).
    exists true, (with_cache c d' s), (spec.touch b l). split_and!; try done.
    + split; [done |]. intros x. cbn. rewrite Hs. apply write_image_ok; [done |].
      by rewrite length_bytes_of.
    + by rewrite bool_decide_true.
    + apply touch_perm.
    + intros b'. unfold content. rewrite (lookup_perm _ l) by
        (apply touch_perm || (rewrite touch_perm; done)). cbn [with_cache disk_].
      rewrite Hblk. case_decide as Hbb; [subst b'; by rewrite El | done].
    + intros b'. cbn [with_cache disk_]. rewrite Hblk. unfold content. rewrite El.
      repeat case_decide; naive_solver.
  - destruct Hm as (Hk & -> & ->). cbn [Z.eqb negb obind].
    exists false, (with_cache (g_block_cache s) (disk_ s) s), l. split_and!; try done.
    + by rewrite bool_decide_false.
    + intros b'. rewrite decide_False by tauto. done.
Qed.

(** writing back a cached block puts its content on the disk, where every other
    block keeps its bytes; the contents the file system sees do not change.  A block that
    is not cached is not written. *)
Theorem write_block_through s l b :
  good s l -> block_ok b ->
  exists r s' l', write_block fuel dev b s = Ok (r, s') /\ good s' l' /\
    r = bool_decide (b ∈ l.*1) /\ same_vars s s' /\
    (forall b', content s' l' b' = content s l b') /\
    forall b', disk_block (disk_ s') b' =
      if decide (b' = b /\ b ∈ l.*1) then content s l b else disk_block (disk_ s) b'.
Proof.
  intros Hg Hb. destruct (write_block_ok s l b Hg Hb) as (r & s' & l' & H').
  exists r, s', l'. tauto.
Qed.

(** A store into a cached block. *)
Lemma block_put_ok s l p b v off bs buf :
  good s l -> repr_at kCacheBlocks (g_block_cache s) l p b v ->
  put_bytes off bs (bytes_of v) = Some buf ->
  exists s' l', block_put p (Z.of_nat off) bs s = Ok s' /\ good s' l' /\ same_vars s s' /\
    disk_ s' = disk_ s /\ length l' = length l /\ b ∈ l'.*1 /\
    (exists v', repr_at kCacheBlocks (g_block_cache s') l' p b v' /\ bytes_of v' = buf) /\
    forall b', content s' l' b' = if decide (b' = b) then buf else content s l b'.
Proof.
  intros Hg Hat Hput. pose proof Hg as [Hr Hd]. pose proof (good_keys _ _ Hg) as Hnd.
  unfold block_put. destruct (repr_at_load _ _ _ _ _ _ Hat) as (nd & Hload & Hv). rewrite Hload. cbn [obind]. rewrite Hv.
  rewrite Nat2Z.id, Hput. cbn [or_fault obind].
  destruct (store_at kCacheBlocks cinvoke cache_bounds (g_block_cache s) l p b v (with_data buf v) Hat)
    as (h & -> & Hat'). cbn [obind].
  pose proof (repr_at_repr _ _ _ _ _ _ Hat') as (Hr' & _ & _).
  assert (Hlen : length buf = 1024%nat).
  { by rewrite (put_bytes_length _ _ _ _ Hput), length_bytes_of. }
  assert (Hin : b ∈ l.*1).
  { destruct Hat as (q & _ & <- & Hq & Hdat). apply abs_key_elem. by exists p, v. }
  eexists _, (update b (with_data buf v) l). split_and!; [reflexivity | | done | done | | | |].
  - split; [exact Hr' | done].
  - unfold update. by rewrite length_map.
  - by rewrite update_keys.
  - exists (with_data buf v). split; [exact Hat' | by apply bytes_of_with].
  - intros b'. unfold content. rewrite lookup_update by done.
    case_decide; [by apply bytes_of_with | done].
Qed.

(** Bytes stored through a block's pointer are that block's new content, and
    no other block's; written back, they are on the disk. *)
Theorem block_put_content s l p b v off bs buf :
  good s l -> block_ok b -> repr_at kCacheBlocks (g_block_cache s) l p b v ->
  put_bytes off bs (bytes_of v) = Some buf ->
  exists s' l', block_put p (Z.of_nat off) bs s = Ok s' /\ good s' l' /\ same_vars s s' /\
    (forall b', content s' l' b' = if decide (b' = b) then buf else content s l b') /\
    exists s2 l2, write_block fuel dev b s' = Ok (true, s2) /\ good s2 l2 /\
      disk_block (disk_ s2) b = buf.
Proof.
  intros Hg Hb Hat Hput.
  destruct (block_put_ok s l p b v off bs buf Hg Hat Hput)
    as (s' & l' & Hp & Hg' & Hs & _ & _ & Hin & _ & Hc).
  destruct (write_block_ok s' l' b Hg' Hb) as (r & s2 & l2 & Hw & Hg2 & Hres & _ & _ & _ & Hdisk).
  rewrite bool_decide_true in Hres by done. subst r.
  exists s', l'. split_and!; try done. exists s2, l2. split_and!; [done | done |].
  by rewrite Hdisk, decide_True, Hc, decide_True by done.
Qed.

End proofs.

(** ** Concrete file systems *)

#[export] Instance buffer_inhabited : Inhabited block_buffer := populate (mk_buffer [] 0 0).

#[local] Existing Instance bump_alloc.

(** An empty cache and the test disk, before [init_fs]. *)
Definition fresh_fs : fs.t (D := disk) :=
  mk (LRUCache.make kCacheBlocks) (replicate 39 0) (replicate 128 (replicate 56 0))
    (replicate 16 0) (replicate 1280 0) test_disk.

Lemma fresh_good : good fresh_fs [].
Proof.
  split; [| exact test_disk_ok].
  apply (make_repr kCacheBlocks). exact cache_bounds.
Qed.

Lemma disk_fuel : (busy_bound (D := disk) < 3)%nat.
Proof. simpl. lia. Qed.

Lemma read_block_transparent_witness :
  exists p s l v, read_block 3 test_device 1 3 fresh_fs = Ok (p, s) /\ good s l /\
    repr_at kCacheBlocks (g_block_cache s) l p 3 v /\
    bytes_of v = replicate 512 6 ++ replicate 512 7.
Proof.
  destruct (read_block_transparent 3 test_device 1 disk_fuel eq_refl fresh_fs [] 3 fresh_good)
    as (p & s & l & v & Hr & _ & Hg & Hat & Hv & _); [unfold block_ok; lia | right; reflexivity |].
  exists p, s, l, v. split; [exact Hr |]. split; [exact Hg |]. split; [exact Hat |].
  rewrite Hv. reflexivity.
Defined.

Lemma write_block_through_witness :
  exists s l, write_block 3 test_device 3 fresh_fs = Ok (false, s) /\ good s l.
Proof.
  destruct (write_block_through 3 test_device 1 disk_fuel eq_refl fresh_fs [] 3 fresh_good)
    as (r & s & l & Hw & Hg & Hr & _); [unfold block_ok; lia |].
  exists s, l. split; [| exact Hg]. rewrite Hw, Hr. reflexivity.
Defined.

(** The block's first bytes are overwritten, and reach the disk. *)
Lemma block_put_content_witness :
  exists p s s' s2, read_block 3 test_device 1 3 fresh_fs = Ok (p, s) /\
    block_put p 0 [1; 2; 3] s = Ok s' /\ write_block 3 test_device 3 s' = Ok (true, s2) /\
    disk_block (disk_ s2) 3 = [1; 2; 3] ++ drop 3 (replicate 512 6 ++ replicate 512 7).
Proof.
  destruct (read_block_ok 3 test_device 1 disk_fuel eq_refl fresh_fs [] 3 fresh_good)
    as (p & s & l & v & Hr & _ & Hg & Hat & Hv & _); [unfold block_ok; lia | right; reflexivity |].
  destruct (block_put_content 3 test_device 1 disk_fuel eq_refl s l p 3 v 0 [1; 2; 3]
    ([1; 2; 3] ++ drop 3 (replicate 512 6 ++ replicate 512 7)) Hg) as (s' & l' & Hp & _ & _ & _ & s2 & l2 & Hw & _ & Hd);
    [unfold block_ok; lia | exact Hat | rewrite Hv; reflexivity |].
  exists p, s, s', s2. split; [exact Hr |]. split; [exact Hp |]. split; [exact Hw | exact Hd].
Defined.

(** A super block with 128 or more inodes overruns the inode table, whose entry
    0 is not used. *)
Lemma inode_table_overrun (s : fs.t (D := disk)) bs :
  length (g_inode_table s) = 128%nat -> put_inode 127 bs s = Fault.
Proof. intros Hl. unfold put_inode. rewrite lget_out by (rewrite Hl; lia). done. Qed.
