(* ===== verification/FsEvict.v ===== *)
(** * The block layer when blocks leave the cache ([lib/fs.cc])

    [init_fs] installs a callback that writes a block back when the cache evicts it.  The
    block layer is then an array of blocks for any sequence of requests, however many
    blocks they touch, although the callback spoils the order of the cache's queue:
    [blocks_refine].  [safe] is the invariant, [moved] what a step of the block layer promises to
    the rest of the file system. *)

From stdpp Require Import prelude gmap strings.
From Stdlib Require Import ZArith Lia.
From S2P Require Import Prelude CString LruCache LruCorrect LruEvict Ide Fs.
Import ide fs.

Section proofs.
Context {D : Type} `{AtaDisk D} `{NodeAlloc block_buffer}.
Context (fuel : nat) (dev : ide_device) (uncache_addr : Z).
Implicit Types (d : D) (m : gmap Z block_buffer).

Hypothesis Hfuel : (busy_bound < fuel)%nat.
Hypothesis Hdev : valid dev = 1.
Hypothesis Huncache : uncache_addr <> 0.

Abbreviation st := (fs.t (D := D)).
Abbreviation cinvoke := (invoke fuel dev uncache_addr).
Abbreviation cache_t := (LRUCache.t (T := block_buffer)).

(** A block as the file system sees it. *)
Definition seen m d b : list Z :=
  match m !! b with Some v => bytes_of v | None => disk_block d b end.

(** The cache holds [m], and its callback is installed. *)
Record safe (s : st) m : Prop := {
  sf_cache : holds_map kCacheBlocks (g_block_cache s) m;
  sf_callback : LRUCache.cb_ (g_block_cache s) = uncache_addr;
  sf_disk : disk_ok (sectors (ata_of (disk_ s)));
  sf_keys : forall k v, m !! k = Some v -> block_ok k
}.

Lemma holds_at_load (c : cache_t) m p k v :
  holds_at kCacheBlocks c m p k v ->
  exists nd, LRUCache.load (LRUCache.heap c) p = Ok nd /\ value nd = v.
Proof. intros (q & _ & _ & Hd). apply dat_load in Hd as (nd & ? & _ & ?). by exists nd. Qed.

(** What a write of a block leaves on the disk. *)
Definition written d k v d' : Prop :=
  forall x, sectors (ata_of d') x = write_image (sectors (ata_of d)) (2 * k) 2 (bytes_of v) x.

Lemma write_cached_ok (c : cache_t) p k v d :
  dat (LRUCache.heap c) p = Some (k, v) -> block_ok k ->
  exists d', write_cached fuel dev k p c d = Ok d' /\ written d k v d'.
Proof.
  intros Hd Hk. unfold write_cached. apply dat_load in Hd as (nd & -> & _ & <-). cbn [obind].
  rewrite block_sector by done. change (block_to_sector 1) with 2. destruct Hk as [Hk0 Hk].
  destruct (write_secs_run fuel dev (2 * k) 2 (bytes_of (value nd)) d Hfuel Hdev) as (d' & -> & Hs);
    [lia | lia | lia | by rewrite length_bytes_of |].
  cbn [obind]. by exists d'.
Qed.

Lemma written_disk d k v d' :
  written d k v d' -> disk_ok (sectors (ata_of d)) ->
  disk_ok (sectors (ata_of d')) /\
  forall b, disk_block d' b = if decide (b = k) then bytes_of v else disk_block d b.
Proof.
  intros Hw Hd. split; [| intros b; by apply (disk_block_write fuel Hfuel), length_bytes_of].
  intros x. rewrite Hw. apply write_image_ok; [done |]. by rewrite length_bytes_of.
Qed.

(** The callback finds its block in the cache and writes it. *)
Lemma uncache_ok (c : cache_t) q d :
  LRUCache.cb_ c = uncache_addr ->
  (forall p k v, p ∈ q -> dat (LRUCache.heap c) p = Some (k, v) -> block_ok k) ->
  callback_ok kCacheBlocks cinvoke c q d (written d).
Proof.
  intros Hcb Hkeys s1 p k v Hw Hc (_ & _ & Hcb1 & Hdat) Hp Hd.
  unfold invoke, uncache, cache_write_block. rewrite Hcb1, Hcb, Z.eqb_refl.
  destruct (Get_hit_in kCacheBlocks cache_bounds s1 q p k v Hw) as (s2 & -> & Hw2 & Hs2 & Hc2);
    [rewrite Hc; unfold kCacheBlocks; lia | done | by rewrite Hdat |].
  cbn [obind]. rewrite (proj2 (Z.eqb_neq p 0)) by (intros ->; by apply (wi_null _ _ _ Hw)). cbn [negb].
  pose proof Hs2 as (_ & _ & _ & Hdat2).
  destruct (write_cached_ok s2 p k v d) as (d' & -> & Hpost);
    [by rewrite Hdat2, Hdat | by apply (Hkeys p k v) |].
  cbn [obind]. exists s2, d'. by split_and!.
Qed.

(** ** Steps of the block layer *)

(** The blocks as the rest of the file system sees them. *)
Definition view (s : st) m : Z -> list Z := seen m (disk_ s).

(** [p] points to the cached copy of block [b]. *)
Definition at_block (s : st) m p b : Prop := exists v, holds_at kCacheBlocks (g_block_cache s) m p b v.

(** A later state of the same tables: of the contents only those of [P] may differ, and a block on the
    disk is what it was or what it was seen to be, when the cache has written it back. *)
Record moved (P : Z -> Prop) (s : st) m (s' : st) m' : Prop := {
  mv_safe : safe s' m';
  mv_vars : same_vars s s';
  mv_view : forall b, ~ P b -> view s' m' b = view s m b;
  mv_disk : forall b, ~ P b ->
    disk_block (disk_ s') b = disk_block (disk_ s) b \/ disk_block (disk_ s') b = view s m b
}.

(** At most [n] more blocks are cached, and while there is room for them none leaves. *)
Definition grows (n : Z) (s : st) m (s' : st) m' : Prop :=
  Z.of_nat (base.size m) + n <= kCacheBlocks ->
  Z.of_nat (base.size m') <= Z.of_nat (base.size m) + n /\ keeps (g_block_cache s) (g_block_cache s').

Lemma moved_refl P (s : st) m : safe s m -> moved P s m s m.
Proof. intros Hs. split; [done | done | done | by left]. Qed.

Lemma moved_trans P (s1 : st) m1 s2 m2 s3 m3 :
  moved P s1 m1 s2 m2 -> moved P s2 m2 s3 m3 -> moved P s1 m1 s3 m3.
Proof.
  intros [_ Hv1 Hw1 Hd1] [Hs Hv2 Hw2 Hd2]. split; [done | by eapply same_vars_trans | |].
  - intros b Hb. by rewrite Hw2, Hw1.
  - intros b Hb. destruct (Hd2 b Hb) as [-> | ->]; [by apply Hd1 | right; by apply Hw1].
Qed.

Lemma moved_weaken (P Q : Z -> Prop) (s : st) m s' m' :
  (forall b, P b -> Q b) -> moved P s m s' m' -> moved Q s m s' m'.
Proof. intros HPQ [? ? Hv Hd]. split; [done | done | intros b Hb; apply Hv; auto | intros b Hb; apply Hd; auto]. Qed.

Lemma grows_refl (s : st) m : grows 0 s m s m.
Proof. clear Hfuel. intros _. split; [lia | by intros ???]. Qed.

Lemma grows_trans n k l (s1 : st) m1 s2 m2 s3 m3 :
  grows n s1 m1 s2 m2 -> grows k s2 m2 s3 m3 -> 0 <= k -> n + k <= l -> grows l s1 m1 s3 m3.
Proof.
  clear Hfuel. intros Hg1 Hg2 Hk Hl Hroom. destruct (Hg1 ltac:(lia)) as [Hs1 Hk1]. destruct (Hg2 ltac:(lia)) as [Hs2 Hk2].
  split; [lia |]. intros p b v Hp. by apply Hk2, Hk1.
Qed.

Lemma at_view (s : st) m p b v : holds_at kCacheBlocks (g_block_cache s) m p b v -> view s m b = bytes_of v.
Proof. intros (_ & _ & E)%holds_at_map. unfold view, seen. by rewrite E. Qed.

Lemma at_nonnull (s : st) m p b : at_block s m p b -> p <> 0.
Proof. intros (v & (_ & ? & _)%holds_at_map). done. Qed.

Lemma at_in (s : st) m p b : at_block s m p b -> is_Some (m !! b).
Proof. intros (v & (_ & _ & E)%holds_at_map). by exists v. Qed.

(** A pointer stays good while the cache has room. *)
Lemma at_keeps (s : st) m s' m' p b :
  at_block s m p b -> keeps (g_block_cache s) (g_block_cache s') -> safe s' m' -> at_block s' m' p b.
Proof.
  intros (v & [_ Hc]%holds_at_cached) Hk Hs. exists v. apply holds_at_cached.
  split; [apply Hs | by apply Hk].
Qed.

Lemma length_view (s : st) m b : safe s m -> length (view s m b) = 1024%nat.
Proof.
  intros [_ _ Hd _]. unfold view, seen, disk_block.
  destruct (m !! b); [apply length_bytes_of | by rewrite length_sectors_at].
Qed.

(** A node for a block that is not cached, in a cache with or without room. *)
Lemma Alloc_block (s : st) m b :
  safe s m -> m !! b = None ->
  exists p v c d' m', LRUCache.Alloc kCacheBlocks cinvoke b (g_block_cache s) (disk_ s) = Ok (p, c, d') /\
    LRUCache.cb_ c = uncache_addr /\ holds_at kCacheBlocks c (<[b := v]> m') p b v /\
    m' !! b = None /\ disk_ok (sectors (ata_of d')) /\
    (forall k u, m' !! k = Some u -> m !! k = Some u) /\
    (forall b', seen m' d' b' = seen m (disk_ s) b') /\
    (forall b', disk_block d' b' = disk_block (disk_ s) b' \/ disk_block d' b' = seen m (disk_ s) b') /\
    (Z.of_nat (base.size m) < kCacheBlocks -> m' = m /\ keeps (g_block_cache s) c).
Proof.
  intros [Hh Hcb Hd Hk] Hb.
  destruct (Alloc_map kCacheBlocks cinvoke cache_bounds (g_block_cache s) m b (disk_ s) (written (disk_ s)) Hh Hb)
    as (p & v & c & d' & m' & -> & Hcb' & Hat & Hcase).
  { intros _. split; [by rewrite Hcb |]. intros q Hq. apply uncache_ok; [done |].
    intros p k v Hp Hdat. apply (Hk k v), (ho_map _ _ _ _ Hq). eauto. }
  exists p, v, c, d', m'. split; [done |]. split; [congruence |]. split; [done |].
  destruct Hcase as [(-> & -> & Hkeep) | (Hsz & kp & vp & Hkp & -> & Hw)]; [by split_and!; [.. | left |] |].
  destruct (written_disk _ _ _ _ Hw Hd) as [Hd' Hblk].
  split_and!; [by rewrite lookup_delete_None; right | done | by intros k u [_ ?]%lookup_delete_Some | | | lia].
  - intros b'. unfold seen. rewrite Hblk. destruct (decide (b' = kp)) as [-> | Hne].
    + by rewrite lookup_delete_eq, Hkp.
    + by rewrite lookup_delete_ne.
  - intros b'. rewrite Hblk. unfold seen. destruct (decide (b' = kp)) as [-> | Hne]; [right; by rewrite Hkp | by left].
Qed.

(** [fill_block], on a node of the cache. *)
Lemma fill_block_any (c : cache_t) m p b v d :
  holds_at kCacheBlocks c m p b v -> block_ok b -> disk_ok (sectors (ata_of d)) ->
  exists v' c' d', fill_block fuel dev b p c d = Ok (c', d') /\ LRUCache.cb_ c' = LRUCache.cb_ c /\
    holds_at kCacheBlocks c' (<[b := v']> m) p b v' /\ bytes_of v' = disk_block d b /\
    sectors (ata_of d') = sectors (ata_of d) /\
    forall p' k u, k <> b -> cached c p' k u -> cached c' p' k u.
Proof.
  intros Hat Hb Hd. unfold fill_block.
  destruct (holds_at_load _ _ _ _ _ Hat) as (nd & -> & Hv). cbn [obind]. rewrite Hv.
  destruct (read_disk_block fuel dev Hfuel Hdev b (bytes_of v) d Hb Hd (length_bytes_of v)) as (d' & -> & Hs).
  cbn [obind].
  destruct (store_map kCacheBlocks cinvoke cache_bounds c m p b v (with_data (disk_block d b) v) Hat)
    as (h & -> & Hat' & Hkeep). cbn [obind].
  eexists _, _, d'. split; [reflexivity |]. split_and!; [done | exact Hat' | | done | exact Hkeep].
  apply bytes_of_with. unfold disk_block. by rewrite length_sectors_at.
Qed.

Lemma safe_at (s : st) m c d p b v :
  holds_at kCacheBlocks c m p b v -> LRUCache.cb_ c = uncache_addr -> disk_ok (sectors (ata_of d)) ->
  (forall k u, m !! k = Some u -> block_ok k) -> safe (with_cache c d s) m.
Proof. intros Hat Hcb Hd Hk. split; try done. by apply holds_at_map in Hat as [? _]. Qed.

(** A block that is in the cache. *)
Lemma Get_cached (s : st) m b c p v :
  safe s m -> m !! b = Some v -> LRUCache.cb_ c = LRUCache.cb_ (g_block_cache s) ->
  keeps (g_block_cache s) c -> holds_at kCacheBlocks c m p b v ->
  let s' := with_cache c (disk_ s) s in
  moved (fun _ => False) s m s' m /\ at_block s' m p b /\ grows 1 s m s' m.
Proof.
  intros [Hh Hcb Hd Hk] Hv Hcb' Hkeep Hat s'. split_and!; [| by exists v | intros _; split; [lia | done]].
  split; [| done | done | by left]. eapply safe_at; [exact Hat | congruence | done | done].
Qed.

(** [read_block], whatever the cache holds. *)
Lemma read_block_any (s : st) m b :
  safe s m -> block_ok b ->
  exists p s' m', read_block fuel dev uncache_addr b s = Ok (p, s') /\
    moved (fun _ => False) s m s' m' /\ at_block s' m' p b /\ grows 1 s m s' m' /\ exists c d, s' = with_cache c d s.
Proof.
  intros Hs Hb. pose proof Hs as [Hh Hcb Hd Hk]. unfold read_block.
  destruct (Get_map kCacheBlocks cache_bounds (g_block_cache s) m b Hh) as (p & c & -> & Hcb' & Hkeep & Hm).
  cbn [obind]. destruct (m !! b) as [v |] eqn:E.
  - pose proof (holds_at_map _ _ _ _ _ _ Hm) as (_ & Hp & _). rewrite (proj2 (Z.eqb_neq p 0)) by done.
    destruct (Get_cached s m b c p v Hs E Hcb' Hkeep Hm) as (? & ? & ?).
    exists p, (with_cache c (disk_ s) s), m. split_and!; try done. by eexists _, _.
  - destruct Hm as [-> ->]. cbn [Z.eqb].
    destruct (Alloc_block s m b Hs E)
      as (p & v & c1 & d1 & m1 & -> & Hcb1 & Hat & Hb1 & Hd1 & Hsub & Hseen & Hflush & Hroom). cbn [obind].
    destruct (fill_block_any c1 _ p b v d1 Hat Hb Hd1) as (v2 & c2 & d2 & -> & Hcb2 & Hat2 & Hv2 & Hs2 & Hkeep2).
    cbn [obind]. rewrite insert_insert_eq in Hat2.
    assert (Hblk : forall b', disk_block d2 b' = disk_block d1 b') by (intros b'; unfold disk_block; by rewrite Hs2).
    exists p, (with_cache c2 d2 s), (<[b := v2]> m1). split_and!; [done | | by exists v2 | | by eexists _, _].
    + split; [| done | |].
      * eapply safe_at; [exact Hat2 | congruence | by rewrite Hs2 |].
        intros k u [[<- _] | [_ Hku]]%lookup_insert_Some; [done | by apply (Hk k u), Hsub].
      * intros b' _. unfold view. cbn [with_cache disk_]. rewrite <- Hseen. unfold seen.
        destruct (decide (b' = b)) as [-> | Hne]; [by rewrite lookup_insert_eq, Hb1 | by rewrite lookup_insert_ne, Hblk by done].
      * intros b' _. cbn [with_cache disk_]. rewrite Hblk. apply Hflush.
    + intros Hr. destruct Hroom as [-> Hk1]; [lia |]. rewrite map_size_insert_None by done. split; [lia |].
      intros p' k u Hc. apply Hkeep2; [| by apply Hk1]. intros ->.
      assert (holds_at kCacheBlocks (g_block_cache s) m p' b u) as (_ & _ & E')%holds_at_map
        by (by apply holds_at_cached). congruence.
Qed.

(** [get_block] of a block that will be overwritten. *)
Lemma get_block_any (s : st) m b :
  safe s m -> block_ok b ->
  exists p s' m', get_block fuel dev uncache_addr b s = Ok (p, s') /\
    moved (eq b) s m s' m' /\ at_block s' m' p b.
Proof.
  intros Hs Hb. pose proof Hs as [Hh Hcb Hd Hk]. unfold get_block.
  destruct (Get_map kCacheBlocks cache_bounds (g_block_cache s) m b Hh) as (p & c & -> & Hcb' & Hkeep & Hm).
  cbn [obind]. destruct (m !! b) as [v |] eqn:E.
  - pose proof (holds_at_map _ _ _ _ _ _ Hm) as (_ & Hp & _). rewrite (proj2 (Z.eqb_neq p 0)) by done.
    destruct (Get_cached s m b c p v Hs E Hcb' Hkeep Hm) as (? & ? & ?).
    exists p, (with_cache c (disk_ s) s), m. split_and!; try done. by eapply moved_weaken; [| done].
  - destruct Hm as [-> ->]. cbn [Z.eqb].
    destruct (Alloc_block s m b Hs E)
      as (p & v & c1 & d1 & m1 & -> & Hcb1 & Hat & Hb1 & Hd1 & Hsub & Hseen & Hflush & _). cbn [obind].
    exists p, (with_cache c1 d1 s), (<[b := v]> m1). split_and!; [done | | by exists v].
    split; [| done | |].
    + eapply safe_at; [exact Hat | done | done |].
      intros k u [[<- _] | [_ Hku]]%lookup_insert_Some; [done | by apply (Hk k u), Hsub].
    + intros b' Hne. unfold view. cbn [with_cache disk_]. rewrite <- Hseen. unfold seen. by rewrite lookup_insert_ne.
    + intros b' _. apply Hflush.
Qed.

(** [write_block] puts a cached block on the disk, where the others keep their bytes. *)
Lemma write_block_any (s : st) m b :
  safe s m -> block_ok b ->
  exists r s', write_block fuel dev b s = Ok (r, s') /\ moved (fun _ => False) s m s' m /\
    (is_Some (m !! b) -> r = true /\ disk_block (disk_ s') b = view s m b).
Proof.
  intros Hs Hb. pose proof Hs as [Hh Hcb Hd Hk]. unfold write_block, cache_write_block.
  destruct (Get_map kCacheBlocks cache_bounds (g_block_cache s) m b Hh) as (p & c & -> & Hcb' & Hkeep & Hm).
  cbn [obind]. destruct (m !! b) as [v |] eqn:E.
  - pose proof (holds_at_map _ _ _ _ _ _ Hm) as (_ & Hp & _). rewrite (proj2 (Z.eqb_neq p 0)) by done. cbn [negb].
    destruct (write_cached_ok c p b v (disk_ s)) as (d' & -> & Hw); [by destruct Hm as (q & _ & _ & ?) | done |].
    cbn [obind]. destruct (written_disk _ _ _ _ Hw Hd) as [Hd' Hblk].
    assert (Hvb : view s m b = bytes_of v) by (unfold view, seen; by rewrite E).
    exists true, (with_cache c d' s). split; [done |]. split.
    + split; [| done | |].
      * eapply safe_at; [exact Hm | congruence | done | done].
      * intros b' _. unfold view, seen. cbn [with_cache disk_]. rewrite Hblk.
        case_decide as Eb; [subst; by rewrite E | done].
      * intros b' _. cbn [with_cache disk_]. rewrite Hblk. case_decide as Eb; [subst; by right | by left].
    + intros _. cbn [with_cache disk_]. by rewrite Hblk, decide_True.
  - destruct Hm as [-> ->]. cbn [Z.eqb negb obind].
    exists false, (with_cache (g_block_cache s) (disk_ s) s). split; [done |]. split; [| by intros []].
    split; [by split | done | done | by left].
Qed.

(** Loads and stores through the pointer to a cached block. *)
Lemma block_get_any (s : st) m p b off n :
  at_block s m p b -> 0 <= off -> 0 <= n -> off + n <= kBlockSize ->
  block_get p off n s = Ok (take (Z.to_nat n) (drop (Z.to_nat off) (view s m b))).
Proof.
  clear Hfuel. intros [v Hat] Ho Hn Hb. rewrite (at_view _ _ _ _ _ Hat). unfold block_get, kBlockSize in *.
  destruct (holds_at_load _ _ _ _ _ Hat) as (nd & -> & Hv). cbn [obind]. rewrite Hv.
  unfold get_bytes. by rewrite decide_True by (rewrite length_bytes_of; lia).
Qed.

Lemma block_put_any (s : st) m p b off bs :
  safe s m -> at_block s m p b -> 0 <= off -> off + Z.of_nat (length bs) <= kBlockSize ->
  exists s' m' buf, block_put p off bs s = Ok s' /\ moved (eq b) s m s' m' /\ at_block s' m' p b /\
    put_bytes (Z.to_nat off) bs (view s m b) = Some buf /\ view s' m' b = buf /\ disk_ s' = disk_ s.
Proof.
  clear Hfuel. intros Hs [v Hat] Ho Hb. rewrite (at_view _ _ _ _ _ Hat). unfold block_put, kBlockSize in *.
  destruct (holds_at_load _ _ _ _ _ Hat) as (nd & -> & Hv). cbn [obind]. rewrite Hv.
  assert (Hput := put_bytes_in (Z.to_nat off) bs (bytes_of v)).
  rewrite length_bytes_of in Hput. rewrite Hput by lia. cbn [or_fault obind].
  set (buf := take _ _ ++ _) in *.
  destruct (store_map kCacheBlocks cinvoke cache_bounds _ m p b v (with_data buf v) Hat) as (h & -> & Hat' & _).
  cbn [obind]. eexists _, (<[b := with_data buf v]> m), buf. split; [reflexivity |].
  assert (Hlen : length buf = 1024%nat).
  { rewrite <- (length_bytes_of v). eapply put_bytes_length. apply Hput. lia. }
  pose proof (holds_at_map _ _ _ _ _ _ Hat) as (_ & _ & Hmb).
  split; [| split; [by eexists |]; split; [done |]; split; [| done]].
  - split; [| done | | by left].
    + destruct Hs as [_ Hcb Hd Hk]. eapply safe_at; [exact Hat' | done | done |].
      intros k u [[<- _] | [_ Hku]]%lookup_insert_Some; [by apply (Hk b v) | by apply (Hk k u)].
    + intros b' Hne. unfold view, seen. cbn [with_cache disk_]. by rewrite lookup_insert_ne.
  - unfold view, seen. rewrite lookup_insert_eq. by apply bytes_of_with.
Qed.

(** ** Requests to the block layer *)

(** What the rest of the file system does with blocks: it reads bytes of a block, changes bytes
    of a block it has read, fills a block it has not read, and writes a block back. *)
Inductive request :=
| Load (b off n : Z)
| Store (b off : Z) (bs : list Z)
| Fill (b : Z) (bs : list Z)
| Flush (b : Z).

Definition serve (r : request) (s : st) : outcome (list Z * st) :=
  match r with
  | Load b off n =>
      let! '(p, s) := read_block fuel dev uncache_addr b s in
      let! bs := block_get p off n s in Ok (bs, s)
  | Store b off bs =>
      let! '(p, s) := read_block fuel dev uncache_addr b s in
      let! s := block_put p off bs s in Ok ([], s)
  | Fill b bs =>
      let! '(p, s) := get_block fuel dev uncache_addr b s in
      let! s := block_put p 0 bs s in Ok ([], s)
  | Flush b =>
      let! '(_, s) := write_block fuel dev b s in Ok ([], s)
  end.

Fixpoint serve_all (rs : list request) (s : st) : outcome (list (list Z) * st) :=
  match rs with
  | [] => Ok ([], s)
  | r :: rs' =>
      let! '(bs, s) := serve r s in
      let! '(out, s) := serve_all rs' s in Ok (bs :: out, s)
  end.

(** The bytes of a request are in its block, whose number is that of two sectors. *)
Definition request_ok (r : request) : Prop :=
  match r with
  | Load b off n => block_ok b /\ 0 <= off /\ 0 <= n /\ off + n <= kBlockSize
  | Store b off bs => block_ok b /\ 0 <= off /\ off + Z.of_nat (length bs) <= kBlockSize
  | Fill b bs => block_ok b /\ Z.of_nat (length bs) = kBlockSize
  | Flush b => block_ok b
  end.

#[export] Instance request_ok_dec r : Decision (request_ok r).
Proof. destruct r; cbn; unfold block_ok; apply _. Defined.

(** An array of blocks. *)
Definition splice (off : Z) (bs l : list Z) : list Z :=
  default l (put_bytes (Z.to_nat off) bs l).

Definition replace_block (b : Z) (l : list Z) (C : Z -> list Z) : Z -> list Z :=
  fun b' => if decide (b' = b) then l else C b'.

Definition answer (r : request) (C : Z -> list Z) : list Z :=
  match r with Load b off n => take (Z.to_nat n) (drop (Z.to_nat off) (C b)) | _ => [] end.

Definition update_blocks (r : request) (C : Z -> list Z) : Z -> list Z :=
  match r with
  | Store b off bs => replace_block b (splice off bs (C b)) C
  | Fill b bs => replace_block b bs C
  | _ => C
  end.

Fixpoint answers (rs : list request) (C : Z -> list Z) : list (list Z) :=
  match rs with [] => [] | r :: rs' => answer r C :: answers rs' (update_blocks r C) end.

Definition updates (rs : list request) (C : Z -> list Z) : Z -> list Z :=
  foldl (fun C r => update_blocks r C) C rs.

#[export] Instance answer_proper r : Proper (pointwise_relation Z eq ==> eq) (answer r).
Proof. intros C C' HC. destruct r; cbn; by rewrite ?HC. Qed.

#[export] Instance update_blocks_proper r :
  Proper (pointwise_relation Z eq ==> pointwise_relation Z eq) (update_blocks r).
Proof. intros C C' HC b. destruct r; cbn; unfold replace_block; try case_decide; by rewrite ?HC. Qed.

#[export] Instance answers_proper rs : Proper (pointwise_relation Z eq ==> eq) (answers rs).
Proof. induction rs as [| r rs IH]; intros C C' HC; [done |]. cbn. by rewrite HC. Qed.

#[export] Instance updates_proper rs :
  Proper (pointwise_relation Z eq ==> pointwise_relation Z eq) (updates rs).
Proof. induction rs as [| r rs IH]; intros C C' HC; [done |]. cbn. apply IH. by rewrite HC. Qed.

Lemma moved_no_view (s : st) m s' m' : moved (fun _ => False) s m s' m' -> forall b, view s' m' b = view s m b.
Proof. intros Hm b. apply Hm. by intros []. Qed.

Lemma serve_ok r (s : st) m :
  safe s m -> request_ok r ->
  exists s' m', serve r s = Ok (answer r (view s m), s') /\ safe s' m' /\ same_vars s s' /\
    pointwise_relation Z eq (view s' m') (update_blocks r (view s m)).
Proof.
  intros Hs Hr. destruct r as [b off n | b off bs | b bs | b]; cbn in Hr; cbn [serve answer update_blocks].
  - destruct Hr as (Hb & Ho & Hn & Hfit).
    destruct (read_block_any s m b Hs Hb) as (p & s1 & m1 & -> & Hm & Hat & _).
    cbn [obind]. rewrite (block_get_any s1 m1 p b off n Hat) by done. cbn [obind].
    rewrite (moved_no_view _ _ _ _ Hm). exists s1, m1. split_and!; try done; try apply Hm.
    intros b'. by apply moved_no_view.
  - destruct Hr as (Hb & Ho & Hfit).
    destruct (read_block_any s m b Hs Hb) as (p & s1 & m1 & -> & Hm & Hat & _). cbn [obind].
    destruct (block_put_any s1 m1 p b off bs (mv_safe _ _ _ _ _ Hm) Hat Ho Hfit)
      as (s2 & m2 & buf & -> & Hm2 & _ & Hput & Hbuf & _).
    cbn [obind]. exists s2, m2. split_and!; [done | apply Hm2 | eapply same_vars_trans; [apply Hm | apply Hm2] |].
    intros b'. unfold replace_block, splice. rewrite <- (moved_no_view _ _ _ _ Hm b), Hput.
    case_decide as E; [by subst |]. rewrite (mv_view _ _ _ _ _ Hm2) by congruence. by apply moved_no_view.
  - destruct Hr as (Hb & Hfit).
    destruct (get_block_any s m b Hs Hb) as (p & s1 & m1 & -> & Hm & Hat). cbn [obind].
    destruct (block_put_any s1 m1 p b 0 bs (mv_safe _ _ _ _ _ Hm) Hat)
      as (s2 & m2 & buf & -> & Hm2 & _ & Hput & Hbuf & _); [done | lia |].
    cbn [obind]. exists s2, m2. split_and!; [done | apply Hm2 | eapply same_vars_trans; [apply Hm | apply Hm2] |].
    intros b'. unfold replace_block. case_decide as E.
    + subst b'. rewrite Hbuf. unfold put_bytes in Hput. unfold kBlockSize in Hfit. case_decide; [| done]. injection Hput as <-.
      cbn [Z.to_nat Nat.add take app]. rewrite drop_ge by (rewrite length_view by apply Hm; lia). apply app_nil_r.
    + rewrite (mv_view _ _ _ _ _ Hm2), (mv_view _ _ _ _ _ Hm) by congruence. done.
  - destruct (write_block_any s m b Hs Hr) as (r & s1 & -> & Hm & _).
    cbn [obind]. exists s1, m. split_and!; try done; try apply Hm. intros b'. by apply moved_no_view.
Qed.

(** C10: Once the callback is installed the block layer is an array of blocks: for any sequence of
    requests, of any length and to any number of blocks, no request faults or runs for
    ever, every load gives the bytes stored last, the tables stay, and at most 307 blocks are cached. *)
Theorem blocks_refine rs (s : st) m :
  safe s m -> Forall request_ok rs ->
  exists s' m', serve_all rs s = Ok (answers rs (view s m), s') /\ safe s' m' /\ same_vars s s' /\
    (forall b, view s' m' b = updates rs (view s m) b) /\ Z.of_nat (base.size m') <= kCacheBlocks.
Proof.
  intros Hs Hrs. revert s m Hs. induction Hrs as [| r rs Hr Hrs IH]; intros s m Hs.
  - exists s, m. split_and!; try done. eapply holds_bound, Hs.
  - cbn [serve_all answers]. destruct (serve_ok r s m Hs Hr) as (s1 & m1 & -> & Hs1 & Hv1 & Hview).
    cbn [obind]. destruct (IH s1 m1 Hs1) as (s2 & m2 & -> & Hs2 & Hv2 & Hview2 & Hsize).
    cbn [obind]. exists s2, m2. rewrite (answers_proper rs _ _ Hview). split_and!; try done; [by eapply same_vars_trans |].
    intros b. rewrite Hview2. by apply (updates_proper rs _ _ Hview).
Qed.

(** Storing the callback does not touch the cache's structure. *)
Lemma set_callback_good (s : st) l : good s l -> good (set_callback uncache_addr s) l.
Proof.
  intros [(q & [[Hnd Hr Hh Hc Hn Hs] [Hl Hp Hd Hk Hb] Hf] & Ha) Hdisk]. split; [| done].
  exists q. split; [| done]. split; [by split | by split | done].
Qed.

(** A mounted file system is safe. *)
Lemma good_safe (s : st) l :
  good s l -> LRUCache.cb_ (g_block_cache s) = uncache_addr -> Forall block_ok l.*1 ->
  safe s (list_to_map l).
Proof.
  intros [Hr Hd] Hcb Hk. pose proof (repr_keys _ _ _ Hr) as Hnd. destruct (repr_holds kCacheBlocks cinvoke cache_bounds (g_block_cache s) l Hr) as [q Hq].
  split; [by exists q | done | done |]. intros k v Hkv.
  apply elem_of_list_to_map in Hkv; [| done]. rewrite Forall_forall in Hk.
  apply Hk, list_elem_of_fmap. by exists (k, v).
Qed.

Lemma good_view (s : st) l b : good s l -> view s (list_to_map l) b = content s l b.
Proof.
  intros Hg. unfold view, seen, content. pose proof (good_keys _ _ Hg) as Hnd.
  assert (E : (list_to_map l : gmap Z block_buffer) !! b = spec.lookup b l); [| by rewrite E].
  apply option_eq. intros v. rewrite lookup_Some by done. symmetry. by apply elem_of_list_to_map.
Qed.

End proofs.

(** ** More blocks than the cache has *)

#[local] Existing Instance bump_alloc.

Definition mounted : fs.t (D := disk) := set_callback 1 fresh_fs.

Lemma mounted_safe : safe 1 mounted ∅.
Proof.
  apply (good_safe 3 test_device 1 mounted []); [| done | by constructor].
  apply set_callback_good, fresh_good.
Qed.

(** A byte is stored in block 3; after 400 other blocks have been read it is there. *)
Definition many_requests : list request :=
  Store 3 0 [77] :: map (fun b => Load b 0 1) (seqZ 4 400) ++ [Load 3 0 2].

Lemma blocks_refine_witness :
  exists out s m, serve_all 3 test_device 1 many_requests mounted = Ok (out, s) /\ safe 1 s m /\
    last out = Some [77; 6] /\ Z.of_nat (base.size m) <= 307.
Proof.
  destruct (blocks_refine 3 test_device 1 disk_fuel eq_refl ltac:(done) many_requests mounted ∅ mounted_safe)
    as (s & m & Hs & Hm & _ & _ & Hsize).
  - apply (bool_decide_eq_true_1 _). vm_compute. reflexivity.
  - eexists _, s, m. split; [exact Hs |]. split; [exact Hm |]. split; [vm_compute; reflexivity | exact Hsize].
Defined.
