(* ===== verification/FsArrays.v ===== *)
(** * Arrays on the disk ([lib/fs.cc])

    [write_blocks] stores an array where [read_blocks] finds it.  An array starts at the
    first byte of a block, and holds [per] items of [out_size] bytes to a block, of which
    the first [size] are written. *)

From stdpp Require Import prelude gmap strings.
From Stdlib Require Import ZArith Lia.
From S2P Require Import Prelude CString LruCache LruCorrect LruEvict Ide Fs FsEvict.
Import ide fs.

(** [n] bytes of a buffer, from [off]. *)
Definition slice (off n : Z) (buf : list Z) : list Z := take (Z.to_nat n) (drop (Z.to_nat off) buf).

Lemma slice_put_in off bs buf :
  0 <= off -> off + Z.of_nat (length bs) <= Z.of_nat (length buf) ->
  exists buf', put_bytes (Z.to_nat off) bs buf = Some buf' /\ length buf' = length buf /\
    slice off (Z.of_nat (length bs)) buf' = bs.
Proof.
  intros Ho Hl. eexists. split; [apply put_bytes_in; lia |]. split.
  - rewrite !length_app, length_take, length_drop. lia.
  - unfold slice. rewrite Nat2Z.id, drop_app_length' by (rewrite length_take; lia).
    by rewrite take_app_length.
Qed.

Lemma slice_put_out off bs buf buf' o n :
  put_bytes (Z.to_nat off) bs buf = Some buf' -> 0 <= off -> 0 <= o -> 0 <= n ->
  o + n <= off \/ off + Z.of_nat (length bs) <= o ->
  slice o n buf' = slice o n buf.
Proof.
  intros Hp Hoff Ho Hn Hout. unfold put_bytes in Hp. case_decide as Hle; [| done]. injection Hp as <-.
  apply list_eq. intros k. unfold slice.
  destruct (decide (k < Z.to_nat n)%nat) as [Hk | Hk]; [| by rewrite !lookup_take_ge by lia].
  rewrite !lookup_take_lt, !lookup_drop by lia. destruct Hout as [Hout | Hout].
  - rewrite lookup_app_l by (rewrite length_take; lia). by rewrite lookup_take_lt by lia.
  - rewrite app_assoc, lookup_app_r by (rewrite length_app, length_take; lia).
    rewrite lookup_drop. f_equal. rewrite length_app, length_take. lia.
Qed.

Section reading.
Context {D : Type} `{AtaDisk D} `{NodeAlloc block_buffer}.
Context (fuel : nat) (dev : ide_device) (uncache_addr : Z).
Hypothesis Hfuel : (busy_bound < fuel)%nat.
Hypothesis Hdev : valid dev = 1.
Hypothesis Huncache : uncache_addr <> 0.

Abbreviation st := (fs.t (D := D)).
Implicit Types (s : st) (m : gmap Z block_buffer).

(** After reading at most [k] blocks the blocks are those of [C], and [k] more are cached at most while
    there is room. *)
Definition fetched (C : Z -> list Z) (k : Z) m (s' : st) m' : Prop :=
  safe uncache_addr s' m' /\ (forall b, view s' m' b = C b) /\
  (Z.of_nat (base.size m) + k <= kCacheBlocks -> Z.of_nat (base.size m') <= Z.of_nat (base.size m) + k).

Lemma fetched_trans C j k l m s1 m1 s2 m2 :
  fetched C j m s1 m1 -> fetched C k m1 s2 m2 -> 0 <= k -> j + k <= l -> fetched C l m s2 m2.
Proof.
  clear Hfuel. intros (_ & _ & Hl1) (Hs & HC & Hl2) Hk Hl. split; [done |]. split; [done |]. intros Hroom.
  specialize (Hl1 ltac:(lia)). specialize (Hl2 ltac:(lia)). lia.
Qed.

(** *** Items that span blocks *)

Section items.
Context (in_size size per start : Z) (put : Z -> list Z -> st -> outcome st) (C : Z -> list Z).

Hypothesis Hper : 0 < per /\ in_size * per = kBlockSize /\ 0 < size <= in_size.

(** The destination is none of the cache's business. *)
Hypothesis Hput : forall i bs c d s,
  put i bs (with_cache c d s) = let! s' := put i bs s in Ok (with_cache c d s').

(** Item [i] of the array stored from block [start] on, [per] items to a block. *)
Definition item (i : Z) : list Z :=
  take (Z.to_nat size) (drop (Z.to_nat (in_size * (i mod per))) (C (start + i / per))).

Fixpoint put_all (n : nat) (i : Z) (s : st) : outcome st :=
  match n with
  | O => Ok s
  | S n' => let! s := put i (item i) s in put_all n' (i + 1) s
  end.

(** The state of the loop before item [i]. *)
Definition at_item (i bno off : Z) : Prop :=
  (off = in_size * (i mod per) /\ bno = start + i / per) \/
  (off = kBlockSize /\ i mod per = 0 /\ bno + 1 = start + i / per).

Lemma at_item_off i bno off : at_item i bno off -> 0 <= i -> off < kBlockSize ->
  off = in_size * (i mod per) /\ bno = start + i / per /\ 0 <= off /\ off + size <= kBlockSize.
Proof.
  intros [[-> ->] | [-> _]] Hi Ho; [| lia]. destruct Hper as (Hp & Hs & Hz).
  pose proof (Z.mod_pos_bound i per Hp). split_and!; try done; nia.
Qed.

Lemma at_item_next i bno off : at_item i bno off -> 0 <= i -> off < kBlockSize ->
  at_item (i + 1) bno (off + in_size).
Proof.
  intros Ha Hi Ho. destruct (at_item_off _ _ _ Ha Hi Ho) as (-> & -> & _).
  destruct Hper as (Hp & Hs & _). unfold at_item.
  destruct (div_mod_succ i per Hp Hi) as [(_ & Hm & Hd) | (Hl & Hm & Hd)]; rewrite Hm, Hd; [left | right]; nia.
Qed.

Lemma same_cache_safe (s s' : st) m : g_block_cache s' = g_block_cache s -> disk_ s' = disk_ s ->
  safe uncache_addr s m -> safe uncache_addr s' m /\ (forall b, view s' m b = view s m b) /\
  forall p b, at_block s m p b -> at_block s' m p b.
Proof.
  intros Hc Hd [Hh Hcb Hk Hb]. split; [split; by rewrite ?Hc, ?Hd |].
  split; [intros b; unfold view; by rewrite Hd |]. intros p b [v Hv]. exists v. by rewrite Hc.
Qed.

Lemma put_keeps i bs (s s' : st) : put i bs s = Ok s' ->
  g_block_cache s' = g_block_cache s /\ disk_ s' = disk_ s.
Proof.
  intros Hp. pose proof (Hput i bs (g_block_cache s) (disk_ s) s) as Hc.
  replace (with_cache (g_block_cache s) (disk_ s) s) with s in Hc by (by destruct s).
  rewrite Hp in Hc. cbn [obind] in Hc. injection Hc as Hc. rewrite Hc. done.
Qed.

Lemma put_all_cache n i c d s :
  put_all n i (with_cache c d s) = let! s' := put_all n i s in Ok (with_cache c d s').
Proof.
  revert i s. induction n as [| n IH]; intros i s; cbn [put_all]; [done |].
  rewrite Hput. destruct (put i (item i) s); cbn [obind]; [apply IH | done..].
Qed.

(** [n] items are read, from item [i] at the place [block], [off]. *)
Definition reads (n : nat) (i : Z) : Prop := forall bno block off s s2 m,
  safe uncache_addr s m -> (forall b, view s m b = C b) -> at_block s m block bno ->
  at_item i bno off -> start <= bno + 1 -> put_all n i s = Ok s2 ->
  exists c d m', read_items fuel dev uncache_addr n i bno block off in_size size put s =
      Ok (true, with_cache c d s2) /\
    fetched C (start + (i + Z.of_nat n) / per - bno) m (with_cache c d s2) m'.

(** The copy of item [i], from a block in hand, and the rest of the loop. *)
Lemma copy_item n i bno block off s s2 m :
  reads n (i + 1) -> 0 <= i -> safe uncache_addr s m -> (forall b, view s m b = C b) ->
  at_block s m block bno -> at_item i bno off -> off < kBlockSize -> start <= bno + 1 ->
  put_all (S n) i s = Ok s2 ->
  exists c d m', (let! bs := block_get block off size s in
      let! s := put i bs s in
      read_items fuel dev uncache_addr n (i + 1) bno block (off + in_size) in_size size put s) =
      Ok (true, with_cache c d s2) /\
    fetched C (start + (i + Z.of_nat (S n)) / per - bno) m (with_cache c d s2) m'.
Proof.
  intros IH Hi0 Hg HC Hat Hi Ho Hbno Hall. cbn [put_all] in Hall.
  destruct (at_item_off _ _ _ Hi Hi0 Ho) as (Hoff & Hb & Ho0 & Hfit). destruct Hper as (Hp & Hs & Hz).
  rewrite (block_get_any s m block bno off size Hat) by (done || lia). cbn [obind].
  rewrite HC. replace (take _ _) with (item i) by (unfold item; by rewrite Hoff, Hb).
  destruct (put i (item i) s) as [s1 | | |] eqn:Ep; try done. cbn [obind] in *.
  destruct (put_keeps _ _ _ _ Ep) as [Hc1 Hd1].
  destruct (same_cache_safe s s1 m Hc1 Hd1 Hg) as (Hg1 & HC1 & Hat1).
  replace (i + Z.of_nat (S n)) with (i + 1 + Z.of_nat n) by lia.
  apply (IH bno block (off + in_size) s1 s2 m); try done.
  - intros b. by rewrite HC1.
  - by apply Hat1.
  - by apply at_item_next.
Qed.

(** The block in hand after a read. *)
Lemma read_next s m b :
  safe uncache_addr s m -> (forall b, view s m b = C b) -> block_ok b ->
  exists p c d m', read_block fuel dev uncache_addr b s = Ok (p, with_cache c d s) /\ p <> 0 /\
    fetched C 1 m (with_cache c d s) m' /\ at_block (with_cache c d s) m' p b.
Proof.
  intros Hs HC Hb.
  destruct (read_block_any fuel dev uncache_addr Hfuel Hdev Huncache s m b Hs Hb)
    as (p & s' & m' & Hr & Hm & Hat & Hg & (c & d & ->)).
  exists p, c, d, m'. split; [done |]. split; [by eapply at_nonnull |]. split; [| done].
  split; [apply Hm |]. split; [intros b'; by rewrite (moved_no_view _ _ _ _ _ Hm) |]. intros Hroom. by apply Hg.
Qed.

Lemma read_items_ok n i :
  0 <= i -> 0 <= start -> 2 * (start + (i + Z.of_nat n) / per) + 2 <= 0x10000000 -> reads n i.
Proof.
  revert i. induction n as [| n IH]; intros i Hi0 Hst Hok bno block off s s2 m Hg HC Hat Hi Hbno Hall.
  - cbn in Hall. injection Hall as <-. exists (g_block_cache s), (disk_ s), m. cbn [read_items].
    replace (with_cache _ _ s) with s by (by destruct s). split; [done |]. split; [done |]. split; [done |].
    intros _. rewrite Z.add_0_r. assert (bno <= start + i / per); [| lia].
    destruct Hi as [(_ & ->) | (_ & _ & <-)]; lia.
  - cbn [read_items]. assert (Hrest : reads n (i + 1)).
    { apply IH; [lia | lia |]. by replace (i + 1 + Z.of_nat n) with (i + Z.of_nat (S n)) by lia. }
    destruct (Z.leb_spec kBlockSize off) as [Hoff | Hoff]; [| by apply (copy_item n i bno block off s s2 m)].
    assert (Hnext : off = kBlockSize /\ i mod per = 0 /\ bno + 1 = start + i / per).
    { destruct Hi as [[-> _] | ?]; [| done]. destruct Hper as (Hp & Hs & Hz).
      pose proof (Z.mod_pos_bound i per Hp). nia. }
    destruct Hnext as (-> & Hm & Hb). destruct Hper as (Hp & _).
    assert (Hle : i / per <= (i + Z.of_nat (S n)) / per) by (apply Z.div_le_mono; lia).
    rewrite u32_small by lia. assert (0 <= i / per) by (apply Z.div_pos; lia).
    destruct (read_next s m (bno + 1) Hg HC) as (p & c & d & m1 & -> & Hp0 & Hf1 & Hat1);
      [unfold block_ok; lia |].
    cbn [obind]. rewrite (proj2 (Z.eqb_neq p 0)) by done. pose proof Hf1 as (Hg1 & HC1 & _).
    destruct (copy_item n i (bno + 1) p 0 (with_cache c d s) (with_cache c d s2) m1) as (c2 & d2 & m2 & Hr & Hf2);
      try done; try lia.
    + left. by rewrite Hm, Z.mul_0_r.
    + by rewrite put_all_cache, Hall.
    + exists c2, d2, m2. split; [exact Hr |]. eapply fetched_trans; [exact Hf1 | exact Hf2 | lia | lia].
Qed.

Lemma read_blocks_run n s s2 m :
  safe uncache_addr s m -> (forall b, view s m b = C b) -> 0 <= start ->
  2 * (start + Z.of_nat n / per) + 2 <= 0x10000000 -> put_all n 0 s = Ok s2 ->
  exists c d m', read_blocks fuel dev uncache_addr start (Z.of_nat n) in_size size put s =
      Ok (true, with_cache c d s2) /\
    fetched C (1 + Z.of_nat n / per) m (with_cache c d s2) m'.
Proof.
  intros Hg HC Hst Hok Hall. unfold read_blocks. destruct Hper as (Hp & _).
  assert (0 <= Z.of_nat n / per) by (apply Z.div_pos; lia).
  destruct (read_next s m start Hg HC) as (p & c & d & m1 & -> & Hp0 & Hf1 & Hat1); [unfold block_ok; lia |].
  cbn [obind]. rewrite Nat2Z.id. pose proof Hf1 as (Hg1 & HC1 & _).
  destruct (read_items_ok n 0 ltac:(lia) Hst ltac:(by rewrite Z.add_0_l) start p 0 (with_cache c d s) (with_cache c d s2) m1)
    as (c2 & d2 & m2 & Hr & Hf2); try done; try lia.
  - left. rewrite Zmod_0_l, Zdiv_0_l. lia.
  - rewrite put_all_cache, Hall. done.
  - exists c2, d2, m2. split; [exact Hr |]. rewrite Z.add_0_l in Hf2. eapply fetched_trans; [exact Hf1 | exact Hf2 | lia | lia].
Qed.

(** [read_blocks] delivers the array that starts at a block: item after item,
    across block boundaries, each from its place in the content of its block.  Blocks it
    has to read from the disk go to the cache, no more than the array has blocks; no content changes. *)
Theorem read_blocks_items n s s2 m :
  safe uncache_addr s m -> (forall b, view s m b = C b) -> 0 <= start ->
  2 * (start + Z.of_nat n / per) + 2 <= 0x10000000 -> put_all n 0 s = Ok s2 ->
  exists c d m', read_blocks fuel dev uncache_addr start (Z.of_nat n) in_size size put s =
      Ok (true, with_cache c d s2) /\
    fetched C (1 + Z.of_nat n / per) m (with_cache c d s2) m'.
Proof. apply read_blocks_run. Qed.
End items.
End reading.

Section arrays.
Context {D : Type} `{AtaDisk D} `{NodeAlloc block_buffer}.
Context (fuel : nat) (dev : ide_device) (uncache_addr : Z).
Hypothesis Hfuel : (busy_bound < fuel)%nat.
Hypothesis Hdev : valid dev = 1.
Hypothesis Huncache : uncache_addr <> 0.

Abbreviation st := (fs.t (D := D)).
Implicit Types (s : st) (m : gmap Z block_buffer).

(** The items, and the variables of the file system they are taken from. *)
Context (out_size size per start : Z) (count : nat) (item : Z -> list Z)
  (get : Z -> st -> outcome (list Z)) (s0 : st).

Hypothesis Hper : 0 < per /\ out_size * per = kBlockSize /\ 0 < size <= out_size.
Hypothesis Hstart : 0 <= start /\ 2 * (start + Z.of_nat count / per) + 2 <= 0x10000000.
Hypothesis Hget : forall i s, 0 <= i < Z.of_nat count -> same_vars s0 s -> get i s = Ok (item i).
Hypothesis Hitem : forall i, 0 <= i < Z.of_nat count -> length (item i) = Z.to_nat size.

(** The block and the offset of item [i]; the block that is being filled when the items
    before [i] are written. *)
Definition block_of (i : Z) : Z := start + i / per.
Definition off_of (i : Z) : Z := out_size * (i mod per).
Definition filling (i : Z) : Z := start + Z.max 0 ((i - 1) / per).

Lemma off_bounds i : 0 <= off_of i /\ off_of i + size <= kBlockSize.
Proof.
  destruct Hper as (Hp & Hs & Hz). pose proof (Z.mod_pos_bound i per Hp). unfold off_of. split; nia.
Qed.

Lemma off_apart i j :
  block_of i = block_of j -> i <> j -> off_of i + size <= off_of j \/ off_of j + size <= off_of i.
Proof.
  destruct Hper as (Hp & Hs & Hz). unfold block_of, off_of. intros Hb Hne.
  pose proof (Z.div_mod i per ltac:(lia)). pose proof (Z.div_mod j per ltac:(lia)).
  assert (i / per = j / per) as Hq by lia. rewrite Hq in *.
  assert (i mod per <> j mod per) by lia. nia.
Qed.

Lemma block_mono i j : i <= j -> block_of i <= block_of j.
Proof. intros Hij. unfold block_of. destruct Hper as (Hp & _). pose proof (Z.div_le_mono i j per Hp Hij). lia. Qed.

Lemma filling_S i : 0 <= i -> filling (i + 1) = block_of i.
Proof.
  intros Hi. unfold filling, block_of. replace (i + 1 - 1) with i by lia.
  destruct Hper as (Hp & _). pose proof (Z.div_pos i per Hi Hp). lia.
Qed.

(** After item [i], item [i + 1] is the next of the block or the first of the next one. *)
Lemma item_next i :
  0 <= i ->
  (off_of i + out_size < kBlockSize /\ off_of (i + 1) = off_of i + out_size /\ block_of (i + 1) = block_of i) \/
  (off_of i + out_size = kBlockSize /\ off_of (i + 1) = 0 /\ block_of (i + 1) = block_of i + 1).
Proof.
  intros Hi. destruct Hper as (Hp & Hs & Hz). unfold off_of, block_of. rewrite <- Hs.
  destruct (div_mod_succ i per Hp Hi) as [(Hm & -> & ->) | (Hm & -> & ->)]; [left | right];
    split_and!; nia.
Qed.

Lemma block_of_ge i : 0 <= i -> start <= block_of i.
Proof. intros Hi. unfold block_of. destruct Hper as (Hp & _). pose proof (Z.div_pos i per Hi Hp). lia. Qed.

(** What holds when the items before [i] have been stored, in blocks up to [b], and the blocks
    before [w] have been written. *)
Record stored m0 s m (i b w : Z) : Prop := {
  sd_moved : moved uncache_addr (fun b' => start <= b' <= b) s0 m0 s m;
  sd_items : forall j, 0 <= j < i -> slice (off_of j) size (view s m (block_of j)) = item j;
  sd_disk : forall b', start <= b' < w -> disk_block (disk_ s) b' = view s m b'
}.

(** A step that changes the contents of block [b] at most keeps what is written. *)
Lemma stored_step m0 s m s' m' i b b' w :
  stored m0 s m i b w -> moved uncache_addr (eq b') s m s' m' -> start <= b' -> b <= b' -> w <= b' ->
  (forall j, 0 <= j < i -> block_of j <> b') -> stored m0 s' m' i b' w.
Proof.
  intros [Hm Hit Hd] Hm' Hs Hb Hw Hj. split.
  - eapply moved_trans; eapply moved_weaken; [| exact Hm | | exact Hm']; cbn; intros; lia.
  - intros j Hji. rewrite (mv_view _ _ _ _ _ _ Hm') by (intros E; by apply (Hj j Hji)). by apply Hit.
  - intros c Hc. destruct (mv_disk _ _ _ _ _ _ Hm' c ltac:(lia)) as [-> | ->];
      rewrite (mv_view _ _ _ _ _ _ Hm') by lia; [by apply Hd | done].
Qed.

(** Storing item [i] in its block. *)
Lemma store_item m0 s m i p :
  stored m0 s m i (block_of i) (block_of i) -> 0 <= i < Z.of_nat count -> at_block s m p (block_of i) ->
  exists s' m', block_put p (off_of i) (item i) s = Ok s' /\
    stored m0 s' m' (i + 1) (block_of i) (block_of i) /\ at_block s' m' p (block_of i).
Proof.
  intros [Hm Hit Hd] Hi Hat. destruct (off_bounds i) as [Hof Hle].
  pose proof (block_of_ge i ltac:(lia)) as Hge. pose proof (Hitem i Hi) as Hl. destruct Hper as (_ & _ & Hz). unfold kBlockSize in Hle.
  destruct (block_put_any fuel dev uncache_addr s m p (block_of i) (off_of i) (item i) (mv_safe _ _ _ _ _ _ Hm) Hat)
    as (s' & m' & buf & Hp & Hm' & Hat' & Hput & Hbuf & Hds); [done | unfold kBlockSize; lia |].
  exists s', m'. split; [done |]. split; [| done].
  destruct (slice_put_in (off_of i) (item i) (view s m (block_of i))) as (buf' & Hput' & _ & Hin);
    [done | rewrite (length_view uncache_addr) by apply Hm; lia |].
  rewrite Hput in Hput'. injection Hput' as <-. split.
  - eapply moved_trans; [exact Hm |]. eapply moved_weaken; [| exact Hm']. intros ? <-. lia.
  - intros j Hj. destruct (decide (block_of j = block_of i)) as [E | Hne].
    + rewrite E, Hbuf. destruct (decide (j = i)) as [-> | Hne].
      * by rewrite Hl, Z2Nat.id in Hin by lia.
      * rewrite <- (Hit j), E by lia.
        apply (slice_put_out _ _ _ _ _ _ Hput); [done | apply off_bounds | lia |].
        rewrite Hl, Z2Nat.id by lia. by apply off_apart.
    + rewrite (mv_view _ _ _ _ _ _ Hm') by congruence. apply Hit.
      assert (j <> i) by (intros ->; done). lia.
  - intros b' Hb'. rewrite Hds, (mv_view _ _ _ _ _ _ Hm') by lia. by apply Hd.
Qed.

(** Writing the block that is being filled. *)
Lemma write_filled m0 s m i b :
  stored m0 s m i b b -> is_Some (m !! b) -> block_ok b -> start <= b ->
  exists s1, write_block fuel dev b s = Ok (true, s1) /\ stored m0 s1 m i b (b + 1).
Proof.
  intros [Hm Hit Hd] Hin Hb Hs.
  destruct (write_block_any fuel dev uncache_addr Hfuel Hdev s m b (mv_safe _ _ _ _ _ _ Hm) Hb)
    as (r & s1 & Hw & Hm1 & Hdisk). destruct (Hdisk Hin) as [-> Hdb].
  exists s1. split; [done |]. pose proof (moved_no_view _ _ _ _ _ Hm1) as Hv. split.
  - eapply moved_trans; [exact Hm |]. by eapply moved_weaken; [| exact Hm1].
  - intros j Hj. rewrite Hv. by apply Hit.
  - intros b' Hb'. rewrite Hv. destruct (decide (b' = b)) as [-> | Hne]; [done |].
    destruct (mv_disk _ _ _ _ _ _ Hm1 b' ltac:(by intros [])) as [-> | ->]; [apply Hd; lia | done].
Qed.

(** Taking the next block. *)
Lemma take_block m0 s m i b :
  stored m0 s m i b (b + 1) -> start <= b -> (forall j, 0 <= j < i -> block_of j <= b) -> block_ok (b + 1) ->
  exists p s' m', get_block fuel dev uncache_addr (b + 1) s = Ok (p, s') /\ p <> 0 /\
    stored m0 s' m' i (b + 1) (b + 1) /\ at_block s' m' p (b + 1).
Proof.
  intros Hst Hsb Hlt Hok. pose proof Hst as [Hm _ _].
  destruct (get_block_any fuel dev uncache_addr Hfuel Hdev Huncache s m (b + 1) (mv_safe _ _ _ _ _ _ Hm) Hok)
    as (p & s' & m' & Hgb & Hm' & Hat).
  exists p, s', m'. split_and!; [done | by eapply at_nonnull | | done].
  eapply stored_step; [exact Hst | exact Hm' | lia | lia | lia |]. intros j Hj. specialize (Hlt j Hj). lia.
Qed.

Lemma filling_ge i : start <= filling i.
Proof. unfold filling. lia. Qed.

Lemma block_of_filling i j : 0 <= j < i -> block_of j <= filling i.
Proof.
  intros Hj. replace i with (i - 1 + 1) by lia. rewrite filling_S by lia. apply block_mono. lia.
Qed.

Lemma block_of_ok i : 0 <= i <= Z.of_nat count -> block_ok (block_of i).
Proof.
  intros Hi. pose proof (block_of_ge i ltac:(lia)). pose proof (block_mono i (Z.of_nat count) ltac:(lia)) as Hm.
  unfold block_of in *. split; lia.
Qed.

(** The offset in the loop of [write_blocks] before item [i]. *)
Definition loop_off (i : Z) : Z := if i =? 0 then 0 else off_of (i - 1) + out_size.

(** Where item [i] goes: in the block being filled, or in the next one. *)
Lemma loop_next i :
  0 <= i ->
  (loop_off i < kBlockSize /\ loop_off i = off_of i /\ filling i = block_of i) \/
  (kBlockSize <= loop_off i /\ off_of i = 0 /\ filling i + 1 = block_of i).
Proof.
  intros Hi. unfold loop_off. destruct (Z.eqb_spec i 0) as [-> | Hne].
  - left. unfold filling, off_of, block_of. rewrite Zmod_0_l, Zdiv_0_l. destruct Hper as (Hp & _).
    assert ((0 - 1) / per < 0) by (apply Z.div_lt_upper_bound; lia). split_and!; [done | lia | lia].
  - pose proof (filling_S (i - 1) ltac:(lia)) as Hf. pose proof (item_next (i - 1) ltac:(lia)) as Hn.
    replace (i - 1 + 1) with i in * by lia. rewrite Hf. lia.
Qed.

Lemma filling_le i : 0 <= i -> filling i <= block_of i.
Proof. intros Hi. destruct (loop_next i Hi); lia. Qed.

(** The loop, from item [i]. *)
Lemma write_items_ok n i p m0 s m :
  stored m0 s m i (filling i) (filling i) -> at_block s m p (filling i) -> 0 <= i ->
  i + Z.of_nat n = Z.of_nat count ->
  exists s' m', write_items fuel dev uncache_addr n i (filling i) p (loop_off i) out_size get s =
      Ok (Some (filling (Z.of_nat count)), s') /\
    stored m0 s' m' (Z.of_nat count) (filling (Z.of_nat count)) (filling (Z.of_nat count)) /\
    is_Some (m' !! filling (Z.of_nat count)).
Proof.
  revert i p s m. induction n as [| n IH]; intros i p s m Hst Hat Hi Hn; cbn [write_items].
  - replace i with (Z.of_nat count) in * by lia. exists s, m. split_and!; try done. by eapply at_in.
  - assert (Hcopy : forall s m p, stored m0 s m i (block_of i) (block_of i) -> at_block s m p (block_of i) ->
      exists s' m', (let! bs := get i s in let! s := block_put p (off_of i) bs s in
          write_items fuel dev uncache_addr n (i + 1) (block_of i) p (off_of i + out_size) out_size get s) =
          Ok (Some (filling (Z.of_nat count)), s') /\
        stored m0 s' m' (Z.of_nat count) (filling (Z.of_nat count)) (filling (Z.of_nat count)) /\
        is_Some (m' !! filling (Z.of_nat count))).
    { clear Hst Hat s m p. intros s m p Hst Hat.
      rewrite Hget by (lia || apply Hst). cbn [obind].
      destruct (store_item m0 s m i p Hst) as (s1 & m1 & -> & Hst1 & Hat1); [lia | done |].
      cbn [obind]. specialize (IH (i + 1) p s1 m1). rewrite filling_S in IH by lia.
      unfold loop_off in IH. rewrite (proj2 (Z.eqb_neq _ _)) in IH by lia.
      replace (i + 1 - 1) with i in IH by lia. apply IH; (done || lia). }
    destruct (loop_next i Hi) as [(Hlt & Ho & Hf) | (Hge & Ho & Hf)].
    + rewrite (proj2 (Z.leb_gt _ _)) by done. rewrite Ho. rewrite Hf in *. by apply (Hcopy s m p).
    + rewrite (proj2 (Z.leb_le _ _)) by done.
      pose proof (block_of_ok i ltac:(lia)) as [Hb0 Hbo]. pose proof (filling_ge i) as Hfg.
      destruct (write_filled m0 s m i (filling i) Hst) as (s1 & -> & Hst1);
        [by eapply at_in | split; destruct Hstart; lia | done |].
      cbn [obind]. rewrite u32_small by (destruct Hstart; lia).
      destruct (take_block m0 s1 m i (filling i) Hst1) as (p2 & s2 & m2 & -> & Hp2 & Hst2 & Hat2);
        [done | intros j; apply block_of_filling | by rewrite Hf |].
      cbn [obind]. rewrite (proj2 (Z.eqb_neq p2 0)), Hf in * by done.
      rewrite <- Ho. by apply (Hcopy s2 m2 p2).
Qed.

Lemma write_blocks_run m0 :
  safe uncache_addr s0 m0 ->
  exists s' m', write_blocks fuel dev uncache_addr start (Z.of_nat count) out_size get s0 = Ok (true, s') /\
    moved uncache_addr (fun b => start <= b <= filling (Z.of_nat count)) s0 m0 s' m' /\
    (forall i, 0 <= i < Z.of_nat count -> slice (off_of i) size (view s' m' (block_of i)) = item i) /\
    forall b, start <= b <= filling (Z.of_nat count) -> disk_block (disk_ s') b = view s' m' b.
Proof.
  intros Hg. unfold write_blocks. destruct Hper as (Hp & _). pose proof Hstart as [Hs0 Hs1].
  assert (0 <= Z.of_nat count / per) by (apply Z.div_pos; lia).
  destruct (get_block_any fuel dev uncache_addr Hfuel Hdev Huncache s0 m0 start Hg ltac:(split; lia))
    as (p & s & m & -> & Hm & Hat). cbn [obind]. rewrite Nat2Z.id.
  assert (Hf0 : filling 0 = start).
  { unfold filling. assert ((0 - 1) / per < 0) by (apply Z.div_lt_upper_bound; lia). lia. }
  assert (Hst : stored m0 s m 0 (filling 0) (filling 0)).
  { rewrite Hf0. split; [| lia | lia]. eapply moved_weaken; [| exact Hm]. intros ? <-. lia. }
  rewrite <- Hf0. change 0 with (loop_off 0) at 3.
  destruct (write_items_ok count 0 p m0 s m Hst) as (s2 & m2 & -> & Hst2 & Hin2);
    [by rewrite Hf0 | lia | lia |].
  cbn [obind]. pose proof (filling_ge (Z.of_nat count)) as Hfg.
  pose proof (filling_le (Z.of_nat count) ltac:(lia)) as Hfb.
  destruct (write_filled m0 s2 m2 _ _ Hst2 Hin2) as (s3 & -> & [Hm3 Hi3 Hd3]);
    [unfold block_of in Hfb; split; lia | done |].
  cbn [obind]. exists s3, m2. rewrite Hf0. split_and!; try done. intros b Hb. apply Hd3. lia.
Qed.

(** C12: [write_blocks] stores the items one after the other over consecutive blocks, the last
    one filled included, and all these blocks are on the disk when it returns; the contents
    of every other block are what they were, and so are its bytes on the disk unless the
    cache has written the block back. *)
Theorem write_blocks_items m0 :
  safe uncache_addr s0 m0 ->
  exists s' m', write_blocks fuel dev uncache_addr start (Z.of_nat count) out_size get s0 = Ok (true, s') /\
    moved uncache_addr (fun b => start <= b <= filling (Z.of_nat count)) s0 m0 s' m' /\
    (forall i, 0 <= i < Z.of_nat count -> slice (off_of i) size (view s' m' (block_of i)) = item i) /\
    forall b, start <= b <= filling (Z.of_nat count) -> disk_block (disk_ s') b = view s' m' b.
Proof. apply write_blocks_run. Qed.
End arrays.

(** ** An example *)

#[local] Existing Instance bump_alloc.

(** An inode map of two bytes in use, on the test disk. *)
Definition map_fs : fs.t (D := disk) :=
  set_callback 1 (mk (LRUCache.make kCacheBlocks) (replicate 39 0) (replicate 128 (replicate 56 0))
    (7 :: 9 :: replicate 14 0) (replicate 1280 0) test_disk).

Lemma map_safe : safe 1 map_fs ∅.
Proof.
  apply (good_safe 3 test_device 1 map_fs []); [| done | by constructor].
  apply set_callback_good. split; [apply (make_repr kCacheBlocks), cache_bounds | exact test_disk_ok].
Qed.

(** The two bytes are written to block 2. *)
Lemma write_blocks_items_witness :
  exists s, write_blocks 3 test_device 1 2 2 1 (fun i s => byte_at (g_imap s) i) map_fs = Ok (true, s) /\
    slice 0 1 (disk_block (disk_ s) 2) = [7] /\ slice 1 1 (disk_block (disk_ s) 2) = [9] /\
    disk_block (disk_ s) 3 = disk_block test_disk 3.
Proof.
  destruct (write_blocks_items 3 test_device 1 disk_fuel eq_refl ltac:(done) 1 1 1024 2 2
    (fun i => [default 0 (lget (g_imap map_fs) i)]) (fun i s => byte_at (g_imap s) i) map_fs) with (m0 := ∅ : gmap Z block_buffer)
    as (s & m & Hw & Hm & Hi & Hd).
  - split_and!; done.
  - split; [lia | vm_compute; congruence].
  - intros i s Hi (_ & _ & Hm & _). unfold byte_at. rewrite Hm.
    destruct (lget_in (g_imap map_fs) i) as [x Hx]; [simpl; lia |]. by rewrite Hx.
  - done.
  - exact map_safe.
  - exists s. split; [exact Hw |]. rewrite (Hd 2) by (vm_compute; split; congruence).
    split; [apply (Hi 0); lia |]. split; [apply (Hi 1); lia |].
    destruct (mv_disk _ _ _ _ _ _ Hm 3) as [-> | ->]; [| reflexivity | reflexivity].
    vm_compute. intros [_ []]. done.
Defined.

(** The first two bytes of the inode map are read from block 2. *)
Lemma read_blocks_items_witness :
  exists s, read_blocks 3 test_device 1 2 2 1 1 put_imap map_fs = Ok (true, s) /\
    g_imap s = 4 :: 4 :: replicate 14 0.
Proof.
  destruct (read_blocks_items 3 test_device 1 disk_fuel eq_refl ltac:(done) 1 1 1024 2 put_imap (view map_fs ∅))
    with (n := 2%nat) (s := map_fs) (s2 := set_callback 1 (mk (LRUCache.make kCacheBlocks) (replicate 39 0)
      (replicate 128 (replicate 56 0)) (4 :: 4 :: replicate 14 0) (replicate 1280 0) test_disk))
      (m := ∅ : gmap Z block_buffer)
    as (c & d & m' & Hr & _).
  - by split_and!.
  - intros i bs c d s. unfold put_imap. cbn. by destruct (lset (g_imap s) i _).
  - exact map_safe.
  - done.
  - lia.
  - vm_compute. congruence.
  - reflexivity.
  - eexists. split; [exact Hr | reflexivity].
Defined.
