(* ===== verification/FsInit.v ===== *)
(** * Mounting the file system ([init_fs] of [lib/fs.cc])

    [init_fs] fills the super block, the inode table and the two bitmaps from the disk. *)

From stdpp Require Import prelude gmap strings.
From Stdlib Require Import ZArith Lia.
From S2P Require Import Prelude CString LruCache LruCorrect LruEvict Ide Fs FsEvict FsArrays.
Import ide fs.

Lemma field_range off n bs : Forall byte_ok bs -> 0 <= field off n bs < 256 ^ Z.of_nat n.
Proof.
  intros HF. assert (HF' : Forall byte_ok (take n (drop off bs))) by (by apply Forall_take, Forall_drop).
  pose proof (le_decode_range _ HF') as Hr. unfold field. rewrite length_take, length_drop in Hr.
  assert (256 ^ Z.of_nat (n `min` (length bs - off)) <= 256 ^ Z.of_nat n) by (apply Z.pow_le_mono_r; lia).
  lia.
Qed.

Section init.
Context {D : Type} `{AtaDisk D} `{NodeAlloc block_buffer}.
Context (fuel : nat) (dev : ide_device) (uncache_addr : Z).
Hypothesis Hfuel : (busy_bound < fuel)%nat.
Hypothesis Hdev : valid dev = 1.
Hypothesis Huncache : uncache_addr <> 0.

Abbreviation st := (fs.t (D := D)).
Implicit Types (s : st) (m : gmap Z block_buffer).
Abbreviation safe := (safe uncache_addr).
Abbreviation fetched := (fetched uncache_addr).

(** *** Filling an array of the kernel *)

Section fill.
Context {A : Type} (proj : st -> list A) (upd : list A -> st -> st) (base : Z)
  (conv : list Z -> A -> option A).
Context (in_size size per start : Z) (C : Z -> list Z).

(** Element [base + i] takes the bytes of item [i]. *)
Definition put_elem (i : Z) (bs : list Z) s : outcome st :=
  let! x := or_fault (lget (proj s) (base + i)) in
  let! y := or_fault (conv bs x) in
  let! a := or_fault (lset (proj s) (base + i) y) in
  Ok (upd a s).

Hypothesis Hproj : forall a s, proj (upd a s) = a.
Hypothesis Hupd : forall a b s, upd a (upd b s) = upd a s.
Hypothesis Hsame : forall s, upd (proj s) s = s.

Abbreviation item := (item in_size size per start C).

Lemma put_all_fill n i s :
  0 <= base + i -> base + i + Z.of_nat n <= Z.of_nat (length (proj s)) ->
  (forall j x, i <= j < i + Z.of_nat n -> lget (proj s) (base + j) = Some x ->
    is_Some (conv (item j) x)) ->
  exists a, put_all in_size size per start put_elem C n i s = Ok (upd a s) /\
    length a = length (proj s) /\
    (forall j, i <= j < i + Z.of_nat n ->
       lget a (base + j) = lget (proj s) (base + j) ≫= conv (item j)) /\
    forall k, ~ base + i <= k < base + i + Z.of_nat n -> lget a k = lget (proj s) k.
Proof.
  revert i s. induction n as [| n IH]; intros i s Hi Hn Hc; cbn [put_all].
  - exists (proj s). rewrite Hsame. split_and!; [done | done | lia | done].
  - unfold put_elem at 1.
    destruct (lget_in (proj s) (base + i)) as [x Hx]; [lia |]. rewrite Hx. cbn [or_fault obind].
    destruct (Hc i x ltac:(lia) Hx) as [y Hy]. rewrite Hy. cbn [or_fault obind].
    rewrite lset_in by lia. cbn [or_fault obind].
    set (a1 := <[Z.to_nat (base + i) := y]> (proj s)).
    assert (Hl1 : length a1 = length (proj s)) by apply length_insert.
    assert (Hg1 : forall k, k <> base + i -> lget a1 k = lget (proj s) k).
    { intros k Hk. by apply lget_insert_ne. }
    destruct (IH (i + 1) (upd a1 s)) as (a & Ha & Hl & Hin & Hout).
    + lia.
    + rewrite Hproj, Hl1. lia.
    + intros j z Hj. rewrite Hproj, Hg1 by lia. apply Hc. lia.
    + exists a. rewrite Ha, Hupd, Hproj in *. split_and!; [done | by rewrite Hl | |].
      * intros j Hj. destruct (decide (j = i)) as [-> | Hne].
        -- rewrite Hout by lia. unfold a1. rewrite lget_insert_eq by lia. by rewrite Hx.
        -- rewrite Hin by lia. by rewrite Hg1 by lia.
      * intros k Hk. rewrite Hout by lia. by apply Hg1; lia.
Qed.

Hypothesis Hper : 0 < per /\ in_size * per = kBlockSize /\ 0 < size <= in_size.
Hypothesis Hpc : forall c d s, proj (with_cache c d s) = proj s.
Hypothesis Huc : forall a c d s, upd a (with_cache c d s) = with_cache c d (upd a s).

Lemma put_elem_cache i bs c d s :
  put_elem i bs (with_cache c d s) = let! s' := put_elem i bs s in Ok (with_cache c d s').
Proof.
  unfold put_elem. rewrite Hpc. destruct (lget (proj s) _) as [x |]; [| done]. cbn [or_fault obind].
  destruct (conv bs x) as [y |]; [| done]. cbn [or_fault obind].
  destruct (lset _ _ _) as [a |]; [| done]. cbn [or_fault obind]. by rewrite Huc.
Qed.

(** [read_blocks] into the array. *)
Lemma load_array put n s m :
  (forall i bs s, put i bs s = put_elem i bs s) ->
  safe s m -> (forall b, view s m b = C b) -> 0 <= start ->
  2 * (start + Z.of_nat n / per) + 2 <= 0x10000000 ->
  0 <= base -> base + Z.of_nat n <= Z.of_nat (length (proj s)) ->
  (forall j x, 0 <= j < Z.of_nat n -> lget (proj s) (base + j) = Some x -> is_Some (conv (item j) x)) ->
  exists a c d m', read_blocks fuel dev uncache_addr start (Z.of_nat n) in_size size put s =
      Ok (true, with_cache c d (upd a s)) /\
    fetched C (1 + Z.of_nat n / per) m (with_cache c d (upd a s)) m' /\
    (forall j, 0 <= j < Z.of_nat n ->
       lget a (base + j) = lget (proj s) (base + j) ≫= conv (item j)) /\
    forall k, ~ base <= k < base + Z.of_nat n -> lget a k = lget (proj s) k.
Proof.
  intros Hput Hg HC Hst Hok Hb Hn Hc.
  destruct (put_all_fill n 0 s) as (a & Ha & _ & Hin & Hout); [lia | lia | done |].
  assert (Hall : forall n i s, put_all in_size size per start put C n i s =
            put_all in_size size per start put_elem C n i s).
  { clear -Hput. induction n as [| n IH]; intros i s; cbn [put_all]; [done |]. rewrite Hput.
    destruct (put_elem _ _ _); cbn [obind]; [apply IH | done..]. }
  destruct (read_blocks_run fuel dev uncache_addr Hfuel Hdev Huncache in_size size per start put C Hper) with n s (upd a s) m
    as (c & d & m' & Hr & Hf); try done.
  - intros i bs c d s'. rewrite !Hput. apply put_elem_cache.
  - by rewrite Hall.
  - exists a, c, d, m'. rewrite Z.add_0_r in Hout. split_and!; done.
Qed.
End fill.

(** *** The variables [init_fs] fills *)

Definition set_sb (sb : list Z) s : st :=
  fs.mk (g_block_cache s) sb (g_inode_table s) (g_imap s) (g_zmap s) (disk_ s).
Definition set_inodes (tb : list (list Z)) s : st :=
  fs.mk (g_block_cache s) (g_super_block s) tb (g_imap s) (g_zmap s) (disk_ s).
Definition set_imap (m : list Z) s : st :=
  fs.mk (g_block_cache s) (g_super_block s) (g_inode_table s) m (g_zmap s) (disk_ s).
Definition set_zmap (m : list Z) s : st :=
  fs.mk (g_block_cache s) (g_super_block s) (g_inode_table s) (g_imap s) m (disk_ s).

(** One byte of a bitmap. *)
Definition conv_byte (bs : list Z) (_ : Z) : option Z := Some (default 0 (head bs)).

Lemma put_byte_elem (proj : st -> list Z) upd i bs s :
  put_elem proj upd 0 conv_byte i bs s =
    let! m := or_fault (lset (proj s) i (default 0 (head bs))) in Ok (upd m s).
Proof.
  unfold put_elem. rewrite Z.add_0_l. destruct (lget (proj s) i) as [x |] eqn:E; [done |].
  cbn [or_fault obind]. unfold lset. destruct (decide (0 <= i < Z.of_nat (length (proj s)))) as [Hi | Hi]; [| done].
  destruct (lget_in (proj s) i Hi) as [x Hx]. congruence.
Qed.

Lemma byte_item (C : Z -> list Z) start i :
  (forall b, length (C b) = 1024%nat) ->
  lget (C (start + i / 1024)) (i mod 1024) = Some (default 0 (head (item 1 1 1024 start C i))).
Proof.
  intros Hl. unfold item, lget. rewrite Z.mul_1_l.
  pose proof (Z.mod_pos_bound i 1024 ltac:(lia)). rewrite decide_True by lia.
  destruct (lookup_lt_is_Some_2 (C (start + i / 1024)) (Z.to_nat (i mod 1024))) as [x Hx]; [rewrite Hl; lia |].
  by rewrite (drop_S _ _ _ Hx), Hx.
Qed.

(** A bitmap is loaded byte by byte. *)
Lemma load_bytes_ok proj upd put n start (C : Z -> list Z) s m :
  (forall a s, proj (upd a s) = a) -> (forall a b s, upd a (upd b s) = upd a s) ->
  (forall s, upd (proj s) s = s) -> (forall c d s, proj (with_cache c d s) = proj s) ->
  (forall a c d s, upd a (with_cache c d s) = with_cache c d (upd a s)) ->
  (forall i bs s, put i bs s = let! m := or_fault (lset (proj s) i (default 0 (head bs))) in Ok (upd m s)) ->
  safe s m -> (forall b, view s m b = C b) -> 0 <= start <= 0x100000 -> 0 <= n <= 65536 ->
  n <= Z.of_nat (length (proj s)) ->
  exists a c d m', read_blocks fuel dev uncache_addr start n 1 1 put s = Ok (true, with_cache c d (upd a s)) /\
    fetched C (1 + n / 1024) m (with_cache c d (upd a s)) m' /\
    (forall j, 0 <= j < n -> lget a j = lget (C (start + j / 1024)) (j mod 1024)) /\
    forall k, ~ 0 <= k < n -> lget a k = lget (proj s) k.
Proof.
  intros H3 H4 H5 H6 H7 Hput Hg HC Hst Hn Hlen.
  assert (n / 1024 <= 64) by (apply Z.div_le_upper_bound; lia).
  destruct (load_array proj upd 0 conv_byte 1 1 1024 start C H3 H4 H5) with put (Z.to_nat n) s m
    as (a & c & d & m' & Hr & Hf & Hin & Hout); rewrite ?Z2Nat.id by lia; try done; try lia.
  - intros i bs s'. by rewrite Hput, put_byte_elem.
  - rewrite Z2Nat.id in * by lia. exists a, c, d, m'. split_and!; try done.
    intros j Hj. specialize (Hin j Hj). rewrite Z.add_0_l in Hin. rewrite Hin.
    destruct (lget_in (proj s) j) as [x ->]; [lia |]. cbn. unfold conv_byte. symmetry. apply byte_item.
    intros b. rewrite <- HC. by eapply length_view.
Qed.

(** The inode [1 + i] of the table takes the 32 bytes of the [i]-th inode of the disk. *)
Lemma load_inodes_ok n start (C : Z -> list Z) s m :
  safe s m -> (forall b, view s m b = C b) -> 0 <= start <= 0x100000 -> 0 <= n <= 65536 ->
  1 + n <= Z.of_nat (length (g_inode_table s)) ->
  Forall (fun ino => 32 <= length ino)%nat (g_inode_table s) ->
  exists a c d m', read_blocks fuel dev uncache_addr start n sizeof_d_inode sizeof_d_inode put_inode s =
      Ok (true, with_cache c d (set_inodes a s)) /\
    fetched C (1 + n / 32) m (with_cache c d (set_inodes a s)) m' /\
    (forall j, 0 <= j < n -> exists ino, lget (g_inode_table s) (1 + j) = Some ino /\
       lget a (1 + j) = Some (slice (32 * (j mod 32)) 32 (C (start + j / 32)) ++ drop 32 ino)) /\
    forall k, ~ 1 <= k < 1 + n -> lget a k = lget (g_inode_table s) k.
Proof.
  intros Hg HC Hst Hn Hlen HF. assert (n / 32 <= 2048) by (apply Z.div_le_upper_bound; lia).
  assert (Hconv : forall j x, 0 <= j < n -> lget (g_inode_table s) (1 + j) = Some x ->
    put_bytes 0 (item 32 32 32 start C j) x =
      Some (slice (32 * (j mod 32)) 32 (C (start + j / 32)) ++ drop 32 x)).
  { intros j x Hj Hx. apply lget_Some in Hx as [_ Hx]. pose proof (Forall_lookup_1 _ _ _ _ HF Hx) as Hlx.
    cbn in Hlx. change (item 32 32 32 start C j) with (slice (32 * (j mod 32)) 32 (C (start + j / 32))).
    assert (Hl32 : length (slice (32 * (j mod 32)) 32 (C (start + j / 32))) = 32%nat).
    { unfold slice. rewrite length_take, length_drop, <- HC, (length_view uncache_addr) by done.
      pose proof (Z.mod_pos_bound j 32 ltac:(lia)). lia. }
    rewrite put_bytes_in by lia. by rewrite Hl32, take_0. }
  destruct (load_array g_inode_table set_inodes 1 (put_bytes 0) 32 32 32 start C) with (put_inode (D := D)) (Z.to_nat n) s m
    as (a & c & d & m' & Hr & Hf & Hin & Hout); rewrite ?Z2Nat.id by lia; try done; try lia.
  - by intros [].
  - intros j x Hj Hx. rewrite (Hconv j x Hj Hx). by eexists.
  - rewrite Z2Nat.id in * by lia. exists a, c, d, m'. split_and!; try done.
    intros j Hj. destruct (lget_in (g_inode_table s) (1 + j)) as [x Hx]; [lia |].
    exists x. split; [done |]. rewrite (Hin j Hj), Hx. cbn. by apply Hconv.
Qed.

(** The first read comes before the callback is installed, on an empty cache. *)
Lemma read_super_ok s :
  good s [] ->
  exists p c d m, read_block fuel dev uncache_addr kSuperBlockBNO s = Ok (p, with_cache c d s) /\
    block_get p 0 sizeof_super_block (with_cache c d s) = Ok (slice 0 39 (disk_block (disk_ s) 1)) /\
    forall sb, let s2 := set_callback uncache_addr (set_sb sb (with_cache c d s)) in
      fetched (disk_block (disk_ s)) 1 ∅ s2 m.
Proof.
  intros Hg.
  destruct (read_block_ok fuel dev uncache_addr Hfuel Hdev s [] kSuperBlockBNO Hg)
    as (p & s1 & l1 & v1 & Hr & _ & Hg1 & Hat1 & Hv1 & Hc1 & _ & _ & Hlen1 & (c1 & d1 & ->)); [done | by right |].
  exists p, c1, d1, (list_to_map l1). split; [done |]. split.
  { rewrite (block_get_ok _ _ _ _ _ 0 sizeof_super_block Hat1) by done. by rewrite Hv1. }
  intros sb s2. assert (Hg2 : good s2 l1) by (apply set_callback_good; destruct Hg1; by split).
  assert (Hkeys : Forall block_ok l1.*1).
  { assert (Hin : kSuperBlockBNO ∈ l1.*1).
    { destruct Hat1 as (q & _ & <- & Hp & Hd). apply abs_key_elem. by exists p, v1. }
    destruct l1 as [| x [| y l1]]; [by apply elem_of_nil in Hin | | simpl in Hlen1; lia].
    apply list_elem_of_singleton in Hin. apply Forall_singleton. by rewrite <- Hin. }
  split; [by eapply good_safe |]. split; [intros b; rewrite good_view by done; exact (Hc1 b) |]. intros _.
  rewrite map_size_empty. pose proof (map_size_list_to_map l1 (good_keys _ _ Hg1)) as Hsz. simpl in Hlen1. lia.
Qed.

(** The blocks that mounting caches: the super block and the tables. *)
Definition mount_blocks (sb : list Z) : Z :=
  4 + num_inodes sb / 32 + num_inodes sb / 8 / 1024 + num_zones sb / 8 / 1024.

Lemma init_fs_run s :
  let disk := disk_block (disk_ s) in
  let sb := slice 0 39 (disk 1) in
  let zmap_start := 2 + num_imap_blocks sb in
  let inode_start := zmap_start + num_zmap_blocks sb in
  good s [] -> Forall byte_ok sb -> 1 + num_inodes sb <= Z.of_nat (length (g_inode_table s)) ->
  Forall (fun ino => 32 <= length ino)%nat (g_inode_table s) ->
  num_inodes sb / 8 <= Z.of_nat (length (g_imap s)) -> num_zones sb / 8 <= Z.of_nat (length (g_zmap s)) ->
  exists s' m, init_fs fuel dev uncache_addr s = Ok s' /\ safe s' m /\ g_super_block s' = sb /\
    (forall b, view s' m b = disk b) /\
    (mount_blocks sb <= kCacheBlocks -> Z.of_nat (base.size m) <= mount_blocks sb) /\
    (forall i, 0 <= i < num_inodes sb -> exists ino, lget (g_inode_table s) (1 + i) = Some ino /\
       lget (g_inode_table s') (1 + i) =
         Some (slice (32 * (i mod 32)) 32 (disk (inode_start + i / 32)) ++ drop 32 ino)) /\
    (forall k, ~ 1 <= k < 1 + num_inodes sb -> lget (g_inode_table s') k = lget (g_inode_table s) k) /\
    (forall i, 0 <= i < num_inodes sb / 8 ->
       lget (g_imap s') i = lget (disk (2 + i / 1024)) (i mod 1024)) /\
    (forall i, 0 <= i < num_zones sb / 8 ->
       lget (g_zmap s') i = lget (disk (zmap_start + i / 1024)) (i mod 1024)).
Proof.
  intros disk sb zst ist Hg HF Hn Hino Him Hzm.
  pose proof (field_range 0 2 sb HF) as Hn0. pose proof (field_range 2 2 sb HF) as Hz0.
  pose proof (field_range 4 2 sb HF) as Hi0. pose proof (field_range 6 2 sb HF) as Hm0.
  change (256 ^ Z.of_nat 2) with 65536 in *.
  fold (num_inodes sb) in Hn0. fold (num_zones sb) in Hz0. fold (num_imap_blocks sb) in Hi0.
  fold (num_zmap_blocks sb) in Hm0.
  assert (0 <= num_inodes sb / 8 <= 65536) by (split; [apply Z.div_pos; lia | apply Z.div_le_upper_bound; lia]).
  assert (0 <= num_zones sb / 8 <= 65536) by (split; [apply Z.div_pos; lia | apply Z.div_le_upper_bound; lia]).
  unfold init_fs. destruct (read_super_ok s Hg) as (p & c1 & d1 & m1 & -> & Hget & Hset).
  cbn [obind]. rewrite Hget. fold disk. fold sb. cbn [obind]. pose proof (Hset sb) as Hf2. cbn zeta in Hf2.
  set (s2 := set_callback uncache_addr _) in *. fold disk in Hf2. pose proof Hf2 as (Hg2 & Hc2 & _).
  change (set_callback uncache_addr (mk _ _ _ _ _ _)) with s2.
  change (g_inode_table s) with (g_inode_table s2) in *. change (g_imap s) with (g_imap s2) in *.
  change (g_zmap s) with (g_zmap s2) in *. fold zst. fold ist.
  destruct (load_inodes_ok (num_inodes sb) ist disk s2 m1 Hg2 Hc2)
    as (a3 & c3 & d3 & m3 & -> & Hf3 & Hin3 & Hout3); [lia | lia | done | done |].
  cbn [obind]. pose proof Hf3 as (Hg3 & Hc3 & _).
  destruct (load_bytes_ok g_imap set_imap put_imap (num_inodes sb / 8) 2 disk (with_cache c3 d3 (set_inodes a3 s2)) m3) as
    (a4 & c4 & d4 & m4 & -> & Hf4 & Hin4 & _); try done; try exact Him; try (by intros []).
  cbn [obind]. pose proof Hf4 as (Hg4 & Hc4 & _).
  destruct (load_bytes_ok g_zmap set_zmap put_zmap (num_zones sb / 8) zst disk
    (with_cache c4 d4 (set_imap a4 (with_cache c3 d3 (set_inodes a3 s2)))) m4) as
    (a5 & c5 & d5 & m5 & -> & Hf5 & Hin5 & _); try done; try lia; try exact Hzm; try (by intros []).
  cbn [obind]. pose proof Hf5 as (Hg5 & Hc5 & _). eexists _, m5. split_and!; try done.
  assert (0 <= num_inodes sb / 32 /\ 0 <= num_inodes sb / 8 / 1024 /\ 0 <= num_zones sb / 8 / 1024)
    by (split_and!; apply Z.div_pos; lia).
  pose proof (fetched_trans _ _ _ _ _ _ _ _ _ _ Hf2 Hf3 ltac:(lia) ltac:(reflexivity)) as Hf23.
  pose proof (fetched_trans _ _ _ _ _ _ _ _ _ _ Hf23 Hf4 ltac:(lia) ltac:(reflexivity)) as Hf24.
  pose proof (fetched_trans _ _ _ _ _ _ _ _ _ _ Hf24 Hf5 ltac:(lia) ltac:(reflexivity)) as (_ & _ & Hl).
  rewrite map_size_empty in Hl. unfold mount_blocks. lia.
Qed.

(** The inode table that mounting leaves. *)
Definition mounted_inodes (disk : Z -> list Z) (tb : list (list Z)) : list (list Z) :=
  let sb := slice 0 39 (disk 1) in
  let inode_start := 2 + num_imap_blocks sb + num_zmap_blocks sb in
  imap (fun k ino => let i := Z.of_nat k - 1 in
    if decide (0 <= i < num_inodes sb)
    then slice (32 * (i mod 32)) 32 (disk (inode_start + i / 32)) ++ drop 32 ino else ino) tb.

Lemma mounted_inodes_ext disk disk' tb :
  (forall b, disk b = disk' b) -> mounted_inodes disk tb = mounted_inodes disk' tb.
Proof.
  intros He. unfold mounted_inodes. rewrite !He. apply list_eq. intros k. rewrite !list_lookup_imap.
  destruct (tb !! k); [| done]. cbn. by rewrite !He.
Qed.

Lemma mounted_inodes_eq disk tb tb' :
  let sb := slice 0 39 (disk 1) in
  let inode_start := 2 + num_imap_blocks sb + num_zmap_blocks sb in
  (forall i, 0 <= i < num_inodes sb -> exists ino, lget tb (1 + i) = Some ino /\
    lget tb' (1 + i) = Some (slice (32 * (i mod 32)) 32 (disk (inode_start + i / 32)) ++ drop 32 ino)) ->
  (forall k, ~ 1 <= k < 1 + num_inodes sb -> lget tb' k = lget tb k) ->
  tb' = mounted_inodes disk tb.
Proof.
  clear Hfuel Hdev Huncache. intros sb st Hin Hout. apply list_eq_lget. intros k Hk. unfold mounted_inodes. fold sb. fold st.
  unfold lget at 2. rewrite decide_True, list_lookup_imap, Z2Nat.id by done.
  case_decide as Hi.
  - destruct (Hin (k - 1) Hi) as (ino & Hg & Hg'). replace (1 + (k - 1)) with k in * by lia.
    apply lget_Some in Hg as [_ ->]. by rewrite Hg'.
  - rewrite Hout by lia. unfold lget. rewrite decide_True by done. by destruct (tb !! Z.to_nat k).
Qed.

(** C29: mounting terminates, and the super block, the inodes and the two bitmaps are those of
    the disk: inode [1 + i] has the 32 bytes of the [i]-th inode after the bitmaps, 32 to a
    block, and byte [i] of a bitmap is byte [i] of its blocks.  Everything else in the
    tables stays, no block changes, at most [mount_blocks] are cached, and the cache has its callback: the block layer is the array of blocks of
    [blocks_refine] from then on.  The inode table must have room for the inodes. *)
Theorem init_fs_ok s :
  let disk := disk_block (disk_ s) in
  let sb := slice 0 39 (disk 1) in
  let zmap_start := 2 + num_imap_blocks sb in
  let inode_start := zmap_start + num_zmap_blocks sb in
  good s [] -> Forall byte_ok sb -> 1 + num_inodes sb <= Z.of_nat (length (g_inode_table s)) ->
  Forall (fun ino => 32 <= length ino)%nat (g_inode_table s) ->
  num_inodes sb / 8 <= Z.of_nat (length (g_imap s)) -> num_zones sb / 8 <= Z.of_nat (length (g_zmap s)) ->
  exists s' m, init_fs fuel dev uncache_addr s = Ok s' /\ safe s' m /\ g_super_block s' = sb /\
    (forall b, view s' m b = disk b) /\
    (mount_blocks sb <= kCacheBlocks -> Z.of_nat (base.size m) <= mount_blocks sb) /\
    (forall i, 0 <= i < num_inodes sb -> exists ino, lget (g_inode_table s) (1 + i) = Some ino /\
       lget (g_inode_table s') (1 + i) =
         Some (slice (32 * (i mod 32)) 32 (disk (inode_start + i / 32)) ++ drop 32 ino)) /\
    (forall k, ~ 1 <= k < 1 + num_inodes sb -> lget (g_inode_table s') k = lget (g_inode_table s) k) /\
    (forall i, 0 <= i < num_inodes sb / 8 ->
       lget (g_imap s') i = lget (disk (2 + i / 1024)) (i mod 1024)) /\
    (forall i, 0 <= i < num_zones sb / 8 ->
       lget (g_zmap s') i = lget (disk (zmap_start + i / 1024)) (i mod 1024)).
Proof. apply init_fs_run. Qed.
End init.

(** ** A small file system *)

#[local] Existing Instance bump_alloc.

(** 16 inodes and 64 zones, with one block for each bitmap; the inodes start at block 4. *)
Definition mount_disk : disk :=
  (mk_ata (fun k => if k =? 2 then [16; 0; 64; 0; 1; 0; 1; 0] ++ replicate 504 0 else replicate 512 (u8 k))
     (replicate 512 0) 0 0 0 0 0 Idle, false).

Definition mount_fs : fs.t (D := disk) :=
  mk (LRUCache.make kCacheBlocks) (replicate 39 0) (replicate 128 (replicate 56 0))
    (replicate 16 0) (replicate 1280 0) mount_disk.

Lemma mount_good : good mount_fs [].
Proof.
  split; [apply (make_repr kCacheBlocks), cache_bounds |].
  intros k. cbn. destruct (k =? 2); done.
Qed.

Lemma init_fs_ok_witness :
  exists s, init_fs 3 test_device 1 mount_fs = Ok s /\ num_inodes (g_super_block s) = 16 /\
    lget (g_inode_table s) 1 = Some (replicate 32 8 ++ replicate 24 0) /\
    lget (g_imap s) 1 = Some 4 /\ lget (g_zmap s) 7 = Some 6.
Proof.
  destruct (init_fs_ok 3 test_device 1 disk_fuel eq_refl ltac:(done) mount_fs mount_good)
    as (s & m & Hr & _ & Hsb & _ & _ & Hino & _ & Him & Hzm).
  - by repeat constructor.
  - vm_compute. congruence.
  - apply Forall_replicate. vm_compute. lia.
  - vm_compute. congruence.
  - vm_compute. congruence.
  - exists s. split; [exact Hr |]. split; [rewrite Hsb; reflexivity |].
    split; [| split; [apply Him; split; [lia | reflexivity] | apply Hzm; split; [lia | reflexivity]]].
    destruct (Hino 0) as (ino & Ht & Ht'); [split; [lia | reflexivity] |].
    change (1 + 0) with 1 in Ht'. rewrite Ht'. injection Ht as <-. reflexivity.
Defined.
