(* ===== verification/Dirs.v ===== *)
(** * Directories and paths ([find_entry], [namei] of [lib/fs.cc])

    What the directory search finds, on the blocks of the file system: the entries of a
    directory as a list of inode numbers and names, [find_entry] as the first entry whose
    name is a prefix of the rest of the path, and [namei] as the walk over the path. *)

From stdpp Require Import prelude gmap strings.
From Stdlib Require Import ZArith Lia.
From S2P Require Import Prelude CString LruCache LruCorrect Ide Fs FsEvict FsArrays FsInit.
Import ide fs.

(** ** The specification *)

Module dir.

(** Item [k] of a table of zone numbers. *)
Definition zone_word (bs : list Z) (k : Z) : Z := field (2 * Z.to_nat k) 2 bs.

(** The block of zone [k] of an inode: seven direct zones, then those of the first table. *)
Definition zone_of (C : Z -> list Z) (ino : list Z) (k : Z) : Z :=
  if k <? 7 then field (14 + 2 * Z.to_nat k) 2 ino
  else zone_word (C (field 28 2 ino)) (k - 7).

(** A C string at the start of the bytes. *)
Fixpoint c_string (bs : list Z) : list Z :=
  match bs with
  | [] => []
  | c :: bs' => if c =? 0 then [] else c :: c_string bs'
  end.

(** The bytes from entry [i] of a directory to the end of its block. *)
Definition entry_bytes (C : Z -> list Z) (ino : list Z) (i : Z) : list Z :=
  drop (Z.to_nat (32 * (i mod 32))) (C (zone_of C ino (i / 32))).

(** Inode number and name. *)
Definition entry (C : Z -> list Z) (ino : list Z) (i : Z) : Z * list Z :=
  (field 0 2 (entry_bytes C ino i), c_string (drop 2 (entry_bytes C ino i))).

Definition num_entries (ino : list Z) : Z := i_size ino / 32.

Definition entries (C : Z -> list Z) (ino : list Z) : list (Z * list Z) :=
  map (entry C ino) (seqZ 0 (num_entries ino)).

(** The name of an entry is a prefix of what is left of the path. *)
Definition matches (rest : list Z) (e : Z * list Z) : bool := bool_decide (snd e `prefix_of` rest).

Definition lookup (C : Z -> list Z) (ino rest : list Z) : option Z :=
  if is_directory (i_mode ino) then fst <$> find (matches rest) (entries C ino) else None.

(** What follows the next slash. *)
Definition after_slash (rest : list Z) : option (list Z) :=
  let i := index_of 47 rest in
  if decide (i = length rest) then None else Some (drop (S i) rest).

(** The walk over a path from an inode; a component after one that was not found is
    looked up in the null pointer. *)
Fixpoint walk (n : nat) (C : Z -> list Z) (table : list (list Z)) (inode : option Z) (rest : list Z)
    : outcome (option Z) :=
  match n with
  | O => NoFuel
  | S n' =>
      let! dir := or_fault inode in
      let! ino := or_fault (lget table dir) in
      let r := lookup C ino rest in
      match after_slash rest with
      | None => Ok r
      | Some rest' => walk n' C table r rest'
      end
  end.

(** The names of a directory end within their 30 bytes, and the directory has at most
    [z] zones. *)
Definition dir_ok (C : Z -> list Z) (z : Z) (ino : list Z) : Prop :=
  Forall byte_ok ino /\ num_entries ino / 32 < z /\
  forall i, 0 <= i < num_entries ino -> 0 ∈ take 30 (drop 2 (entry_bytes C ino i)).

End dir.
Import dir.

(** ** Strings in a block *)

Lemma c_string_short n bs : 0 ∈ take n bs -> (length (c_string bs) < n)%nat.
Proof.
  revert n. induction bs as [| c bs IH]; intros n Hin; [by rewrite take_nil in Hin; apply elem_of_nil in Hin |].
  destruct n as [| n]; [by apply elem_of_nil in Hin |]. cbn [take c_string] in *.
  destruct (Z.eqb_spec c 0) as [-> | Hc]; [simpl; lia |].
  apply elem_of_cons in Hin as [Hin | Hin]; [congruence |]. cbn [length]. specialize (IH n Hin). lia.
Qed.

Lemma c_string_cstr (r : reader) a bs :
  0 ∈ bs -> Forall byte_ok bs ->
  (forall i b, bs !! i = Some b -> r (a + Z.of_nat i) = Ok b) -> cstr r a (c_string bs).
Proof.
  revert a. induction bs as [| c bs IH]; intros a Hin HF Hr; [by apply elem_of_nil in Hin |].
  apply Forall_cons in HF as [Hb HF]. pose proof (Hr 0%nat c eq_refl) as Hc. rewrite Z.add_0_r in Hc.
  cbn [c_string]. destruct (Z.eqb_spec c 0) as [-> | Hne]; cbn [cstr]; [done |]. split_and!; try done.
  apply elem_of_cons in Hin as [Hin | Hin]; [congruence |]. apply IH; [done | done |].
  intros i b Hi. rewrite <- (Hr (S i) b Hi). f_equal. lia.
Qed.

(** ** Paths *)

Definition slashes (rest : list Z) : nat := List.count_occ Z.eq_dec rest 47.

Lemma index_of_cases ch rest :
  (index_of ch rest = length rest /\ ch ∉ rest) \/
  exists l1 l2, rest = l1 ++ ch :: l2 /\ index_of ch rest = length l1 /\ ch ∉ l1.
Proof.
  induction rest as [| c rest IH]; [left; split; [done | by intros ?%elem_of_nil] |]. cbn [index_of].
  case_decide as Hc; [subst; right; exists [], rest; split_and!; [done | done | by intros ?%elem_of_nil] |].
  destruct IH as [[-> Hn] | (l1 & l2 & -> & -> & Hn)]; [left | right].
  - split; [done |]. intros [? | ?]%elem_of_cons; [congruence | done].
  - exists (c :: l1), l2. split_and!; [done | done |]. intros [? | ?]%elem_of_cons; [congruence | done].
Qed.

Lemma after_slash_cases rest :
  (after_slash rest = None /\ index_of 47 rest = length rest) \/
  exists l1 l2, after_slash rest = Some l2 /\ rest = l1 ++ 47 :: l2 /\ index_of 47 rest = length l1 /\
    slashes rest = S (slashes l2).
Proof.
  unfold after_slash. destruct (index_of_cases 47 rest) as [[E _] | (l1 & l2 & Hr & E & Hn)]; rewrite E.
  - left. by rewrite decide_True.
  - right. exists l1, l2. rewrite Hr, length_app, decide_False by (simpl; lia). split_and!; try done.
    + f_equal. change (l1 ++ 47 :: l2) with (l1 ++ [47] ++ l2). rewrite app_assoc.
      by rewrite drop_app_length' by (rewrite length_app; simpl; lia).
    + unfold slashes. rewrite List.count_occ_app, List.count_occ_cons_eq by done.
      rewrite (proj1 (List.count_occ_not_In Z.eq_dec l1 47)); [done |]. by rewrite <- list_elem_of_In.
Qed.

Lemma cstr_app r a l1 l2 : cstr r a (l1 ++ l2) -> cstr r (a + Z.of_nat (length l1)) l2.
Proof.
  revert a. induction l1 as [| c l1 IH]; intros a; cbn [app cstr length]; [by rewrite Z.add_0_r |].
  intros (_ & _ & _ & Hs). replace (a + Z.of_nat (S (length l1))) with (a + 1 + Z.of_nat (length l1)) by lia. auto.
Qed.

Lemma cstr_end r a l : cstr r a l -> r (a + Z.of_nat (length l)) = Ok 0.
Proof. intros Hs. rewrite <- (app_nil_r l) in Hs. exact (cstr_app _ _ _ _ Hs). Qed.

Lemma walk_enough n C table inode rest : (slashes rest < n)%nat -> walk n C table inode rest <> NoFuel.
Proof.
  revert inode rest. induction n as [| n IH]; intros inode rest Hn; [lia |]. cbn [walk].
  destruct inode as [d |]; [| done]. cbn [or_fault obind]. destruct (lget table d) as [ino |]; [| done]. cbn [or_fault obind].
  destruct (after_slash_cases rest) as [[-> _] | (l1 & l2 & -> & _ & _ & Hs)]; [done |]. apply IH. lia.
Qed.

Section proofs.
Context {D : Type} `{AtaDisk D} `{NodeAlloc block_buffer}.
Context (fuel : nat) (dev : ide_device) (uncache_addr : Z).
Hypothesis Hfuel : (busy_bound < fuel)%nat.
Hypothesis Hdev : valid dev = 1.
Hypothesis Huncache : uncache_addr <> 0.
Context (C : Z -> list Z).
Hypothesis HC : forall b, Forall byte_ok (C b).
Implicit Types (s : fs.t (D := D)) (m : gmap Z block_buffer).

(** The blocks of the file system are [C]; the cache holds those of [m]. *)
Definition holds s m : Prop := safe uncache_addr s m /\ forall b, view s m b = C b.

Lemma length_C s m b : holds s m -> length (C b) = 1024%nat.
Proof. intros [Hs Hv]. rewrite <- Hv. by eapply length_view. Qed.

Lemma get_ok s m p b off n :
  holds s m -> at_block s m p b -> 0 <= off -> 0 <= n -> off + n <= kBlockSize ->
  block_get p off n s = Ok (take (Z.to_nat n) (drop (Z.to_nat off) (C b))).
Proof. intros [_ Hv] Hat Ho Hn Hb. by rewrite (block_get_any _ _ _ _ _ _ Hat), Hv. Qed.

Lemma field_word off bs : Forall byte_ok bs -> 0 <= field off 2 bs < 65536.
Proof. intros HF. exact (field_range off 2 bs HF). Qed.

Lemma zone_entry_ok s m p b k :
  holds s m -> at_block s m p b -> 0 <= k < 512 -> zone_entry p k s = Ok (zone_word (C b) k).
Proof.
  clear Hfuel. intros Hh Hat Hk. unfold zone_entry. rewrite (get_ok _ _ _ _ _ _ Hh Hat) by (unfold kBlockSize; lia).
  cbn [obind]. unfold zone_word, field. do 4 f_equal. lia.
Qed.

(** *** Reading *)

(** No block changes, and at most [n] more are cached. *)
Definition moves s m s' m' (n : Z) : Prop :=
  moved uncache_addr (fun _ => False) s m s' m' /\ grows n s m s' m'.

Lemma moves_refl s m : holds s m -> moves s m s m 0.
Proof. intros [Hs _]. split; [by apply moved_refl | apply grows_refl]. Qed.

Lemma moves_trans s1 m1 s2 m2 s3 m3 n k l :
  moves s1 m1 s2 m2 n -> moves s2 m2 s3 m3 k -> 0 <= k -> n + k <= l -> moves s1 m1 s3 m3 l.
Proof.
  intros [Hm1 Hg1] [Hm2 Hg2] Hk Hl. split; [by eapply moved_trans | by eapply grows_trans].
Qed.

Lemma moves_le s m s' m' n k : moves s m s' m' n -> n <= k -> moves s m s' m' k.
Proof.
  intros [Hm Hg] Hk. split; [done |]. eapply grows_trans; [exact Hg | apply grows_refl | done |]. clear Hfuel; lia.
Qed.

Lemma moved_holds s m s' m' : holds s m -> moved uncache_addr (fun _ => False) s m s' m' -> holds s' m'.
Proof.
  intros [_ Hv] Hm. split; [by apply (mv_safe _ _ _ _ _ _ Hm) |]. intros b. by rewrite (moved_no_view _ _ _ _ _ Hm).
Qed.

Lemma moves_holds s m s' m' n : holds s m -> moves s m s' m' n -> holds s' m'.
Proof. intros Hh [Hm _]. by eapply moved_holds. Qed.

Lemma moves_vars s m s' m' n : moves s m s' m' n -> same_vars s s'.
Proof. intros [Hm _]. apply Hm. Qed.

Lemma moves_table s m s' m' n : moves s m s' m' n -> g_inode_table s' = g_inode_table s.
Proof. intros [[_ (_ & -> & _) _ _] _]. done. Qed.

(** With room, the cache grows by [n] at most and the pointers stay good. *)
Lemma moves_room s m s' m' n :
  moves s m s' m' n -> Z.of_nat (base.size m) + n <= kCacheBlocks ->
  Z.of_nat (base.size m') <= Z.of_nat (base.size m) + n /\
  forall p b, at_block s m p b -> at_block s' m' p b.
Proof.
  intros [Hm Hg] Hroom. destruct (Hg Hroom) as [Hl Hk]. split; [done |].
  intros p b Hat. eapply (at_keeps uncache_addr); [exact Hat | exact Hk | apply Hm].
Qed.

Lemma read_moves s m b :
  holds s m -> 0 <= b < 65536 ->
  exists p s' m', read_block fuel dev uncache_addr b s = Ok (p, s') /\ moves s m s' m' 1 /\ at_block s' m' p b.
Proof.
  intros [Hs _] Hb.
  destruct (read_block_any fuel dev uncache_addr Hfuel Hdev Huncache s m b Hs)
    as (p & s' & m' & Hr & Hm & Hat & Hg & _); [unfold block_ok; lia |].
  by exists p, s', m'.
Qed.

Lemma zone_moves s m d ino k :
  holds s m -> lget (g_inode_table s) d = Some ino -> Forall byte_ok ino -> 0 <= k < 519 ->
  exists p s' m', read_zone fuel dev uncache_addr d k s = Ok (p, s') /\ moves s m s' m' 2 /\
    at_block s' m' p (zone_of C ino k).
Proof.
  intros Hh Hd HF Hk. unfold read_zone, inode_at. rewrite Hd. cbn [or_fault obind].
  unfold i_zone, zone_of. destruct (Z.ltb_spec k 7).
  - rewrite decide_True by lia. cbn [obind].
    destruct (read_moves s m (field (14 + 2 * Z.to_nat k) 2 ino) Hh) as (p & s' & m' & -> & Hm & ?);
      [by apply field_word |]. exists p, s', m'. split_and!; try done. by eapply moves_le.
  - change (7 + 512) with 519. rewrite (proj2 (Z.ltb_lt k 519)), u32_small, decide_True by lia. cbn [obind].
    change (14 + 2 * Z.to_nat 7)%nat with 28%nat.
    destruct (read_moves s m (field 28 2 ino) Hh) as (p1 & s1 & m1 & -> & Hm1 & Hat1); [by apply field_word |]. cbn [obind].
    pose proof (moves_holds _ _ _ _ _ Hh Hm1) as Hh1.
    rewrite (zone_entry_ok _ _ _ _ _ Hh1 Hat1) by lia. cbn [obind].
    destruct (read_moves s1 m1 (zone_word (C (field 28 2 ino)) (k - 7)) Hh1) as (p & s' & m' & -> & Hm2 & Hat);
      [apply field_word, HC |].
    exists p, s', m'. split_and!; try done. by eapply moves_trans.
Qed.

(** *** Traversal *)

(** The bytes of an entry in the cached block. *)
Lemma entry_block_ok s m p b o i ino :
  holds s m -> at_block s m p b -> b = zone_of C ino (i / 32) -> o = 32 * (i mod 32) ->
  block_get p o 2 s = Ok (take 2 (entry_bytes C ino i)) /\
  forall k c, entry_bytes C ino i !! k = Some c -> block_reader p s (o + Z.of_nat k) = Ok c.
Proof.
  intros Hh Hat -> ->. clear Hfuel Hdev. pose proof (Z.mod_pos_bound i 32 ltac:(lia)) as Hm. split.
  - rewrite (get_ok _ _ _ _ _ _ Hh Hat) by (unfold kBlockSize; lia). done.
  - intros k c Hk. unfold entry_bytes in Hk. rewrite lookup_drop in Hk.
    pose proof (lookup_lt_Some _ _ _ Hk) as Hl. rewrite (length_C _ _ _ Hh) in Hl.
    unfold block_reader. rewrite (get_ok _ _ _ _ _ _ Hh Hat) by (unfold kBlockSize; lia). cbn [obind].
    replace (Z.to_nat (32 * (i mod 32) + Z.of_nat k)) with (Z.to_nat (32 * (i mod 32)) + k)%nat by lia.
    rewrite (drop_S _ _ _ Hk). change (Z.to_nat 1) with 1%nat. cbn [firstn]. rewrite take_0. cbn [le_decode]. f_equal. lia.
Qed.

(** A callback that only looks: [test i] is its answer at entry [i]. *)
Definition looks {W} (cb : Z -> Z -> fs.t (D := D) -> W -> outcome (bool * fs.t * W)) (w : W)
    (ino : list Z) (test : Z -> bool) (n : Z) : Prop :=
  forall s m p i, holds s m -> 0 <= i < n ->
    at_block s m p (zone_of C ino (i / 32)) -> cb p (32 * (i mod 32)) s w = Ok (test i, s, w).

(** The step of the loop to the block of entry [i]. *)
Lemma next_zone s m d ino zc zone off :
  holds s m -> lget (g_inode_table s) d = Some ino -> Forall byte_ok ino ->
  at_block s m zone (zone_of C ino zc) -> 0 <= zc < 500 -> 0 <= off <= 1024 -> off mod 32 = 0 ->
  let i := 32 * zc + off / 32 in
  exists zone' s' m',
    (if kZoneSize <=? off then
       let! '(p, s) := read_zone fuel dev uncache_addr d (zc + 1) s in Ok (zc + 1, p, 0, s)
     else Ok (zc, zone, off, s)) = Ok (i / 32, zone', 32 * (i mod 32), s') /\
    moves s m s' m' (2 * (i / 32 - zc)) /\ at_block s' m' zone' (zone_of C ino (i / 32)) /\ zc <= i / 32.
Proof.
  intros Hh Hd HF Hat Hzc Hoff Hal i. change kZoneSize with 1024. destruct (Z.leb_spec 1024 off).
  - assert (off = 1024) as -> by (clear Hfuel; lia).
    destruct (zone_moves s m d ino (zc + 1) Hh Hd HF) as (p & s' & m' & -> & Hm' & Hat'); [clear Hfuel; lia |].
    assert (i / 32 = zc + 1) as -> by (subst i; clear Hfuel; zlia). assert (i mod 32 = 0) as -> by (subst i; clear Hfuel; zlia).
    exists p, s', m'. split_and!; [done | | done | clear Hfuel; lia]. by replace (2 * (zc + 1 - zc)) with 2 by (clear Hfuel; lia).
  - assert (i / 32 = zc) as -> by (subst i; clear Hfuel; zlia). assert (32 * (i mod 32) = off) as -> by (subst i; clear Hfuel; zlia).
    exists zone, s, m. split_and!; [done | | done | clear Hfuel; lia].
    replace (2 * (zc - zc)) with 0 by (clear Hfuel; lia). by apply moves_refl.
Qed.

Lemma traverse_loop_ok {W} cb (w : W) d ino test n i zc zone off s m k :
  looks cb w ino test k ->
  holds s m -> lget (g_inode_table s) d = Some ino -> Forall byte_ok ino ->
  at_block s m zone (zone_of C ino zc) -> i = 32 * zc + off / 32 -> 0 <= zc -> 0 <= off <= 1024 ->
  off mod 32 = 0 -> i + Z.of_nat n = k -> k / 32 < 500 ->
  exists s' m', traverse_loop fuel dev uncache_addr n d zc zone off cb s w =
      Ok (fst <$> (entry C ino <$> find test (seqZ i (Z.of_nat n))), s', w) /\
    moved uncache_addr (fun _ => False) s m s' m'.
Proof.
  intros Hcb. revert i zc zone off s m. induction n as [| n IH];
    intros i zc zone off s m Hh Hd HF Hat Hi Hzc Hoff Hal Hn Hm; cbn [traverse_loop].
  { exists s, m. split; [done |]. by eapply moves_refl. }
  destruct (next_zone s m d ino zc zone off Hh Hd HF Hat) as (zone' & s1 & m1 & -> & Hm1 & Hat1 & Hle); [zlia | done | done |].
  rewrite <- Hi in *. cbn [obind]. pose proof (moves_holds _ _ _ _ _ Hh Hm1) as Hh1.
  rewrite (Hcb s1 m1 zone' i Hh1 ltac:(zlia) Hat1). cbn [obind].
  rewrite seqZ_cons by lia. cbn [find]. destruct (test i).
  - destruct (entry_block_ok s1 m1 zone' _ _ i ino Hh1 Hat1 eq_refl eq_refl) as [-> _]. cbn [obind].
    exists s1, m1. split; [done |]. apply Hm1.
  - unfold sizeof_dir_entry.
    destruct (IH (Z.succ i) (i / 32) zone' (32 * (i mod 32) + 32) s1 m1)
      as (s' & m' & Hr & Hm'); rewrite ?(moves_table _ _ _ _ _ Hm1); try done; try zlia.
    exists s', m'. replace (Z.pred (Z.of_nat (S n))) with (Z.of_nat n) by lia. rewrite Hr.
    split; [done |]. eapply moved_trans; [apply Hm1 | done].
Qed.

Lemma find_map {A B} (f : A -> B) P (l : list A) : find P (map f l) = f <$> find (fun x => P (f x)) l.
Proof. induction l as [| x l IH]; [done |]. cbn. by destruct (P (f x)). Qed.

(** The name of an entry as a string in the block. *)
Lemma name_cstr s m p i ino :
  holds s m -> at_block s m p (zone_of C ino (i / 32)) -> 0 ∈ take 30 (drop 2 (entry_bytes C ino i)) ->
  cstr (block_reader p s) (32 * (i mod 32) + 2) (c_string (drop 2 (entry_bytes C ino i))).
Proof.
  clear Hfuel Hdev. intros Hh Hat Hn.
  destruct (entry_block_ok s m p _ _ i ino Hh Hat eq_refl eq_refl) as [_ Hr].
  apply c_string_cstr.
  - rewrite <- (take_drop 30). apply elem_of_app. by left.
  - apply Forall_drop. unfold entry_bytes. apply Forall_drop, HC.
  - intros k b Hk. rewrite lookup_drop in Hk. rewrite <- (Hr _ _ Hk). f_equal. lia.
Qed.

(** Comparing a name in the block with the path. *)
Lemma name_looks path pos rest ino n :
  cstr path pos rest -> (30 <= fuel)%nat ->
  (forall i, 0 <= i < n -> 0 ∈ take 30 (drop 2 (entry_bytes C ino i))) ->
  looks (fun p off s (_ : unit) =>
      let! z := strcmp fuel (block_reader p s) path (off + 2) pos in Ok (z =? 0, s, tt))
    tt ino (fun i => matches rest (entry C ino i)) n.
Proof.
  intros Hp Hf Hn s m p i Hh Hi Hat. specialize (Hn i Hi).
  destruct (strcmp_run fuel _ path _ pos _ rest (name_cstr s m p i ino Hh Hat Hn) Hp) as (z & -> & Hz);
    [pose proof (c_string_short _ _ Hn); lia |].
  cbn [obind]. do 3 f_equal. unfold matches, entry. cbn [snd].
  destruct (Z.eqb_spec z 0); symmetry; [apply bool_decide_eq_true_2 | apply bool_decide_eq_false_2]; tauto.
Qed.

Lemma find_entry_run path pos rest d ino s m :
  cstr path pos rest -> (30 <= fuel)%nat -> holds s m -> lget (g_inode_table s) d = Some ino ->
  (is_directory (i_mode ino) = true -> dir_ok C 500 ino) ->
  exists s' m', find_entry fuel dev uncache_addr d path pos s = Ok (lookup C ino rest, s') /\
    moved uncache_addr (fun _ => False) s m s' m'.
Proof.
  intros Hp Hf Hh Hd Hdir. unfold find_entry, traverse_dir, inode_at, lookup. rewrite Hd. cbn [or_fault obind].
  destruct (is_directory (i_mode ino)); cbn [negb obind].
  2: { exists s, m. split; [done |]. by apply moves_refl. }
  destruct (Hdir eq_refl) as (HF & Hsz & Hnames).
  assert (Hsize : 0 <= num_entries ino).
  { unfold num_entries, i_size. pose proof (field_range 4 4 ino HF). zlia. }
  destruct (zone_moves s m d ino 0 Hh Hd HF) as (p & s1 & m1 & Hrz & Hm1 & Hat1); [lia |]. rewrite Hrz. cbn [obind].
  destruct (traverse_loop_ok _ tt d ino _ (Z.to_nat (num_entries ino)) 0 0 p 0 s1 m1 (num_entries ino)
    (name_looks path pos rest ino _ Hp Hf Hnames))
    as (s' & m' & Hr & Hm'); try done; try lia; [by eapply moves_holds | by rewrite (moves_table _ _ _ _ _ Hm1) |].
  change (i_size ino / sizeof_dir_entry) with (num_entries ino). rewrite Hr. cbn [obind].
  exists s', m'. split; [| eapply moved_trans; [apply Hm1 | done]].
  do 3 f_equal. unfold entries. rewrite Z2Nat.id by lia. by rewrite find_map.
Qed.

(** Directory search.  [find_entry] terminates and returns the inode of the first entry
    whose name is a prefix of the rest of the path, or null; a name need not be
    the whole component.  It looks through every zone of the directory, and no block
    and none of the tables changes. *)
Theorem find_entry_first path pos rest d ino s m :
  cstr path pos rest -> (30 <= fuel)%nat -> holds s m -> lget (g_inode_table s) d = Some ino ->
  (is_directory (i_mode ino) = true -> dir_ok C 500 ino) ->
  exists s' m', find_entry fuel dev uncache_addr d path pos s = Ok (lookup C ino rest, s') /\
    moved uncache_addr (fun _ => False) s m s' m'.
Proof. apply find_entry_run. Qed.

(** *** The walk over a path *)

(** Every directory of the table fits the search. *)
Definition dirs_ok (z : Z) (table : list (list Z)) : Prop :=
  forall d ino, lget table d = Some ino -> is_directory (i_mode ino) = true -> dir_ok C z ino.

Lemma namei_loop_ok n path k rest inode s m :
  cstr path (k + 1) rest -> (30 <= fuel)%nat -> (length rest < fuel)%nat -> holds s m ->
  dirs_ok 500 (g_inode_table s) -> (slashes rest < n)%nat ->
  match walk n C (g_inode_table s) inode rest with
  | Ok r => exists s' m', namei_loop fuel dev uncache_addr n path inode k s = Ok (r, s') /\
      moved uncache_addr (fun _ => False) s m s' m'
  | _ => namei_loop fuel dev uncache_addr n path inode k s = Fault
  end.
Proof.
  revert k rest inode s m. induction n as [| n IH];
    intros k rest inode s m Hp Hf Hlen Hh Hdirs Hn; [lia |]. cbn [walk namei_loop].
  rewrite (strfind_ok fuel path (k + 1) rest 47 Hp Hlen). cbn [obind].
  destruct inode as [d |]; [| done]. cbn [or_fault obind].
  destruct (lget (g_inode_table s) d) as [ino |] eqn:Hd; cbn [or_fault obind].
  2: { unfold find_entry, inode_at. by rewrite Hd. }
  destruct (find_entry_run path (k + 1) rest d ino s m Hp Hf Hh Hd (Hdirs d ino Hd))
    as (s1 & m1 & -> & Hm1). cbn [obind].
  destruct (after_slash_cases rest) as [[-> Hi] | (p1 & p2 & -> & Hr & Hi & Hsl)]; rewrite Hi.
  - rewrite (cstr_end _ _ _ Hp). cbn [obind Z.eqb]. by exists s1, m1.
  - rewrite Hr in Hp. pose proof (cstr_app _ _ _ _ Hp) as (Hc & _ & _ & Hp2). rewrite Hc. cbn [obind Z.eqb].
    assert (Htb : g_inode_table s1 = g_inode_table s) by apply Hm1. rewrite <- Htb in *.
    rewrite Hr, length_app in Hlen. cbn [length] in Hlen.
    assert (Hh1 : holds s1 m1) by (by eapply moved_holds).
    specialize (IH (k + 1 + Z.of_nat (length p1)) p2 (lookup C ino rest) s1 m1 Hp2 Hf ltac:(lia) Hh1 Hdirs ltac:(lia)).
    destruct (walk _ _ _ _ p2); [| done..]. destruct IH as (s' & m' & Hw & Hm').
    exists s', m'. split; [done |]. by eapply moved_trans.
Qed.

Lemma namei_run path rest s m :
  cstr path 0 (47 :: rest) -> (30 <= fuel)%nat -> (length rest < fuel)%nat -> holds s m ->
  dirs_ok 500 (g_inode_table s) ->
  match walk fuel C (g_inode_table s) (Some kRootINO) rest with
  | Ok r => exists s' m', namei fuel dev uncache_addr path s = Ok (r, s') /\
      moved uncache_addr (fun _ => False) s m s' m'
  | _ => namei fuel dev uncache_addr path s = Fault
  end.
Proof.
  intros (Hc & _ & _ & Hp) Hf Hlen Hh Hdirs. unfold namei. rewrite Hc. cbn [obind Z.eqb Pos.eqb kassert].
  apply (namei_loop_ok fuel path 0 rest (Some kRootINO) s m); try done.
  pose proof (List.count_occ_bound Z.eq_dec 47 rest). unfold slashes. lia.
Qed.

(** C14: Path lookup.  [namei] terminates on every absolute path, however many blocks it reads: it walks
    from the root, one component after the other, each looked up by [find_entry] with everything that is left
    of the path.  A component that is missing before the last one is a fault: the null inode is
    dereferenced.  No block of the file system and none of the tables changes. *)
Theorem namei_walks path rest s m :
  cstr path 0 (47 :: rest) -> (30 <= fuel)%nat -> (length rest < fuel)%nat -> holds s m ->
  dirs_ok 500 (g_inode_table s) ->
  match walk fuel C (g_inode_table s) (Some kRootINO) rest with
  | Ok r => exists s' m', namei fuel dev uncache_addr path s = Ok (r, s') /\
      moved uncache_addr (fun _ => False) s m s' m'
  | _ => namei fuel dev uncache_addr path s = Fault
  end.
Proof. apply namei_run. Qed.
End proofs.

(** ** A small tree *)

#[local] Existing Instance bump_alloc.

Definition pad (n : nat) (bs : list Z) : list Z := take n (bs ++ replicate n 0).

(** Mode, size and first zone of an inode. *)
Definition inode_bytes (mode size zone : Z) : list Z :=
  pad 32 (le_encode 2 mode ++ [0; 0] ++ le_encode 4 size ++ [0; 0; 0; 0; 0; 1] ++ le_encode 2 zone).

Definition entry_of_name (ino : Z) (name : list Z) : list Z := le_encode 2 ino ++ pad 30 name.

(** "test", "test.txt" and the contents "hi". *)
Definition test_name : list Z := [116; 101; 115; 116].
Definition test_txt_name : list Z := test_name ++ [46; 116; 120; 116].

Definition tree_inodes : list (list Z) :=
  [ inode_bytes 0x41ED 64 10; inode_bytes 0x41ED 32 11; inode_bytes 0x81A4 2 12 ].

(** The root (inode 1, block 10) has "." and "test"; that directory (inode 2, block 11) has
    "test.txt" (inode 3, block 12).  There are 16 inodes and 64 zones. *)
Definition tree_sector (k : Z) : list Z :=
  pad 512 (if k =? 2 then [16; 0; 64; 0; 1; 0; 1; 0; 10; 0; 0; 0; 0; 4; 0; 0; 127; 19]
           else if k =? 8 then mjoin tree_inodes
           else if k =? 20 then entry_of_name 1 [46] ++ entry_of_name 2 test_name
           else if k =? 22 then entry_of_name 3 test_txt_name
           else if k =? 24 then [104; 105] else []).

Definition tree_disk : disk := (mk_ata tree_sector (replicate 512 0) 0 0 0 0 0 Idle, false).

Definition tree_fs : fs.t (D := disk) :=
  set_callback 1 (fs.mk (LRUCache.make kCacheBlocks) (pad 39 (tree_sector 2))
    (replicate 1 (replicate 56 0) ++ map (pad 56) tree_inodes ++ replicate 124 (replicate 56 0))
    (replicate 16 0) (replicate 1280 0) tree_disk).

Definition tree_blocks : Z -> list Z := disk_block tree_disk.

Lemma tree_sector_cases k :
  tree_sector k = tree_sector 0 \/ k ∈ [2; 8; 20; 22; 24].
Proof.
  destruct (decide (k ∈ [2; 8; 20; 22; 24])) as [| Hn]; [by right | left].
  rewrite !elem_of_cons in Hn. unfold tree_sector.
  rewrite !(proj2 (Z.eqb_neq k _)) by tauto. done.
Qed.

Lemma tree_sector_ok k : length (tree_sector k) = 512%nat /\ Forall byte_ok (tree_sector k).
Proof.
  assert (Hall : forallb (fun k => (length (tree_sector k) =? 512)%nat &&
    forallb (fun b => (0 <=? b) && (b <? 256)) (tree_sector k)) [0; 2; 8; 20; 22; 24] = true) by (by vm_compute).
  rewrite forallb_forall in Hall.
  assert (Hk : exists k', k' ∈ [0; 2; 8; 20; 22; 24] /\ tree_sector k = tree_sector k').
  { destruct (tree_sector_cases k) as [-> | Hk]; [exists 0 | exists k]; (split; [| done]); set_solver. }
  destruct Hk as (k' & Hk' & ->). specialize (Hall k' (proj1 (list_elem_of_In _ _) Hk')). bprop.
  split; [by apply Nat.eqb_eq |]. rewrite Forall_forall. intros b Hb.
  match goal with H : forallb _ (tree_sector _) = true |- _ => rewrite forallb_forall in H;
    specialize (H b (proj1 (list_elem_of_In _ _) Hb)) end. bprop. split; lia.
Qed.

Lemma tree_safe tb im : safe 1 (fs.mk (g_block_cache tree_fs) (g_super_block tree_fs) tb im (g_zmap tree_fs) tree_disk) ∅.
Proof.
  eapply (good_safe 3 test_device 1 _ []); [| done | by constructor].
  apply (set_callback_good 1 (fs.mk (LRUCache.make kCacheBlocks) (g_super_block tree_fs) tb im (g_zmap tree_fs) tree_disk)).
  split; [apply (make_repr kCacheBlocks), cache_bounds |]. intros k. apply tree_sector_ok.
Qed.

Lemma tree_holds : holds 1 tree_blocks tree_fs ∅.
Proof. split; [apply tree_safe | done]. Qed.

Lemma tree_bytes b : Forall byte_ok (tree_blocks b).
Proof.
  unfold tree_blocks, disk_block. cbn [sectors_at]. repeat (apply Forall_app; split; [apply tree_sector_ok |]). done.
Qed.

Lemma tree_dirs z : 0 < z -> dirs_ok tree_blocks z (g_inode_table tree_fs).
Proof.
  intros Hz d ino Hd Hdir. apply lget_Some in Hd as [Hd0 Hd].
  assert (Hino : ino = pad 56 (inode_bytes 0x41ED 64 10) \/ ino = pad 56 (inode_bytes 0x41ED 32 11)).
  { apply list_elem_of_lookup_2 in Hd. change (ino ∈ [replicate 56 0] ++ map (pad 56) tree_inodes ++ replicate 124 (replicate 56 0)) in Hd.
    rewrite !elem_of_app in Hd. destruct Hd as [Hd | [Hd | Hd]].
    - apply list_elem_of_singleton in Hd as ->. done.
    - cbn [map tree_inodes] in Hd. rewrite !elem_of_cons in Hd. destruct Hd as [-> | [-> | [-> | Hd]]]; [by left | by right | done |].
      by apply elem_of_nil in Hd.
    - apply elem_of_replicate in Hd as [-> _]. done. }
  destruct Hino as [-> | ->]; (split_and!; [| exact Hz |]).
  1,3: by repeat constructor.
  - intros i Hi. change (num_entries _) with 2 in Hi. assert (i = 0 \/ i = 1) as [-> | ->] by lia;
      apply (bool_decide_eq_true_1 _); by vm_compute.
  - intros i Hi. change (num_entries _) with 1 in Hi. assert (i = 0) as -> by lia.
    apply (bool_decide_eq_true_1 _); by vm_compute.
Qed.

(** A path as the bytes of a string. *)
Definition path_of (bs : list Z) : reader := fun a => or_fault (lget (bs ++ [0]) a).

Lemma path_of_cstr bs rest pos :
  Forall (fun c => 0 < c < 256) bs -> 0 <= pos -> rest = drop (Z.to_nat pos) bs -> pos <= Z.of_nat (length bs) ->
  cstr (path_of bs) pos rest.
Proof.
  intros HF Hp -> Hle.
  assert (Hgen : forall k pos, 0 <= pos -> k = (length bs - Z.to_nat pos)%nat -> pos <= Z.of_nat (length bs) ->
    cstr (path_of bs) pos (drop (Z.to_nat pos) bs)).
  { clear Hp Hle pos. induction k as [| k IH]; intros pos Hp Hk Hle.
    - rewrite drop_ge by lia. cbn. unfold path_of, lget. rewrite decide_True by lia.
      by rewrite list_lookup_middle by lia.
    - destruct (lookup_lt_is_Some_2 bs (Z.to_nat pos)) as [c Hc]; [lia |].
      pose proof (Forall_lookup_1 _ _ _ _ HF Hc) as Hb. cbn in Hb. rewrite (drop_S _ _ _ Hc). cbn [cstr].
      split_and!; [| lia | unfold byte_ok; lia |].
      + unfold path_of, lget. rewrite decide_True by lia. by rewrite (lookup_app_l_Some _ _ _ _ Hc).
      + replace (S (Z.to_nat pos)) with (Z.to_nat (pos + 1)) by lia. apply IH; lia. }
  by eapply Hgen.
Qed.

Lemma tree_fuel : (busy_bound (D := disk) < 40)%nat.
Proof. simpl. lia. Qed.

(** "/test/test.txt". *)
Definition test_path : list Z := [47] ++ test_name ++ [47] ++ test_txt_name.

Lemma find_entry_first_witness :
  exists s, find_entry 40 test_device 1 1 (path_of test_path) 1 tree_fs = Ok (Some 2, s).
Proof.
  destruct (find_entry_first 40 test_device 1 tree_fuel eq_refl ltac:(done) tree_blocks tree_bytes
    (path_of test_path) 1 (drop 1 test_path) 1 (pad 56 (inode_bytes 0x41ED 64 10)) tree_fs ∅)
    as (s & m & Hr & _).
  - apply path_of_cstr; [apply (bool_decide_eq_true_1 _); vm_compute; reflexivity | lia | reflexivity | simpl; lia].
  - lia.
  - exact tree_holds.
  - reflexivity.
  - intros Hd. by apply (tree_dirs 500 ltac:(done) 1).
  - exists s. rewrite Hr. f_equal.
Defined.

Lemma namei_walks_witness :
  exists s, namei 40 test_device 1 (path_of test_path) tree_fs = Ok (Some 3, s).
Proof.
  pose proof (namei_walks 40 test_device 1 tree_fuel eq_refl ltac:(done) tree_blocks tree_bytes
    (path_of test_path) (drop 1 test_path) tree_fs ∅) as Hw.
  destruct Hw as (s & m & Hr & _).
  - apply (path_of_cstr test_path test_path 0); [apply (bool_decide_eq_true_1 _); vm_compute; reflexivity | lia | reflexivity | simpl; lia].
  - lia.
  - simpl. lia.
  - exact tree_holds.
  - by apply tree_dirs.
  - exists s. exact Hr.
Defined.

(** A longer name is accepted for a shorter entry, and a missing directory is followed. *)
Lemma namei_prefix_and_null :
  (exists s, namei 40 test_device 1 (path_of ([47] ++ test_name ++ [101; 114])) tree_fs = Ok (Some 2, s)) /\
  namei 40 test_device 1 (path_of ([47; 120; 47] ++ test_name)) tree_fs = Fault.
Proof. split; [by eexists; vm_compute | by vm_compute]. Qed.

(** A callback that reads as many other blocks as the cache holds at the first entry, as [list_entries] does below a
    large directory, and stops at the second. *)
Definition reads_many (p off : Z) (s : fs.t (D := disk)) (w : unit) : outcome (bool * fs.t * unit) :=
  if off =? 0 then
    let! s := foldl (fun s b => let! s := s in let! '(_, s) := read_block 40 test_device 1 b s in Ok s)
                (Ok s) (seqZ 100 307) in
    Ok (false, s, w)
  else Ok (true, s, w).

(** The directory's block has left the cache by then, and the second entry is read from the buffer of
    another block: the inode is not that of "test". *)
Lemma traverse_dir_stale :
  fst <$> entries tree_blocks (pad 56 (inode_bytes 0x41ED 64 10)) !! 1%nat = Some 2 /\
  match traverse_dir 40 test_device 1 1 reads_many tree_fs tt with
  | Ok (r, _, _) => r = Some 0
  | _ => False
  end.
Proof. split; vm_compute; reflexivity. Qed.
