(* ===== verification/FsSync.v ===== *)
(** * Synchronisation ([sync_*] of [lib/fs.cc])

    [sync_all] stores the super block, the bitmaps and the inode table where [init_fs] finds
    them: mounting the disk again gives the tables back. *)

From stdpp Require Import prelude gmap strings.
From Stdlib Require Import ZArith Lia.
From S2P Require Import Prelude CString LruCache LruCorrect Ide Fs FsEvict FsArrays FsInit Dirs.
Import ide fs.

(** The first 20 bytes of two super blocks, which hold all the numbers that are read. *)
Lemma field_take off n m bs : (off + n <= m)%nat -> field off n (take m bs) = field off n bs.
Proof. intros Hm. unfold field. f_equal.
  apply list_eq. intros i. destruct (decide (i < n)%nat); [| by rewrite !lookup_take_ge by lia].
  rewrite !lookup_take_lt, !lookup_drop by lia. by rewrite lookup_take_lt by lia.
Qed.

Section sync.
Context {D : Type} `{AtaDisk D} `{NodeAlloc block_buffer}.
Context (fuel : nat) (dev : ide_device) (uncache_addr : Z).
Hypothesis Hfuel : (busy_bound < fuel)%nat.
Hypothesis Hdev : valid dev = 1.
Hypothesis Huncache : uncache_addr <> 0.

Abbreviation st := (fs.t (D := D)).
Abbreviation safe := (safe uncache_addr).
Abbreviation moved := (moved uncache_addr).
Implicit Types (s : st) (m : gmap Z block_buffer).

Definition zmap_start s : Z := 2 + num_imap_blocks (g_super_block s).
Definition inode_start s : Z := zmap_start s + num_zmap_blocks (g_super_block s).

(** The block after the tables. *)
Definition tables_end s : Z := inode_start s + num_inodes (g_super_block s) / 32 + 1.

(** The tables have the sizes that the super block says, and their blocks room for them. *)
Record tables_fit s : Prop := {
  tf_length : length (g_super_block s) = 39%nat;
  tf_bytes : Forall byte_ok (g_super_block s);
  tf_table : 1 + num_inodes (g_super_block s) <= Z.of_nat (length (g_inode_table s));
  tf_inodes : Forall (fun ino => 32 <= length ino)%nat (g_inode_table s);
  tf_imap : num_inodes (g_super_block s) / 8 <= Z.of_nat (length (g_imap s));
  tf_zmap : num_zones (g_super_block s) / 8 <= Z.of_nat (length (g_zmap s));
  tf_imap_blocks : 1 <= num_imap_blocks (g_super_block s) /\
    num_inodes (g_super_block s) / 8 <= 1024 * num_imap_blocks (g_super_block s);
  tf_zmap_blocks : 1 <= num_zmap_blocks (g_super_block s) /\
    num_zones (g_super_block s) / 8 <= 1024 * num_zmap_blocks (g_super_block s)
}.

Lemma super_numbers s :
  tables_fit s ->
  0 <= num_inodes (g_super_block s) < 65536 /\ 0 <= num_zones (g_super_block s) < 65536 /\
  0 <= num_imap_blocks (g_super_block s) < 65536 /\ 0 <= num_zmap_blocks (g_super_block s) < 65536.
Proof.
  intros Ht. pose proof (tf_bytes _ Ht) as HF.
  split_and!; apply (field_range _ 2 _ HF).
Qed.

(** The blocks from [a] to [b], without [b]. *)
Definition within (a b : Z) : Z -> Prop := fun c => a <= c < b.

Lemma within_trans s1 m1 s2 m2 s3 m3 a b1 b :
  moved (within a b1) s1 m1 s2 m2 -> moved (within b1 b) s2 m2 s3 m3 -> a <= b1 -> b1 <= b ->
  moved (within a b) s1 m1 s3 m3.
Proof.
  clear Hfuel. intros Hm1 Hm2 Ha Hb. unfold within in *.
  eapply moved_trans; eapply moved_weaken; [| exact Hm1 | | exact Hm2]; cbn; intros; lia.
Qed.

(** Block [c] has been written: the disk has what the file system sees. *)
Definition flushed s m (c : Z) : Prop := disk_block (disk_ s) c = view s m c.

(** Later steps leave what is written alone. *)
Lemma flushed_keeps P s m s' m' c :
  moved P s m s' m' -> ~ P c -> flushed s m c ->
  flushed s' m' c /\ disk_block (disk_ s') c = disk_block (disk_ s) c.
Proof.
  intros Hm Hc Hf. unfold flushed in *. rewrite (mv_view _ _ _ _ _ _ Hm) by done.
  destruct (mv_disk _ _ _ _ _ _ Hm c Hc) as [-> | ->]; by rewrite Hf.
Qed.

Lemma sync_super_ok s m :
  safe s m -> length (g_super_block s) = 39%nat ->
  exists s' m', sync_super_block fuel dev uncache_addr s = Ok s' /\ moved (within 1 2) s m s' m' /\
    flushed s' m' 1 /\ take 20 (disk_block (disk_ s') 1) = take 20 (g_super_block s).
Proof.
  intros Hg Hl. unfold sync_super_block.
  destruct (get_block_any fuel dev uncache_addr Hfuel Hdev Huncache s m kSuperBlockBNO Hg)
    as (p & s1 & m1 & -> & Hm1 & Hat); [done |]. cbn [obind].
  set (bs := take (Z.to_nat sizeof_d_super_block) (g_super_block s1)).
  assert (Hbs : bs = take 20 (g_super_block s)) by (unfold bs; destruct (mv_vars _ _ _ _ _ _ Hm1) as (-> & _); done).
  assert (Hlen : length bs = 20%nat) by (rewrite Hbs, length_take; lia).
  pose proof (mv_safe _ _ _ _ _ _ Hm1) as Hg1.
  destruct (block_put_any fuel dev uncache_addr s1 m1 p kSuperBlockBNO 0 bs Hg1 Hat)
    as (s2 & m2 & buf & -> & Hm2 & Hat2 & Hput & Hbuf & _); [done | unfold kBlockSize; lia |]. cbn [obind].
  destruct (slice_put_in 0 bs (view s1 m1 kSuperBlockBNO)) as (buf' & Hput' & _ & Hin);
    [lia | rewrite (length_view uncache_addr) by done; lia |].
  rewrite Hput in Hput'. injection Hput' as <-. rewrite Hlen in Hin.
  destruct (write_block_any fuel dev uncache_addr Hfuel Hdev s2 m2 kSuperBlockBNO (mv_safe _ _ _ _ _ _ Hm2))
    as (r & s3 & -> & Hm3 & Hd); [done |]. destruct (Hd (at_in _ _ _ _ Hat2)) as [_ Hdisk]. cbn [obind].
  exists s3, m2. split; [done |]. pose proof (moved_no_view _ _ _ _ _ Hm3) as Hv3. split; [| split].
  - eapply moved_trans; [eapply moved_trans |]; eapply moved_weaken; [| exact Hm1 | | exact Hm2 | | exact Hm3];
      cbn; try done; intros ? <-; done.
  - unfold flushed. by rewrite Hv3.
  - change 1 with kSuperBlockBNO. by rewrite Hdisk, Hbuf, <- Hbs, <- Hin.
Qed.

(** One array of the tables. *)
Lemma sync_array_ok size per start count fin item get s m :
  0 < per -> size * per = kBlockSize -> 0 < size -> 0 <= start <= 0x100000 -> 0 <= count <= 65536 ->
  (forall i s', 0 <= i < count -> same_vars s s' -> get i s' = Ok (item i)) ->
  (forall i, 0 <= i < count -> length (item i) = Z.to_nat size) ->
  safe s m -> start + 1 <= fin -> count <= per * (fin - start) ->
  exists r s' m', write_blocks fuel dev uncache_addr start count size get s = Ok (r, s') /\
    moved (within start fin) s m s' m' /\
    forall i, 0 <= i < count -> flushed s' m' (start + i / per) /\
      slice (size * (i mod per)) size (disk_block (disk_ s') (start + i / per)) = item i.
Proof.
  intros Hp Hsp Hs Hst Hc Hget Hitem Hg Hfin Hcnt.
  assert (Hq : 0 <= count / per <= count) by (split; [apply Z.div_pos; lia | apply Z.div_le_upper_bound; nia]).
  destruct (write_blocks_run fuel dev uncache_addr Hfuel Hdev Huncache size size per start (Z.to_nat count) item get s)
    with (m0 := m) as (s' & m' & Hw & Hm & Hi & Hd); rewrite ?Z2Nat.id by lia; try done; try lia.
  rewrite Z2Nat.id in * by lia. exists true, s', m'. split; [done |]. unfold filling in *. split.
  - eapply moved_weaken; [| exact Hm]. cbn. intros c Hcc. unfold within.
    assert ((count - 1) / per < fin - start) by (apply Z.div_lt_upper_bound; lia). lia.
  - intros i Hi'. assert (0 <= i / per <= (count - 1) / per)
      by (split; [apply Z.div_pos; lia | apply Z.div_le_mono; lia]).
    unfold flushed. rewrite (Hd (start + i / per)) by lia. split; [done | by apply Hi].
Qed.

(** The blocks [disk] hold the tables of [s]. *)
Record tables_on_disk (disk : Z -> list Z) s : Prop := {
  td_super : take 20 (disk 1) = take 20 (g_super_block s);
  td_imap : forall i, 0 <= i < num_inodes (g_super_block s) / 8 ->
    lget (disk (2 + i / 1024)) (i mod 1024) = lget (g_imap s) i;
  td_zmap : forall i, 0 <= i < num_zones (g_super_block s) / 8 ->
    lget (disk (zmap_start s + i / 1024)) (i mod 1024) = lget (g_zmap s) i;
  td_inodes : forall i, 0 <= i < num_inodes (g_super_block s) -> exists ino,
    lget (g_inode_table s) (1 + i) = Some ino /\
    slice (32 * (i mod 32)) 32 (disk (inode_start s + i / 32)) = take 32 ino
}.

Lemma tables_on_disk_vars disk s s' : same_vars s s' -> tables_on_disk disk s -> tables_on_disk disk s'.
Proof.
  intros (Hsb & Htb & Him & Hzm) [Hs Hi Hz Hino].
  split; unfold inode_start, zmap_start in *; rewrite ?Hsb, ?Htb, ?Him, ?Hzm; done.
Qed.

Lemma slice_byte buf k x : slice k 1 buf = [x] -> 0 <= k -> lget buf k = Some x.
Proof.
  unfold slice. change (Z.to_nat 1) with 1%nat. intros E Hk. apply lget_Some. split; [done |].
  assert (E' : take 1 (drop (Z.to_nat k) buf) !! 0%nat = Some x) by (by rewrite E).
  rewrite lookup_take_lt, lookup_drop in E' by lia. by rewrite Nat.add_0_r in E'.
Qed.

(** A bitmap. *)
Lemma sync_bytes_ok (proj : st -> list Z) start count fin s m :
  (forall s1 s2, same_vars s1 s2 -> proj s2 = proj s1) ->
  0 <= start <= 0x100000 -> 0 <= count <= 65536 -> count <= Z.of_nat (length (proj s)) ->
  safe s m -> start + 1 <= fin -> count <= 1024 * (fin - start) ->
  exists r s' m',
    write_blocks fuel dev uncache_addr start count 1 (fun i s => byte_at (proj s) i) s = Ok (r, s') /\
    moved (within start fin) s m s' m' /\
    forall i, 0 <= i < count -> flushed s' m' (start + i / 1024) /\
      lget (disk_block (disk_ s') (start + i / 1024)) (i mod 1024) = lget (proj s) i.
Proof.
  intros Hproj Hst Hc Hlen Hg Hfin Hcnt.
  destruct (sync_array_ok 1 1024 start count fin (fun i => [default 0 (lget (proj s) i)])
    (fun i s => byte_at (proj s) i) s m) as (r & s' & m' & Hw & Hs & Hi); try done.
  - intros i s' Hi Hv. unfold byte_at. rewrite (Hproj _ _ Hv). destruct (lget_in (proj s) i) as [x Hx]; [lia |].
    by rewrite Hx.
  - exists r, s', m'. split; [done |]. split; [done |]. intros i Hi'. destruct (Hi i Hi') as [Hf Hb]. split; [done |].
    rewrite Z.mul_1_l in Hb. apply slice_byte in Hb; [| pose proof (Z.mod_pos_bound i 1024); lia].
    rewrite Hb. destruct (lget_in (proj s) i) as [x Hx]; [lia |]. by rewrite Hx.
Qed.

Lemma sync_inodes_ok s m :
  tables_fit s -> safe s m ->
  exists s' m', sync_inodes fuel dev uncache_addr s = Ok s' /\
    moved (within (inode_start s) (tables_end s)) s m s' m' /\
    forall i, 0 <= i < num_inodes (g_super_block s) -> exists ino,
      lget (g_inode_table s) (1 + i) = Some ino /\
      slice (32 * (i mod 32)) 32 (disk_block (disk_ s') (inode_start s + i / 32)) = take 32 ino.
Proof.
  intros Ht Hg. destruct (super_numbers s Ht) as (Hn & _ & Hi & Hz). pose proof (tf_table _ Ht) as Htab.
  unfold sync_inodes. fold (zmap_start s). fold (inode_start s).
  destruct (sync_array_ok 32 32 (inode_start s) (num_inodes (g_super_block s)) (tables_end s)
    (fun i => take 32 (default [] (lget (g_inode_table s) (1 + i))))
    (fun i s => let! ino := or_fault (lget (g_inode_table s) (1 + i)) in
                Ok (take (Z.to_nat sizeof_d_inode) ino)) s m)
    as (r & s' & m' & Hw & Hs & Hit); try done; unfold tables_end, inode_start, zmap_start in *; try lia.
  - intros i s' Hi' (_ & -> & _). destruct (lget_in (g_inode_table s) (1 + i)) as [x Hx]; [lia |]. by rewrite Hx.
  - intros i Hi'. destruct (lget_in (g_inode_table s) (1 + i)) as [x Hx]; [lia |]. rewrite Hx. cbn.
    apply lget_Some in Hx as [_ Hx]. pose proof (Forall_lookup_1 _ _ _ _ (tf_inodes _ Ht) Hx) as Hl. cbn in Hl.
    rewrite length_take. lia.
  - pose proof (Z.div_pos (num_inodes (g_super_block s)) 32). lia.
  - pose proof (Z.div_mod (num_inodes (g_super_block s)) 32 ltac:(lia)).
    pose proof (Z.mod_pos_bound (num_inodes (g_super_block s)) 32). lia.
  - change sizeof_d_inode with 32 in Hw |- *. rewrite Hw. cbn [obind]. exists s', m'. split; [done |]. split; [done |].
    intros i Hi'. destruct (lget_in (g_inode_table s) (1 + i)) as [x Hx]; [lia |].
    exists x. split; [done |]. destruct (Hit i Hi') as [_ Hb]. rewrite Hb, Hx. done.
Qed.

Lemma same_fit s s' : same_vars s s' -> tables_fit s -> tables_fit s'.
Proof. intros (E1 & E2 & E3 & E4) []. split; rewrite ?E1, ?E2, ?E3, ?E4; done. Qed.

Lemma quot_bound i n k : 0 <= i < n -> 0 < k -> n <= 1024 * k -> 0 <= i / 1024 < k.
Proof. intros. split; [apply Z.div_pos; lia | apply Z.div_lt_upper_bound; lia]. Qed.

Lemma fit_starts s :
  tables_fit s -> 3 <= zmap_start s /\ zmap_start s + 1 <= inode_start s <= 131072 /\ inode_start s + 1 <= tables_end s.
Proof.
  clear Hfuel. intros Ht. destruct (super_numbers s Ht) as (Hn & _ & Hib & Hzb).
  pose proof (tf_imap_blocks _ Ht) as [Hi1 _]. pose proof (tf_zmap_blocks _ Ht) as [Hz1 _].
  unfold tables_end, inode_start, zmap_start. pose proof (Z.div_pos (num_inodes (g_super_block s)) 32). lia.
Qed.

Lemma same_starts s s' :
  g_super_block s' = g_super_block s ->
  zmap_start s' = zmap_start s /\ inode_start s' = inode_start s /\ tables_end s' = tables_end s.
Proof. intros E. unfold tables_end, inode_start, zmap_start. by rewrite E. Qed.

(** The two bitmaps. *)
Lemma sync_maps_ok s m :
  tables_fit s -> safe s m ->
  exists s2 s3 m3, sync_imap fuel dev uncache_addr s = Ok s2 /\ sync_zmap fuel dev uncache_addr s2 = Ok s3 /\
    moved (within 2 (inode_start s)) s m s3 m3 /\
    (forall i, 0 <= i < num_inodes (g_super_block s) / 8 ->
       let c := 2 + i / 1024 in 2 <= c < inode_start s /\ flushed s3 m3 c /\
       lget (disk_block (disk_ s3) c) (i mod 1024) = lget (g_imap s) i) /\
    (forall i, 0 <= i < num_zones (g_super_block s) / 8 ->
       let c := zmap_start s + i / 1024 in 2 <= c < inode_start s /\ flushed s3 m3 c /\
       lget (disk_block (disk_ s3) c) (i mod 1024) = lget (g_zmap s) i).
Proof.
  intros Ht Hs. destruct (super_numbers s Ht) as (Hn & Hz & Hib & Hzb). destruct (fit_starts s Ht) as (Hz3 & [Hzi Hi17] & _).
  pose proof (tf_imap_blocks _ Ht) as [_ Hi2]. pose proof (tf_zmap_blocks _ Ht) as [_ Hz2].
  set (n := num_inodes (g_super_block s)) in *. set (z := num_zones (g_super_block s)) in *.
  assert (0 <= n / 8 <= n) by (split; [apply Z.div_pos; lia | apply Z.div_le_upper_bound; lia]).
  assert (0 <= z / 8 <= z) by (split; [apply Z.div_pos; lia | apply Z.div_le_upper_bound; lia]).
  destruct (sync_bytes_ok g_imap 2 (n / 8) (zmap_start s) s m) as (r2 & s2 & m2 & E2 & Hs2 & Him);
    try done; try lia; [by intros ?? (?&?&?&?) | apply Ht | unfold zmap_start; lia |].
  pose proof (mv_vars _ _ _ _ _ _ Hs2) as (Esb & _ & _ & Ezm).
  destruct (sync_bytes_ok g_zmap (zmap_start s) (z / 8) (inode_start s) s2 m2) as (r3 & s3 & m3 & E3 & Hs3 & Hzm);
    try done; try lia; [by intros ?? (?&?&?&?) | rewrite Ezm; apply Ht | apply Hs2 | unfold inode_start; lia |].
  exists s2, s3, m3. split; [| split; [| split; [| split]]].
  - unfold sync_imap. fold n. by rewrite E2.
  - unfold sync_zmap. rewrite Esb. fold z. fold (zmap_start s). by rewrite E3.
  - eapply within_trans; [exact Hs2 | exact Hs3 | lia | lia].
  - intros i Hi c. destruct (Him i Hi) as [Hf Hb].
    assert (Hq : c < zmap_start s) by (subst c; pose proof (quot_bound i (n / 8) (num_imap_blocks (g_super_block s)) Hi ltac:(lia) Hi2); unfold zmap_start; lia).
    assert (0 <= i / 1024) by (apply Z.div_pos; lia).
    destruct (flushed_keeps _ _ _ _ _ c Hs3 ltac:(unfold within; lia) Hf) as [Hf' Hd]. subst c.
    split; [lia |]. split; [done |]. by rewrite Hd.
  - intros i Hi c. destruct (Hzm i Hi) as [Hf Hb].
    pose proof (quot_bound i (z / 8) (num_zmap_blocks (g_super_block s)) Hi ltac:(lia) Hz2). subst c.
    split; [unfold inode_start; lia |]. split; [done |]. by rewrite Hb, Ezm.
Qed.

Lemma sync_all_run s m :
  safe s m -> tables_fit s ->
  exists s' m', sync_all fuel dev uncache_addr s = Ok s' /\
    moved (within 1 (tables_end s)) s m s' m' /\ tables_on_disk (disk_block (disk_ s')) s.
Proof.
  intros Hg Ht. destruct (fit_starts s Ht) as (Hz3 & [Hzi Hi17] & Hie).
  destruct (sync_super_ok s m Hg (tf_length _ Ht)) as (s1 & m1 & E1 & Hs1 & Hf1 & Hsup).
  pose proof (mv_vars _ _ _ _ _ _ Hs1) as Hv1. pose proof (same_fit _ _ Hv1 Ht) as Ht1.
  destruct Hv1 as (Esb1 & Etb1 & Eim1 & Ezm1). destruct (same_starts s s1 Esb1) as (Zs1 & Is1 & Te1).
  destruct (sync_maps_ok s1 m1 Ht1 ltac:(apply Hs1)) as (s2 & s3 & m3 & E2 & E3 & Hs3 & Him & Hzm).
  rewrite Esb1, Zs1, Is1 in *.
  pose proof (mv_vars _ _ _ _ _ _ Hs3) as Hv3. pose proof (same_fit _ _ Hv3 Ht1) as Ht3.
  destruct Hv3 as (Esb3 & Etb3 & _ & _). rewrite Esb1 in Esb3. destruct (same_starts s s3 Esb3) as (Zs3 & Is3 & Te3).
  destruct (sync_inodes_ok s3 m3 Ht3 ltac:(apply Hs3)) as (s4 & m4 & E4 & Hs4 & Hino).
  rewrite Is3, Te3, Esb3, Etb3, Etb1 in *.
  pose proof (fun c Hc => flushed_keeps _ _ _ _ _ c Hs4 Hc) as K4.
  exists s4, m4. split; [unfold sync_all; rewrite E1; cbn [obind]; rewrite E2; cbn [obind]; rewrite E3; exact E4 |].
  split; [eapply within_trans; [eapply within_trans; [exact Hs1 | exact Hs3 | lia | lia] | exact Hs4 | lia | lia] |].
  unfold within in *. split.
  - destruct (flushed_keeps _ _ _ _ _ 1 Hs3 ltac:(unfold within; lia) Hf1) as [Hf Hd].
    destruct (K4 1 ltac:(lia) Hf) as [_ ->]. by rewrite Hd.
  - intros i Hi. destruct (Him i Hi) as (Hc & Hf & Hb). destruct (K4 (2 + i / 1024) ltac:(lia) Hf) as [_ ->]. by rewrite Hb, Eim1.
  - intros i Hi. destruct (Hzm i Hi) as (Hc & Hf & Hb). destruct (K4 (zmap_start s + i / 1024) ltac:(lia) Hf) as [_ ->]. by rewrite Hb, Ezm1.
  - exact Hino.
Qed.

(** C25: Synchronisation.  [sync_all] terminates, keeps the tables in memory, and stores them:
    afterwards the disk holds the super block, both bitmaps and the inodes at the places
    the super block gives them.  The contents of every block outside the tables are what they were; on the disk it is
    unchanged too, or has these contents when the cache has written it back. *)
Theorem sync_all_ok s m :
  safe s m -> tables_fit s ->
  exists s' m', sync_all fuel dev uncache_addr s = Ok s' /\
    moved (within 1 (tables_end s)) s m s' m' /\ tables_on_disk (disk_block (disk_ s')) s.
Proof. apply sync_all_run. Qed.

(** What [init_fs] leaves of a disk whose bitmaps fit their blocks. *)
Lemma mounted_fit s :
  let disk := disk_block (disk_ s) in
  let sb := slice 0 39 (disk 1) in
  good s [] -> Forall byte_ok sb -> 1 + num_inodes sb <= Z.of_nat (length (g_inode_table s)) ->
  Forall (fun ino => 32 <= length ino)%nat (g_inode_table s) ->
  num_inodes sb / 8 <= Z.of_nat (length (g_imap s)) -> num_zones sb / 8 <= Z.of_nat (length (g_zmap s)) ->
  exists s' m, init_fs fuel dev uncache_addr s = Ok s' /\ safe s' m /\ g_super_block s' = sb /\
    (forall b, view s' m b = disk b) /\
    (mount_blocks sb <= kCacheBlocks -> Z.of_nat (base.size m) <= mount_blocks sb) /\
    g_inode_table s' = mounted_inodes disk (g_inode_table s) /\
    (1 <= num_imap_blocks sb /\ num_inodes sb / 8 <= 1024 * num_imap_blocks sb ->
     1 <= num_zmap_blocks sb /\ num_zones sb / 8 <= 1024 * num_zmap_blocks sb -> tables_fit s').
Proof.
  intros disk sb Hg HF Hn Hino Him Hzm. assert (Hlen : forall b, length (disk b) = 1024%nat).
  { intros b. unfold disk, disk_block. rewrite length_sectors_at; [done |]. apply Hg. }
  destruct (init_fs_run fuel dev uncache_addr Hfuel Hdev Huncache s Hg HF Hn Hino Him Hzm)
    as (s' & m & Hr & Hs & Hsb & Hv & Hsz & Hin & Hout & Hi & Hz).
  fold disk in Hsb, Hv, Hsz, Hin, Hout, Hi, Hz. fold sb in Hsb, Hsz, Hin, Hout, Hi, Hz.
  pose proof (mounted_inodes_eq disk _ _ Hin Hout) as Htb.
  assert (Hword : forall b i, is_Some (lget (disk b) (i mod 1024))).
  { intros b i. apply lget_in. rewrite Hlen. apply Z.mod_pos_bound. lia. }
  exists s', m. split_and!; try done. intros Hib Hzb. split; rewrite ?Hsb; try done.
  - unfold sb, slice. rewrite length_take, length_drop, Hlen. done.
  - rewrite Htb. unfold mounted_inodes. by rewrite length_imap.
  - rewrite Htb. apply Forall_lookup. intros k ino Hk. unfold mounted_inodes in Hk.
    rewrite list_lookup_imap in Hk. apply fmap_Some in Hk as (x & Hx & ->).
    pose proof (Forall_lookup_1 _ _ _ _ Hino Hx) as Hl. cbn in Hl. case_decide; [| done].
    fold sb. unfold slice. rewrite length_app, length_take, !length_drop, Hlen.
    pose proof (Z.mod_pos_bound (Z.of_nat k - 1) 32 ltac:(lia)). lia.
  - apply lget_length. intros i Hii. rewrite Hi by done. apply Hword.
  - apply lget_length. intros i Hii. rewrite Hz by done. apply Hword.
Qed.

(** The numbers of a super block are in its first 20 bytes. *)
Lemma same_numbers a b :
  take 20 a = take 20 b ->
  num_inodes a = num_inodes b /\ num_zones a = num_zones b /\
  num_imap_blocks a = num_imap_blocks b /\ num_zmap_blocks a = num_zmap_blocks b.
Proof.
  intros E. unfold num_inodes, num_zones, num_imap_blocks, num_zmap_blocks.
  split_and!; rewrite <- (field_take _ _ 20 a), <- (field_take _ _ 20 b) by lia; by rewrite E.
Qed.

(** C15: What is synchronised is found again.  The disk that [sync_all] leaves, mounted by
    [init_fs] into tables of the same sizes with an empty cache, gives back the numbers of
    the super block, every byte of the bitmaps in use, and the stored part of every inode. *)
Theorem sync_then_mount s m :
  safe s m -> tables_fit s ->
  exists s', sync_all fuel dev uncache_addr s = Ok s' /\ disk_ok (sectors (ata_of (disk_ s'))) /\
  forall f, good f [] -> disk_ f = disk_ s' -> Forall byte_ok (disk_block (disk_ f) 1) ->
    length (g_inode_table f) = length (g_inode_table s) ->
    Forall (fun ino => 32 <= length ino)%nat (g_inode_table f) ->
    length (g_imap f) = length (g_imap s) -> length (g_zmap f) = length (g_zmap s) ->
    exists f', init_fs fuel dev uncache_addr f = Ok f' /\
      take 20 (g_super_block f') = take 20 (g_super_block s) /\
      (forall i, 0 <= i < num_inodes (g_super_block s) / 8 -> lget (g_imap f') i = lget (g_imap s) i) /\
      (forall i, 0 <= i < num_zones (g_super_block s) / 8 -> lget (g_zmap f') i = lget (g_zmap s) i) /\
      forall i, 0 <= i < num_inodes (g_super_block s) -> exists ino ino',
        lget (g_inode_table s) (1 + i) = Some ino /\ lget (g_inode_table f') (1 + i) = Some ino' /\
        take 32 ino' = take 32 ino.
Proof.
  intros Hg Ht. destruct (sync_all_run s m Hg Ht) as (s' & m' & E & Hstep & [Hsup Him Hzm Hino]).
  exists s'. split; [exact E |]. split; [apply (mv_safe _ _ _ _ _ _ Hstep) |]. intros f Hgf Hdf HF Hlt Hli Hlim Hlzm. rewrite Hdf in HF.
  set (sb := slice 0 39 (disk_block (disk_ s') 1)).
  assert (Hsb20 : take 20 sb = take 20 (g_super_block s)).
  { rewrite <- Hsup. unfold sb, slice. rewrite drop_0, take_take. done. }
  destruct (same_numbers _ _ Hsb20) as (En & Ez & Ei & Em).
  destruct (init_fs_run fuel dev uncache_addr Hfuel Hdev Huncache f Hgf) as (f' & mf & Hm & _ & Hs' & _ & _ & Hin & _ & Him' & Hzm');
    rewrite ?Hdf; fold sb; rewrite ?En, ?Ez, ?Hlt, ?Hlim, ?Hlzm; try apply Ht; try done.
  { apply Forall_take, Forall_drop, HF. }
  rewrite Hdf in *. fold sb in Hs', Hin, Him', Hzm'. rewrite En, Ez, Ei, Em in *.
  exists f'. split; [done |]. split; [by rewrite Hs' |]. split_and!.
  - intros i Hi. by rewrite Him', Him.
  - intros i Hi. by rewrite Hzm', Hzm.
  - intros i Hi. destruct (Hino i Hi) as (ino & Hg1 & Hsl). destruct (Hin i Hi) as (x & _ & Hg2).
    exists ino, (slice (32 * (i mod 32)) 32 (disk_block (disk_ s') (inode_start s + i / 32)) ++ drop 32 x).
    split_and!; [done | exact Hg2 |]. rewrite Hsl. pose proof Hg1 as Hl. apply lget_Some in Hl as [_ Hl].
    pose proof (Forall_lookup_1 _ _ _ _ (tf_inodes _ Ht) Hl) as Hlen. cbn in Hlen.
    rewrite take_app_length' by (rewrite length_take; lia). done.
Qed.
End sync.

(** ** The small tree *)

#[local] Existing Instance bump_alloc.

(** The tree with a bitmap in use: it is not on the disk yet. *)
Definition dirty_fs : fs.t (D := disk) :=
  fs.mk (g_block_cache tree_fs) (g_super_block tree_fs) (g_inode_table tree_fs)
    (15 :: 9 :: replicate 14 0) (g_zmap tree_fs) (disk_ tree_fs).

Lemma dirty_safe : safe 1 dirty_fs ∅.
Proof. apply tree_safe. Qed.

Lemma dirty_fit : tables_fit dirty_fs.
Proof.
  split; try (by vm_compute); try (split; by vm_compute).
  - apply Forall_take, Forall_app. split; [apply tree_sector_ok | by apply Forall_replicate].
  - apply (bool_decide_eq_true_1 _). by vm_compute.
Qed.

Lemma sync_all_ok_witness :
  exists s, sync_all 40 test_device 1 dirty_fs = Ok s /\ lget (disk_block (disk_ s) 2) 1 = Some 9 /\
    disk_block (disk_ s) 12 = tree_blocks 12.
Proof.
  destruct (sync_all_ok 40 test_device 1 tree_fuel eq_refl ltac:(done) dirty_fs ∅ dirty_safe dirty_fit)
    as (s & m & Hr & Hm & Hd).
  exists s. split; [exact Hr |]. split; [apply (td_imap _ _ Hd 1); vm_compute; split; congruence |].
  destruct (mv_disk _ _ _ _ _ _ Hm 12) as [-> | ->]; [| done | done]. vm_compute. intros [_ [=]].
Defined.

(** Empty tables on a disk. *)
Definition empty_fs (d : disk) : fs.t (D := disk) :=
  fs.mk (LRUCache.make kCacheBlocks) (replicate 39 0) (replicate 128 (replicate 56 0))
    (replicate 16 0) (replicate 1280 0) d.

(** Block 1 after the synchronisation. *)
Definition synced_super : list Z :=
  match sync_all 40 test_device 1 dirty_fs with Ok s => disk_block (disk_ s) 1 | _ => [] end.

Lemma sync_then_mount_witness :
  exists s f, sync_all 40 test_device 1 dirty_fs = Ok s /\ init_fs 40 test_device 1 (empty_fs (disk_ s)) = Ok f /\
    lget (g_imap f) 0 = Some 15 /\ lget (g_imap f) 1 = Some 9.
Proof.
  destruct (sync_then_mount 40 test_device 1 tree_fuel eq_refl ltac:(done) dirty_fs ∅ dirty_safe dirty_fit)
    as (s & Hr & Hd & Hm).
  destruct (Hm (empty_fs (disk_ s))) as (f & Hf & _ & Him & _); try reflexivity.
  - split; [apply (make_repr kCacheBlocks), cache_bounds | exact Hd].
  - assert (Hsup : disk_block (disk_ s) 1 = synced_super) by (unfold synced_super; by rewrite Hr).
    cbn [empty_fs disk_]. rewrite Hsup. apply (bool_decide_eq_true_1 _). vm_compute. reflexivity.
  - apply (bool_decide_eq_true_1 _). vm_compute. reflexivity.
  - exists s, f. split; [exact Hr |]. split; [exact Hf |].
    split; apply Him; vm_compute; split; congruence.
Defined.

(** [get_block] does not read: when block 1 is not cached, [sync_super_block] replaces what is after
    the super block on the disk by what the buffer holds. *)
Lemma sync_super_loses_rest :
  lget (disk_block test_disk 1) 1000 = Some 3 /\
  match sync_super_block 40 test_device 1
      (fs.mk (LRUCache.make kCacheBlocks) (replicate 39 0) [] [] [] test_disk) with
  | Ok s => lget (disk_block (disk_ s) 1) 1000
  | _ => None
  end = Some 0.
Proof. vm_compute. split; reflexivity. Qed.
