(* ===== verification/Files.v ===== *)
(** * Listing the files ([list_entries] and [test_fs] of [lib/fs.cc])

    The recursive listing of the directory tree on the console, with the blocks that the
    outer directories hold pointers to, and the test that the kernel runs at start-up. *)

From stdpp Require Import prelude gmap strings.
From Stdlib Require Import ZArith Lia.
From S2P Require Import Prelude CString LruCache LruCorrect Ide Console Printk Fs FsEvict FsArrays FsInit Dirs FsSync.
Import ide fs dir.

Module files.

(** "%s\t%d\t%s\n", "dir" and "file". *)
Definition entry_format : list Z := [37; 115; 9; 37; 100; 9; 37; 115; 10].
Definition dir_text : list Z := [100; 105; 114].
Definition file_text : list Z := [102; 105; 108; 101].

Section files.
Context {D : Type} `{Device D} `{NodeAlloc block_buffer}.
Context (fuel : nat) (dev : ide_device) (uncache_addr : Z).

(** [depth] bounds the recursion; the callback captures the console. *)
Fixpoint list_entries (depth : nat) (inode : Z) (s : fs.t) (c : console.t)
    : outcome (fs.t (D := D) * console.t) :=
  match depth with
  | O => NoFuel
  | S depth' =>
      let! i := inode_at inode s in
      if is_directory (i_mode i) then
        let! '(_, s, c) :=
          traverse_dir fuel dev uncache_addr inode (fun p off s c =>
            let! bs := block_get p off 2 s in
            let node := le_decode bs in
            let! ch := block_reader p s (off + 2) in
            if negb (ch =? 46) then
              let! name := read_string fuel (block_reader p s) (off + 2) in
              let! nd := inode_at node s in
              let! c := printk.printk entry_format
                          [AStr name; AUInt (i_size nd);
                           AStr (if is_directory (i_mode nd) then dir_text else file_text)] c in
              let! '(s, c) := list_entries depth' node s c in
              Ok (false, s, c)
            else Ok (false, s, c)) s c in
        Ok (s, c)
      else Ok (s, c)
  end.

(** The numbers of the super block that only the test prints. *)
Definition first_data_zone (sb : list Z) : Z := field 8 2 sb.
Definition log_zone_size (sb : list Z) : Z := field 10 2 sb.
Definition max_size (sb : list Z) : Z := field 12 4 sb.
Definition magic (sb : list Z) : Z := field 16 2 sb.

(** The lines of the super block: format and argument. *)
Definition super_lines (sb : list Z) : list (list Z * list arg) :=
  [ (str "number of inodes: %d" ++ [10], [AUInt (num_inodes sb)]);
    (str "number of zones:  %d" ++ [10], [AUInt (num_zones sb)]);
    (str "number of inode bitmap blocks: %d" ++ [10], [AUInt (num_imap_blocks sb)]);
    (str "number of zone bitmap blocks: %d" ++ [10], [AUInt (num_zmap_blocks sb)]);
    (str "first data zone: %d" ++ [10], [AUInt (first_data_zone sb)]);
    (str "log zone size: %d" ++ [10], [AUInt (log_zone_size sb)]);
    (str "max file size: %dbytes" ++ [10], [AUInt (max_size sb)]);
    (str "magic number: 0x%x" ++ [10], [AUInt (magic sb)]);
    (str "-------------------------------------------" ++ [10], []);
    (str "files in /" ++ [10] ++ str "name" ++ [9] ++ str "size" ++ [9] ++ str "type" ++ [10], []) ].

(** [node->size = n]. *)
Definition set_size (node n : Z) (s : fs.t (D := D)) : outcome fs.t :=
  let! ino := inode_at node s in
  let! ino := or_fault (put_bytes 4 (le_encode 4 n) ino) in
  let! tb := or_fault (lset (g_inode_table s) node ino) in
  Ok (fs.mk (g_block_cache s) (g_super_block s) tb (g_imap s) (g_zmap s) (disk_ s)).

(** "/test/test.txt" and "hello world" with its terminator. *)
Definition test_file : list Z := str "/test/test.txt".
Definition hello_world : list Z := str "hello world" ++ [0].

Definition contents_format : list Z := str "size: %d; contents of test.txt: ".

(** What the test does with the file: it shows it, and writes another text into it. *)
Definition rewrite_file (node : Z) (s : fs.t) (c : console.t) : outcome (fs.t (D := D) * console.t) :=
  let! '(contents, s) := read_zone fuel dev uncache_addr node 0 s in
  let! nd := inode_at node s in
  let! c := printk.printk contents_format [AUInt (i_size nd)] c in
  let! txt := read_string fuel (block_reader contents s) 0 in
  let! c := printk.printk txt [] c in
  let! c := printk.printk [10] [] c in
  let! s := block_put contents 0 hello_world s in
  let! s := set_size node 12 s in
  let! nd := inode_at node s in
  let! z := i_zone nd 0 in
  let! '(_, s) := write_block fuel dev z s in
  Ok (s, c).

Definition test_fs (depth : nat) (s : fs.t) (c : console.t) : outcome (fs.t (D := D) * console.t) :=
  let! c := printk.print_all (super_lines (g_super_block s)) c in
  let! '(s, c) := list_entries depth kRootINO s c in
  let! '(node, s) := namei fuel dev uncache_addr (path_of test_file) s in
  let! '(s, c) := match node with Some node => rewrite_file node s c | None => Ok (s, c) end in
  let! s := sync_all fuel dev uncache_addr s in
  Ok (s, c).

End files.
End files.
Import files.

(** ** What the listing is *)

Module listing.

(** Names that start with a dot are left out. *)
Definition hidden (e : Z * list Z) : bool := bool_decide (head (snd e) = Some 46).

Definition line (table : list (list Z)) (e : Z * list Z) : list Z :=
  let nd := default [] (lget table (fst e)) in
  snd e ++ [9] ++ Console.spec.dec (i_size nd) ++ [9] ++
  (if is_directory (i_mode nd) then dir_text else file_text) ++ [10].

Section listing.
Context (C : Z -> list Z) (table : list (list Z)).

(** The entries that are shown, or none for a file. *)
Definition shown (d : Z) : list (Z * list Z) :=
  match lget table d with
  | Some ino =>
      if is_directory (i_mode ino) then filter (fun e => hidden e = false) (entries C ino) else []
  | None => []
  end.

(** The tree below an inode, each line before what is below it. *)
Fixpoint text (depth : nat) (d : Z) : list Z :=
  match depth with
  | O => []
  | S depth' => shown d ≫= (fun e => line table e ++ text depth' (fst e))
  end.

(** The inodes that are listed. *)
Fixpoint visits (depth : nat) (d : Z) : nat :=
  match depth with
  | O => 0
  | S depth' => S (sum_list_with (fun e => visits depth' (fst e)) (shown d))
  end.

(** A tree no deeper than [depth] whose directories have at most [z] zones. *)
Fixpoint tree_ok (z : Z) (depth : nat) (d : Z) : Prop :=
  match depth with
  | O => False
  | S depth' =>
      exists ino, lget table d = Some ino /\ Forall byte_ok ino /\
        (is_directory (i_mode ino) = true -> dir_ok C z ino) /\
        Forall (fun e => tree_ok z depth' (fst e)) (shown d)
  end.

End listing.
End listing.
Import listing.

Lemma bind_filter_map {A B E} (f : A -> B) (P : B -> bool) (g : B -> list E) (l : list A) :
  filter (fun e => P e = false) (map f l) ≫= g = l ≫= (fun i => if P (f i) then [] else g (f i)).
Proof.
  induction l as [| x l IH]; [done |]. cbn [map]. rewrite filter_cons. destruct (P (f x)) eqn:E1.
  - rewrite decide_False by done. rewrite IH. cbn. by rewrite E1.
  - rewrite decide_True by done. cbn. rewrite E1. f_equal. exact IH.
Qed.

Lemma sum_filter_map {A B} (f : A -> B) (P : B -> bool) (g : B -> nat) (l : list A) :
  sum_list_with g (filter (fun e => P e = false) (map f l)) =
  sum_list_with (fun i => if P (f i) then 0 else g (f i))%nat l.
Proof.
  induction l as [| x l IH]; [done |]. cbn [map]. rewrite filter_cons. destruct (P (f x)) eqn:E1.
  - rewrite decide_False by done. rewrite IH. cbn. by rewrite E1.
  - rewrite decide_True by done. cbn. rewrite E1. by f_equal.
Qed.

Lemma sum_scale {A} (k : nat) (P : A -> bool) (g : A -> nat) (l : list A) :
  sum_list_with (fun i => if P i then 0 else k * g i)%nat l =
  (k * sum_list_with (fun i => if P i then 0 else g i) l)%nat.
Proof. induction l as [| x l IH]; cbn; [lia |]. rewrite IH. destruct (P x); lia. Qed.

Section proofs.
Context {D : Type} `{AtaDisk D} `{NodeAlloc block_buffer}.
Context (fuel : nat) (dev : ide_device) (uncache_addr : Z).
Hypothesis Hfuel : (busy_bound < fuel)%nat.
Hypothesis Hdev : valid dev = 1.
Hypothesis Huncache : uncache_addr <> 0.
Context (C : Z -> list Z).
Hypothesis HC : forall b, Forall byte_ok (C b).
Implicit Types (s : fs.t (D := D)) (m : gmap Z block_buffer) (c : console.t).

Abbreviation holds := (holds uncache_addr C).
Abbreviation moves := (moves uncache_addr).

(** The callback writes the text of entry [i] and has at most [cost i] more blocks cached. *)
Definition writes (cb : Z -> Z -> fs.t (D := D) -> console.t -> outcome (bool * fs.t * console.t))
    (tb : list (list Z)) (ino : list Z) (n : Z) (txt : Z -> list Z) (cost : Z -> nat) : Prop :=
  forall s m p i c u, holds s m -> g_inode_table s = tb -> 0 <= i < n ->
    at_block s m p (zone_of C ino (i / 32)) -> shows c u ->
    Z.of_nat (base.size m) + Z.of_nat (cost i) <= kCacheBlocks ->
    exists s' m' c' u', cb p (32 * (i mod 32)) s c = Ok (false, s', c') /\
      moves s m s' m' (Z.of_nat (cost i)) /\
      console.console_write (txt i) rc_black rc_white c = Ok c' /\ shows c' u'.

Lemma traverse_writes cb d ino txt cost n i zc zone off s m k c u :
  writes cb (g_inode_table s) ino k txt cost ->
  holds s m -> lget (g_inode_table s) d = Some ino -> Forall byte_ok ino -> shows c u ->
  at_block s m zone (zone_of C ino zc) -> i = 32 * zc + off / 32 -> 0 <= zc -> 0 <= off <= 1024 ->
  off mod 32 = 0 -> i + Z.of_nat n = k -> k / 32 < 500 -> 0 <= i ->
  let w := 2 * (k / 32 - zc) + Z.of_nat (sum_list_with cost (seqZ i (Z.of_nat n))) in
  Z.of_nat (base.size m) + w <= kCacheBlocks ->
  exists s' m' c' u', traverse_loop fuel dev uncache_addr n d zc zone off cb s c = Ok (None, s', c') /\
    moves s m s' m' w /\
    console.console_write (seqZ i (Z.of_nat n) ≫= txt) rc_black rc_white c = Ok c' /\ shows c' u'.
Proof.
  intros Hcb. revert i zc zone off s m c u Hcb. induction n as [| n IH];
    intros i zc zone off s m c u Hcb Hh Hd HF Hc Hat Hi Hzc Hoff Hal Hn Hm Hi0 w Hroom; subst w; cbn [traverse_loop].
  { exists s, m, c, u. split; [done |]. split; [| done].
    eapply moves_le; [by eapply moves_refl | simpl; zlia]. }
  rewrite seqZ_cons in * by lia. replace (Z.pred (Z.of_nat (S n))) with (Z.of_nat n) in * by lia.
  cbn [sum_list_with] in *. assert (Hle : i / 32 <= k / 32) by (apply Z.div_le_mono; lia).
  destruct (next_zone fuel dev uncache_addr Hfuel Hdev Huncache C HC s m d ino zc zone off Hh Hd HF Hat)
    as (zone' & s1 & m1 & -> & Hm1 & Hat1 & Hzi); [zlia | done | done |].
  rewrite <- Hi in *. cbn [obind]. pose proof (moves_holds _ _ _ _ _ _ _ Hh Hm1) as Hh1.
  pose proof (moves_table _ _ _ _ _ _ Hm1) as Htb. destruct (moves_room _ _ _ _ _ _ Hm1) as [Hl1 _]; [lia |].
  destruct (Hcb s1 m1 zone' i c u Hh1 Htb ltac:(zlia) Hat1 Hc)
    as (s2 & m2 & c2 & u2 & -> & Hm2 & Hw2 & Hc2); [lia |]. cbn [obind].
  pose proof (moves_table _ _ _ _ _ _ Hm2) as Htb2. destruct (moves_room _ _ _ _ _ _ Hm2) as [Hl2 Hp2]; [lia |].
  unfold sizeof_dir_entry.
  destruct (IH (Z.succ i) (i / 32) zone' (32 * (i mod 32) + 32) s2 m2 c2 u2)
    as (s3 & m3 & c3 & u3 & Hr & Hm3 & Hw3 & Hc3); rewrite ?Htb2, ?Htb; try done; try zlia;
    [by eapply moves_holds | by apply Hp2 |].
  exists s3, m3, c3, u3. split; [done |]. split; [| split; [| done]].
  - eapply moves_trans; [eapply moves_trans; [exact Hm1 | exact Hm2 | lia | reflexivity] | exact Hm3 | lia | lia].
  - change (console.console_write (txt i ++ (seqZ (Z.succ i) (Z.of_nat n) ≫= txt)) rc_black rc_white c = Ok c3).
    by rewrite console_write_app, Hw2.
Qed.

(** ** The listing *)

Lemma entries_ok z ino s m p i :
  holds s m -> (30 <= fuel)%nat -> dir_ok C z ino -> 0 <= i < num_entries ino ->
  at_block s m p (zone_of C ino (i / 32)) ->
  exists ch, block_get p (32 * (i mod 32)) 2 s = Ok (take 2 (entry_bytes C ino i)) /\
    block_reader p s (32 * (i mod 32) + 2) = Ok ch /\
    hidden (entry C ino i) = (ch =? 46) /\
    read_string fuel (block_reader p s) (32 * (i mod 32) + 2) = Ok (snd (entry C ino i)) /\
    Forall byte_ok (snd (entry C ino i)).
Proof.
  intros Hh Hf (_ & _ & Hn) Hi Hat. specialize (Hn i Hi).
  destruct (entry_block_ok uncache_addr C s m p _ _ i ino Hh Hat eq_refl eq_refl) as [Hg Hr].
  pose proof (name_cstr uncache_addr C HC s m p i ino Hh Hat Hn) as Hcs.
  destruct (drop 2 (entry_bytes C ino i)) as [| ch rest] eqn:E; [by apply elem_of_nil in Hn |].
  exists ch. split_and!; [done | | | | ].
  - replace (32 * (i mod 32) + 2) with (32 * (i mod 32) + Z.of_nat 2) by lia. apply Hr.
    rewrite <- (Nat.add_0_r 2), <- lookup_drop, E. done.
  - unfold hidden, entry. cbn [snd]. rewrite E. cbn [c_string].
    destruct (Z.eqb_spec ch 46) as [-> | Hch]; [done |]. apply bool_decide_eq_false_2.
    destruct (Z.eqb_spec ch 0); cbn; congruence.
  - apply read_string_ok; unfold entry; cbn [snd]; rewrite E; [done |].
    pose proof (c_string_short _ _ Hn). lia.
  - unfold entry. cbn [snd]. rewrite E. by eapply cstr_bytes.
Qed.

(** The arguments of the line of an entry can be printed. *)
Lemma line_args name nd :
  Forall byte_ok name -> Forall byte_ok nd ->
  Forall printk.arg_ok [AStr name; AUInt (i_size nd);
    AStr (if is_directory (i_mode nd) then dir_text else file_text)].
Proof.
  intros Hname Hnd. rewrite !Forall_cons. split_and!; [done | | | done].
  - exact (field_range 4 4 nd Hnd).
  - by destruct (is_directory _); repeat constructor.
Qed.

(** The callback for one entry, when what is below it is listed right. *)
Lemma entry_writes z depth ino tb :
  (30 <= fuel)%nat -> dir_ok C z ino ->
  (forall d s m c u, tree_ok C tb z depth d -> holds s m -> g_inode_table s = tb -> shows c u ->
    Z.of_nat (base.size m) + 2 * z * Z.of_nat (visits C tb depth d) <= kCacheBlocks ->
    exists s' m' c' u', list_entries fuel dev uncache_addr depth d s c = Ok (s', c') /\
      moves s m s' m' (2 * z * Z.of_nat (visits C tb depth d)) /\
      console.console_write (text C tb depth d) rc_black rc_white c = Ok c' /\ shows c' u') ->
  Forall (fun e => tree_ok C tb z depth (fst e)) (filter (fun e => hidden e = false) (entries C ino)) ->
  0 <= z ->
  writes (fun p off s c =>
      let! bs := block_get p off 2 s in
      let! ch := block_reader p s (off + 2) in
      if negb (ch =? 46) then
        let! name := read_string fuel (block_reader p s) (off + 2) in
        let! nd := inode_at (le_decode bs) s in
        let! c := printk.printk entry_format
                    [AStr name; AUInt (i_size nd);
                     AStr (if is_directory (i_mode nd) then dir_text else file_text)] c in
        let! '(s, c) := list_entries fuel dev uncache_addr depth (le_decode bs) s c in
        Ok (false, s, c)
      else Ok (false, s, c))
    tb ino (num_entries ino)
    (fun i => if hidden (entry C ino i) then [] else
                line tb (entry C ino i) ++ text C tb depth (fst (entry C ino i)))
    (fun i => if hidden (entry C ino i) then 0%nat else
                (Z.to_nat (2 * z) * visits C tb depth (fst (entry C ino i)))%nat).
Proof.
  intros Hf Hdir IH Hall Hz s m p i c u Hh Htb Hi Hat Hc Hroom.
  destruct (entries_ok z ino s m p i Hh Hf Hdir Hi Hat) as (ch & -> & -> & Hhid & Hname & Hbytes). cbn [obind].
  destruct (Z.eqb_spec ch 46) as [E46 | Hch]; rewrite Hhid in *; cbn [negb] in *.
  { exists s, m, c, u. split_and!; try done. by eapply moves_refl. }
  rewrite Hname. cbn [obind]. set (e := entry C ino i) in *.
  rewrite Nat2Z.inj_mul, Z2Nat.id in * by lia.
  assert (Htree : tree_ok C tb z depth (fst e)).
  { rewrite Forall_forall in Hall. apply (Hall e). apply list_elem_of_filter.
    split; [done |]. apply list_elem_of_fmap. exists i. split; [done | apply elem_of_seqZ; lia]. }
  assert (Hnd : exists nd, lget tb (fst e) = Some nd /\ Forall byte_ok nd).
  { destruct depth; cbn [tree_ok] in Htree; [done |]. destruct Htree as (nd & ? & ? & _). by exists nd. }
  destruct Hnd as (nd & Hnd & Hndb). change (le_decode (take 2 (entry_bytes C ino i))) with (fst e).
  unfold inode_at. rewrite Htb, Hnd. cbn [or_fault obind].
  destruct (printk.printk_says entry_format _ c u Hc ltac:(by repeat constructor) (line_args (snd e) nd Hbytes Hndb))
    as (c1 & u1 & -> & Hw & Hc1). cbn [obind].
  assert (Hline : console.console_write (line tb e) rc_black rc_white c = Ok c1)
    by (rewrite <- Hw; unfold line; rewrite Hnd; reflexivity).
  destruct (IH (fst e) s m c1 _ Htree Hh Htb Hc1) as (s' & m' & c' & u' & -> & Hm & Ht & Hc'); [lia |].
  cbn [obind]. exists s', m', c', u'. split; [done |]. split; [| split; [| done]].
  - eapply moves_le; [exact Hm | lia].
  - by rewrite console_write_app, Hline.
Qed.

Lemma list_entries_run z depth tb d s m c u :
  (30 <= fuel)%nat -> 0 <= z <= 100 ->
  tree_ok C tb z depth d -> holds s m -> g_inode_table s = tb -> shows c u ->
  Z.of_nat (base.size m) + 2 * z * Z.of_nat (visits C tb depth d) <= kCacheBlocks ->
  exists s' m' c' u', list_entries fuel dev uncache_addr depth d s c = Ok (s', c') /\
    moves s m s' m' (2 * z * Z.of_nat (visits C tb depth d)) /\
    console.console_write (text C tb depth d) rc_black rc_white c = Ok c' /\ shows c' u'.
Proof.
  intros Hf Hz. revert d s m c u. induction depth as [| depth IH];
    intros d s m c u Htree Hh Htb Hc Hroom; [done |].
  cbn [tree_ok visits text list_entries] in *. destruct Htree as (ino & Hd & HF & Hdir & Hall).
  assert (Hino : inode_at d s = Ok ino) by (unfold inode_at; by rewrite Htb, Hd).
  rewrite Hino. cbn [obind]. unfold shown in *. rewrite Hd in *.
  destruct (is_directory (i_mode ino)) eqn:Ed.
  2: { exists s, m, c, u. split_and!; try done.
       eapply moves_le; [by eapply moves_refl | lia]. }
  specialize (Hdir eq_refl). destruct (Hdir) as (_ & Hsz & _).
  pose proof (field_range 4 4 ino HF) as Hsize. fold (i_size ino) in Hsize.
  assert (Hne : 0 <= num_entries ino) by (unfold num_entries; zlia).
  assert (Hz1 : 0 <= num_entries ino / 32) by zlia. rewrite Nat2Z.inj_succ, Z.mul_succ_r in *.
  assert (Hv : 0 <= 2 * z * Z.of_nat (sum_list_with (fun e => visits C tb depth (fst e))
    (filter (fun e => hidden e = false) (entries C ino)))) by nia.
  unfold traverse_dir. rewrite Hino. cbn [obind]. rewrite Ed. cbn [negb].
  destruct (zone_moves fuel dev uncache_addr Hfuel Hdev Huncache C HC s m d ino 0 Hh ltac:(by rewrite Htb) HF)
    as (p & s1 & m1 & -> & Hm1 & Hat1); [lia |]. cbn [obind].
  pose proof (moves_table _ _ _ _ _ _ Hm1) as Htb1. destruct (moves_room _ _ _ _ _ _ Hm1) as [Hl1 _]; [lia |].
  change (i_size ino / sizeof_dir_entry) with (num_entries ino).
  unfold entries in *. rewrite sum_filter_map, bind_filter_map in *.
  assert (Hk : 2 * (num_entries ino / 32) <= 2 * z - 2) by lia.
  destruct (traverse_writes _ d ino _ _ (Z.to_nat (num_entries ino)) 0 0 p 0 s1 m1 (num_entries ino) c u
    ltac:(rewrite Htb1, Htb; apply (entry_writes z depth ino tb Hf Hdir); [| exact Hall | lia];
          intros; by eapply IH))
    as (s2 & m2 & c2 & u2 & Hr & Hm2 & Hw & Hc2); try done; try lia.
  all: try (rewrite Htb1, Htb; done). all: try by eapply moves_holds.
  { rewrite sum_scale, Z2Nat.id, Nat2Z.inj_mul, Z2Nat.id by lia. nia. }
  rewrite Z2Nat.id in * by lia. rewrite Hr. cbn [obind]. exists s2, m2, c2, u2. split_and!; try done.
  eapply moves_trans; [exact Hm1 | exact Hm2 | |]; rewrite sum_scale, Nat2Z.inj_mul, Z2Nat.id by lia; nia.
Qed.

(** C24: Listing the tree.  On a directory tree no deeper than [depth], [list_entries]
    terminates and writes one line for every entry whose name does not start with a dot, with its
    size and kind, each followed by what is below it.  The directories that are being listed
    stay readable while those below them are read, as long as the cache has room; no block and
    no table changes. *)
Theorem list_entries_prints z depth tb d s m c u :
  (30 <= fuel)%nat -> 0 <= z <= 100 ->
  tree_ok C tb z depth d -> holds s m -> g_inode_table s = tb -> shows c u ->
  Z.of_nat (base.size m) + 2 * z * Z.of_nat (visits C tb depth d) <= kCacheBlocks ->
  exists s' m' c' u', list_entries fuel dev uncache_addr depth d s c = Ok (s', c') /\
    moves s m s' m' (2 * z * Z.of_nat (visits C tb depth d)) /\
    console.console_write (text C tb depth d) rc_black rc_white c = Ok c' /\ shows c' u'.
Proof. apply list_entries_run. Qed.

(** ** The test *)

Lemma super_lines_ok sb :
  Forall byte_ok sb ->
  Forall (fun x => Forall byte_ok (fst x) /\ Forall printk.arg_ok (snd x)) (super_lines sb).
Proof.
  intros HF. assert (H2 : forall off, printk.arg_ok (AUInt (field off 2 sb))).
  { intros off. pose proof (field_range off 2 sb HF). cbn in *. lia. }
  assert (H4 : printk.arg_ok (AUInt (field 12 4 sb))) by (exact (field_range 12 4 sb HF)).
  unfold super_lines. rewrite !Forall_cons. cbn [fst snd].
  split_and!; try (by repeat constructor); try (apply Forall_singleton; apply H2); by apply Forall_singleton.
Qed.

(** The file's first block, with the new text. *)
Definition rewritten (bs : list Z) : list Z := hello_world ++ drop 12 bs.

(** The file system [s'] has the size of inode [n] set to 12, and is otherwise [s]. *)
Definition resized s s' (n : Z) : Prop :=
  exists ino, lget (g_inode_table s) n = Some ino /\ g_super_block s' = g_super_block s /\
    g_imap s' = g_imap s /\ g_zmap s' = g_zmap s /\
    lset (g_inode_table s) n (take 4 ino ++ [12; 0; 0; 0] ++ drop 8 ino) = Some (g_inode_table s').

Lemma set_size_ok s n ino :
  lget (g_inode_table s) n = Some ino -> (32 <= length ino)%nat ->
  exists s', set_size n 12 s = Ok s' /\ resized s s' n /\
    g_block_cache s' = g_block_cache s /\ disk_ s' = disk_ s.
Proof.
  clear Hfuel.
  intros Hn Hl. unfold set_size, inode_at. rewrite Hn. cbn [or_fault obind].
  change (le_encode 4 12) with [12; 0; 0; 0].
  rewrite put_bytes_in by (simpl; lia). cbn [or_fault obind length Nat.add].
  pose proof (proj1 (lget_Some _ _ _) Hn) as [Hn0 Hn1]. apply lookup_lt_Some in Hn1.
  pose proof (lset_in (g_inode_table s) n (take 4 ino ++ [12; 0; 0; 0] ++ drop 8 ino) ltac:(lia)) as Hset.
  rewrite Hset. cbn [or_fault obind]. eexists. split; [reflexivity |]. split; [| done].
  exists ino. by rewrite Hset.
Qed.

Lemma resized_inode s s' n ino :
  resized s s' n -> lget (g_inode_table s) n = Some ino -> (32 <= length ino)%nat ->
  exists ino', lget (g_inode_table s') n = Some ino' /\ i_size ino' = 12 /\
    take 4 ino' = take 4 ino /\ drop 8 ino' = drop 8 ino.
Proof.
  clear Hfuel.
  intros (ino0 & Hi & _ & _ & _ & Hset) Hn Hl. assert (ino0 = ino) as -> by congruence.
  pose proof (proj1 (lget_Some _ _ _) Hn) as [Hn0 Hn1]. apply lookup_lt_Some in Hn1.
  rewrite lset_in in Hset by lia. injection Hset as Ht.
  exists (take 4 ino ++ [12; 0; 0; 0] ++ drop 8 ino). split_and!.
  - apply lget_Some. split; [done |]. rewrite <- Ht. by rewrite list_lookup_insert_eq.
  - do 8 (destruct ino as [| ? ino]; [simpl in Hl; lia |]). done.
  - do 8 (destruct ino as [| ? ino]; [simpl in Hl; lia |]). done.
  - do 8 (destruct ino as [| ? ino]; [simpl in Hl; lia |]). done.
Qed.

Lemma field_drop k off n bs : (k <= off)%nat -> field off n bs = field (off - k) n (drop k bs).
Proof. intros Hk. unfold field. rewrite drop_drop. do 3 f_equal. lia. Qed.

(** The string in block [b]. *)
Lemma block_string s m p b :
  holds s m -> at_block s m p b -> 0 ∈ C b ->
  cstr (block_reader p s) 0 (c_string (C b)) /\ (length (c_string (C b)) < 1024)%nat.
Proof.
  clear Hfuel. intros Hh Hat Hz. pose proof (length_C _ _ _ _ b Hh) as Hlen. split.
  - apply c_string_cstr; [done | done |]. intros i x Hx. pose proof (lookup_lt_Some _ _ _ Hx).
    unfold block_reader. rewrite (get_ok _ _ _ _ _ _ _ _ Hh Hat) by (unfold kBlockSize; lia). cbn [obind].
    rewrite (drop_S _ x (Z.to_nat (0 + Z.of_nat i))) by (rewrite <- Hx; f_equal; lia).
    change (Z.to_nat 1) with 1%nat. cbn [firstn]. rewrite take_0. cbn [le_decode]. f_equal. lia.
  - apply c_string_short. by rewrite take_ge by lia.
Qed.

(** The new text and size: the block of the first zone is rewritten, and put on the disk. *)
Lemma write_hello s m p n ino c :
  let b := zone_of C ino 0 in
  holds s m -> at_block s m p b -> lget (g_inode_table s) n = Some ino -> Forall byte_ok ino -> (32 <= length ino)%nat ->
  exists s' m',
    (let! s := block_put p 0 hello_world s in
     let! s := set_size n 12 s in
     let! nd := inode_at n s in
     let! z := i_zone nd 0 in
     let! '(_, s) := write_block fuel dev z s in Ok (s, c)) = Ok (s', c) /\
    safe uncache_addr s' m' /\ resized s s' n /\ flushed s' m' b /\
    forall b', view s' m' b' = if decide (b' = b) then rewritten (C b) else C b'.
Proof.
  intros b Hh Hat Hn HF Hl. assert (Hb : 0 <= b < 65536) by (exact (field_range 14 2 ino HF)).
  pose proof (length_C _ _ _ _ b Hh) as HlenC. destruct Hh as [Hs HvC].
  destruct (block_put_any fuel dev uncache_addr s m p b 0 hello_world Hs Hat)
    as (s2 & m2 & buf & -> & Hm2 & Hat2 & Hput & Hbuf & _); [done | by vm_compute |]. cbn [obind].
  rewrite HvC in Hput. change (Z.to_nat 0) with 0%nat in Hput. rewrite put_bytes_in in Hput by (rewrite HlenC; vm_compute; lia).
  injection Hput as Hput. pose proof (mv_vars _ _ _ _ _ _ Hm2) as (Hsb2 & Htb2 & Hi2 & Hzm2).
  destruct (set_size_ok s2 n ino) as (s3 & -> & Hres & Hca & Hdi); [by rewrite Htb2 | done |]. cbn [obind].
  destruct (resized_inode _ _ _ _ Hres ltac:(by rewrite Htb2) Hl) as (ino' & Hn' & _ & _ & Hdrop).
  unfold inode_at. rewrite Hn'. cbn [or_fault obind]. unfold i_zone.
  rewrite decide_True by lia. cbn [obind]. change (14 + 2 * Z.to_nat 0)%nat with 14%nat.
  replace (field 14 2 ino') with b.
  2: { unfold b, zone_of. cbn [Z.ltb Z.compare]. change (14 + 2 * Z.to_nat 0)%nat with 14%nat.
       rewrite (field_drop 8 14 2 ino), (field_drop 8 14 2 ino'), Hdrop by lia. done. }
  assert (Hs3 : safe uncache_addr s3 m2) by (destruct (mv_safe _ _ _ _ _ _ Hm2); split; rewrite ?Hca, ?Hdi; done).
  assert (Hv3 : forall b', view s3 m2 b' = view s2 m2 b') by (intros b'; unfold view; by rewrite Hdi).
  destruct (write_block_any fuel dev uncache_addr Hfuel Hdev s3 m2 b Hs3)
    as (r & s4 & -> & Hm4 & Hd4); [unfold block_ok; lia |]. cbn [obind].
  destruct (Hd4 (at_in _ _ _ _ Hat2)) as [_ Hdisk]. pose proof (moved_no_view _ _ _ _ _ Hm4) as Hv4.
  exists s4, m2. split; [done |]. split; [apply Hm4 |]. split; [| split].
  - pose proof (mv_vars _ _ _ _ _ _ Hm4) as (? & ? & ? & ?). destruct Hres as (ino0 & ? & ? & ? & ? & ?).
    exists ino0. split_and!; congruence.
  - unfold flushed. by rewrite Hv4, Hdisk.
  - intros b'. rewrite Hv4, Hv3. destruct (decide (b' = b)) as [-> | Hne].
    + rewrite Hbuf, <- Hput. done.
    + by rewrite (mv_view _ _ _ _ _ _ Hm2), HvC by congruence.
Qed.

Lemma rewrite_file_ok s m c u n ino :
  let b := zone_of C ino 0 in
  holds s m -> lget (g_inode_table s) n = Some ino -> Forall byte_ok ino -> (32 <= length ino)%nat ->
  0 ∈ C b -> (1024 < fuel)%nat -> shows c u ->
  exists s' m' c' u', rewrite_file fuel dev uncache_addr n s c = Ok (s', c') /\
    safe uncache_addr s' m' /\ resized s s' n /\ shows c' u' /\
    console.console_write (printk.render contents_format [AUInt (i_size ino)] ++ c_string (C b) ++ [10])
      rc_black rc_white c = Ok c' /\ flushed s' m' b /\
    forall b', view s' m' b' = if decide (b' = b) then rewritten (C b) else C b'.
Proof.
  intros b Hh Hn HF Hl Hz Hf Hc. unfold rewrite_file.
  destruct (zone_moves fuel dev uncache_addr Hfuel Hdev Huncache C HC s m n ino 0 Hh Hn HF)
    as (p & s1 & m1 & -> & Hm & Hat); [lia |]. cbn [obind]. fold b in Hat.
  pose proof (moves_holds _ _ _ _ _ _ _ Hh Hm) as Hh1. pose proof (moves_vars _ _ _ _ _ _ Hm) as Hv1.
  assert (Hn1 : lget (g_inode_table s1) n = Some ino) by (by rewrite (moves_table _ _ _ _ _ _ Hm)).
  unfold inode_at at 1. rewrite Hn1. cbn [or_fault obind].
  destruct (printk.printk_says contents_format [AUInt (i_size ino)] c u Hc) as (c1 & u1 & -> & Hw1 & Hc1);
    [by repeat constructor | apply Forall_singleton; exact (field_range 4 4 ino HF) |]. cbn [obind].
  destruct (block_string s1 m1 p b Hh1 Hat Hz) as [Hcs Hcl].
  rewrite (read_string_ok _ _ _ _ Hcs) by lia. cbn [obind].
  destruct (printk.printk_says (c_string (C b)) [] c1 u1 Hc1) as (c2 & u2 & -> & Hw2 & Hc2);
    [by eapply cstr_bytes | done |]. cbn [obind].
  destruct (printk.printk_says [10] [] c2 u2 Hc2) as (c3 & u3 & -> & Hw3 & Hc3);
    [by apply Forall_singleton | done |]. cbn [obind].
  destruct (write_hello s1 m1 p n ino c3 Hh1 Hat Hn1 HF Hl) as (s4 & m4 & Hr & Hs4 & Hres & Hfl & Hview).
  exists s4, m4, c3, u3. split; [exact Hr |]. split; [done |]. split; [| split; [done | split; [| done]]].
  - destruct Hres as (ino0 & ? & ? & ? & ? & ?). destruct Hv1 as (? & ? & ? & ?). exists ino0. split_and!; congruence.
  - rewrite console_write_app, Hw1. cbn [obind]. change (printk.render ?f []) with f in *. by rewrite console_write_app, Hw2.
Qed.

(** Without a zero byte in its block the text of the file is read past the end of the buffer. *)
Lemma block_overruns s m p b o :
  holds s m -> at_block s m p b -> 0 ∉ C b -> 0 <= o <= 1024 -> (1024 - Z.to_nat o < fuel)%nat ->
  read_string fuel (block_reader p s) o = Fault.
Proof.
  intros Hh Hat Hz. pose proof (length_C _ _ _ _ b Hh) as Hlen. clear Hfuel. revert o.
  induction fuel as [| f IH]; intros o Ho Hf; [lia |]. cbn [read_string].
  destruct (decide (o = 1024)) as [-> | Hne].
  - unfold block_reader, block_get. destruct Hat as (v & Hat). destruct (holds_at_load _ _ _ _ _ Hat) as (nd & -> & _).
    cbn [obind]. unfold get_bytes. rewrite decide_False by (rewrite length_bytes_of; lia). done.
  - destruct (lookup_lt_is_Some_2 (C b) (Z.to_nat o)) as [x Hx]; [lia |].
    unfold block_reader at 1. rewrite (get_ok _ _ _ _ _ _ _ _ Hh Hat) by (unfold kBlockSize; lia). cbn [obind].
    rewrite (drop_S _ _ _ Hx). change (Z.to_nat 1) with 1%nat. cbn [firstn]. rewrite take_0. cbn [le_decode].
    assert (x <> 0) by (intros ->; apply Hz; by eapply list_elem_of_lookup_2).
    rewrite (proj2 (Z.eqb_neq _ _)) by lia. rewrite IH by lia. done.
Qed.

Lemma rewrite_file_overruns s m c u n ino :
  let b := zone_of C ino 0 in
  holds s m -> lget (g_inode_table s) n = Some ino -> Forall byte_ok ino -> 0 ∉ C b -> (1024 < fuel)%nat -> shows c u ->
  rewrite_file fuel dev uncache_addr n s c = Fault.
Proof.
  intros b Hh Hn HF Hz Hf Hc. unfold rewrite_file.
  destruct (zone_moves fuel dev uncache_addr Hfuel Hdev Huncache C HC s m n ino 0 Hh Hn HF)
    as (p & s1 & m1 & -> & Hm & Hat); [lia |]. cbn [obind]. fold b in Hat.
  pose proof (moves_holds _ _ _ _ _ _ _ Hh Hm) as Hh1.
  unfold inode_at at 1. rewrite (moves_table _ _ _ _ _ _ Hm), Hn. cbn [or_fault obind].
  destruct (printk.printk_says contents_format [AUInt (i_size ino)] c u Hc) as (c1 & u1 & -> & _);
    [by repeat constructor | apply Forall_singleton; exact (field_range 4 4 ino HF) |]. cbn [obind].
  by rewrite (block_overruns s1 m1 p b 0 Hh1 Hat Hz) by lia.
Qed.

Lemma resized_vars s s1 s2 s' n : same_vars s s1 -> resized s1 s2 n -> same_vars s2 s' -> resized s s' n.
Proof.
  intros (? & ? & ? & ?) (ino & ? & ? & ? & ? & ?) (? & ? & ? & ?). exists ino. split_and!; congruence.
Qed.

Lemma resized_fit s s' n : resized s s' n -> tables_fit s -> tables_fit s'.
Proof.
  intros (ino & Hn & Hsb & Him & Hzm & Hset) [? ? Htb Hino ? ? ? ?].
  pose proof (proj1 (lget_Some _ _ _) Hn) as [Hn0 Hn1]. pose proof (lookup_lt_Some _ _ _ Hn1).
  rewrite lset_in in Hset by lia. injection Hset as Ht.
  split; rewrite ?Hsb, ?Him, ?Hzm, <- ?Ht, ?length_insert; try done.
  apply Forall_insert; [done |]. pose proof (Forall_lookup_1 _ _ _ _ Hino Hn1) as Hl. cbn in Hl.
  rewrite length_app, length_take. cbn [app length]. rewrite length_drop. lia.
Qed.

(** What the test prints, from the super block to the contents of the file. *)
Definition report (depth : nat) (sb : list Z) (tb : list (list Z)) (ino : list Z) : list Z :=
  (super_lines sb ≫= (fun x => printk.render (fst x) (snd x))) ++
  text C tb depth kRootINO ++
  printk.render contents_format [AUInt (i_size ino)] ++ c_string (C (zone_of C ino 0)) ++ [10].

Lemma test_fs_run z depth s m c u n ino :
  let tb := g_inode_table s in let b := zone_of C ino 0 in
  (1024 < fuel)%nat -> 0 <= z <= 100 -> holds s m -> tables_fit s -> shows c u ->
  tree_ok C tb z depth kRootINO -> dirs_ok C 500 tb ->
  walk fuel C tb (Some kRootINO) (drop 1 test_file) = Ok (Some n) ->
  lget tb n = Some ino -> Forall byte_ok ino -> 0 ∈ C b -> ~ 1 <= b < tables_end s ->
  Z.of_nat (base.size m) + 2 * z * Z.of_nat (visits C tb depth kRootINO) <= kCacheBlocks ->
  exists s' m' c' u', test_fs fuel dev uncache_addr depth s c = Ok (s', c') /\ safe uncache_addr s' m' /\ shows c' u' /\
    resized s s' n /\ tables_on_disk (disk_block (disk_ s')) s' /\
    disk_block (disk_ s') b = rewritten (C b) /\
    console.console_write (report depth (g_super_block s) tb ino) rc_black rc_white c = Ok c' /\
    forall b', ~ 1 <= b' < tables_end s -> view s' m' b' = if decide (b' = b) then rewritten (C b) else C b'.
Proof.
  intros tb b Hf Hz Hh Hfit Hc Htree Hdirs Hwalk Hn HF Hnul Hout Hroom. unfold test_fs.
  assert (Hil : (32 <= length ino)%nat).
  { pose proof (tf_inodes _ Hfit) as Hi. apply lget_Some in Hn as [_ Hn]. exact (Forall_lookup_1 _ _ _ _ Hi Hn). }
  destruct (printk.print_all_says (super_lines (g_super_block s)) c u Hc (super_lines_ok _ (tf_bytes _ Hfit)))
    as (c1 & u1 & -> & Hc1 & Hw1). cbn [obind].
  destruct (list_entries_run z depth tb kRootINO s m c1 u1) as (s1 & m1 & c2 & u2 & -> & Hm1 & Hw2 & Hc2);
    [lia | done | done | done | done | done | done |]. cbn [obind].
  pose proof (moves_table _ _ _ _ _ _ Hm1) as Htb1. pose proof (moves_holds _ _ _ _ _ _ _ Hh Hm1) as Hh1.
  pose proof (namei_run fuel dev uncache_addr Hfuel Hdev Huncache C HC (path_of test_file) (drop 1 test_file) s1 m1) as Hnm.
  rewrite Htb1 in Hnm. fold tb in Hnm. rewrite Hwalk in Hnm.
  destruct Hnm as (s2 & m2 & -> & Hm2);
    [apply (path_of_cstr test_file test_file 0); [by repeat constructor | done | done | cbn; lia] |
     lia | cbn; lia | done | done |]. cbn [obind].
  pose proof (moved_holds _ _ _ _ _ _ Hh1 Hm2) as Hh2.
  assert (Hv : same_vars s s2) by (eapply same_vars_trans; [apply Hm1 | apply Hm2]).
  assert (Htb2 : g_inode_table s2 = tb) by apply Hv.
  destruct (rewrite_file_ok s2 m2 c2 u2 n ino) as (s3 & m3 & c3 & u3 & -> & Hs3 & Hres & Hc3 & Hw3 & Hfl & Hview);
    rewrite ?Htb2; try done. cbn [obind].
  assert (Hres' : resized s s3 n) by (eapply resized_vars; [exact Hv | exact Hres | repeat split]).
  assert (Hsb3 : g_super_block s3 = g_super_block s) by (by destruct Hres' as (? & _ & -> & _)).
  destruct (sync_all_run fuel dev uncache_addr Hfuel Hdev Huncache s3 m3 Hs3) as (s4 & m4 & -> & Hm4 & Hon);
    [by eapply resized_fit |].
  cbn [obind]. destruct (same_starts s s3 Hsb3) as (_ & _ & He3). rewrite He3 in Hm4. unfold within in Hm4.
  exists s4, m4, c3, u3. split; [done |]. split; [apply Hm4 |]. split; [done |]. split; [eapply resized_vars; [repeat split | exact Hres' | apply Hm4] |].
  split; [eapply tables_on_disk_vars; [apply Hm4 | done] |]. split; [| split].
  - destruct (flushed_keeps _ _ _ _ _ _ b Hm4 Hout Hfl) as [_ ->]. unfold flushed in Hfl. fold b in Hfl, Hview. by rewrite Hfl, Hview, decide_True.
  - unfold report. rewrite console_write_app, Hw1. cbn [obind]. by rewrite console_write_app, Hw2.
  - intros b' Hb'. rewrite (mv_view _ _ _ _ _ _ Hm4) by done. apply Hview.
Qed.

(** C8: The test of the file system at start-up.  On a file system that has
    "/test/test.txt", [test_fs] terminates: it prints the super block, the tree and the text of
    the file, writes "hello world" into the file's block, sets its size to 12, and
    synchronises, so that the disk has the new text and the tables with the new size;
    every other block is what it was.  The cache must have room for the listing, which keeps the
    blocks of the outer directories. *)
Theorem test_fs_rewrites z depth s m c u n ino :
  let tb := g_inode_table s in let b := zone_of C ino 0 in
  (1024 < fuel)%nat -> 0 <= z <= 100 -> holds s m -> tables_fit s -> shows c u ->
  tree_ok C tb z depth kRootINO -> dirs_ok C 500 tb ->
  walk fuel C tb (Some kRootINO) (drop 1 test_file) = Ok (Some n) ->
  lget tb n = Some ino -> Forall byte_ok ino -> 0 ∈ C b -> ~ 1 <= b < tables_end s ->
  Z.of_nat (base.size m) + 2 * z * Z.of_nat (visits C tb depth kRootINO) <= kCacheBlocks ->
  exists s' m' c' u', test_fs fuel dev uncache_addr depth s c = Ok (s', c') /\ safe uncache_addr s' m' /\ shows c' u' /\
    resized s s' n /\ tables_on_disk (disk_block (disk_ s')) s' /\
    disk_block (disk_ s') b = rewritten (C b) /\
    console.console_write (report depth (g_super_block s) tb ino) rc_black rc_white c = Ok c' /\
    forall b', ~ 1 <= b' < tables_end s -> view s' m' b' = if decide (b' = b) then rewritten (C b) else C b'.
Proof. apply test_fs_run. Qed.
End proofs.

(** ** The small tree *)

#[local] Existing Instance bump_alloc.

(** The listing of [tree_fs]: "test" with 32 bytes, and below it "test.txt" with 2. *)
Definition tree_text : list Z :=
  test_name ++ [9; 51; 50; 9] ++ dir_text ++ [10] ++
  test_txt_name ++ [9; 50; 9] ++ file_text ++ [10].

Lemma tree_tree : tree_ok tree_blocks (g_inode_table tree_fs) 1 3 1.
Proof.
  assert (H1 : shown tree_blocks (g_inode_table tree_fs) 1 = [(2, test_name)]) by (by vm_compute).
  assert (H2 : shown tree_blocks (g_inode_table tree_fs) 2 = [(3, test_txt_name)]) by (by vm_compute).
  assert (H3 : shown tree_blocks (g_inode_table tree_fs) 3 = []) by (by vm_compute).
  assert (Hnode : forall d, d ∈ [1; 2; 3] -> exists ino, lget (g_inode_table tree_fs) d = Some ino /\
    Forall byte_ok ino /\ (is_directory (i_mode ino) = true -> dir_ok tree_blocks 1 ino)).
  { intros d Hd. assert (Hs : exists ino, lget (g_inode_table tree_fs) d = Some ino /\
      forallb (fun b => (0 <=? b) && (b <? 256)) ino = true).
    { rewrite !elem_of_cons in Hd. destruct Hd as [-> | [-> | [-> | Hd]]]; [by eexists.. | by apply elem_of_nil in Hd]. }
    destruct Hs as (ino & Hi & Hb). exists ino. split; [done |]. split; [| by apply (tree_dirs 1 ltac:(done) d)].
    rewrite forallb_forall in Hb. apply Forall_forall. intros b Hin.
    specialize (Hb b (proj1 (list_elem_of_In _ _) Hin)). bprop. split; lia. }
  destruct (Hnode 1) as (i1 & ? & ? & ?); [by repeat constructor |]. destruct (Hnode 2) as (i2 & ? & ? & ?); [by repeat constructor |].
  destruct (Hnode 3) as (i3 & ? & ? & ?); [by repeat constructor |].
  assert (T3 : tree_ok tree_blocks (g_inode_table tree_fs) 1 1 3).
  { cbn [tree_ok]. exists i3. rewrite H3. split_and!; try assumption. apply Forall_nil_2. }
  assert (T2 : tree_ok tree_blocks (g_inode_table tree_fs) 1 2 2).
  { cbn [tree_ok]. exists i2. rewrite H2. split_and!; try assumption. apply Forall_singleton. exact T3. }
  exists i1. rewrite H1. split_and!; try assumption. apply Forall_singleton. exact T2.
Qed.

Lemma list_entries_prints_witness :
  exists s c, list_entries 40 test_device 1 3 1 tree_fs zero_screen = Ok (s, c) /\
    console.console_write tree_text rc_black rc_white zero_screen = Ok c.
Proof.
  destruct (list_entries_prints 40 test_device 1 tree_fuel eq_refl ltac:(done) tree_blocks tree_bytes
    1 3 (g_inode_table tree_fs) 1 tree_fs ∅ zero_screen zero_term) as (s & m & c & u & Hr & _ & Hw & _).
  - lia.
  - lia.
  - exact tree_tree.
  - exact tree_holds.
  - reflexivity.
  - exact zero_shows.
  - vm_compute. congruence.
  - exists s, c. split; [exact Hr |]. rewrite <- Hw. f_equal.
Defined.

Lemma tree_fit : tables_fit tree_fs.
Proof.
  split; try (by vm_compute); try (split; by vm_compute).
  - apply Forall_take, Forall_app. split; [apply tree_sector_ok | by apply Forall_replicate].
  - apply (bool_decide_eq_true_1 _). by vm_compute.
Qed.

Lemma test_fuel : (busy_bound (D := disk) < 1100)%nat.
Proof. simpl. lia. Qed.

(** The run on the small tree: block 12 has the new text. *)
Lemma test_fs_rewrites_witness :
  exists s c, test_fs 1100 test_device 1 3 tree_fs zero_screen = Ok (s, c) /\
    take 12 (disk_block (disk_ s) 12) = hello_world.
Proof.
  destruct (test_fs_rewrites 1100 test_device 1 test_fuel eq_refl ltac:(done) tree_blocks tree_bytes
    1 3 tree_fs ∅ zero_screen zero_term 3 (pad 56 (inode_bytes 0x81A4 2 12))) as (s & m & c & u & Hr & _ & _ & _ & _ & Hd & _).
  - lia.
  - lia.
  - exact tree_holds.
  - exact tree_fit.
  - exact zero_shows.
  - exact tree_tree.
  - by apply tree_dirs.
  - vm_compute. reflexivity.
  - vm_compute. reflexivity.
  - apply (bool_decide_eq_true_1 _). vm_compute. reflexivity.
  - apply (bool_decide_eq_true_1 _). vm_compute. reflexivity.
  - vm_compute. intros [_ Hlt]. discriminate Hlt.
  - vm_compute. congruence.
  - exists s, c. split; [exact Hr |].
    change (disk_block (disk_ s) 12 = rewritten (tree_blocks 12)) in Hd. rewrite Hd. reflexivity.
Defined.
