(* ===== verification/CacheNodes.v ===== *)
(** * The nodes of the block cache ([new ListNode()] of [include/lrucache.hpp])

    The cache takes its nodes from the kernel heap, and in [kern_init] nothing is given back
    to the heap: the nodes are the first blocks of the heap, one after the other.
    [kernel_nodes] is [operator new] on such a heap.  [laid] is the invariant that the nodes lie
    there without gaps and are all in the table; every function of the file system that
    [init_fs] and [test_fs] use keeps it, so that the number of [new]s is the number of cached
    blocks ([nodes_of]). *)

From stdpp Require Import prelude gmap strings.
From Stdlib Require Import ZArith Lia.
From S2P Require Import Prelude CString LruCache LruCorrect LruEvict Heap Ide Console Printk.
From S2P Require Import Fs FsEvict FsArrays FsInit Dirs FsSync Files.
Import fs files LRUCache.

(** ** Where the nodes are *)

(** [sizeof(ListNode)]: three words, and the 1026 bytes of [block_buffer] rounded up to a
    multiple of four. *)
Definition sizeof_ListNode : Z := 1040.

(** The pointer to node [i]: each node has the header of its heap block before it. *)
Definition node_at (i : Z) : Z := kHeapStart + 4 + (4 + sizeof_ListNode) * i.

Lemma node_at_inj i j : node_at i = node_at j -> i = j.
Proof. unfold node_at, sizeof_ListNode. lia. Qed.

(** [new ListNode()] for a cache whose nodes [h] are the first blocks of the heap. *)
Definition kernel_node {T} (h : gmap Z (ListNode T)) : Z :=
  let p := node_at (Z.of_nat (base.size h)) in
  if decide (h !! p = None) then p else bump h.

(** What memory holds before a node is written. *)
Class RawMemory (T : Type) := raw_memory : Z -> ListNode T.

#[refine] Definition kernel_nodes {T} `{Inhabited T} `{RawMemory T} : NodeAlloc T :=
  {| new_node := kernel_node; raw_node := raw_memory |}.
Proof.
  - intros h. unfold kernel_node. case_decide; [done | by apply (new_node_fresh (NodeAlloc := bump_alloc))].
  - intros h. unfold kernel_node. case_decide; [unfold node_at, kHeapStart, sizeof_ListNode; lia |].
    by apply (new_node_nonnull (NodeAlloc := bump_alloc)).
Defined.

#[local] Existing Instance kernel_nodes.

(** ** Results of operations *)

(** When [m] returns, its result is in [P]. *)
Definition ends {A} (P : A -> Prop) (m : outcome A) : Prop := forall a, m = Ok a -> P a.

Lemma ends_ok {A} (P : A -> Prop) a : P a -> ends P (Ok a).
Proof. by intros Ha b [= <-]. Qed.

Lemma ends_bind {A B} (P : A -> Prop) (Q : B -> Prop) m (f : A -> outcome B) :
  ends P m -> (forall a, P a -> ends Q (f a)) -> ends Q (let! a := m in f a).
Proof. intros Hm Hf b. destruct m as [a | | |]; [| done..]. apply Hf, Hm, eq_refl. Qed.

Lemma ends_any {A} (m : outcome A) : ends (fun _ => True) m.
Proof. done. Qed.

Lemma ends_if {A} (P : A -> Prop) (b : bool) m m' : ends P m -> ends P m' -> ends P (if b then m else m').
Proof. by destruct b. Qed.

Lemma ends_kassert {A} (P : A -> Prop) b msg m : ends P m -> ends P (kassert b msg m).
Proof. by destruct b. Qed.

Lemma ends_weaken {A} (P Q : A -> Prop) m : (forall a, P a -> Q a) -> ends P m -> ends Q m.
Proof. intros HPQ Hm a Ha. by apply HPQ, Hm. Qed.

(** A bind whose first part needs no account. *)
Ltac skip := eapply ends_bind; [apply ends_any |]; intros ? _.

(** ** The cache *)

Section cache.
Context {T W : Type} `{Inhabited T} `{RawMemory T} (N : Z).
Context (invoke : Z -> Z -> Z -> t (T := T) -> W -> outcome (t (T := T) * W)).
Implicit Types (c s : t (T := T)) (h : gmap Z (ListNode T)).

(** The nodes are the first blocks of the heap, there are [n0] of them or more, and each is in the
    table. *)
Record laid (n0 : nat) c : Prop := {
  ly_old : (n0 <= base.size (heap c))%nat;
  ly_dom : forall p, p ∈ dom (heap c) <-> exists i, 0 <= i < Z.of_nat (base.size (heap c)) /\ p = node_at i;
  ly_table : forall p, p ∈ dom (heap c) -> p ∈ filled (table_ c)
}.

(** The same nodes in the same slots. *)
Definition same_nodes c c' : Prop := dom (heap c') = dom (heap c) /\ table_ c' = table_ c.

Lemma same_nodes_trans c1 c2 c3 : same_nodes c1 c2 -> same_nodes c2 c3 -> same_nodes c1 c3.
Proof. intros [] []. split; congruence. Qed.

Lemma size_of_dom h h' : dom h' = dom h -> base.size h' = base.size h.
Proof. intros Hd. by rewrite <- !size_dom, Hd. Qed.

Lemma laid_same n0 c c' : same_nodes c c' -> laid n0 c -> laid n0 c'.
Proof.
  intros [Hd Ht] [Ho Ha Hb]. pose proof (size_of_dom _ _ Hd) as Hs. split.
  - by rewrite Hs.
  - intros p. by rewrite Hd, Hs.
  - intros p. rewrite Hd, Ht. apply Hb.
Qed.

Definition same_dom h h' : Prop := dom h' = dom h.

Lemma checked_dom f p h : (forall h, dom (f h) = dom h) -> ends (same_dom h) (checked f p h).
Proof. intros Hf. unfold checked. skip. apply ends_ok, Hf. Qed.

Lemma store_next_dom p v h : ends (same_dom h) (store_next p v h).
Proof. apply checked_dom. intros. apply dom_alter_L. Qed.
Lemma store_prev_dom p v h : ends (same_dom h) (store_prev p v h).
Proof. apply checked_dom. intros. apply dom_alter_L. Qed.
Lemma store_key_dom p k h : ends (same_dom h) (store_key p k h).
Proof. apply checked_dom. intros. apply dom_alter_L. Qed.
Lemma store_value_dom p v h : ends (same_dom h) (store_value p v h).
Proof. apply checked_dom. intros. apply dom_alter_L. Qed.

(** Steps of a sequence of stores. *)
Ltac stores :=
  cbn [heap table_];
  lazymatch goal with
  | |- ends _ (obind (store_next _ _ _) _) => eapply ends_bind; [apply store_next_dom |]; intros ? ?; stores
  | |- ends _ (obind (store_prev _ _ _) _) => eapply ends_bind; [apply store_prev_dom |]; intros ? ?; stores
  | |- ends _ (obind (store_key _ _ _) _) => eapply ends_bind; [apply store_key_dom |]; intros ? ?; stores
  | |- ends _ (obind _ _) => skip; stores
  | |- ends _ (store_prev _ _ _) => eapply ends_weaken; [| apply store_prev_dom]; unfold same_dom in *; intros; congruence
  | |- ends _ (Ok _) => apply ends_ok; unfold same_dom in *; first [split; cbn; congruence | congruence]
  end.

Lemma unlink_dom x h : ends (same_dom h) (unlink x h).
Proof. unfold unlink. stores. Qed.

Lemma link_last_dom x q h : ends (same_dom h) (link_last x q h).
Proof. unfold link_last. stores. Qed.

Lemma detach_same x c : ends (same_nodes c) (detach x c).
Proof. unfold detach. eapply ends_bind; [apply unlink_dom |]. intros h Hh. by apply ends_ok. Qed.

Lemma push_back_same x c : ends (same_nodes c) (push_back N x c).
Proof.
  unfold push_back. apply ends_kassert, ends_if; [stores |].
  eapply ends_bind; [apply link_last_dom |]. intros h Hh. by apply ends_ok.
Qed.

Lemma pop_front_same c : ends (same_nodes c) (pop_front c).
Proof. unfold pop_front. apply ends_kassert. stores. Qed.

Lemma Promote_same k c : ends (same_nodes c) (Promote N k c).
Proof.
  unfold Promote. skip. eapply ends_bind; [apply detach_same |]. intros c1 H1.
  apply (ends_bind (same_nodes c1)).
  - apply ends_if; [skip |]; by apply ends_ok.
  - intros c2 H2. eapply ends_weaken; [| apply push_back_same]. intros c3 H3.
    by do 2 (eapply same_nodes_trans; [eassumption |]).
Qed.

Lemma Get_same k c : ends (fun '(_, c') => same_nodes c c') (Get N k c).
Proof.
  unfold Get. eapply ends_bind; [apply ends_any |]. intros [h cnt] _. skip.
  apply ends_if; [by apply ends_ok |]. eapply ends_bind; [apply Promote_same |]. intros c' Hc. skip.
  by apply ends_ok.
Qed.

(** [clear] and [SetUncacheCallback] apart, these are all the functions of the cache that do not
    ask for a node.  The others go through a state in which a node may be out of the table, in
    the pool. *)
Record pending (n0 : nat) c : Prop := {
  pd_old : (n0 <= base.size (heap c))%nat;
  pd_dom : forall p, p ∈ dom (heap c) <-> exists i, 0 <= i < Z.of_nat (base.size (heap c)) /\ p = node_at i;
  pd_table : forall p, p ∈ dom (heap c) -> p ∈ filled (table_ c) \/ p = free_ c
}.

Lemma laid_pending n0 c : laid n0 c -> pending n0 c.
Proof. intros [Ho Hd Ht]. split; [done | done |]. intros p Hp. left. by apply Ht. Qed.

(** A cache without nodes. *)
Lemma laid_empty c : heap c = ∅ -> laid 0 c.
Proof.
  intros E. split; rewrite E; [lia | |].
  - intros p. rewrite dom_empty_L, map_size_empty. split; [set_solver | intros (i & ? & _); lia].
  - intros p. rewrite dom_empty_L. set_solver.
Qed.

(** The number of nodes is the number of keys. *)
Lemma laid_size n0 c m : laid n0 c -> holds_map N c m -> base.size (heap c) = base.size m.
Proof.
  intros [_ Hd Ht] [q Hq]. rewrite (holds_size N c m q Hq).
  pose proof (wi_table _ _ _ (ho_inv _ _ _ _ Hq)) as Htab. pose proof (wi_nodup _ _ _ (ho_inv _ _ _ _ Hq)) as Hnd.
  rewrite <- size_dom. rewrite <- (size_list_to_set (C := gset Z) q Hnd). f_equal. apply set_eq. intros p.
  rewrite elem_of_list_to_set. split.
  - intros Hp. rewrite <- (t_perm _ _ _ Htab). by apply Ht.
  - intros Hp. by apply elem_of_dom, (t_dom _ _ _ Htab).
Qed.

(** The callback may use the cache, but asks for no node. *)
Hypothesis Hcallback : forall cb k p c w, ends (fun '(c', _) => same_nodes c c') (invoke cb k p c w).

Lemma free_pool p c w :
  ends (fun '(c', _) => same_nodes c c' /\ free_ c' = p) (LRUCache.free invoke p c w).
Proof.
  unfold LRUCache.free. apply (ends_bind (fun '(c', _) => same_nodes c c')).
  - apply ends_if; [by apply ends_ok |]. skip. apply Hcallback.
  - intros [c' w'] [Hd Ht]. eapply ends_bind; [apply store_next_dom |]. intros h Hh. apply ends_ok.
    split; [| done]. split; cbn; [| done]. unfold same_dom in Hh. congruence.
Qed.

Lemma erase_pending n0 k c w : laid n0 c -> ends (fun '(c', _) => pending n0 c') (erase N invoke k c w).
Proof.
  intros [Ho Hd Ht]. unfold erase. skip. rename a into j. destruct (lget (table_ c) j) as [p |] eqn:Ej; [| done]. cbn [or_fault obind].
  eapply ends_bind; [apply free_pool |]. intros [c1 w1] [[Hd1 Ht1] Hf1]. rewrite Ht1.
  destruct (lset (table_ c) j 0) as [tb |] eqn:Etb; [| done]. apply ends_ok.
  pose proof (size_of_dom _ _ Hd1) as Hs. split; cbn; [by rewrite Hs | intros q; by rewrite Hd1, Hs |].
  intros q Hq. rewrite Hd1 in Hq. apply Ht, filled_elem in Hq as (Hq0 & i & Hi).
  apply lget_Some in Ej as [Hj Ej]. rewrite lset_in in Etb by (split; [done |]; apply lookup_lt_Some in Ej; lia).
  injection Etb as <-. destruct (decide (i = Z.to_nat j)) as [-> | Hne]; [right; congruence | left].
  apply filled_elem. split; [done |]. exists i. by rewrite list_lookup_insert_ne.
Qed.

Lemma evict_pending n0 c w : laid n0 c -> ends (fun '(c', _) => pending n0 c') (evict N invoke c w).
Proof.
  intros Hl. unfold evict. skip. eapply ends_bind; [apply pop_front_same |]. intros c1 Hs. skip.
  by apply erase_pending, (laid_same _ c).
Qed.

Lemma Set_loop_free fuel c j : ends (fun j => lget (table_ c) j = Some 0) (Set_loop N fuel c j).
Proof.
  revert j. induction fuel as [| fuel IH]; intros j; [done |]. cbn [Set_loop].
  destruct (lget (table_ c) j) as [p |] eqn:E; [| done]. cbn [or_fault obind].
  destruct (Z.eqb_spec p 0) as [-> | _]; [by apply ends_ok | apply IH].
Qed.

(** The node that [alloc] gives completes the table. *)
Lemma alloc_laid n0 c :
  pending n0 c ->
  ends (fun '(p, c') => p <> 0 /\ table_ c' = table_ c /\ (n0 <= base.size (heap c'))%nat /\
    (forall q, q ∈ dom (heap c') <-> exists i, 0 <= i < Z.of_nat (base.size (heap c')) /\ q = node_at i) /\
    forall q, q ∈ dom (heap c') -> q ∈ filled (table_ c) \/ q = p) (alloc c).
Proof.
  intros [Ho Hd Ht]. unfold alloc. destruct (Z.eqb_spec (free_ c) 0) as [Hf | Hf].
  - apply ends_ok. cbn. unfold kernel_node.
    assert (Hnew : heap c !! node_at (Z.of_nat (base.size (heap c))) = None).
    { apply not_elem_of_dom. rewrite Hd. intros (i & Hi & E%node_at_inj). lia. }
    rewrite decide_True by done. rewrite map_size_insert_None by done. split_and!; [| done | lia | |].
    + unfold node_at, kHeapStart, sizeof_ListNode. lia.
    + intros q. rewrite dom_insert_L, elem_of_union, elem_of_singleton, Hd. split.
      * intros [-> | (i & Hi & ->)]; eexists; (split; [| reflexivity]); lia.
      * intros (i & Hi & ->). destruct (decide (i = Z.of_nat (base.size (heap c)))) as [-> | ?]; [by left | right].
        exists i. split; [lia | done].
    + intros q. rewrite dom_insert_L, elem_of_union, elem_of_singleton. intros [-> | Hq]; [by right |].
      pose proof Hq as (i & Hi & Eq)%Hd. left. destruct (Ht q Hq) as [? | E]; [done |].
      exfalso. rewrite Hf in E. unfold node_at, kHeapStart, sizeof_ListNode in Eq. lia.
  - skip. by apply ends_ok.
Qed.

Lemma insert_new_laid n0 k ov c : pending n0 c -> ends (fun '(_, c') => laid n0 c') (insert_new N k ov c).
Proof.
  intros Hp. unfold insert_new. eapply ends_bind; [apply Set_loop_free |]. intros j Hj.
  eapply ends_bind; [by apply alloc_laid |]. intros [p c1] (Hp0 & Ht1 & Ho1 & Hd1 & Hin1). rewrite Ht1.
  destruct (lset (table_ c) j p) as [tb |] eqn:Etb; [| done]. cbn [or_fault obind].
  apply lget_Some in Hj as [Hj Ej]. rewrite lset_in in Etb by (split; [done |]; apply lookup_lt_Some in Ej; lia).
  injection Etb as <-.
  assert (Hl : laid n0 (mk (heap c1) (queue_ c1) (free_ c1) (<[Z.to_nat j := p]> (table_ c)) (count_ c1) (cb_ c1))).
  { split; cbn; [done | done |]. intros q Hq. rewrite filled_insert_empty by done. apply elem_of_cons.
    destruct (Hin1 q Hq) as [? | ->]; [by right | by left]. }
  eapply ends_bind; [apply push_back_same |]. intros c2 H2. apply (laid_same _ _ _ H2) in Hl. clear H2.
  eapply ends_bind; [apply store_key_dom |]. intros h3 H3. unfold same_dom in H3.
  apply (ends_bind (same_dom (heap c2))).
  { destruct ov as [x |]; [| by apply ends_ok]. eapply ends_weaken; [| apply store_value_dom]. unfold same_dom. congruence. }
  intros h4 H4. eapply ends_bind; [apply Promote_same |]. intros c5 H5. skip. apply ends_ok.
  by apply (laid_same _ _ _ H5), (laid_same _ c2).
Qed.

Lemma Alloc_laid n0 k c w : laid n0 c -> ends (fun '(_, c', _) => laid n0 c') (Alloc N invoke k c w).
Proof.
  intros Hl. unfold Alloc, Set_. apply (ends_bind (fun '(c', _) => pending n0 c')).
  - apply ends_if; [by apply evict_pending | by apply ends_ok, laid_pending].
  - intros [c1 w1] H1. eapply ends_bind; [by apply insert_new_laid |]. intros [p c2] H2. by apply ends_ok.
Qed.

End cache.

(** ** The file system *)

Section filesystem.
Context {D : Type} `{Device D} `{RawMemory block_buffer}.
Context (fuel : nat) (dev : ide.ide_device) (uncache_addr : Z) (n0 : nat).
Implicit Types (s : fs.t (D := D)) (c : LRUCache.t (T := block_buffer)).

(** The nodes of the file system's cache lie in the heap as [laid] says. *)
Definition laid_fs s : Prop := laid n0 (g_block_cache s).

Lemma cache_write_same b c (d : D) :
  ends (fun '(_, c', _) => same_nodes c c') (cache_write_block fuel dev b c d).
Proof.
  unfold cache_write_block. eapply ends_bind; [apply Get_same |]. intros [p c'] Hc.
  apply ends_if; [skip |]; by apply ends_ok.
Qed.

Lemma invoke_same cb k p c (d : D) :
  ends (fun '(c', _) => same_nodes c c') (fs.invoke fuel dev uncache_addr cb k p c d).
Proof.
  unfold fs.invoke, uncache. apply ends_if; [| done]. eapply ends_bind; [apply cache_write_same |].
  intros [[b c'] d'] Hc. by apply ends_ok.
Qed.

Lemma write_block_laid b s : laid_fs s -> ends (fun '(_, s') => laid_fs s') (write_block fuel dev b s).
Proof.
  intros Hl. unfold write_block. eapply ends_bind; [apply cache_write_same |]. intros [[r c] d] Hc.
  apply ends_ok. by eapply laid_same.
Qed.

Lemma fill_block_same b p c (d : D) : ends (fun '(c', _) => same_nodes c c') (fill_block fuel dev b p c d).
Proof.
  unfold fill_block. skip. eapply ends_bind; [apply ends_any |]. intros [[r bs] d'] _.
  eapply ends_bind; [apply store_value_dom |]. intros h Hh. by apply ends_ok.
Qed.

Lemma get_block_laid b s :
  laid_fs s -> ends (fun '(_, s') => laid_fs s') (get_block fuel dev uncache_addr b s).
Proof.
  intros Hl. unfold get_block. eapply ends_bind; [apply Get_same |]. intros [p c] Hc.
  apply (laid_same _ _ _ Hc) in Hl. apply ends_if; [| by apply ends_ok].
  eapply ends_bind; [by apply Alloc_laid; [apply invoke_same |] |]. intros [[q c'] d] Hc'. by apply ends_ok.
Qed.

Lemma read_block_laid b s :
  laid_fs s -> ends (fun '(_, s') => laid_fs s') (read_block fuel dev uncache_addr b s).
Proof.
  intros Hl. unfold read_block. eapply ends_bind; [apply Get_same |]. intros [p c] Hc.
  apply (laid_same _ _ _ Hc) in Hl. apply ends_if; [| by apply ends_ok].
  eapply ends_bind; [by apply Alloc_laid; [apply invoke_same |] |]. intros [[q c'] d] Hc'.
  eapply ends_bind; [apply fill_block_same |]. intros [c2 d2] H2. apply ends_ok. by eapply laid_same.
Qed.

Lemma block_put_laid p off bs s : laid_fs s -> ends laid_fs (block_put p off bs s).
Proof.
  intros Hl. unfold block_put. skip. skip. eapply ends_bind; [apply store_value_dom |]. intros h Hh.
  apply ends_ok. by eapply laid_same.
Qed.
End filesystem.

Create HintDb nodes.
#[export] Hint Resolve write_block_laid get_block_laid read_block_laid block_put_laid : nodes.

(** One step of a function: a call whose lemma is in [nodes], another call, or a test. *)
Ltac keep :=
  lazymatch goal with
  | |- ends _ (obind _ _) =>
      first [eapply ends_bind; [solve [eauto with nodes] |] | eapply ends_bind; [apply ends_any |]];
      let a := fresh "a" in intros a ?;
      repeat match type of a with (_ * _)%type => let b := fresh "b" in destruct a as [a b] end
  | |- ends _ (if _ then _ else _) => apply ends_if
  | |- ends _ (kassert _ _ _) => apply ends_kassert
  | |- ends _ (Ok _) => apply ends_ok; assumption
  | |- ends _ Fault => intros ? [=]
  | |- ends _ NoFuel => intros ? [=]
  | |- ends _ (match ?o with None => _ | Some _ => _ end) => destruct o
  | |- ends _ _ => solve [eauto with nodes]
  end.
Ltac keeps := repeat (cbn beta iota zeta; keep).

Section filesystem.
Context {D : Type} `{Device D} `{RawMemory block_buffer}.
Context (fuel : nat) (dev : ide.ide_device) (uncache_addr : Z) (n0 : nat).
Implicit Types (s : fs.t (D := D)).

Lemma read_items_laid n i bno block off in_size size put s :
  (forall i bs s, laid_fs n0 s -> ends (laid_fs n0) (put i bs s)) -> laid_fs n0 s ->
  ends (fun '(_, s') => laid_fs n0 s') (read_items fuel dev uncache_addr n i bno block off in_size size put s).
Proof.
  intros Hput. revert i bno block off s. induction n as [| n IH]; intros i bno block off s Hl; cbn [read_items]; keeps.
Qed.

Lemma read_blocks_laid b count in_size size put s :
  (forall i bs s, laid_fs n0 s -> ends (laid_fs n0) (put i bs s)) -> laid_fs n0 s ->
  ends (fun '(_, s') => laid_fs n0 s') (read_blocks fuel dev uncache_addr b count in_size size put s).
Proof. intros Hput Hl. unfold read_blocks. keep. by apply read_items_laid. Qed.

Lemma write_items_laid n i bno block off out_size get s :
  laid_fs n0 s -> ends (fun '(_, s') => laid_fs n0 s') (write_items fuel dev uncache_addr n i bno block off out_size get s).
Proof.
  revert i bno block off s. induction n as [| n IH]; intros i bno block off s Hl; cbn [write_items]; keeps.
Qed.

Lemma write_blocks_laid b count out_size get s :
  laid_fs n0 s -> ends (fun '(_, s') => laid_fs n0 s') (write_blocks fuel dev uncache_addr b count out_size get s).
Proof.
  intros Hl. unfold write_blocks. keep. eapply ends_bind; [by apply write_items_laid |]. intros [o s1] Hs1. keeps.
Qed.

Lemma put_inode_laid i bs s : laid_fs n0 s -> ends (laid_fs n0) (put_inode i bs s).
Proof. intros Hl. unfold put_inode. keeps. Qed.

Lemma put_imap_laid i bs s : laid_fs n0 s -> ends (laid_fs n0) (put_imap i bs s).
Proof. intros Hl. unfold put_imap. keeps. Qed.

Lemma put_zmap_laid i bs s : laid_fs n0 s -> ends (laid_fs n0) (put_zmap i bs s).
Proof. intros Hl. unfold put_zmap. keeps. Qed.

Lemma init_fs_laid s : laid_fs n0 s -> ends (laid_fs n0) (init_fs fuel dev uncache_addr s).
Proof.
  intros Hl. unfold init_fs. eapply ends_bind; [by apply read_block_laid |]. intros [p s0] Hs0. skip.
  rename a into sb.
  assert (Hl' : laid_fs n0 (set_callback uncache_addr (fs.mk (g_block_cache s0) sb (g_inode_table s0) (g_imap s0) (g_zmap s0) (disk_ s0))))
    by (eapply laid_same; [| exact Hs0]; done).
  set (s1 := set_callback _ _) in *. clearbody s1.
  eapply ends_bind; [apply read_blocks_laid; [intros; by apply put_inode_laid | exact Hl'] |]. intros [? s2] ?.
  eapply ends_bind; [apply read_blocks_laid; [intros; by apply put_imap_laid | eassumption] |]. intros [? s3] ?.
  eapply ends_bind; [apply read_blocks_laid; [intros; by apply put_zmap_laid | eassumption] |]. intros [? s4] ?.
  by apply ends_ok.
Qed.

Lemma sync_super_block_laid s : laid_fs n0 s -> ends (laid_fs n0) (sync_super_block fuel dev uncache_addr s).
Proof. intros Hl. unfold sync_super_block. keeps. Qed.

#[local] Hint Resolve write_blocks_laid sync_super_block_laid : nodes.

Lemma sync_imap_laid s : laid_fs n0 s -> ends (laid_fs n0) (sync_imap fuel dev uncache_addr s).
Proof. intros Hl. unfold sync_imap. keeps. Qed.

Lemma sync_zmap_laid s : laid_fs n0 s -> ends (laid_fs n0) (sync_zmap fuel dev uncache_addr s).
Proof. intros Hl. unfold sync_zmap. keeps. Qed.

Lemma sync_inodes_laid s : laid_fs n0 s -> ends (laid_fs n0) (sync_inodes fuel dev uncache_addr s).
Proof. intros Hl. unfold sync_inodes. keeps. Qed.

#[local] Hint Resolve sync_imap_laid sync_zmap_laid sync_inodes_laid : nodes.

Lemma sync_all_laid s : laid_fs n0 s -> ends (laid_fs n0) (sync_all fuel dev uncache_addr s).
Proof. intros Hl. unfold sync_all. keeps. Qed.

Lemma read_zone_laid inode zone s :
  laid_fs n0 s -> ends (fun '(_, s') => laid_fs n0 s') (read_zone fuel dev uncache_addr inode zone s).
Proof. intros Hl. unfold read_zone. keeps. Qed.

#[local] Hint Resolve read_zone_laid : nodes.

Lemma traverse_dir_laid {W} dir (cb : Z -> Z -> fs.t (D := D) -> W -> outcome (bool * fs.t * W)) s w :
  (forall p off s w, laid_fs n0 s -> ends (fun '(_, s', _) => laid_fs n0 s') (cb p off s w)) -> laid_fs n0 s ->
  ends (fun '(_, s', _) => laid_fs n0 s') (traverse_dir fuel dev uncache_addr dir cb s w).
Proof.
  intros Hcb Hl. unfold traverse_dir. skip. apply ends_if; [keep |].
  eapply ends_bind; [by apply read_zone_laid |]. intros [zone s1] H1.
  generalize (Z.to_nat (i_size a / sizeof_dir_entry)), 0 at 1, 0 at 1. intros n. revert zone s1 w H1.
  induction n as [| n IH]; intros zone s1 w1 H1 zc off; cbn [traverse_loop]; [keep |].
  apply (ends_bind (fun '(_, _, _, s') => laid_fs n0 s')).
  - apply ends_if; keeps.
  - intros [[[? ?] ?] ?] ?. keep. keep; [keeps | by apply IH].
Qed.

Lemma namei_laid path s : laid_fs n0 s -> ends (fun '(_, s') => laid_fs n0 s') (namei fuel dev uncache_addr path s).
Proof.
  intros Hl. unfold namei. skip. apply ends_kassert. generalize (Some kRootINO), 0, fuel at 2.
  intros o z n. revert o z s Hl. induction n as [| n IH]; intros o z s Hl; [done |]. cbn [namei_loop]. skip. skip.
  apply (ends_bind (fun '(_, s') => laid_fs n0 s')).
  - unfold find_entry. skip. keep; [keep |].
    eapply ends_bind; [apply traverse_dir_laid; [| exact Hl] |]; [intros; skip; by apply ends_ok |].
    intros [[? ?] ?] ?. keep.
  - intros [o' s'] Hs'. skip. keep; [keep | by apply IH].
Qed.

Lemma list_entries_laid depth inode s c :
  laid_fs n0 s -> ends (fun '(s', _) => laid_fs n0 s') (list_entries fuel dev uncache_addr depth inode s c).
Proof.
  revert inode s c. induction depth as [| depth IH]; intros inode s c Hl; [done |]. cbn [list_entries]. skip.
  keep; [| keep]. eapply ends_bind; [apply traverse_dir_laid; [| exact Hl] |].
  - intros p off s1 c1 H1. keep. keep. keep; [| keep]. keep. keep. keep.
    eapply ends_bind; [by apply IH |]. intros [s2 c2] Hs2. keep.
  - intros [[? ?] ?] ?. keep.
Qed.

Lemma rewrite_file_laid node s c :
  laid_fs n0 s -> ends (fun '(s', _) => laid_fs n0 s') (rewrite_file fuel dev uncache_addr node s c).
Proof.
  intros Hl. unfold rewrite_file. keep. do 5 keep. keep.
  apply (ends_bind (laid_fs n0)); [unfold set_size; keeps |]. intros s2 Hs2. keeps.
Qed.

Lemma test_fs_laid depth s c :
  laid_fs n0 s -> ends (fun '(s', _) => laid_fs n0 s') (test_fs fuel dev uncache_addr depth s c).
Proof.
  intros Hl. unfold test_fs. skip. eapply ends_bind; [by apply list_entries_laid |]. intros [s1 c1] H1.
  eapply ends_bind; [by apply namei_laid |]. intros [o s2] H2.
  apply (ends_bind (fun '(s', _) => laid_fs n0 s')).
  - destruct o; [by apply rewrite_file_laid | keep].
  - intros [s3 c3] H3. eapply ends_bind; [by apply sync_all_laid |]. intros s4 H4. keep.
Qed.
End filesystem.

(** What the invariant says of a file system with the cached blocks [m]: a node for each, and where. *)
Lemma laid_count {D : Type} `{AtaDisk D} uncache_addr n0 (s : fs.t (D := D)) m :
  laid_fs n0 s -> safe uncache_addr s m ->
  let n := base.size (heap (g_block_cache s)) in
  n = base.size m /\ (n0 <= n)%nat /\ Z.of_nat n <= kCacheBlocks /\ laid_fs n s /\
  forall p, is_Some (heap (g_block_cache s) !! p) <-> exists i, 0 <= i < Z.of_nat n /\ p = node_at i.
Proof.
  intros Hl Hs n. pose proof (sf_cache _ _ _ Hs) as Hc. pose proof (laid_size _ _ _ _ Hl Hc) as Hn.
  unfold n in *. split; [exact Hn |]. split; [apply Hl |]. split.
  - rewrite Hn. by eapply holds_bound.
  - split; [destruct Hl; by split |]. intros p. rewrite <- elem_of_dom. apply Hl.
Qed.
