(* ===== verification/Boot.v ===== *)
(** * Start-up support: boot page tables, destructors, symbols

    [init/entry.cc] (the temporary page tables of [kern_entry]), [init/cxxabi.cc]
    (the registered destructors) and [lib/elf.cc] (the kernel's own symbols, for
    stack traces). *)

From stdpp Require Import prelude gmap strings.
From Stdlib Require Import ZArith Lia.
From S2P Require Import Prelude CString Vmm.

(** ** The temporary page tables *)

Module entry.

(** The directory and the two tables, at the addresses of [pde_tmp], [pte_low]
    and [pte_high]. *)
Record t := mk { pde_tmp : gmap Z Z; pte_low : gmap Z Z; pte_high : gmap Z Z }.

Definition pde_tmp_addr : Z := 0x1000.
Definition pte_low_addr : Z := 0x2000.
Definition pte_high_addr : Z := 0x3000.
Definition TABLE_LEN : Z := 1024.

Definition PGD_INDEX (x : Z) : Z := Z.land (Z.shiftr x 22) 0x3FF.
Definition PTE_INDEX (x : Z) : Z := Z.land (Z.shiftr x 12) 0x3FF.

Definition flags (x : Z) : Z := Z.lor (Z.lor x PAGE_PRESENT) PAGE_WRITE.

(** The [for] loop, for [n] indices from [i]. *)
Fixpoint fill_tables (n : nat) (i : Z) (low high : gmap Z Z) : outcome (gmap Z Z * gmap Z Z) :=
  match n with
  | O => Ok (low, high)
  | S n' =>
      let e := flags (Z.shiftl i 12) in
      let! low := or_fault (arr_set TABLE_LEN low i e) in
      let! high := or_fault (arr_set TABLE_LEN high i e) in
      fill_tables n' (i + 1) low high
  end.

(** [kern_entry] up to the load of [cr3]; the value loaded is returned. *)
Definition kern_entry (s : t) : outcome (t * Z) :=
  let! pd := or_fault (arr_set TABLE_LEN (pde_tmp s) 0 (flags pte_low_addr)) in
  let! pd := or_fault (arr_set TABLE_LEN pd (PGD_INDEX PAGE_OFFSET) (flags pte_high_addr)) in
  let! '(low, high) := fill_tables 1024 0 (pte_low s) (pte_high s) in
  Ok (mk pd low high, pde_tmp_addr).

(** The rest of [kern_entry]: the bit of [cr0] that starts paging, the top of the new stack,
    and the pointer to the boot loader's structure, 96 bytes long, moved by [PAGE_OFFSET]
    of them. *)
Definition start_paging (cr0 : Z) : Z := Z.lor cr0 0x80000000.

Definition kern_stack_top (kern_stack : Z) : Z := Z.land (u32 (kern_stack + 0x1000)) 0xFFFFFFF0.

Definition sizeof_multiboot : Z := 96.

Definition glb_mboot_ptr (mboot_ptr_tmp : Z) : Z := u32 (mboot_ptr_tmp + sizeof_multiboot * PAGE_OFFSET).

(** Fields of [multiboot_t] at address [mb]. *)
Definition mb_num (m : mem) (mb : Z) : Z := load32 m (mb + 28).
Definition mb_addr (m : mem) (mb : Z) : Z := load32 m (mb + 36).
Definition mb_shndx (m : mem) (mb : Z) : Z := load32 m (mb + 40).
Definition mb_mmap_length (m : mem) (mb : Z) : Z := load32 m (mb + 44).
Definition mb_mmap_addr (m : mem) (mb : Z) : Z := load32 m (mb + 48).

Definition frame (e : Z) : Z := Z.land e ENTRY_ADDR.

(** What the processor does with these tables: the physical address of a virtual
    one, when the directory and the table entries are present. *)
Definition table_at (s : t) (a : Z) : option (gmap Z Z) :=
  if a =? pte_low_addr then Some (pte_low s)
  else if a =? pte_high_addr then Some (pte_high s) else None.

Definition translate (s : t) (v : Z) : option Z :=
  let pde := default 0 (pde_tmp s !! PGD_INDEX v) in
  if present pde then
    match table_at s (frame pde) with
    | None => None
    | Some pt =>
        let pte := default 0 (pt !! PTE_INDEX v) in
        if present pte then Some (Z.lor (frame pte) (Z.land v 0xFFF)) else None
    end
  else None.

End entry.

(** ** Destructors of global objects *)

Module cxxabi.

(** [atexit_func_entry_t]. *)
Record atexit_func_entry_t := mk_entry { destructor_func : Z; obj_ptr : Z; dso_handle : Z }.

Definition no_entry : atexit_func_entry_t := mk_entry 0 0 0.

(** [__atexit_funcs] and [__atexit_func_count]. *)
Record t := mk { funcs : list atexit_func_entry_t; count : Z }.

Definition make : t := mk (replicate 128 no_entry) 0.

Definition cxa_atexit (f obj dso : Z) (s : t) : outcome (Z * t) :=
  let! fs := or_fault (lset (funcs s) (count s) (mk_entry f obj dso)) in
  Ok (0, mk fs (s32 (count s + 1))).

(** A call of a destructor is recorded in a list of functions and objects. *)
Abbreviation calls := (list (Z * Z)).

(** [while (i--)], from [i]. *)
Fixpoint finalize_all (i : nat) (fs : list atexit_func_entry_t) (tr : calls) : outcome calls :=
  match i with
  | O => Ok tr
  | S i' =>
      let! e := or_fault (fs !! i') in
      finalize_all i' fs
        (if negb (destructor_func e =? 0) then tr ++ [(destructor_func e, obj_ptr e)] else tr)
  end.

(** [for (; i >= 0; i--)], from [i]. *)
Fixpoint finalize_one (i : nat) (f : Z) (fs : list atexit_func_entry_t) (tr : calls)
    : outcome (list atexit_func_entry_t * calls) :=
  let! e := or_fault (fs !! i) in
  let '(fs, tr) :=
    (if destructor_func e =? f
     then (<[i := mk_entry 0 (obj_ptr e) (dso_handle e)]> fs, tr ++ [(f, obj_ptr e)])
     else (fs, tr)) in
  match i with
  | O => Ok (fs, tr)
  | S i' => finalize_one i' f fs tr
  end.

Definition cxa_finalize (f : Z) (s : t) (tr : calls) : outcome (t * calls) :=
  let i := Z.to_nat (count s) in
  if f =? 0 then let! tr := finalize_all i (funcs s) tr in Ok (s, tr)
  else let! '(fs, tr) := finalize_one i f (funcs s) tr in Ok (mk fs (count s), tr).

(** Registering a list of destructors. *)
Fixpoint register_all (l : list (Z * Z * Z)) (s : t) : outcome t :=
  match l with
  | [] => Ok s
  | (f, obj, dso) :: l' => let! '(_, s) := cxa_atexit f obj dso s in register_all l' s
  end.

End cxxabi.

(** ** Symbols *)

Module elf.

(** [elf_t]: addresses of the tables, and their sizes. *)
Record elf_t := mk { symtab : Z; symtabsz : Z; strtab : Z; strtabsz : Z }.

(** Fields of the packed [elf_symbol_t] (16 bytes) and [elf_section_header_t]
    (40 bytes). *)
Definition sizeof_symbol : Z := 16.
Definition sym_name (m : mem) (a : Z) : Z := load32 m a.
Definition sym_value (m : mem) (a : Z) : Z := load32 m (a + 4).
Definition sym_size (m : mem) (a : Z) : Z := load32 m (a + 8).
Definition sym_info (m : mem) (a : Z) : Z := load8 m (a + 12).

Definition sizeof_header : Z := 40.
Definition sh_name (m : mem) (a : Z) : Z := load32 m a.
Definition sh_addr (m : mem) (a : Z) : Z := load32 m (a + 12).
Definition sh_size (m : mem) (a : Z) : Z := load32 m (a + 20).

Definition ELF32_ST_TYPE (i : Z) : Z := Z.land i 0xF.

(** The loop of [elf_from_multiboot]; [strtab_lit] and [symtab_lit] are the
    addresses of the two string literals. *)
Fixpoint scan_headers (n : nat) (fuel : nat) (m : mem) (sh shstrtab strtab_lit symtab_lit : Z)
    (elf : elf_t) : outcome elf_t :=
  match n with
  | O => Ok elf
  | S n' =>
      let name := VMA (shstrtab + sh_name m sh) in
      let! c := strcmp fuel (rd m) (rd m) name strtab_lit in
      let elf := if c =? 0 then mk (symtab elf) (symtabsz elf) (sh_addr m sh) (sh_size m sh) else elf in
      let! c := strcmp fuel (rd m) (rd m) name symtab_lit in
      let elf := if c =? 0 then mk (sh_addr m sh) (sh_size m sh) (strtab elf) (strtabsz elf) else elf in
      scan_headers n' fuel m (sh + sizeof_header) shstrtab strtab_lit symtab_lit elf
  end.

(** [raw] is the uninitialised local. *)
Definition elf_from_multiboot (fuel : nat) (m : mem) (addr num shndx strtab_lit symtab_lit : Z)
    (raw : elf_t) : outcome elf_t :=
  let shstrtab := sh_addr m (addr + sizeof_header * shndx) in
  scan_headers (Z.to_nat num) fuel m addr shstrtab strtab_lit symtab_lit raw.

(** The loop of [elf_lookup_symbol], for [n] symbols from address [a]. *)
Fixpoint lookup_loop (n : nat) (m : mem) (a addr : Z) (elf : elf_t) : Z :=
  match n with
  | O => 0
  | S n' =>
      if negb (ELF32_ST_TYPE (sym_info m a) =? 0x2) then lookup_loop n' m (a + sizeof_symbol) addr elf
      else if (sym_value m a <=? addr) && (addr <? u32 (sym_value m a + sym_size m a)) then
        u32 (strtab elf + sym_name m a)
      else lookup_loop n' m (a + sizeof_symbol) addr elf
  end.

Definition elf_lookup_symbol (addr : Z) (elf : elf_t) (m : mem) : Z :=
  lookup_loop (Z.to_nat (symtabsz elf / sizeof_symbol)) m (symtab elf) addr elf.

End elf.

(** ** The boot mapping *)

Section boot.
Import entry.

Lemma fill_tables_ok n i low high :
  0 <= i -> i + Z.of_nat n <= TABLE_LEN ->
  exists low' high', fill_tables n i low high = Ok (low', high') /\
    forall j, i <= j < i + Z.of_nat n ->
      low' !! j = Some (flags (Z.shiftl j 12)) /\ high' !! j = Some (flags (Z.shiftl j 12)).
Proof.
  intros Hi Hn. unfold TABLE_LEN in *.
  assert (Hgen : forall n i low high, 0 <= i -> i + Z.of_nat n <= 1024 ->
    exists low' high', fill_tables n i low high = Ok (low', high') /\
      (forall j, i <= j < i + Z.of_nat n ->
        low' !! j = Some (flags (Z.shiftl j 12)) /\ high' !! j = Some (flags (Z.shiftl j 12))) /\
      forall j, j < i -> low' !! j = low !! j /\ high' !! j = high !! j).
  { clear. induction n as [| n IH]; intros i low high Hi Hn; cbn [fill_tables].
    - exists low, high. split_and!; [done | lia | done].
    - unfold TABLE_LEN. rewrite !arr_set_in by lia. cbn [or_fault obind].
      destruct (IH (i + 1) (<[i := flags (Z.shiftl i 12)]> low) (<[i := flags (Z.shiftl i 12)]> high))
        as (low' & high' & -> & Hin & Hout); [lia | lia |].
      exists low', high'. split_and!; [done | |].
      + intros j Hj. destruct (decide (j = i)) as [-> | Hne]; [| apply Hin; lia].
        destruct (Hout i) as [-> ->]; [lia |]. by rewrite !lookup_insert_eq.
      + intros j Hj. destruct (Hout j) as [-> ->]; [lia |]. by rewrite !lookup_insert_ne by lia. }
  destruct (Hgen n i low high Hi Hn) as (low' & high' & ? & ? & _). by exists low', high'.
Qed.

Lemma flags_table j : 0 <= j < 1024 ->
  present (flags (Z.shiftl j 12)) = true /\ frame (flags (Z.shiftl j 12)) = j * 4096.
Proof.
  intros Hj.
  assert (H : forallb (fun j => present (flags (Z.shiftl j 12)) &&
    (frame (flags (Z.shiftl j 12)) =? j * 4096)) (seqZ 0 1024) = true) by (by vm_compute).
  rewrite forallb_forall in H. specialize (H j). rewrite <- list_elem_of_In, elem_of_seqZ in H.
  specialize (H ltac:(lia)). bprop. split; [done | lia].
Qed.

(** C38: with the temporary tables the first 4 MB are mapped twice onto the first
    4 MB of physical memory, at 0 for the code that is running and at [PAGE_OFFSET] for
    the kernel to jump to, whatever the three pages held. *)
Theorem kern_entry_maps s :
  exists s', kern_entry s = Ok (s', pde_tmp_addr) /\
    forall a, 0 <= a < 0x400000 ->
      translate s' a = Some a /\ translate s' (PAGE_OFFSET + a) = Some a.
Proof.
  unfold kern_entry. change (PGD_INDEX PAGE_OFFSET) with 768. rewrite !arr_set_in by done.
  cbn [or_fault obind]. rewrite arr_set_in by done. cbn [or_fault obind].
  destruct (fill_tables_ok 1024 0 (pte_low s) (pte_high s)) as (low & high & -> & Hpt); [done | done |].
  cbn [obind]. eexists. split; [reflexivity |]. intros a Ha. unfold translate. cbn [pde_tmp].
  assert (Hi : PTE_INDEX a = a / 4096 /\ PTE_INDEX (PAGE_OFFSET + a) = a / 4096).
  { unfold PTE_INDEX, PAGE_OFFSET. rewrite !Z.shiftr_div_pow2 by lia. change 0x3FF with (2 ^ 10 - 1).
    rewrite !land_low by lia. change (2 ^ 12) with 4096. change (2 ^ 10) with 1024. split; zlia. }
  assert (Hd : PGD_INDEX a = 0 /\ PGD_INDEX (PAGE_OFFSET + a) = 768).
  { unfold PGD_INDEX, PAGE_OFFSET. rewrite !Z.shiftr_div_pow2 by lia. change 0x3FF with (2 ^ 10 - 1).
    rewrite !land_low by lia. change (2 ^ 22) with 4194304. change (2 ^ 10) with 1024. split; zlia. }
  destruct Hi as [-> ->], Hd as [-> ->]. rewrite lookup_insert_ne, !lookup_insert_eq by done.
  cbn [default id]. change (present (flags pte_low_addr)) with true. change (present (flags pte_high_addr)) with true.
  change (frame (flags pte_low_addr)) with pte_low_addr.
  change (frame (flags pte_high_addr)) with pte_high_addr. unfold table_at. cbn [Z.eqb pte_low_addr pte_high_addr Pos.eqb pte_low pte_high].
  destruct (Hpt (a / 4096)) as [-> ->]; [zlia |]. cbn [default id].
  destruct (flags_table (a / 4096)) as [-> ->]; [zlia |].
  change 0xFFF with (2 ^ 12 - 1). rewrite !land_low by lia.
  rewrite !(lor_add _ _ 12) by (lia || (change (2 ^ 12) with 4096; zlia)).
  change (2 ^ 12) with 4096. unfold PAGE_OFFSET. split; f_equal; zlia.
Qed.
End boot.

(** The pointer moves by a multiple of 4 GB: it keeps the physical address, which the page
    dictionary of [init_vmm] does not map. *)
Lemma glb_mboot_ptr_unmoved p : 0 <= p < 4294967296 -> entry.glb_mboot_ptr p = p.
Proof.
  intros Hp. unfold entry.glb_mboot_ptr, entry.sizeof_multiboot, PAGE_OFFSET, u32.
  replace (p + 96 * 3221225472) with (p + 72 * 4294967296) by lia. rewrite Z.mod_add by done.
  by apply Z.mod_small.
Qed.

(** ** Destructors run backwards *)

Section destructors.
Import cxxabi.
Implicit Types (s : t) (l : list (Z * Z * Z)).

Definition entry_of (x : Z * Z * Z) : atexit_func_entry_t := let '(f, obj, dso) := x in mk_entry f obj dso.

Definition call_of (x : Z * Z * Z) : Z * Z := let '(f, obj, _) := x in (f, obj).

(** The first entries are those of [l]. *)
Definition registered s l : Prop :=
  length (funcs s) = 128%nat /\ count s = Z.of_nat (length l) /\
  forall i x, l !! i = Some x -> funcs s !! i = Some (entry_of x).

Lemma register_all_ok l2 s l1 :
  registered s l1 -> (length (l1 ++ l2) <= 128)%nat ->
  exists s', register_all l2 s = Ok s' /\ registered s' (l1 ++ l2).
Proof.
  revert s l1. induction l2 as [| [[f obj] dso] l2 IH]; intros s l1 (Hl & Hc & Hr) Hlen;
    cbn [register_all].
  - exists s. by rewrite app_nil_r.
  - rewrite length_app in Hlen. cbn [length] in Hlen. unfold cxa_atexit. rewrite lset_in by lia.
    cbn [or_fault obind]. rewrite Hc, Nat2Z.id.
    assert (Hs : s32 (Z.of_nat (length l1) + 1) = Z.of_nat (S (length l1))).
    { unfold s32. rewrite u32_small by lia. rewrite (proj2 (Z.ltb_lt _ _)) by lia. lia. }
    rewrite Hs. destruct (IH (mk (<[length l1 := mk_entry f obj dso]> (funcs s)) (Z.of_nat (S (length l1))))
      (l1 ++ [(f, obj, dso)])) as (s' & -> & Hs').
    + split_and!; cbn [funcs count].
      * by rewrite length_insert.
      * rewrite length_app. simpl. lia.
      * intros i x Hi. destruct (decide (i = length l1)) as [-> | Hne].
        -- rewrite list_lookup_middle in Hi by done. injection Hi as <-.
           apply list_lookup_insert_eq. lia.
        -- rewrite list_lookup_insert_ne by done. apply Hr.
           pose proof (lookup_lt_Some _ _ _ Hi) as Hlt. rewrite length_app in Hlt. simpl in Hlt.
           by rewrite lookup_app_l in Hi by lia.
    + rewrite !length_app. simpl. lia.
    + exists s'. by rewrite <- app_assoc in Hs'.
Qed.

Lemma finalize_all_ok i l fs tr :
  (forall j x, l !! j = Some x -> fs !! j = Some (entry_of x)) -> (i <= length l)%nat ->
  Forall (fun x => fst (fst x) <> 0) l ->
  finalize_all i fs tr = Ok (tr ++ rev (map call_of (take i l))).
Proof.
  intros Hfs Hi HF. revert tr. induction i as [| i IH]; intros tr; cbn [finalize_all].
  - by rewrite take_0, app_nil_r.
  - destruct (lookup_lt_is_Some_2 l i) as [[[f obj] dso] Hx]; [lia |].
    rewrite (Hfs _ _ Hx). cbn [or_fault obind entry_of destructor_func obj_ptr].
    pose proof (Forall_lookup_1 _ _ _ _ HF Hx) as Hf. cbn in Hf.
    rewrite (proj2 (Z.eqb_neq f 0)) by done. cbn [negb]. rewrite IH by lia.
    rewrite (take_S_r _ _ _ Hx), map_app, rev_app_distr. cbn [map rev app call_of].
    by rewrite <- app_assoc.
Qed.

(** C40: [__cxa_finalize(0)] calls the destructors registered since the start, with
    their objects, last registered first. *)
Theorem finalize_reverses l :
  (length l <= 128)%nat -> Forall (fun x => fst (fst x) <> 0) l ->
  exists s, register_all l make = Ok s /\ cxa_finalize 0 s [] = Ok (s, rev (map call_of l)).
Proof.
  intros Hlen HF. destruct (register_all_ok l make []) as (s & Hs & Hl & Hc & Hr);
    [by split_and! | done |].
  exists s. split; [done |]. unfold cxa_finalize. cbn [Z.eqb app] in *. rewrite Hc, Nat2Z.id.
  rewrite (finalize_all_ok _ l) by done. cbn [obind]. by rewrite firstn_all.
Qed.

(** Finalizing one destructor looks at the entry after the last one registered:
    past the array when 128 are. *)
Lemma finalize_one_overruns f s tr :
  f <> 0 -> length (funcs s) = 128%nat -> count s = 128 -> cxa_finalize f s tr = Fault.
Proof.
  intros Hf Hl Hc. unfold cxa_finalize. rewrite (proj2 (Z.eqb_neq f 0)), Hc by done.
  change (Z.to_nat 128) with 128%nat. cbn [finalize_one].
  rewrite lookup_ge_None_2 by lia. done.
Qed.

Lemma finalize_reverses_witness :
  exists s, register_all [(5, 100, 0); (6, 200, 0)] make = Ok s /\
    cxa_finalize 0 s [] = Ok (s, [(6, 200); (5, 100)]).
Proof.
  apply (finalize_reverses [(5, 100, 0); (6, 200, 0)]); [simpl; lia | by repeat constructor].
Defined.

End destructors.

(** ** Symbol lookup *)

Section symbols.
Import elf.

(** The scan of the section headers ends when the names are strings. *)
Lemma scan_headers_ok n fuel m sh shstrtab strtab_lit symtab_lit e l1 l2 :
  cstr (rd m) strtab_lit l1 -> cstr (rd m) symtab_lit l2 ->
  (forall i, (i < n)%nat -> exists s,
    cstr (rd m) (VMA (shstrtab + sh_name m (sh + sizeof_header * Z.of_nat i))) s /\ (length s < fuel)%nat) ->
  exists e', scan_headers n fuel m sh shstrtab strtab_lit symtab_lit e = Ok e'.
Proof.
  intros H1 H2. revert sh e. induction n as [| n IH]; intros sh e Hn; cbn [scan_headers]; [by eexists |].
  destruct (Hn 0%nat) as (s & Hs & Hf); [lia |]. rewrite Z.mul_0_r, Z.add_0_r in Hs.
  destruct (strcmp_run fuel (rd m) (rd m) _ _ s l1 Hs H1 Hf) as (z1 & -> & _). cbn [obind].
  destruct (strcmp_run fuel (rd m) (rd m) _ _ s l2 Hs H2 Hf) as (z2 & -> & _). cbn [obind].
  apply IH. intros i Hi. destruct (Hn (S i)) as (s' & Hs' & Hf'); [lia |]. exists s'. split; [| done].
  by replace (sh + sizeof_header + sizeof_header * Z.of_nat i) with (sh + sizeof_header * Z.of_nat (S i)) by lia.
Qed.

(** The symbol at [a] is a function whose code contains [addr]. *)
Definition covers (m : mem) (a addr : Z) : bool :=
  (ELF32_ST_TYPE (sym_info m a) =? 2) && (sym_value m a <=? addr) &&
  (addr <? u32 (sym_value m a + sym_size m a)).

Lemma lookup_loop_ok n m a addr elf :
  (lookup_loop n m a addr elf = 0 /\
    forall i, (i < n)%nat -> covers m (a + 16 * Z.of_nat i) addr = false) \/
  exists i, (i < n)%nat /\ covers m (a + 16 * Z.of_nat i) addr = true /\
    (forall j, (j < i)%nat -> covers m (a + 16 * Z.of_nat j) addr = false) /\
    lookup_loop n m a addr elf = u32 (strtab elf + sym_name m (a + 16 * Z.of_nat i)).
Proof.
  revert a. induction n as [| n IH]; intros a; cbn [lookup_loop]; [left; split; [done | lia] |].
  assert (Hc : covers m (a + 16 * Z.of_nat 0) addr = covers m a addr) by (by rewrite Z.add_0_r).
  destruct (covers m a addr) eqn:E.
  - right. exists 0%nat. split_and!; [lia | done | lia |]. rewrite Z.add_0_r.
    unfold covers in E. bprop. destruct (Z.eqb_spec (ELF32_ST_TYPE (sym_info m a)) 2); [| done].
    cbn [negb]. rewrite (proj2 (Z.leb_le _ _)), (proj2 (Z.ltb_lt _ _)) by lia. done.
  - assert (Hskip : (if negb (ELF32_ST_TYPE (sym_info m a) =? 2)
        then lookup_loop n m (a + sizeof_symbol) addr elf
        else if (sym_value m a <=? addr) && (addr <? u32 (sym_value m a + sym_size m a))
             then u32 (strtab elf + sym_name m a)
             else lookup_loop n m (a + sizeof_symbol) addr elf) = lookup_loop n m (a + 16) addr elf).
    { unfold covers in E. destruct (ELF32_ST_TYPE (sym_info m a) =? 2); [| done]. cbn [negb andb] in *.
      by rewrite E. }
    rewrite Hskip.
    assert (Hshift : forall i, a + 16 * Z.of_nat (S i) = a + 16 + 16 * Z.of_nat i) by lia.
    destruct (IH (a + 16)) as [[Hz Hn] | (i & Hi & Hci & Hmin & Hres)]; [left | right].
    + split; [done |]. intros [| i] Hi; [done |]. rewrite Hshift. apply Hn. lia.
    + exists (S i). rewrite Hshift. split_and!; [lia | done | | done].
      intros [| j] Hj; [done |]. rewrite Hshift. apply Hmin. lia.
Qed.

(** [elf_lookup_symbol] gives the name of the first function symbol whose code
    contains the address, and the null pointer when there is none. *)
Theorem lookup_symbol_first addr elf m :
  (elf_lookup_symbol addr elf m = 0 /\
    forall i, (i < Z.to_nat (symtabsz elf / 16))%nat ->
      covers m (symtab elf + 16 * Z.of_nat i) addr = false) \/
  exists i, (i < Z.to_nat (symtabsz elf / 16))%nat /\
    covers m (symtab elf + 16 * Z.of_nat i) addr = true /\
    (forall j, (j < i)%nat -> covers m (symtab elf + 16 * Z.of_nat j) addr = false) /\
    elf_lookup_symbol addr elf m =
      u32 (strtab elf + sym_name m (symtab elf + 16 * Z.of_nat i)).
Proof. apply lookup_loop_ok. Qed.

End symbols.
