(* ===== verification/Debug.v ===== *)
(** * Debugging output ([lib/debug.cc])

    The symbol table that [init_debug] keeps, the stack trace and [panic], and the printing
    of the segment registers.  Values that inline assembly reads from registers are
    arguments. *)

From stdpp Require Import prelude gmap strings.
From Stdlib Require Import ZArith Lia.
From S2P Require Import Prelude CString Console Printk Boot.

Module debug.
Section debug.
(** Fuel for the string functions, and memory. *)
Context (fuel : nat) (m : mem).

(** [kernel_elf] after [init_debug]; [mb] is [glb_mboot_ptr]. *)
Definition init_debug (mb strtab_lit symtab_lit : Z) (raw : elf.elf_t) : outcome elf.elf_t :=
  elf.elf_from_multiboot fuel m (entry.mb_addr m mb) (entry.mb_num m mb) (entry.mb_shndx m mb)
    strtab_lit symtab_lit raw.

Context (kernel_elf : elf.elf_t).

Definition trace_format : list Z := str "    [%x] %s" ++ [10].

(** [print_stack_trace] from the frame at [ebp]; [turns] bounds the loop. *)
Fixpoint print_stack_trace (turns : nat) (ebp : Z) (c : console.t) : outcome console.t :=
  match turns with
  | O => NoFuel
  | S turns' =>
      if ebp =? 0 then Ok c
      else
        let eip := u32 (ebp + 4) in
        let! name := read_string fuel (rd m) (elf.elf_lookup_symbol (load32 m eip) kernel_elf m) in
        let! c := printk.printk trace_format [AUInt (load32 m eip); AStr name] c in
        print_stack_trace turns' (load32 m ebp) c
  end.

Definition panic_format : list Z := str "*** System panic: %s" ++ [10].
Definition panic_end : list Z := str "***" ++ [10].

(** What [panic] prints before it stops. *)
Definition panic_report (turns : nat) (msg : list Z) (ebp : Z) (c : console.t) : outcome console.t :=
  let! c := printk.printk panic_format [AStr msg] c in
  let! c := print_stack_trace turns ebp c in
  printk.printk panic_end [] c.

Definition panic (turns : nat) (msg : list Z) (ebp : Z) (c : console.t) : outcome console.t :=
  let! c := panic_report turns msg ebp c in Hang "panic".

(** The macro [assert] of include/debug.h: [kassert] with what it prints. *)
Definition assert_format : list Z := str "%s: line %d" ++ [10].

Definition assert_report (file : list Z) (line : Z) (info : list Z) (c : console.t) : outcome console.t :=
  let! c := printk.printk assert_format [AStr file; AInt line] c in
  printk.printk info [] c.

Definition assert (x : bool) (file : list Z) (line : Z) (info : list Z) (c : console.t) : outcome console.t :=
  if x then Ok c
  else
    let! c := assert_report file line info c in Hang "assert".

(** The formats of [print_cur_status]. *)
Definition ring_format : list Z := str "%d: @ring %d" ++ [10].
Definition seg_format (reg : string) : list Z := str "%d:  " ++ str reg ++ str " = %x" ++ [10].

(** The static [round], and the four segment registers. *)
Definition print_cur_status (round cs ds es ss : Z) (c : console.t) : outcome (Z * console.t) :=
  let! c :=
    printk.print_all
      [ (ring_format, [AInt round; AInt (Z.land cs 3)]);
        (seg_format "cs", [AInt round; AInt cs]);
        (seg_format "ds", [AInt round; AInt ds]);
        (seg_format "es", [AInt round; AInt es]);
        (seg_format "ss", [AInt round; AInt ss]) ] c in
  Ok (s32 (round + 1), c).

End debug.
End debug.
Import debug.

(** ** The trace *)

Section trace.
Context (fuel : nat) (m : mem) (kernel_elf : elf.elf_t).

(** The saved frame pointers from [ebp] on lead through these return addresses, in functions
    of these names, to a null frame. *)
Fixpoint frames (ebp : Z) (fs : list (Z * list Z)) : Prop :=
  match fs with
  | [] => ebp = 0
  | (eip, name) :: fs' =>
      ebp <> 0 /\ load32 m (u32 (ebp + 4)) = eip /\ 0 <= eip < 4294967296 /\
      cstr (rd m) (elf.elf_lookup_symbol eip kernel_elf m) name /\ frames (load32 m ebp) fs'
  end.

(** One line of the trace. *)
Definition trace_line (f : Z * list Z) : list Z :=
  str "    [" ++ Console.spec.hex (fst f) ++ str "] " ++ snd f ++ [10].

Lemma trace_run turns ebp fs c u :
  frames ebp fs -> (length fs < turns)%nat -> Forall (fun f => (length (snd f) < fuel)%nat) fs -> shows c u ->
  exists c' u', print_stack_trace fuel m kernel_elf turns ebp c = Ok c' /\ shows c' u' /\
    console.console_write (fs ≫= trace_line) rc_black rc_white c = Ok c'.
Proof.
  revert turns ebp c u. induction fs as [| [eip name] fs IH]; intros [| turns] ebp c u Hfs Hl HF Hc;
    cbn [frames length] in *; try lia; cbn [print_stack_trace].
  - subst ebp. by exists c, u.
  - destruct Hfs as (Hne & He & Hr & Hn & Hfs). apply Forall_cons in HF as [Hlen HF].
    rewrite (proj2 (Z.eqb_neq ebp 0)), He by done. rewrite (read_string_ok _ _ _ name Hn Hlen). cbn [obind].
    destruct (printk.printk_says trace_format [AUInt eip; AStr name] c u Hc) as (c1 & u1 & -> & Hw & Hc1).
    + by repeat constructor.
    + rewrite !Forall_cons. split_and!; [done | by eapply cstr_bytes | done].
    + cbn [obind]. destruct (IH turns _ c1 u1 Hfs ltac:(lia) HF Hc1) as (c2 & u2 & -> & Hc2 & Hw2).
      exists c2, u2. split_and!; [done | done |].
      change (console.console_write (trace_line (eip, name) ++ (fs ≫= trace_line)) rc_black rc_white c = Ok c2).
      by rewrite console_write_app, (Hw : console.console_write (trace_line (eip, name)) _ _ _ = _).
Qed.

(** C35: The stack trace.  When the saved frame pointers lead to a null frame,
    [panic] prints its message and one line per frame, innermost first, with the return
    address and the name of the function around it, and then stops: it does not return. *)
Theorem panic_prints turns msg ebp fs c u :
  frames ebp fs -> (length fs < turns)%nat -> Forall (fun f => (length (snd f) < fuel)%nat) fs ->
  Forall byte_ok msg -> shows c u ->
  (exists c' u', panic_report fuel m kernel_elf turns msg ebp c = Ok c' /\ shows c' u' /\
    console.console_write (str "*** System panic: " ++ msg ++ [10] ++ (fs ≫= trace_line) ++ panic_end)
      rc_black rc_white c = Ok c') /\
  panic fuel m kernel_elf turns msg ebp c = Hang "panic".
Proof.
  intros Hfs Hl HF Hmsg Hc. unfold panic, panic_report.
  destruct (printk.printk_says panic_format [AStr msg] c u Hc) as (c1 & u1 & -> & Hw1 & Hc1);
    [by repeat constructor | by apply Forall_singleton |]. cbn [obind].
  destruct (trace_run turns ebp fs c1 u1 Hfs Hl HF Hc1) as (c2 & u2 & -> & Hc2 & Hw2). cbn [obind].
  destruct (printk.printk_says panic_end [] c2 u2 Hc2) as (c3 & u3 & -> & Hw3 & Hc3);
    [by repeat constructor | done |].
  split; [| done]. exists c3, u3. split_and!; [done | done |].
  replace (str "*** System panic: " ++ msg ++ [10] ++ (fs ≫= trace_line) ++ panic_end)
    with ((str "*** System panic: " ++ msg ++ [10]) ++ (fs ≫= trace_line) ++ panic_end)
    by (by rewrite <- !app_assoc).
  rewrite console_write_app, (Hw1 : console.console_write (str "*** System panic: " ++ msg ++ [10]) _ _ _ = _).
  cbn [obind]. rewrite console_write_app, Hw2. exact Hw3.
Qed.

End trace.

(** One frame, in "main" at 0xC0100000. *)
Definition trace_memory : mem :=
  store32 0x8000 0 (store32 0x8004 0xC0100010
    (store32 0x9000 1 (store32 0x9004 0xC0100000 (store32 0x9008 256 (store8 0x900C 2
      (store_bytes 0xA001 (str "main") (store8 0xA005 0 ∅))))))).

Definition trace_elf : elf.elf_t := elf.mk 0x9000 16 0xA000 6.

Lemma panic_prints_witness :
  (exists c, panic_report 30 trace_memory trace_elf 5 (str "out of memory") 0x8000 zero_screen = Ok c /\
    console.console_write
      (str "*** System panic: " ++ str "out of memory" ++ [10] ++ str "    [C0100010] main" ++ [10] ++ str "***" ++ [10])
      rc_black rc_white zero_screen = Ok c) /\
  panic 30 trace_memory trace_elf 5 (str "out of memory") 0x8000 zero_screen = Hang "panic".
Proof.
  destruct (panic_prints 30 trace_memory trace_elf 5 (str "out of memory") 0x8000 [(0xC0100010, str "main")]
    zero_screen zero_term) as [(c & u & Hr & _ & Hw) Hp].
  - cbn [frames]. split_and!; try (vm_compute; congruence).
    change (elf.elf_lookup_symbol _ _ _) with (elf.elf_lookup_symbol 0xC0100010 trace_elf trace_memory).
    replace (elf.elf_lookup_symbol 0xC0100010 trace_elf trace_memory) with 0xA001 by (vm_compute; reflexivity).
    cbn [cstr]. unfold byte_ok. split_and!; vm_compute; first [reflexivity | congruence | done].
  - simpl. lia.
  - apply Forall_singleton. vm_compute. lia.
  - by repeat constructor.
  - exact zero_shows.
  - split; [| exact Hp]. exists c. split; [exact Hr |]. rewrite <- Hw. reflexivity.
Defined.

(** A frame pointer that leads to itself: the trace never ends. *)
Lemma trace_of_cycle fuel m e turns ebp c :
  ebp <> 0 -> load32 m ebp = ebp -> forall c', print_stack_trace fuel m e turns ebp c <> Ok c'.
Proof.
  intros Hne Hl. revert c. induction turns as [| turns IH]; intros c c'; cbn [print_stack_trace]; [done |].
  rewrite (proj2 (Z.eqb_neq ebp 0)) by done.
  destruct (read_string _ _ _); cbn [obind]; try done.
  destruct (printk.printk _ _ _); cbn [obind]; try done. rewrite Hl. apply IH.
Qed.

(** The five lines, and the next round. *)
Theorem status_prints round cs ds es ss c u :
  shows c u ->
  exists c' u', print_cur_status round cs ds es ss c = Ok (s32 (round + 1), c') /\ shows c' u' /\
    let n := Console.spec.dec (u32 round) in
    let line reg r := n ++ str ":  " ++ reg ++ str " = " ++ Console.spec.hex (u32 r) ++ [10] in
    console.console_write
      (mjoin [n ++ str ": @ring " ++ Console.spec.dec (u32 (Z.land cs 3)) ++ [10];
              line (str "cs") cs; line (str "ds") ds; line (str "es") es; line (str "ss") ss])
      rc_black rc_white c = Ok c'.
Proof.
  intros Hc. unfold print_cur_status. edestruct printk.print_all_says as (c' & u' & -> & Hc' & Hw);
    [exact Hc | by repeat constructor |].
  cbn [obind]. exists c', u'. split_and!; [done | done |]. rewrite <- Hw. reflexivity.
Qed.

(** A failed assertion prints where it is and its text as it stands, and does not return; one that holds
    prints nothing. *)
Theorem assert_prints x file line info c u :
  Forall byte_ok file -> Forall byte_ok info -> shows c u ->
  (x = true -> assert x file line info c = Ok c) /\
  (x = false -> assert x file line info c = Hang "assert" /\
    exists c' u', assert_report file line info c = Ok c' /\ shows c' u' /\
      console.console_write (file ++ str ": line " ++ Console.spec.dec (u32 line) ++ [10] ++ info)
        rc_black rc_white c = Ok c').
Proof.
  intros Hf Hi Hc. split; intros ->; [done |].
  destruct (printk.printk_says assert_format [AStr file; AInt line] c u Hc) as (c1 & u1 & Hp1 & Hw1 & Hc1);
    [by repeat constructor | by repeat constructor |].
  destruct (printk.printk_says info [] c1 u1 Hc1 Hi) as (c2 & u2 & Hp2 & Hw2 & Hc2); [done |].
  assert (Hr : assert_report file line info c = Ok c2) by (unfold assert_report; by rewrite Hp1).
  split; [unfold assert; by rewrite Hr |]. exists c2, u2. split_and!; [done | done |].
  replace (file ++ str ": line " ++ Console.spec.dec (u32 line) ++ [10] ++ info)
    with ((file ++ str ": line " ++ Console.spec.dec (u32 line) ++ [10]) ++ info) by (by rewrite <- !app_assoc).
  rewrite console_write_app.
  by rewrite (Hw1 : console.console_write (file ++ str ": line " ++ Console.spec.dec (u32 line) ++ [10]) _ _ _ = _).
Qed.
