(* ===== verification/Kernel.v ===== *)
(** * The running kernel

    The parts that interrupts drive, put together: the dispatchers of [lib/idt.cc] call
    [page_fault_handler] ([lib/vmm.cc]), [timer_callback] ([lib/timer.cc]) and
    [keyboard_isr] ([lib/keyboard.cc]) through the table of handlers.  An event is an
    interrupt, or the running thread using the processor.  The specification [spec] has a
    private register set per thread, one map of pages and a list of free pages; [kernel_refines]
    shows that the kernel does what it says for every sequence of events, as long as pages
    last. *)

From stdpp Require Import prelude gmap strings.
From Stdlib Require Import ZArith Lia.
From S2P Require Import Prelude CString Interrupts Pmm Vmm Console Printk Keyboard Heap Scheduler.

Module kernel.

(** What the processor and the keyboard controller hold when an interrupt is taken: the
    address of a page fault, and the scan code. *)
Record inputs := mk_inputs { cr2 : Z; scan : Z }.

(** The state that interrupts act on. *)
Record t := mk {
  k_idt : idt.t;
  k_pmm : pmm.t;
  k_vmm : PageDictionary.t;
  k_kbd : keyboard.t;
  k_sched : TaskScheduler.t;
  k_ports : ports
}.

Definition set_sched (s : TaskScheduler.t) (k : t) : t :=
  mk (k_idt k) (k_pmm k) (k_vmm k) (k_kbd k) s (k_ports k).

(** The console is the one of the threads. *)
Definition set_con (c : console.t) (s : TaskScheduler.t) : TaskScheduler.t :=
  TaskScheduler.mk (TaskScheduler.runnable_tasks_ s) (TaskScheduler.running_ s)
    (TaskScheduler.waiting_tasks_ s) (TaskScheduler.pid_cnt_ s) (TaskScheduler.tasks s)
    (TaskScheduler.memory s) c (TaskScheduler.cpu s).

Inductive event :=
| Run (f : task_context -> task_context)
| Interrupt (regs : idt.pt_regs) (inp : inputs).

Section kernel.
(** The addresses of [page_dictionary] and of the three handlers. *)
Context (self pf_addr timer_addr kbd_addr : Z).

(** [timer_callback]. *)
Definition timer_callback (k : t) : outcome t :=
  let! s := TaskScheduler.kthread_schedule (k_sched k) in Ok (set_sched s k).

Definition page_fault (regs : idt.pt_regs) (inp : inputs) (k : t) : outcome t :=
  let! '(d, pm) := PageDictionary.page_fault_handler self (cr2 inp) (idt.err_code regs)
                     (k_vmm k) (k_pmm k) in
  Ok (mk (k_idt k) pm d (k_kbd k) (k_sched k) (k_ports k)).

Definition key_typed (inp : inputs) (k : t) : outcome t :=
  let! '(kb, c) := keyboard.keyboard_isr (scan inp) (k_kbd k) (TaskScheduler.con (k_sched k)) in
  Ok (mk (k_idt k) (k_pmm k) (k_vmm k) kb (set_con c (k_sched k)) (k_ports k)).

(** A call through a pointer of the table; a pointer to anything else is a fault. *)
Definition call (inp : inputs) (h : Z) (regs : idt.pt_regs) (k : t) : outcome t :=
  if h =? pf_addr then page_fault regs inp k
  else if h =? timer_addr then timer_callback k
  else if h =? kbd_addr then key_typed inp k
  else Fault.

(** "Unhandled interrupt: %d\n". *)
Definition unhandled_message : list Z :=
  [85; 110; 104; 97; 110; 100; 108; 101; 100; 32; 105; 110; 116; 101; 114; 114; 117; 112; 116; 58;
   32; 37; 100; 10].

Definition report (n : Z) (k : t) : outcome t :=
  let! c := printk.printk unhandled_message [AUInt n] (TaskScheduler.con (k_sched k)) in
  Ok (set_sched (set_con c (k_sched k)) k).

(** The stubs of [isr.s] call [isr_dispatcher] for vectors 0 to 31 and [irq_dispatcher] for
    the lines of the controllers, 32 to 47. *)
Definition deliver (regs : idt.pt_regs) (inp : inputs) (k : t) : outcome t :=
  if idt.int_no regs <? 32 then idt.isr_dispatcher (call inp) report regs (k_idt k) k
  else
    let! '(k', tr) := idt.irq_dispatcher (call inp) regs (k_idt k) k (k_ports k) in
    Ok (mk (k_idt k') (k_pmm k') (k_vmm k') (k_kbd k') (k_sched k') tr).

Definition handle (e : event) (k : t) : outcome t :=
  match e with
  | Run f => Ok (set_sched (set_cpu (f (TaskScheduler.cpu (k_sched k))) (k_sched k)) k)
  | Interrupt regs inp => deliver regs inp k
  end.

Fixpoint run_events (es : list event) (k : t) : outcome t :=
  match es with
  | [] => Ok k
  | e :: es' => let! k := handle e k in run_events es' k
  end.

End kernel.
End kernel.
Import kernel.

(** ** The specification *)

Module spec.

(** Threads with their registers, the first running; the page frame of each page
    number; the free pages, the next one last. *)
Record t := mk {
  threads : list (Z * task_context);
  space : Z -> option Z;
  free : list Z
}.

Definition turn {A} (l : list A) : list A :=
  match l with [] => [] | x :: l' => l' ++ [x] end.

Definition run (f : task_context -> task_context) (l : list (Z * task_context)) :=
  match l with [] => [] | (p, c) :: l' => (p, f c) :: l' end.

(** A page that is missing takes the next free page. *)
Definition map_page (n : Z) (w : t) : t :=
  match space w n, last (free w) with
  | None, Some p =>
      mk (threads w) (fun m => if decide (m = n) then Some p else space w m) (removelast (free w))
  | _, _ => w
  end.

(** A page fault for a missing page. *)
Definition missing (regs : idt.pt_regs) : bool :=
  (idt.int_no regs =? 14) && (Z.land (idt.err_code regs) 1 =? 0).

Definition step (e : event) (w : t) : t :=
  match e with
  | Run f => mk (run f (threads w)) (space w) (free w)
  | Interrupt regs inp =>
      if idt.int_no regs =? 32 then mk (turn (threads w)) (space w) (free w)
      else if missing regs then map_page (cr2 inp / 4096) w
      else w
  end.

Definition steps (es : list event) (w : t) : t := foldl (fun w e => step e w) w es.

(** The pages that a sequence of events can take. *)
Definition demand (e : event) : nat :=
  match e with Interrupt regs _ => if missing regs then 1 else 0 | Run _ => 0 end.

Definition demands (es : list event) : nat := sum_list_with demand es.

End spec.

(** ** The kernel implements the specification *)

Section proofs.
Context (self pf_addr timer_addr kbd_addr : Z).
Hypothesis Hself : self mod 4096 = 0 /\ PAGE_OFFSET <= self /\ self + 4096 * 129 < 4294967296.
Hypothesis Haddr : NoDup [0; pf_addr; timer_addr; kbd_addr].
Implicit Types (k : kernel.t) (w : spec.t).

Abbreviation handle := (kernel.handle self pf_addr timer_addr kbd_addr).
Abbreviation run_events := (kernel.run_events self pf_addr timer_addr kbd_addr).
Abbreviation call := (kernel.call self pf_addr timer_addr kbd_addr).
Abbreviation deliver := (kernel.deliver self pf_addr timer_addr kbd_addr).

(** The three handlers are registered, and no other for the 48 vectors in use. *)
Definition handler_of (n : Z) : Z :=
  if n =? 14 then pf_addr else if n =? 32 then timer_addr else if n =? 33 then kbd_addr else 0.

Definition handlers (it : idt.t) : Prop :=
  forall n, 0 <= n < 48 ->
    arr_get idt.INTERRUPT_NUM (idt.interrupt_handlers it) n = Some (handler_of n).

Definition frame_ok (p : Z) : Prop := 0 <= p < 4294967296 /\ p mod 4096 = 0.

Definition translate w (vma : Z) : Z :=
  match spec.space w (vma / 4096) with Some p => p + vma mod 4096 | None => 0 end.

(** The translation and the free pages. *)
Record mem_sim (d : PageDictionary.t) (pm : pmm.t) w : Prop := {
  ms_wf : wf self d;
  ms_space : forall vma, 0 <= vma < 4294967296 ->
    PageDictionary.at_ self vma d = Ok (translate w vma);
  ms_frames : forall n p, spec.space w n = Some p -> 0 <= p;
  ms_pages : pages pm (spec.free w);
  ms_free : Forall frame_ok (spec.free w)
}.

Record sim k w : Prop := {
  sim_handlers : handlers (k_idt k);
  sim_mem : mem_sim (k_vmm k) (k_pmm k) w;
  sim_threads : exists x q, spec.threads w = (x, TaskScheduler.cpu (k_sched k)) :: q /\
    runs (k_sched k) x q;
  sim_screen : exists u, shows (TaskScheduler.con (k_sched k)) u
}.

Definition event_ok (e : event) : Prop :=
  match e with
  | Run _ => True
  | Interrupt regs inp =>
      0 <= idt.int_no regs < 48 /\ 0 <= cr2 inp < 4294967296 /\ byte_ok (scan inp)
  end.

(** A page is mapped when the specification has a frame for it. *)
Lemma mem_mapped d pm w vma :
  mem_sim d pm w -> 0 <= vma < 4294967296 ->
  mapped self d vma = bool_decide (is_Some (spec.space w (vma / 4096))).
Proof.
  intros Hs Hv. set (v := vma - vma mod 4096 + 1).
  assert (Hv1 : 0 <= v < 4294967296 /\ v / 4096 = vma / 4096 /\ v mod 4096 = 1) by (unfold v; zlia).
  destruct Hv1 as (Hv1 & Hd & Hm).
  pose proof (at_page self Hself d vma v (ms_wf _ _ _ Hs) Hv Hv1 Hd) as Hp.
  rewrite (ms_space _ _ _ Hs v Hv1) in Hp. unfold translate in Hp. rewrite Hd, Hm in Hp.
  destruct (mapped self d vma).
  - destruct Hp as (p & Hp0 & _ & [= Hp]). rewrite bool_decide_true; [done |].
    destruct (spec.space w (vma / 4096)); [by eexists | lia].
  - injection Hp as Hp. rewrite bool_decide_false; [done |]. intros [p E]. rewrite E in Hp.
    pose proof (ms_frames _ _ _ Hs _ _ E). lia.
Qed.

Lemma map_page_missing n w l p :
  spec.space w n = None -> spec.free w = l ++ [p] ->
  spec.map_page n w =
    spec.mk (spec.threads w) (fun m => if decide (m = n) then Some p else spec.space w m) l.
Proof. intros Hn Hf. unfold spec.map_page. by rewrite Hn, Hf, last_snoc, removelast_last. Qed.

Lemma map_page_present n w p : spec.space w n = Some p -> spec.map_page n w = w.
Proof. intros Hn. unfold spec.map_page. by rewrite Hn. Qed.

(** A page fault for a missing page. *)
Lemma fault_mem d pm w cr2 err :
  mem_sim d pm w -> 0 <= cr2 < 4294967296 -> Z.land err 1 = 0 ->
  (2 <= length (spec.free w))%nat -> PageDictionary.table_count d < TABLE_RESERVE ->
  exists d' pm', PageDictionary.page_fault_handler self cr2 err d pm = Ok (d', pm') /\
    mem_sim d' pm' (spec.map_page (cr2 / 4096) w) /\
    PageDictionary.table_count d' <= PageDictionary.table_count d + 1.
Proof.
  intros Hs Hv He Hlen Hroom. unfold PageDictionary.page_fault_handler, PAGE_PRESENT.
  rewrite He. cbn [Z.eqb].
  destruct (exists_last (l := spec.free w)) as (l & p & Hf); [by destruct (spec.free w); simpl in Hlen; [lia |] |].
  assert (Hne : l <> []) by (intros ->; rewrite Hf in Hlen; simpl in Hlen; lia).
  pose proof (ms_free _ _ _ Hs) as HF. rewrite Hf in HF. apply Forall_app in HF as [HF Hp].
  apply Forall_cons in Hp as [[Hpr Hpa] _].
  pose proof (ms_pages _ _ _ Hs) as Hpm. rewrite Hf in Hpm.
  destruct (index_step self Hself d cr2 pm l p (ms_wf _ _ _ Hs) Hv
    (or_intror Hroom) Hpm Hne Hpr Hpa) as (a & d' & pm' & -> & Hw' & _ & _ & Hpm' & Hcnt & Hat).
  cbn [obind]. exists d', pm'. split; [done |]. split; [| exact Hcnt].
  rewrite (mem_mapped d pm w) in Hpm', Hat by done.
  destruct (spec.space w (cr2 / 4096)) as [f |] eqn:E.
  - rewrite bool_decide_true in Hpm', Hat by eauto. subst pm'. cbn [negb andb] in Hat.
    rewrite (map_page_present _ _ _ E). split; try apply Hs; try done.
    intros vma Hvma. rewrite Hat by done. by apply Hs.
  - rewrite bool_decide_false in Hpm', Hat by (by intros []). cbn [negb andb] in Hat.
    rewrite (map_page_missing _ _ _ _ E Hf). split; cbn; try apply Hs; try done.
    + intros vma Hvma. rewrite Hat by done. unfold translate, same_page. cbn [spec.space].
      case_bool_decide; [by rewrite decide_True |]. rewrite decide_False by done. by apply Hs.
    + intros n q. case_decide; [intros [= <-]; lia | apply (ms_frames _ _ _ Hs)].
Qed.

Lemma map_page_threads n w : spec.threads (spec.map_page n w) = spec.threads w.
Proof. unfold spec.map_page. by repeat case_match. Qed.

Lemma page_fault_sim k w regs inp :
  sim k w -> 0 <= cr2 inp < 4294967296 -> Z.land (idt.err_code regs) 1 = 0 ->
  (2 <= length (spec.free w))%nat -> PageDictionary.table_count (k_vmm k) < TABLE_RESERVE ->
  exists k', page_fault self regs inp k = Ok k' /\ sim k' (spec.map_page (cr2 inp / 4096) w) /\
    PageDictionary.table_count (k_vmm k') <= PageDictionary.table_count (k_vmm k) + 1.
Proof.
  intros Hs Hv He Hlen Hroom. unfold page_fault.
  destruct (fault_mem _ _ w (cr2 inp) _ (sim_mem _ _ Hs) Hv He Hlen Hroom) as (d & pm & -> & Hm & Hc).
  cbn [obind]. eexists. split; [reflexivity |]. split; [| exact Hc].
  destruct Hs as [? _ ? ?]. split; cbn; rewrite ?map_page_threads; done.
Qed.

(** The other handlers keep the pages; a change of the screen or of the ports keeps the rest. *)
Lemma sim_sched k w s ths :
  sim k w ->
  (exists x q, ths = (x, TaskScheduler.cpu s) :: q /\ runs s x q) ->
  (exists u, shows (TaskScheduler.con s) u) ->
  sim (set_sched s k) (spec.mk ths (spec.space w) (spec.free w)).
Proof. intros [? [] ? ?] Ht Hu. by split; [| split | |]. Qed.

Lemma runs_set_con c s x q : runs s x q -> runs (set_con c s) x q.
Proof. by intros []. Qed.

Lemma spec_eta w : spec.mk (spec.threads w) (spec.space w) (spec.free w) = w.
Proof. by destruct w. Qed.

Lemma sim_con k w c u :
  sim k w -> shows c u -> sim (set_sched (set_con c (k_sched k)) k) w.
Proof.
  intros Hs Hu. rewrite <- (spec_eta w). apply sim_sched; [done | | by exists u].
  destruct (sim_threads _ _ Hs) as (x & q & Ht & Hr). exists x, q. split; [done |]. by apply runs_set_con.
Qed.

Lemma timer_sim k w :
  sim k w -> exists k', timer_callback k = Ok k' /\
    sim k' (spec.mk (spec.turn (spec.threads w)) (spec.space w) (spec.free w)) /\
    k_vmm k' = k_vmm k /\ k_ports k' = k_ports k.
Proof.
  intros Hs. destruct (sim_threads _ _ Hs) as (x & q & Ht & Hr). unfold timer_callback, TaskScheduler.kthread_schedule.
  pose proof (schedule_step _ _ _ Hr) as Hstep. rewrite Ht.
  assert (Hnext : exists s y q', TaskScheduler.schedule (k_sched k) = Ok s /\ runs s y q' /\
    spec.turn ((x, TaskScheduler.cpu (k_sched k)) :: q) = (y, TaskScheduler.cpu s) :: q').
  { destruct q as [| [y c] q].
    - exists (k_sched k), x, []. done.
    - destruct Hstep as (s & ? & <- & ?). by exists s, y, (q ++ [(x, TaskScheduler.cpu (k_sched k))]). }
  destruct Hnext as (s & y & q' & E & Hr' & Hturn). rewrite E. cbn [obind].
  eexists. split; [reflexivity |]. split; [| done].
  apply sim_sched; [done | by exists y, q' |].
  destruct (schedule_frame _ _ E) as [-> _]. apply (sim_screen _ _ Hs).
Qed.

Lemma key_sim k w inp :
  sim k w -> byte_ok (scan inp) ->
  exists k', key_typed inp k = Ok k' /\ sim k' w /\ k_vmm k' = k_vmm k.
Proof.
  intros Hs Hk. destruct (sim_screen _ _ Hs) as [u Hu]. unfold key_typed.
  destruct (keyboard.keyboard_isr_run (scan inp) (k_kbd k) _ u Hk Hu) as (c & con' & -> & Hsh & _).
  cbn [obind]. eexists. split; [reflexivity |]. split; [| done].
  pose proof (sim_con k w con' _ Hs Hsh) as []. by split.
Qed.

Lemma report_sim k w n :
  sim k w -> 0 <= n < 48 ->
  exists k', report n k = Ok k' /\ sim k' w /\ k_vmm k' = k_vmm k.
Proof.
  intros Hs Hn. destruct (sim_screen _ _ Hs) as [u Hu]. unfold report.
  destruct (printk.printk_says unhandled_message [AUInt n] _ u Hu) as (c' & u' & -> & _ & Hsh);
    [by repeat constructor | apply Forall_singleton; cbn; lia |].
  cbn [obind]. eexists. split; [reflexivity |]. split; [| done]. by eapply sim_con.
Qed.

(** What a handler that is called does, by its vector. *)
Lemma call_sim k w regs inp :
  sim k w -> event_ok (Interrupt regs inp) -> handler_of (idt.int_no regs) <> 0 ->
  (spec.missing regs = true ->
    (2 <= length (spec.free w))%nat /\ PageDictionary.table_count (k_vmm k) < TABLE_RESERVE) ->
  exists k', call inp (handler_of (idt.int_no regs)) regs k = Ok k' /\
    sim k' (spec.step (Interrupt regs inp) w) /\
    PageDictionary.table_count (k_vmm k') <= PageDictionary.table_count (k_vmm k) +
      Z.of_nat (spec.demand (Interrupt regs inp)).
Proof.
  intros Hs (Hn & Hv & Hk) Hh Hroom.
  assert (Hd : pf_addr <> timer_addr /\ pf_addr <> kbd_addr /\ timer_addr <> kbd_addr).
  { rewrite !NoDup_cons, !elem_of_cons in Haddr. tauto. }
  destruct Hd as (Hpt & Hpk & Htk). unfold kernel.call, handler_of in *.
  cbn [spec.step spec.demand]. unfold spec.missing in *.
  destruct (Z.eqb_spec (idt.int_no regs) 14) as [E | E]; cbn [andb] in *.
  - rewrite Z.eqb_refl, E. cbn [Z.eqb Pos.eqb].
    destruct (Z.eqb_spec (Z.land (idt.err_code regs) 1) 0) as [He | He].
    + destruct (Hroom eq_refl). by apply page_fault_sim.
    + exists k. unfold page_fault, PageDictionary.page_fault_handler, PAGE_PRESENT.
      rewrite (proj2 (Z.eqb_neq _ _) He). cbn [obind]. split; [by destruct k |]. split; [done | simpl; lia].
  - destruct (Z.eqb_spec (idt.int_no regs) 32) as [E2 | E2].
    + rewrite (proj2 (Z.eqb_neq timer_addr pf_addr)), Z.eqb_refl by done.
      destruct (timer_sim k w Hs) as (k' & ? & ? & Hvm & _). exists k'. rewrite Hvm. split_and!; [done | done | simpl; lia].
    + destruct (Z.eqb_spec (idt.int_no regs) 33) as [E3 | E3]; [| done].
      rewrite !(proj2 (Z.eqb_neq kbd_addr _)), Z.eqb_refl by done.
      destruct (key_sim k w inp Hs Hk) as (k' & ? & ? & Hvm). exists k'. rewrite Hvm. split_and!; [done | done | simpl; lia].
Qed.

Lemma sim_ports k w tr :
  sim k w -> sim (kernel.mk (k_idt k) (k_pmm k) (k_vmm k) (k_kbd k) (k_sched k) tr) w.
Proof. intros []. by split. Qed.

Lemma step_ignored w regs inp :
  handler_of (idt.int_no regs) = 0 -> spec.step (Interrupt regs inp) w = w.
Proof.
  unfold handler_of, spec.step, spec.missing. rewrite !NoDup_cons, !elem_of_cons in Haddr.
  destruct (Z.eqb_spec (idt.int_no regs) 14) as [E | E]; [intros ->; tauto |].
  destruct (Z.eqb_spec (idt.int_no regs) 32) as [E2 | E2]; [intros ->; tauto |]. done.
Qed.

Lemma deliver_sim k w regs inp :
  sim k w -> event_ok (Interrupt regs inp) ->
  (spec.missing regs = true ->
    (2 <= length (spec.free w))%nat /\ PageDictionary.table_count (k_vmm k) < TABLE_RESERVE) ->
  exists k', deliver regs inp k = Ok k' /\ sim k' (spec.step (Interrupt regs inp) w) /\
    PageDictionary.table_count (k_vmm k') <= PageDictionary.table_count (k_vmm k) +
      Z.of_nat (spec.demand (Interrupt regs inp)).
Proof.
  intros Hs Hok Hroom. pose proof Hok as (Hn & _ & _). unfold kernel.deliver, idt.isr_dispatcher, idt.irq_dispatcher.
  rewrite (sim_handlers _ _ Hs _ Hn). cbn [or_fault obind].
  destruct (Z.eqb_spec (handler_of (idt.int_no regs)) 0) as [Hz | Hz]; cbn [negb].
  - rewrite step_ignored by done. case_match.
    + destruct (report_sim k w (idt.int_no regs) Hs Hn) as (k' & ? & ? & Hvm). exists k'. rewrite Hvm.
      split_and!; [done | done | lia].
    + cbn [obind]. eexists. split; [reflexivity |]. split; [by apply sim_ports | cbn; lia].
  - destruct (call_sim k w regs inp Hs Hok Hz Hroom) as (k' & Hc & Hs' & Hcnt). rewrite Hc.
    case_match; cbn [obind]; eexists; (split; [reflexivity |]); [done |].
    split; [by apply sim_ports | done].
Qed.

Lemma handle_sim k w e :
  sim k w -> event_ok e ->
  (spec.demand e <> 0%nat ->
    (2 <= length (spec.free w))%nat /\ PageDictionary.table_count (k_vmm k) < TABLE_RESERVE) ->
  exists k', handle e k = Ok k' /\ sim k' (spec.step e w) /\
    PageDictionary.table_count (k_vmm k') <= PageDictionary.table_count (k_vmm k) + Z.of_nat (spec.demand e).
Proof.
  intros Hs Hok Hroom. destruct e as [f | regs inp].
  - eexists. split; [reflexivity |]. cbn [spec.step]. split; [| cbn; lia].
    destruct (sim_threads _ _ Hs) as (x & q & Ht & Hr). rewrite Ht. cbn [spec.run].
    apply sim_sched; [done | | apply (sim_screen _ _ Hs)].
    exists x, q. split; [done |]. by apply runs_set_cpu.
  - apply deliver_sim; [done | done |]. intros Hm. apply Hroom. cbn. by rewrite Hm.
Qed.

Lemma map_page_free n w : (length (spec.free w) - 1 <= length (spec.free (spec.map_page n w)))%nat.
Proof.
  unfold spec.map_page. destruct (spec.space w n); [lia |]. destruct (last (spec.free w)) as [p |] eqn:E; [| lia].
  cbn. apply last_Some in E as [l ->]. rewrite removelast_last, length_app. simpl. lia.
Qed.

Lemma step_free e w : (length (spec.free w) - spec.demand e <= length (spec.free (spec.step e w)))%nat.
Proof.
  destruct e as [f | regs inp]; cbn [spec.step spec.demand]; [cbn; lia |].
  destruct (Z.eqb_spec (idt.int_no regs) 32) as [E | E]; [cbn; lia |].
  destruct (spec.missing regs); [apply map_page_free | lia].
Qed.

Lemma run_events_bounded es k w :
  sim k w -> Forall event_ok es -> (spec.demands es < length (spec.free w))%nat ->
  PageDictionary.table_count (k_vmm k) + Z.of_nat (spec.demands es) <= TABLE_RESERVE ->
  exists k', run_events es k = Ok k' /\ sim k' (spec.steps es w) /\
    PageDictionary.table_count (k_vmm k') <= PageDictionary.table_count (k_vmm k) + Z.of_nat (spec.demands es) /\
    (length (spec.free w) - spec.demands es <= length (spec.free (spec.steps es w)))%nat.
Proof.
  intros Hs Hok. revert k w Hs. induction Hok as [| e es He Hok IH]; intros k w Hs Hf Ht;
    unfold spec.demands in *; cbn [kernel.run_events sum_list_with spec.steps foldl] in *.
  { exists k. split_and!; [done | done | lia | lia]. }
  destruct (handle_sim k w e Hs He) as (k' & -> & Hs' & Hcnt); [lia |]. cbn [obind].
  pose proof (step_free e w). destruct (IH k' _ Hs') as (k2 & Hr & Hs2 & Hc2 & Hf2); [lia | lia |].
  exists k2. split_and!; [done | done | lia |]. unfold spec.steps in Hf2. lia.
Qed.

Lemma run_events_sim es k w :
  sim k w -> Forall event_ok es -> (spec.demands es < length (spec.free w))%nat ->
  PageDictionary.table_count (k_vmm k) + Z.of_nat (spec.demands es) <= TABLE_RESERVE ->
  exists k', run_events es k = Ok k' /\ sim k' (spec.steps es w).
Proof. intros Hs Hok Hf Ht. destruct (run_events_bounded es k w Hs Hok Hf Ht) as (k' & ? & ? & _). by exists k'. Qed.

(** C1: The kernel implements its specification.  Whatever interrupts arrive, in whatever
    order, and whatever the threads do to the registers, the kernel returns from each, and
    afterwards the threads, their saved registers, the address translation and the free
    pages are those of the specification: timer interrupts turn the queue, a fault for a
    missing page maps the next free page, and nothing else has an effect on them.  Enough
    free pages and page tables must be left for the page faults among the events. *)
Theorem kernel_refines es k w :
  sim k w -> Forall event_ok es -> (spec.demands es < length (spec.free w))%nat ->
  PageDictionary.table_count (k_vmm k) + Z.of_nat (spec.demands es) <= TABLE_RESERVE ->
  exists k', run_events es k = Ok k' /\ sim k' (spec.steps es w).
Proof. apply run_events_sim. Qed.

(** *** Memory *)

(** The pages of the kernel's window onto the first 4 MB. *)
Definition window (n : Z) : Prop := PAGE_OFFSET / 4096 <= n < PAGE_OFFSET / 4096 + 1024.

(** Outside the window, pages have their own frames, none of them free. *)
Record isolated w : Prop := {
  iso_free : NoDup (spec.free w);
  iso_positive : Forall (fun p => 0 < p) (spec.free w);
  iso_frame : forall n p, ~ window n -> spec.space w n = Some p ->
    0 < p /\ p mod 4096 = 0 /\ p ∉ spec.free w;
  iso_apart : forall n m p, ~ window n -> ~ window m ->
    spec.space w n = Some p -> spec.space w m = Some p -> n = m
}.

Lemma map_page_isolated n w :
  Forall frame_ok (spec.free w) -> isolated w -> isolated (spec.map_page n w).
Proof.
  intros HF [Hnd Hpos Hfr Hap]. unfold spec.map_page.
  destruct (spec.space w n) eqn:E; [by split |]. destruct (last (spec.free w)) as [p |] eqn:El; [| by split].
  apply last_Some in El as [l Hl]. rewrite Hl in *. rewrite removelast_last.
  apply NoDup_app in Hnd as (Hnd & Hp & _). apply Forall_app in Hpos as [Hpos Hp0].
  apply Forall_app in HF as [_ Hpm]. apply Forall_cons in Hp0 as [Hp0 _]. apply Forall_cons in Hpm as [Hpm _].
  assert (Hpl : p ∉ l) by (intros Hin; apply (Hp p Hin); by apply list_elem_of_singleton).
  split; cbn [spec.free spec.space]; [done | done | |].
  - intros m q Hm. case_decide; [intros [= <-]; split_and!; [exact Hp0 | apply Hpm | done] |].
    intros Hq. destruct (Hfr m q Hm Hq) as (?&?&Hin). split_and!; [done | done |].
    intros ?. apply Hin, elem_of_app. by left.
  - intros a b q Ha Hb. repeat case_decide; subst; try done; [| | by apply Hap].
    + intros [= <-] Hq. destruct (Hfr b p Hb Hq) as (_&_&Hin). destruct Hin. apply elem_of_app.
      right. by apply list_elem_of_singleton.
    + intros Hq [= <-]. destruct (Hfr a p Ha Hq) as (_&_&Hin). destruct Hin. apply elem_of_app.
      right. by apply list_elem_of_singleton.
Qed.

Lemma map_page_frames n w : Forall frame_ok (spec.free w) -> Forall frame_ok (spec.free (spec.map_page n w)).
Proof.
  intros HF. unfold spec.map_page. case_match; [done |]. case_match eqn:El; [| done]. cbn.
  apply last_Some in El as [l Hl]. rewrite Hl, removelast_last in *. by apply Forall_app in HF as [? _].
Qed.

Lemma map_page_keeps n w m p : spec.space w m = Some p -> spec.space (spec.map_page n w) m = Some p.
Proof.
  intros Hm. unfold spec.map_page. destruct (spec.space w n) eqn:E; [done |].
  destruct (last (spec.free w)); [| done]. cbn. by case_decide; [congruence |].
Qed.

Lemma step_memory e w :
  Forall frame_ok (spec.free w) -> isolated w ->
  isolated (spec.step e w) /\ Forall frame_ok (spec.free (spec.step e w)) /\
  forall m p, spec.space w m = Some p -> spec.space (spec.step e w) m = Some p.
Proof.
  intros HF Hi. destruct e as [f | regs inp]; cbn [spec.step]; [split_and!; [by destruct Hi | done | done] |].
  destruct (idt.int_no regs =? 32); [split_and!; [by destruct Hi | done | done] |].
  destruct (spec.missing regs); [| done].
  split_and!; [by apply map_page_isolated | by apply map_page_frames | intros m p; apply map_page_keeps].
Qed.

Lemma steps_memory es w :
  Forall frame_ok (spec.free w) -> isolated w ->
  isolated (spec.steps es w) /\
  forall m p, spec.space w m = Some p -> spec.space (spec.steps es w) m = Some p.
Proof.
  unfold spec.steps. revert w. induction es as [| e es IH]; intros w HF Hi; cbn [foldl]; [done |].
  destruct (step_memory e w HF Hi) as (Hi1 & HF1 & Hk1). destruct (IH _ HF1 Hi1) as [Hi2 Hk2].
  split; [done |]. intros m p Hm. by apply Hk2, Hk1.
Qed.

(** An address is mapped outside the window. *)
Definition user_at (vma a : Z) k : Prop :=
  0 <= vma < 4294967296 /\ ~ window (vma / 4096) /\ a <> 0 /\
  PageDictionary.at_ self vma (k_vmm k) = Ok a.

Lemma user_frame k w vma a :
  sim k w -> user_at vma a k ->
  exists p, spec.space w (vma / 4096) = Some p /\ a = p + vma mod 4096.
Proof.
  intros Hs (Hv & _ & Ha & Hat). rewrite (ms_space _ _ _ (sim_mem _ _ Hs)) in Hat by done. injection Hat as <-.
  unfold translate in *. destruct (spec.space w (vma / 4096)) as [p |]; [by exists p | done].
Qed.

(** C9: Memory stays separated.  After any sequence of events outside the kernel's window,
    two addresses of different pages never share a page frame, no frame in use is on the free list, and
    what was mapped before is still mapped to the same place. *)
Theorem memory_isolated es k w :
  sim k w -> isolated w -> Forall event_ok es -> (spec.demands es < length (spec.free w))%nat ->
  PageDictionary.table_count (k_vmm k) + Z.of_nat (spec.demands es) <= TABLE_RESERVE ->
  exists k' l, run_events es k = Ok k' /\ pages (k_pmm k') l /\
    (forall v1 v2 a1 a2, user_at v1 a1 k' -> user_at v2 a2 k' -> same_page a1 a2 -> same_page v1 v2) /\
    (forall v a, user_at v a k' -> a - a mod 4096 ∉ l) /\
    forall v a, user_at v a k -> user_at v a k'.
Proof.
  intros Hs Hi Hok Hf Ht. destruct (run_events_sim es k w Hs Hok Hf Ht) as (k' & Hr & Hs').
  destruct (steps_memory es w (ms_free _ _ _ (sim_mem _ _ Hs)) Hi) as [Hi' Hkeep].
  set (w' := spec.steps es w) in *. exists k', (spec.free w'). split_and!; [done | apply (ms_pages _ _ _ (sim_mem _ _ Hs')) | | |].
  - intros v1 v2 a1 a2 H1 H2. pose proof H1 as (_ & Hw1 & _). pose proof H2 as (_ & Hw2 & _).
    destruct (user_frame k' w' v1 a1 Hs' H1) as (p1 & Hp1 & ->).
    destruct (user_frame k' w' v2 a2 Hs' H2) as (p2 & Hp2 & ->).
    destruct (iso_frame _ Hi' _ _ Hw1 Hp1) as (_ & Hm1 & _). destruct (iso_frame _ Hi' _ _ Hw2 Hp2) as (_ & Hm2 & _).
    unfold same_page. intros E. assert (p1 = p2) as -> by zlia. by apply (iso_apart _ Hi' _ _ p2).
  - intros v a H1. pose proof H1 as (_ & Hw1 & _).
    destruct (user_frame k' w' v a Hs' H1) as (p1 & Hp1 & ->).
    destruct (iso_frame _ Hi' _ _ Hw1 Hp1) as (_ & Hm1 & Hin).
    by replace (p1 + v mod 4096 - (p1 + v mod 4096) mod 4096) with p1 by zlia.
  - intros v a H1. pose proof H1 as (Hv & Hw & Ha & _). destruct (user_frame k w v a Hs H1) as (p & Hp & Hap).
    split_and!; try done; try apply Hv. rewrite (ms_space _ _ _ (sim_mem _ _ Hs')) by done. unfold translate.
    by rewrite (Hkeep _ _ Hp), <- Hap.
Qed.

(** *** Threads *)

Definition tick (e : event) : bool :=
  match e with Interrupt regs _ => idt.int_no regs =? 32 | Run _ => false end.

Definition ticks (es : list event) : nat := length (filter (fun e => tick e = true) es).

(** What the running thread makes of its registers. *)
Definition compute (es : list event) (c : task_context) : task_context :=
  foldl (fun c e => match e with Run f => f c | Interrupt _ _ => c end) c es.

Lemma step_threads e w :
  spec.threads (spec.step e w) =
    if tick e then spec.turn (spec.threads w)
    else match e with Run f => spec.run f (spec.threads w) | Interrupt _ _ => spec.threads w end.
Proof.
  destruct e as [f | regs inp]; cbn; [done |]. case_match; [done |].
  case_match; [apply map_page_threads | done].
Qed.

Lemma ticks_cons e es : ticks (e :: es) = ((if tick e then 1 else 0) + ticks es)%nat.
Proof. unfold ticks. rewrite filter_cons. by destruct (tick e). Qed.

Lemma steps_running es w x c q :
  spec.threads w = (x, c) :: q -> ticks es = 0%nat ->
  spec.threads (spec.steps es w) = (x, compute es c) :: q.
Proof.
  unfold spec.steps, compute. revert w c. induction es as [| e es IH]; intros w c Ht Hn; cbn [foldl]; [done |].
  rewrite ticks_cons in Hn. destruct (tick e) eqn:E; [lia |]. apply IH; [| lia].
  rewrite step_threads, E, Ht. by destruct e.
Qed.

(** A waiting thread comes forward with each timer interrupt, its registers untouched. *)
Lemma steps_waiting es w l1 x c l2 :
  spec.threads w = l1 ++ (x, c) :: l2 -> (ticks es < length l1)%nat ->
  exists l1' l2', spec.threads (spec.steps es w) = l1' ++ (x, c) :: l2' /\
    (length l1' + ticks es = length l1)%nat /\ (length l1' + length l2' = length l1 + length l2)%nat.
Proof.
  unfold spec.steps. revert w l1 l2. induction es as [| e es IH]; intros w l1 l2 Ht Hn; cbn [foldl].
  - exists l1, l2. split_and!; [done | cbn; lia | done].
  - rewrite ticks_cons in *. destruct l1 as [| [y d] l1]; [cbn in Hn; lia |]. cbn [length] in *.
    destruct (tick e) eqn:E.
    + destruct (IH (spec.step e w) l1 (l2 ++ [(y, d)])) as (l1' & l2' & -> & Hl & Hl2); [| lia |].
      * rewrite step_threads, E, Ht. cbn. by rewrite <- app_assoc.
      * exists l1', l2'. rewrite length_app in Hl2. cbn in Hl2. split_and!; [done | lia | lia].
    + assert (Hs : exists d', spec.threads (spec.step e w) = ((y, d') :: l1) ++ (x, c) :: l2).
      { rewrite step_threads, E, Ht. destruct e; cbn; by eexists. }
      destruct Hs as [d' Hs]. destruct (IH (spec.step e w) _ l2 Hs) as (l1' & l2' & ? & ? & ?); cbn [length] in *; [lia |].
      by exists l1', l2'.
Qed.

Lemma steps_app es1 es2 w : spec.steps (es1 ++ es2) w = spec.steps es2 (spec.steps es1 w).
Proof. apply foldl_app. Qed.

(** C17: Every thread has a processor of its own.  A thread that runs through [es1] and is
    stopped by a timer interrupt runs again after as many of them as there are other
    threads, with exactly the registers it left, whatever interrupts arrive in between and
    whatever the others do. *)
Theorem thread_resumes es1 t1 es2 t2 k w x c q :
  sim k w -> spec.threads w = (x, c) :: q -> q <> [] ->
  ticks es1 = 0%nat -> tick t1 = true -> ticks es2 = pred (length q) -> tick t2 = true ->
  let es := es1 ++ t1 :: es2 ++ [t2] in
  Forall event_ok es -> (spec.demands es < length (spec.free w))%nat ->
  PageDictionary.table_count (k_vmm k) + Z.of_nat (spec.demands es) <= TABLE_RESERVE ->
  exists k', run_events es k = Ok k' /\ TaskScheduler.running_ (k_sched k') = x /\
    TaskScheduler.cpu (k_sched k') = compute es1 c.
Proof.
  intros Hs Ht Hq H1 Ht1 H2 Ht2 es Hok Hf Htab.
  destruct (run_events_sim es k w Hs Hok Hf Htab) as (k' & Hr & Hs'). exists k'. split; [done |].
  assert (Hw : exists l, spec.threads (spec.steps es w) = (x, compute es1 c) :: l).
  { unfold es. rewrite steps_app. pose proof (steps_running es1 w x c q Ht H1) as Hw1.
    set (w1 := spec.steps es1 w) in *. change (spec.steps (t1 :: es2 ++ [t2]) w1)
      with (spec.steps (es2 ++ [t2]) (spec.step t1 w1)). rewrite steps_app.
    assert (Hw2 : spec.threads (spec.step t1 w1) = q ++ (x, compute es1 c) :: []).
    { by rewrite step_threads, Ht1, Hw1. }
    destruct (steps_waiting es2 _ _ _ _ _ Hw2) as (l1 & l2 & Hw3 & Hl & _); [destruct q; [done | simpl in *; lia] |].
    set (w3 := spec.steps es2 _) in *. change (spec.steps [t2] w3) with (spec.step t2 w3).
    rewrite step_threads, Ht2, Hw3. destruct l1 as [| y [| z l1]]; [destruct q; [done | simpl in *; lia] | |
      destruct q; [done | simpl in *; lia]].
    cbn. by eexists. }
  destruct Hw as [l Hw]. destruct (sim_threads _ _ Hs') as (x' & q' & Ht' & Hrun). rewrite Hw in Ht'.
  injection Ht' as -> -> _. split; [apply Hrun | done].
Qed.

End proofs.

(** ** A kernel with three threads and two free pages *)

Definition demo_idt : idt.t :=
  idt.mk [] 0 0 (<[14 := 0xC0101000]> (<[32 := 0xC0102000]> (<[33 := 0xC0103000]> ∅))).

Definition demo_kernel : kernel.t :=
  kernel.mk demo_idt two_pages PageDictionary.make keyboard.make three_tasks [].

Definition demo_world : spec.t :=
  spec.mk [(100, mk_context 1 0 0 0 0 0); (200, mk_context 2 0 0 0 0 0); (300, mk_context 3 0 0 0 0 0)]
    (fun _ => None) [0x101000; 0x102000].

Lemma demo_addr : NoDup [0; 0xC0101000; 0xC0102000; 0xC0103000].
Proof. apply (bool_decide_eq_true_1 _). vm_compute. done. Qed.

Lemma demo_sim : sim self0 0xC0101000 0xC0102000 0xC0103000 demo_kernel demo_world.
Proof.
  split; cbn.
  - intros n Hn. rewrite arr_get_in by (unfold idt.INTERRUPT_NUM; lia). f_equal. unfold handler_of, demo_idt.
    cbn [idt.interrupt_handlers].
    destruct (Z.eqb_spec n 14) as [-> | ?]; [by rewrite lookup_insert_eq |]. rewrite lookup_insert_ne by done.
    destruct (Z.eqb_spec n 32) as [-> | ?]; [by rewrite lookup_insert_eq |]. rewrite lookup_insert_ne by done.
    destruct (Z.eqb_spec n 33) as [-> | ?]; [by rewrite lookup_insert_eq |]. rewrite lookup_insert_ne by done.
    by rewrite lookup_empty.
  - split; [apply make_wf | | done | exact two_pages_ok | repeat constructor; lia].
    intros vma Hv. by apply at_make.
  - exists 100, [(200, mk_context 2 0 0 0 0 0); (300, mk_context 3 0 0 0 0 0)]. split; [done |]. exact three_runs.
  - exists zero_term. exact zero_shows.
Qed.

Definition demo_timer : event := Interrupt (idt.regs_of 32 0) (mk_inputs 0 0).
Definition demo_key : event := Interrupt (idt.regs_of 33 0) (mk_inputs 0 30).
Definition demo_fault : event := Interrupt (idt.regs_of 14 2) (mk_inputs 0x08000123 0).
Definition demo_trap : event := Interrupt (idt.regs_of 3 0) (mk_inputs 0 0).

Lemma kernel_refines_witness :
  exists k, kernel.run_events self0 0xC0101000 0xC0102000 0xC0103000
      [demo_key; demo_fault; demo_trap; demo_timer] demo_kernel = Ok k /\
    PageDictionary.at_ self0 0x08000123 (k_vmm k) = Ok 0x102123 /\ pages (k_pmm k) [0x101000].
Proof.
  destruct (kernel_refines self0 0xC0101000 0xC0102000 0xC0103000 self0_ok demo_addr
    [demo_key; demo_fault; demo_trap; demo_timer] demo_kernel demo_world demo_sim) as (k & Hr & Hs).
  - repeat constructor; cbn; lia.
  - vm_compute. lia.
  - vm_compute. congruence.
  - exists k. split; [exact Hr |]. split; [| exact (ms_pages _ _ _ _ (sim_mem _ _ _ _ _ _ Hs))].
    rewrite (ms_space _ _ _ _ (sim_mem _ _ _ _ _ _ Hs)) by lia. reflexivity.
Defined.

Lemma demo_isolated : isolated demo_world.
Proof. split; [apply (bool_decide_eq_true_1 _); vm_compute; done | repeat constructor; lia | done | done]. Qed.

Lemma memory_isolated_witness :
  exists k l, kernel.run_events self0 0xC0101000 0xC0102000 0xC0103000
      [demo_timer; demo_fault; demo_key] demo_kernel = Ok k /\ pages (k_pmm k) l /\
    forall v a, user_at self0 v a k -> a - a mod 4096 ∉ l.
Proof.
  destruct (memory_isolated self0 0xC0101000 0xC0102000 0xC0103000 self0_ok demo_addr
    [demo_timer; demo_fault; demo_key] demo_kernel demo_world demo_sim demo_isolated)
    as (k & l & Hr & Hp & _ & Hf & _).
  - repeat constructor; cbn; lia.
  - vm_compute. lia.
  - vm_compute. congruence.
  - exists k, l. split; [exact Hr |]. split; [exact Hp | exact Hf].
Defined.

(** The first thread stores 7 in a register, is interrupted, and finds it again. *)
Lemma thread_resumes_witness :
  exists k, kernel.run_events self0 0xC0101000 0xC0102000 0xC0103000
      [Run (fun c => mk_context 7 (ebp c) 0 0 0 0); demo_key; demo_timer;
       Run (fun _ => mk_context 99 0 0 0 0 0); demo_timer; demo_fault; demo_timer] demo_kernel = Ok k /\
    TaskScheduler.running_ (k_sched k) = 100 /\ TaskScheduler.cpu (k_sched k) = mk_context 7 0 0 0 0 0.
Proof.
  apply (thread_resumes self0 0xC0101000 0xC0102000 0xC0103000 self0_ok demo_addr
    [Run (fun c => mk_context 7 (ebp c) 0 0 0 0); demo_key] demo_timer
    [Run (fun _ => mk_context 99 0 0 0 0 0); demo_timer; demo_fault] demo_timer
    demo_kernel demo_world 100 (mk_context 1 0 0 0 0 0) _ demo_sim eq_refl);
    [done | reflexivity | reflexivity | reflexivity | reflexivity | | vm_compute; lia | vm_compute; congruence].
  repeat constructor; cbn; lia.
Defined.
