(* ===== verification/KernelHeap.v ===== *)
(** * The kernel heap under demand paging ([lib/kmalloc.cc], [include/ILAllocator.hpp], [lib/vmm.cc])

    [init_heap] maps no page: every page of the heap is mapped by the page fault of the first
    access to it.  The allocator of [Heap] is here the code of the running kernel: each header
    it reads or writes is an access that may fault ([touch]), and the page fault handler takes a
    page before the access is made again.  [new_nodes] are the [new ListNode()]s of the block
    cache; [new_nodes_ok] says which blocks and which pages they take. *)

From stdpp Require Import prelude gmap strings.
From Stdlib Require Import ZArith Lia.
From S2P Require Import Prelude CString LruCache LruCorrect Heap Interrupts Pmm Vmm Scheduler Fs CacheNodes Kernel.
Import ImplicitListAllocator kernel.

(** The kernel with other pages and another memory. *)
Definition with_mem (pm : pmm.t) (d : PageDictionary.t) (m : mem) (k : kernel.t) : kernel.t :=
  let s := k_sched k in
  kernel.mk (k_idt k) pm d (k_kbd k)
    (TaskScheduler.mk (TaskScheduler.runnable_tasks_ s) (TaskScheduler.running_ s) (TaskScheduler.waiting_tasks_ s)
       (TaskScheduler.pid_cnt_ s) (TaskScheduler.tasks s) m (TaskScheduler.con s) (TaskScheduler.cpu s))
    (k_ports k).

Definition kmem (k : kernel.t) : mem := TaskScheduler.memory (k_sched k).

Definition set_mem (m : mem) (k : kernel.t) : kernel.t := with_mem (k_pmm k) (k_vmm k) m k.

Module paged.
Section paged.
(** The addresses of [page_dictionary] and of the three handlers. *)
Context (self pf_addr timer_addr kbd_addr : Z).

(** An access to the virtual address [a]: the processor faults when its page is missing, with
    [err] = 0 for a read and [PAGE_WRITE] for a write, and the handler runs before the access is
    made again. *)
Definition touch (err a : Z) (k : kernel.t) : outcome kernel.t :=
  if mapped self (k_vmm k) a then Ok k
  else kernel.deliver self pf_addr timer_addr kbd_addr (idt.regs_of 14 err) (mk_inputs a 0) k.

(** A word may lie in two pages. *)
Definition touch_word (err a : Z) (k : kernel.t) : outcome kernel.t :=
  let! k := touch err a k in touch err (u32 (a + 3)) k.

(** [init_heap]: the constructor writes the first header. *)
Definition init_heap (k : kernel.t) : outcome (ImplicitListAllocator.t * kernel.t) :=
  let! k := touch_word PAGE_WRITE kHeapStart k in
  let '(h, m) := Heap.init_heap (kmem k) in Ok (h, set_mem m k).

Section allocator.
Context (fuel : nat) (a : ImplicitListAllocator.t).

(** The loop of [alloc]: the header at [cur] is read, and the two headers of [take_block] are
    written. *)
Fixpoint alloc_loop (fuel : nat) (cur size : Z) (k : kernel.t) : outcome (Z * kernel.t) :=
  match fuel with
  | O => NoFuel
  | S f =>
      if cur =? mend_ a then Ok (0, k)
      else
        let! k := touch_word 0 cur k in
        let block_size := size_of_block (kmem k) cur in
        if (size <=? block_size) && negb (is_allocated (kmem k) cur) then
          let! k := touch_word PAGE_WRITE cur k in
          let! k := (if 0 <? u32 (block_size - 4 - size)
                     then touch_word PAGE_WRITE (slice_block cur size) k else Ok k) in
          Ok (u32 (cur + 4), set_mem (take_block cur block_size size (kmem k)) k)
        else alloc_loop f (next_block (kmem k) cur) size k
  end.

Definition kmalloc (size : Z) (k : kernel.t) : outcome (Z * kernel.t) :=
  alloc_loop fuel (mstart_ a) (round_up size) k.

Definition operator_new (count : Z) (k : kernel.t) : outcome (Z * kernel.t) := kmalloc count k.

(** [new ListNode()]: the constructor writes [prev] and [next]. *)
Definition new_ListNode (k : kernel.t) : outcome (Z * kernel.t) :=
  let! '(p, k) := operator_new sizeof_ListNode k in
  let! k := touch_word PAGE_WRITE (u32 (p + 4)) k in
  let! k := touch_word PAGE_WRITE (u32 (p + 8)) k in
  Ok (p, k).

(** The nodes number [i] to [i + n - 1] of the cache.  The cache's own store has them at
    [node_at]: another address would be a fault of the model. *)
Fixpoint new_nodes (n : nat) (i : Z) (k : kernel.t) : outcome kernel.t :=
  match n with
  | O => Ok k
  | S n' =>
      let! '(p, k) := new_ListNode k in
      if p =? node_at i then new_nodes n' (i + 1) k else Fault
  end.

End allocator.
End paged.
End paged.
Import paged.

(** ** Blocks and pages *)

(** The heap after [n] nodes: their blocks, and the free rest. *)
Definition node_blocks (n : nat) : list block :=
  replicate n (sizeof_ListNode, true) ++
    [(kHeapEnd - kHeapStart - 4 - (4 + sizeof_ListNode) * Z.of_nat n, false)].

(** The bytes in use: the nodes with their headers, and the header of the free block. *)
Definition heap_bytes (n : nat) : Z := (4 + sizeof_ListNode) * Z.of_nat n + 4.

Definition heap_pages (n : nat) : nat := Z.to_nat ((heap_bytes n + 4095) / 4096).

(** The first page of the heap. *)
Definition heap_base : Z := kHeapStart / 4096.

(** The world when the first [j] pages of the heap are mapped: they are the last ones of the free
    pages [fr], the last one first. *)
Definition heap_world (ths : list (Z * task_context)) (space : Z -> option Z) (fr : list Z) (j : nat) : spec.t :=
  spec.mk ths
    (fun n => if decide (heap_base <= n < heap_base + Z.of_nat j)
              then reverse fr !! Z.to_nat (n - heap_base) else space n)
    (take (length fr - j) fr).

Lemma heap_pages_S n : (heap_pages n <= heap_pages (S n) <= heap_pages n + 1)%nat.
Proof. unfold heap_pages, heap_bytes, sizeof_ListNode. zlia. Qed.

Lemma heap_pages_mono n n' : (n <= n')%nat -> (heap_pages n <= heap_pages n')%nat.
Proof. intros. unfold heap_pages, heap_bytes, sizeof_ListNode. zlia. Qed.

(** A page of the heap is mapped next. *)
Lemma heap_world_map ths space fr j n :
  space (heap_base + Z.of_nat j) = None -> (j < length fr)%nat ->
  spec.space (spec.map_page (heap_base + Z.of_nat j) (heap_world ths space fr j)) n =
    spec.space (heap_world ths space fr (S j)) n /\
  spec.free (spec.map_page (heap_base + Z.of_nat j) (heap_world ths space fr j)) =
    spec.free (heap_world ths space fr (S j)).
Proof.
  intros Hn Hj. assert (Hl : (length fr - S j < length fr)%nat) by lia.
  destruct (lookup_lt_is_Some_2 fr _ Hl) as [p Hp].
  assert (Hfree : take (length fr - j) fr = take (length fr - S j) fr ++ [p]).
  { replace (length fr - j)%nat with (S (length fr - S j)) by lia. by apply take_S_r. }
  rewrite (map_page_missing _ (heap_world ths space fr j) (take (length fr - S j) fr) p).
  - cbn. split; [| done]. repeat case_decide; subst; try lia; try done.
    rewrite reverse_lookup by lia. rewrite <- Hp. f_equal. lia.
  - cbn. rewrite decide_False by lia. done.
  - exact Hfree.
Qed.

(** Worlds with the same pages. *)
Lemma mem_sim_ext self d pm w w' :
  (forall n, spec.space w' n = spec.space w n) -> spec.free w' = spec.free w ->
  mem_sim self d pm w -> mem_sim self d pm w'.
Proof.
  intros Hs Hf [Hw Ht Hfr Hp Hok]. split; [done | | | by rewrite Hf | by rewrite Hf].
  - intros vma Hv. unfold translate. rewrite Hs. by apply Ht.
  - intros n p. rewrite Hs. apply Hfr.
Qed.

Lemma with_mem_twice pm d m pm' d' m' k : with_mem pm' d' m' (with_mem pm d m k) = with_mem pm' d' m' k.
Proof. done. Qed.

Lemma with_mem_eta k : with_mem (k_pmm k) (k_vmm k) (kmem k) k = k.
Proof. by destruct k as [? ? ? ? [] ?]. Qed.

(** ** Accesses *)

(** A missing page: the dispatcher calls the page fault handler. *)
Lemma touch_fault self pf timer kbd err a k :
  pf <> 0 -> arr_get idt.INTERRUPT_NUM (idt.interrupt_handlers (k_idt k)) 14 = Some pf ->
  mapped self (k_vmm k) a = false ->
  touch self pf timer kbd err a k =
    let! '(d, pm) := PageDictionary.page_fault_handler self a err (k_vmm k) (k_pmm k) in
    Ok (kernel.mk (k_idt k) pm d (k_kbd k) (k_sched k) (k_ports k)).
Proof.
  intros Hpf Hh Hm. unfold touch. rewrite Hm. unfold kernel.deliver, idt.isr_dispatcher.
  cbn [idt.int_no idt.regs_of Z.ltb Z.compare Pos.compare Pos.compare_cont].
  rewrite Hh. cbn [or_fault obind]. rewrite (proj2 (Z.eqb_neq pf 0)) by done. cbn [negb].
  unfold kernel.call, page_fault. by rewrite Z.eqb_refl.
Qed.

(** Any access maps the page of its address. *)
Lemma touch_ok self pf timer kbd err a k w :
  self mod 4096 = 0 /\ PAGE_OFFSET <= self /\ self + 4096 * 129 < 4294967296 ->
  pf <> 0 -> Z.land err 1 = 0 ->
  arr_get idt.INTERRUPT_NUM (idt.interrupt_handlers (k_idt k)) 14 = Some pf ->
  mem_sim self (k_vmm k) (k_pmm k) w -> 0 <= a < 4294967296 ->
  (2 <= length (spec.free w))%nat -> PageDictionary.table_count (k_vmm k) < TABLE_RESERVE ->
  exists d pm, touch self pf timer kbd err a k = Ok (kernel.mk (k_idt k) pm d (k_kbd k) (k_sched k) (k_ports k)) /\
    mem_sim self d pm (spec.map_page (a / 4096) w) /\
    PageDictionary.table_count d <= PageDictionary.table_count (k_vmm k) + 1.
Proof.
  intros Hself Hpf He Hh Hm Ha Hl Hroom. destruct (mapped self (k_vmm k) a) eqn:E.
  - unfold touch. rewrite E. rewrite (mem_mapped _ Hself _ _ _ _ Hm Ha) in E. apply bool_decide_eq_true_1 in E as [p Hp].
    exists (k_vmm k), (k_pmm k). rewrite (map_page_present _ _ _ Hp). split_and!; [by destruct k | done | lia].
  - rewrite touch_fault by done.
    destruct (fault_mem _ Hself (k_vmm k) (k_pmm k) w a err Hm Ha He Hl Hroom) as (d & pm & -> & ? & ?).
    cbn [obind]. by exists d, pm.
Qed.

Section proofs.
Context (self pf timer kbd : Z).
Hypothesis Hself : self mod 4096 = 0 /\ PAGE_OFFSET <= self /\ self + 4096 * 129 < 4294967296.
Hypothesis Hpf : pf <> 0.
(** The threads, the pages mapped below the heap, and the free pages before the heap is used. *)
Context (ths : list (Z * task_context)) (space : Z -> option Z) (fr : list Z).
Hypothesis Hspace : forall n, heap_base <= n -> space n = None.
Implicit Types (k : kernel.t) (j : nat).

Abbreviation world := (heap_world ths space fr).
Abbreviation touch := (touch self pf timer kbd).
Abbreviation touch_word := (touch_word self pf timer kbd).

(** The page fault handler is registered, and [j] pages of the heap are mapped, through one
    page table. *)
Record at_pages k j : Prop := {
  ap_handler : arr_get idt.INTERRUPT_NUM (idt.interrupt_handlers (k_idt k)) 14 = Some pf;
  ap_mem : mem_sim self (k_vmm k) (k_pmm k) (world j);
  ap_tables : PageDictionary.table_count (k_vmm k) <= if decide (j = 0%nat) then 1 else 2
}.

Lemma at_pages_mem k j m : at_pages k j -> at_pages (set_mem m k) j.
Proof. by intros []. Qed.

(** An access to a page that is mapped. *)
Lemma touch_mapped err k j a :
  at_pages k j -> kHeapStart <= a < kHeapEnd -> a / 4096 < heap_base + Z.of_nat j ->
  (j <= length fr)%nat -> touch err a k = Ok k.
Proof.
  intros [_ Hm _] Ha Hj Hl. unfold paged.touch. unfold heap_base, kHeapStart, kHeapEnd in *.
  rewrite (mem_mapped _ Hself _ _ _ a Hm) by lia. rewrite bool_decide_true; [done |].
  cbn. unfold heap_base, kHeapStart. rewrite decide_True by zlia.
  apply lookup_lt_is_Some_2. rewrite length_reverse. zlia.
Qed.

(** A page table that exists is used again. *)
Lemma index_count d vma pm a d' pm' :
  wf self d -> 0 <= vma < 4294967296 -> present (pde d vma) = true ->
  PageDictionary.index self vma d pm = Ok (a, d', pm') ->
  PageDictionary.table_count d' = PageDictionary.table_count d.
Proof.
  intros Hw Hv Hp. unfold PageDictionary.index.
  destruct (find_table_ok self Hself d vma Hw Hv (or_introl Hp)) as (i & d1 & -> & _ & _ & _ & _ & Hd & _).
  rewrite (Hd Hp). cbn [obind]. destruct (PageTable.index _ _ _) as [[[b pt] pm1] | | |]; [| done..].
  by intros [= _ <- _].
Qed.

(** The first access to the next page. *)
Lemma touch_next err k j a :
  at_pages k j -> Z.land err 1 = 0 -> kHeapStart <= a < kHeapStart + 0x400000 ->
  a / 4096 = heap_base + Z.of_nat j -> (S j < length fr)%nat ->
  exists pm d, touch err a k = Ok (with_mem pm d (kmem k) k) /\ at_pages (with_mem pm d (kmem k) k) (S j).
Proof.
  intros [Hh Hm Ht] He Ha Hj Hl. unfold heap_base, kHeapStart in *.
  assert (Hn : spec.space (world j) (a / 4096) = None).
  { cbn. rewrite Hj, decide_False by (unfold heap_base, kHeapStart; lia). apply Hspace. unfold heap_base, kHeapStart. lia. }
  rewrite touch_fault by (rewrite ?(mem_mapped _ Hself _ _ _ a Hm), ?Hn by lia; done).
  destruct (fault_mem _ Hself (k_vmm k) (k_pmm k) (world j) a err Hm) as (d & pm & Hf & Hm' & Hc);
    [lia | done | cbn; rewrite length_take; lia | unfold TABLE_RESERVE; case_decide; lia |].
  rewrite Hf. cbn [obind]. exists pm, d. split; [by destruct k as [? ? ? ? [] ?] |].
  split; [done | |].
  - destruct (heap_world_map ths space fr j 0) as [_ Hfree]; [apply Hspace; unfold heap_base, kHeapStart; lia | lia |].
    rewrite Hj in Hm'. eapply mem_sim_ext; [| symmetry; exact Hfree | exact Hm'].
    intros n. symmetry. apply heap_world_map; [apply Hspace; unfold heap_base, kHeapStart; lia | lia].
  - cbn. destruct (decide (S j = 0%nat)); [lia |]. case_decide as Hj0; [lia |].
    assert (Hpde : present (pde (k_vmm k) a) = true).
    { assert (Hs : mapped self (k_vmm k) kHeapStart = true).
      { rewrite (mem_mapped _ Hself _ _ _ _ Hm) by done. apply bool_decide_true. cbn.
        rewrite decide_True by (unfold heap_base; zlia). apply lookup_lt_is_Some_2.
        rewrite length_reverse. unfold heap_base. zlia. }
      apply andb_prop in Hs as [Hs _]. unfold pde in *. replace (PageDictionary.dict_index a) with (PageDictionary.dict_index kHeapStart); [done |].
      rewrite !dict_index_val by (unfold kHeapStart; lia). unfold kHeapStart. zlia. }
    unfold PageDictionary.page_fault_handler, PAGE_PRESENT in Hf. rewrite He in Hf. cbn [Z.eqb] in Hf.
    destruct (PageDictionary.index self a (k_vmm k) (k_pmm k)) as [[[b d1] pm1] | | |] eqn:Ei; [| done..].
    cbn [obind] in Hf. injection Hf as <- <-.
    assert (Hav : 0 <= a < 4294967296) by lia. rewrite (index_count _ _ _ _ _ _ (ms_wf _ _ _ _ Hm) Hav Hpde Ei). lia.
Qed.

(** Any access to the pages in use or to the next one. *)
Lemma touch_any err k j a :
  at_pages k j -> Z.land err 1 = 0 -> kHeapStart <= a < kHeapStart + 0x400000 ->
  a / 4096 <= heap_base + Z.of_nat j -> a / 4096 + 1 < heap_base + Z.of_nat (length fr) -> (j <= length fr)%nat ->
  exists pm d, touch err a k = Ok (with_mem pm d (kmem k) k) /\
    at_pages (with_mem pm d (kmem k) k) (Nat.max j (Z.to_nat (a / 4096 - heap_base + 1))).
Proof.
  intros Hk He Ha Hj Hl Hjl. assert (Hb : heap_base <= a / 4096) by (unfold heap_base, kHeapStart in *; zlia).
  destruct (decide (a / 4096 = heap_base + Z.of_nat j)) as [E | E].
  - destruct (touch_next err k j a Hk He Ha E) as (pm & d & -> & H'); [lia |]. exists pm, d. split; [done |].
    by replace (Nat.max j _) with (S j) by lia.
  - exists (k_pmm k), (k_vmm k). rewrite with_mem_eta. replace (Nat.max j _) with j by lia. split; [| done].
    apply (touch_mapped err k j a Hk); [| lia | lia]. unfold kHeapStart, kHeapEnd in *. lia.
Qed.

Lemma touch_word_mapped err k j a :
  at_pages k j -> kHeapStart <= a -> a + 3 < kHeapStart + 0x400000 ->
  (a + 3) / 4096 < heap_base + Z.of_nat j -> (j <= length fr)%nat -> touch_word err a k = Ok k.
Proof.
  intros Hk Ha Ha2 Hj Hl. unfold paged.touch_word, kHeapStart, kHeapEnd in *.
  rewrite (touch_mapped err k j a) by (done || unfold kHeapStart, kHeapEnd; zlia). cbn [obind].
  rewrite u32_small by lia. by apply (touch_mapped err k j); [done | unfold kHeapStart, kHeapEnd; lia | ..].
Qed.

Lemma touch_word_next err k j a :
  at_pages k j -> Z.land err 1 = 0 -> kHeapStart <= a -> a + 3 < kHeapStart + 0x400000 ->
  a / 4096 <= heap_base + Z.of_nat j -> (a + 3) / 4096 + 1 < heap_base + Z.of_nat (length fr) -> (j <= length fr)%nat ->
  exists pm d, touch_word err a k = Ok (with_mem pm d (kmem k) k) /\
    at_pages (with_mem pm d (kmem k) k) (Nat.max j (Z.to_nat ((a + 3) / 4096 - heap_base + 1))).
Proof.
  intros Hk He Ha Ha2 Hj Hl Hjl. assert (Hb : heap_base <= a / 4096) by (unfold heap_base, kHeapStart in *; zlia).
  unfold paged.touch_word. assert (Hu : u32 (a + 3) = a + 3) by (unfold kHeapStart in *; apply u32_small; lia).
  destruct (touch_any err k j a Hk He) as (pm & d & -> & H1); [lia | done | zlia | done |]. cbn [obind]. rewrite Hu.
  destruct (touch_any err _ _ (a + 3) H1 He) as (pm2 & d2 & -> & H2); [lia | zlia | done | zlia |].
  change (kmem (with_mem pm d (kmem k) k)) with (kmem k) in *. rewrite with_mem_twice in *.
  exists pm2, d2. split; [done |].
  by replace (Nat.max j _) with (Nat.max (Nat.max j (Z.to_nat (a / 4096 - heap_base + 1))) (Z.to_nat ((a + 3) / 4096 - heap_base + 1))) by zlia.
Qed.

(** ** Allocation *)

Abbreviation allocator := (ImplicitListAllocator.mk kHeapStart kHeapEnd).

(** The walk passes over the nodes. *)
Lemma walk_nodes f k j c r size e :
  at_pages k j -> kHeapStart <= c -> c + (4 + sizeof_ListNode) * Z.of_nat r < kHeapStart + 0x400000 ->
  c + (4 + sizeof_ListNode) * Z.of_nat r < (heap_base + Z.of_nat j) * 4096 -> (j <= length fr)%nat ->
  heap_at (kmem k) c (replicate r (sizeof_ListNode, true)) e ->
  alloc_loop self pf timer kbd allocator (r + f) c size k =
    alloc_loop self pf timer kbd allocator f (c + (4 + sizeof_ListNode) * Z.of_nat r) size k.
Proof.
  unfold sizeof_ListNode. intros Hk. revert c. induction r as [| r IH]; intros c Hc Hlim Hj Hl Hh.
  - f_equal. lia.
  - assert (He : e = c + 1044 * Z.of_nat (S r)).
    { clear -Hh. revert c Hh. generalize (S r). intros n. induction n as [| n IH]; intros c; cbn; [lia |].
      intros (_ & _ & _ & _ & Hh). apply IH in Hh. lia. }
    cbn [Nat.add alloc_loop mend_]. unfold kHeapStart, kHeapEnd in *.
    destruct (Z.eqb_spec c 0xD1000000); [lia |].
    rewrite (touch_word_mapped 0 k j c) by (done || unfold kHeapStart; zlia). cbn [obind].
    destruct (walk_step _ _ _ _ _ _ Hh) as (Hs & Hal & Hn); [lia | lia |]. rewrite Hal, andb_false_r, Hn.
    destruct Hh as (_ & _ & _ & _ & Hh). fold (replicate r (1040, true)) in Hh.
    rewrite IH; [f_equal; lia | lia | lia | lia | done | exact Hh].
Qed.

Lemma extent_nodes n : extent (replicate n (sizeof_ListNode, true)) = (4 + sizeof_ListNode) * Z.of_nat n.
Proof. induction n as [| n IH]; [done |]. cbn [replicate]. rewrite extent_cons, IH. cbn [fst]. lia. Qed.

(** The memory after one node. *)
Lemma take_node m n :
  heap_at m kHeapStart (node_blocks n) kHeapEnd -> (n < 4000)%nat ->
  let c := kHeapStart + (4 + sizeof_ListNode) * Z.of_nat n in
  let b := kHeapEnd - kHeapStart - 4 - (4 + sizeof_ListNode) * Z.of_nat n in
  let m' := take_block c b sizeof_ListNode m in
  size_of_block m c = b /\ is_allocated m c = false /\
  heap_at m' kHeapStart (node_blocks (S n)) kHeapEnd /\
  forall x, x < kHeapStart \/ kHeapEnd <= x -> load8 m' x = load8 m x.
Proof.
  intros Hh Hn c b m'. unfold node_blocks in Hh. apply heap_at_app in Hh as (Hh1 & _ & Hh2).
  rewrite extent_nodes in Hh1, Hh2. fold c b in Hh1, Hh2. unfold sizeof_ListNode, kHeapStart, kHeapEnd in *.
  destruct (walk_step _ _ _ _ _ _ Hh2) as (Hs & Hal & _); [lia | lia |].
  destruct (take_block_ok m c b 1040 [] _ Hh2) as [Ht Hfr]; [lia | lia | lia | done | lia |]. fold m' in Ht, Hfr.
  destruct (Z.eqb_spec (b - 4 - 1040) 0); [lia |].
  split_and!; [done | done | | intros x Hx; apply Hfr; lia].
  unfold node_blocks, sizeof_ListNode, kHeapStart, kHeapEnd. replace (S n) with (n + 1)%nat by lia. rewrite replicate_add, <- app_assoc. cbn [replicate app].
  apply heap_at_app. rewrite extent_nodes. fold c. unfold sizeof_ListNode. split_and!; [| lia |].
  - eapply heap_at_ext; [exact Hh1 |]. intros x Hx1 Hx2. unfold load32. f_equal.
    apply load_bytes_ext. intros y Hy. apply Hfr. lia.
  - fold c. replace (_ - _ - 4 - _) with (b - 4 - 1040) by lia. exact Ht.
Qed.

(** One node. *)
Lemma new_ListNode_ok fuel k n :
  at_pages k (heap_pages n) -> heap_at (kmem k) kHeapStart (node_blocks n) kHeapEnd ->
  (n < 4000)%nat -> (heap_pages (S n) < length fr)%nat -> (S n < fuel)%nat ->
  exists pm d m, new_ListNode self pf timer kbd fuel allocator k = Ok (node_at (Z.of_nat n), with_mem pm d m k) /\
    at_pages (with_mem pm d m k) (heap_pages (S n)) /\
    heap_at m kHeapStart (node_blocks (S n)) kHeapEnd /\
    forall x, x < kHeapStart \/ kHeapEnd <= x -> load8 m x = load8 (kmem k) x.
Proof.
  intros Hk Hh Hn Hl Hf. pose proof (heap_pages_S n) as Hp.
  destruct (take_node (kmem k) n Hh Hn) as (Hs & Hal & Hh' & Hfr).
  unfold new_ListNode, operator_new, paged.kmalloc. cbn [mstart_]. change (round_up sizeof_ListNode) with sizeof_ListNode.
  replace fuel with (n + S (fuel - n - 1))%nat by lia.
  unfold node_blocks in Hh. apply heap_at_app in Hh as (Hh1 & _ & _).
  assert (Hb : forall n, heap_pages n = Z.to_nat ((heap_bytes n + 4095) / 4096)) by done.
  pose proof (Hb n) as Hbn. pose proof (Hb (S n)) as HbS. unfold heap_bytes in Hbn, HbS.
  rewrite (walk_nodes _ k (heap_pages n) kHeapStart n sizeof_ListNode _ Hk) by
    (try exact Hh1; unfold heap_base, sizeof_ListNode, kHeapStart in *; zlia).
  set (c := kHeapStart + (4 + sizeof_ListNode) * Z.of_nat n) in *. cbn [alloc_loop mend_].
  assert (Hc : c = 0xD0000000 + 1044 * Z.of_nat n) by (unfold c, kHeapStart, sizeof_ListNode; lia).
  destruct (Z.eqb_spec c kHeapEnd); [unfold kHeapEnd in *; lia |].
  assert (Hm : forall err k', at_pages k' (heap_pages n) -> touch_word err c k' = Ok k').
  { intros err k' Hk'. apply (touch_word_mapped err k' _ c Hk'); unfold heap_base, kHeapStart, sizeof_ListNode in *; try lia; zlia. }
  rewrite Hm by done. cbn [obind]. rewrite Hs, Hal. cbn [negb andb].
  unfold sizeof_ListNode, kHeapStart, kHeapEnd in *.
  rewrite (proj2 (Z.leb_le _ _)) by lia. cbn [negb andb]. rewrite Hm by done. cbn [obind].
  rewrite (u32_small (_ - 4 - 1040)) by lia. rewrite (proj2 (Z.ltb_lt _ _)) by lia.
  unfold slice_block. rewrite (u32_small (c + 1040 + 4)), (u32_small (c + 4)) by lia.
  destruct (touch_word_next PAGE_WRITE k _ (c + 1040 + 4) Hk) as (pm & d & -> & Hk1);
    [done | unfold heap_base, kHeapStart in *; zlia..|].
  cbn [obind]. change (kmem (with_mem pm d (kmem k) k)) with (kmem k).
  replace (Nat.max _ _) with (heap_pages (S n)) in Hk1 by (unfold heap_base, kHeapStart; zlia).
  set (m' := take_block _ _ _ _) in *.
  assert (Hk2 : at_pages (with_mem pm d m' k) (heap_pages (S n))) by (by destruct Hk1; split).
  change (set_mem m' (with_mem pm d (kmem k) k)) with (with_mem pm d m' k).
  assert (Hm2 : forall x, c + 4 <= x <= c + 1040 -> touch_word PAGE_WRITE x (with_mem pm d m' k) = Ok (with_mem pm d m' k)).
  { intros x Hx. apply (touch_word_mapped _ _ _ x Hk2); unfold heap_base, kHeapStart in *; try lia; zlia. }
  rewrite !u32_small by lia. rewrite !Hm2 by lia. cbn [obind]. rewrite Hm2 by lia. cbn [obind].
  exists pm, d, m'. split; [| done]. do 2 f_equal. unfold node_at, kHeapStart, sizeof_ListNode. lia.
Qed.

(** The nodes of the cache. *)
Lemma new_nodes_ok fuel k n r :
  at_pages k (heap_pages n) -> heap_at (kmem k) kHeapStart (node_blocks n) kHeapEnd ->
  (n + r <= 4000)%nat -> (heap_pages (n + r) < length fr)%nat -> (n + r < fuel)%nat ->
  exists pm d m, new_nodes self pf timer kbd fuel allocator r (Z.of_nat n) k = Ok (with_mem pm d m k) /\
    at_pages (with_mem pm d m k) (heap_pages (n + r)) /\
    heap_at m kHeapStart (node_blocks (n + r)) kHeapEnd /\
    forall x, x < kHeapStart \/ kHeapEnd <= x -> load8 m x = load8 (kmem k) x.
Proof.
  revert n k. induction r as [| r IH]; intros n k Hk Hh Hn Hl Hf; cbn [new_nodes].
  - rewrite Nat.add_0_r in *. exists (k_pmm k), (k_vmm k), (kmem k). by rewrite with_mem_eta.
  - assert (E : (n + S r = S n + r)%nat) by lia. rewrite E in *.
    pose proof (heap_pages_mono (S n) (S n + r)) as Hmono.
    destruct (new_ListNode_ok fuel k n Hk Hh) as (pm & d & m & -> & Hk1 & Hh1 & Hm1); [lia.. |].
    cbn [obind]. rewrite Z.eqb_refl. replace (Z.of_nat n + 1) with (Z.of_nat (S n)) by lia.
    destruct (IH (S n) _ Hk1 Hh1) as (pm2 & d2 & m2 & -> & Hk2 & Hh2 & Hm2); [lia.. |].
    rewrite with_mem_twice in *. exists pm2, d2, m2. split_and!; [done | done | done |].
    intros x Hx. rewrite Hm2 by done. by apply Hm1.
Qed.

(** The first access to the heap. *)
Lemma init_heap_paged k :
  at_pages k 0 -> (1 < length fr)%nat ->
  exists pm d, paged.init_heap self pf timer kbd k =
      Ok (allocator, with_mem pm d (snd (Heap.init_heap (kmem k))) k) /\
    at_pages (with_mem pm d (snd (Heap.init_heap (kmem k))) k) (heap_pages 0) /\
    heap_at (snd (Heap.init_heap (kmem k))) kHeapStart (node_blocks 0) kHeapEnd /\
    forall x, x < kHeapStart \/ kHeapEnd <= x -> load8 (snd (Heap.init_heap (kmem k))) x = load8 (kmem k) x.
Proof.
  intros Hk Hl. unfold paged.init_heap.
  destruct (touch_word_next PAGE_WRITE k 0 kHeapStart Hk) as (pm & d & -> & Hk1);
    [done | unfold heap_base, kHeapStart in *; try lia; zlia.. |].
  cbn [obind]. exists pm, d. split; [done |]. split; [by destruct Hk1; split |].
  split; [exact (proj2 (proj2 (init_heap_ok (kmem k)))) |]. intros x Hx.
  unfold Heap.init_heap, make. cbn [snd]. unfold record, store32. rewrite load8_store_bytes, length_le_encode, decide_False; [done |].
  unfold kHeapStart, kHeapEnd in *. lia.
Qed.

End proofs.

(** ** A kernel with three pages to spare *)

Definition spare_pages : pmm.t := pmm.mk (<[0 := 0x101000]> (<[1 := 0x102000]> (<[2 := 0x103000]> ∅))) 2 3.

Definition spare_kernel : kernel.t :=
  kernel.mk demo_idt spare_pages PageDictionary.make (k_kbd demo_kernel) (k_sched demo_kernel) [].

Lemma spare_at_pages :
  at_pages self0 0xC0101000 [] (fun _ => None) [0x101000; 0x102000; 0x103000] spare_kernel 0.
Proof.
  pose proof (sim_mem _ _ _ _ _ _ demo_sim) as [Hw Hs _ _ _].
  split; [by apply (sim_handlers _ _ _ _ _ _ demo_sim 14) | | done]. split; [exact Hw | | | |].
  - intros vma Hv. etransitivity; [exact (Hs vma Hv) |]. f_equal. unfold translate. cbn. by rewrite decide_False by lia.
  - intros n p. cbn. by rewrite decide_False by lia.
  - split; [done | rewrite stack_len_val; simpl; lia |].
    intros [| [| [| i]]] p; [by intros [= <-] | by intros [= <-] | by intros [= <-] | done].
  - repeat constructor; cbn; lia.
Qed.

