(* ===== verification/Start.v ===== *)
(** * Starting the kernel ([kern_init] of [init/entry.cc])

    The whole state and the sequence of calls that builds it.  The nodes of the block cache are
    allocated on the kernel's heap, whose pages the page fault handler maps ([KernelHeap]).  The
    theorems compose the components' theorems: [kern_init] returns from every step, and leaves a kernel that
    implements the specification of [Kernel], with the heap blocks and the pages of those nodes
    in use. *)

From stdpp Require Import prelude gmap strings.
From Stdlib Require Import ZArith Lia.
From S2P Require Import Prelude CString LruCache LruCorrect Heap Interrupts Pmm Vmm Console.
From S2P Require Import Printk Keyboard Scheduler Ide Fs FsEvict FsArrays FsInit Dirs FsSync Files Boot.
From S2P Require Import CacheNodes Debug Kernel KernelHeap.
Import kernel.

(** What the linker places: tables, stubs, handlers, strings, the boot stack, and the size
    of the kernel. *)
Record image := mk_image {
  gdt_table : Z;
  idt_table : Z;
  isr_stub : Z -> Z;
  irq_stub : Z -> Z;
  page_dictionary : Z;
  page_fault_addr : Z;
  timer_addr : Z;
  keyboard_addr : Z;
  uncache_addr : Z;
  kern_stack : Z;
  kern_size : Z;
  strtab_lit : Z;
  symtab_lit : Z
}.

(** [operator new] for the nodes of the block cache. *)
#[local] Existing Instance kernel_nodes.

Module start.

(** All the kernel's variables; the disk is in the file system's. *)
Record t {D : Type} := mk {
  s_kern : kernel.t;
  s_gdt : gdt.t;
  s_elf : elf.elf_t;
  s_heap : ImplicitListAllocator.t;
  s_dev : ide.ide_device;
  s_fs : fs.t (D := D);
  s_cr3 : Z
}.
Arguments t : clear implicits.

Section start.
Context {D : Type} `{Device D} `{RawMemory block_buffer}.
Context (im : image) (fuel : nat).

(** The nodes of the block cache. *)
Definition nodes_of (f : fs.t (D := D)) : nat := base.size (LRUCache.heap (fs.g_block_cache f)).

(** The [new ListNode()]s that the cache made between [f] and [f'], on the kernel heap.  A node
    that is in use is in the store of the cache and not in the memory of the kernel, and nothing in
    [lib/fs.cc] reads the heap's headers, the page tables or the free pages: so they are
    made here after the function that asks for them, in its order. *)
Definition allocate_nodes (h : ImplicitListAllocator.t) (f f' : fs.t (D := D)) (k : kernel.t) : outcome kernel.t :=
  paged.new_nodes (page_dictionary im) (page_fault_addr im) (timer_addr im) (keyboard_addr im) fuel h
    (nodes_of f' - nodes_of f) (Z.of_nat (nodes_of f)) k.

(** "ide not available" is the message of the assertion; this is "Hello, Code\n". *)
Definition hello : list Z := [72; 101; 108; 108; 111; 44; 32; 67; 111; 100; 101; 10].

(** [kern_init] before the call of [test_fs].  [mb] is [glb_mboot_ptr]; [raw_elf] and
    [raw_context] are what the local [elf] and the boot stack hold before they are set. *)
Definition init_all (mb : Z) (raw_elf : elf.elf_t) (raw_context : task_context) (s : t D)
    : outcome (t D) :=
  let k := s_kern s in
  let sch := k_sched k in
  let m := TaskScheduler.memory sch in
  (* init_debug *)
  let! e := debug.init_debug fuel m mb (strtab_lit im) (symtab_lit im) raw_elf in
  let! g := gdt.init_gdt (gdt_table im) (s_gdt s) in
  let! '(it, tr) := idt.init_idt (isr_stub im) (irq_stub im) (idt_table im) (k_idt k) (k_ports k) in
  let! pm := pmm.init_pmm fuel (kern_size im) m (entry.mb_mmap_addr m mb)
               (entry.mb_mmap_length m mb) (k_pmm k) in
  let! it := keyboard.init_keyboard (keyboard_addr im) it in
  let! '(d, it, cr3) := PageDictionary.init_vmm (page_dictionary im) (page_fault_addr im)
                          (k_vmm k) it in
  let k := kernel.mk it pm d (k_kbd k) sch tr in
  (* the first header of the heap is in a page that is not mapped yet *)
  let! '(h, k) := paged.init_heap (page_dictionary im) (page_fault_addr im) (timer_addr im)
                    (keyboard_addr im) k in
  let sch := TaskScheduler.init_kthread (kern_stack im) raw_context (kmem k) (TaskScheduler.con sch)
               (TaskScheduler.cpu sch) in
  let! '(it, tr) := timer.init_timer (timer_addr im) 200 (k_idt k) (k_ports k) in
  let k := kernel.mk it (k_pmm k) (k_vmm k) (k_kbd k) sch tr in
  let! '(r, dev, disk) := ide.ide_init fuel (s_dev s) (fs.disk_ (s_fs s)) in
  kassert (r =? 0) "ide not available" (
    let f0 := fs.with_cache (fs.g_block_cache (s_fs s)) disk (s_fs s) in
    let! f := fs.init_fs fuel dev (uncache_addr im) f0 in
    let! k := allocate_nodes h f0 f k in
    let! c := console.console_clear (TaskScheduler.con (k_sched k)) in
    let! c := printk.printk hello [] c in
    Ok (mk D (set_sched (set_con c (k_sched k)) k) g e h dev f cr3)).

(** [test_fs] on the kernel's file system and console. *)
Definition run_test (depth : nat) (s : t D) : outcome (t D) :=
  let k := s_kern s in
  let! '(f, c) := files.test_fs fuel (s_dev s) (uncache_addr im) depth (s_fs s)
                    (TaskScheduler.con (k_sched k)) in
  let! k := allocate_nodes (s_heap s) (s_fs s) f k in
  Ok (mk D (set_sched (set_con c (k_sched k)) k) (s_gdt s) (s_elf s) (s_heap s) (s_dev s) f (s_cr3 s)).

(** [kern_init] up to its last loop, which only waits for interrupts. *)
Definition kern_init (depth : nat) (mb : Z) (raw_elf : elf.elf_t) (raw_context : task_context) (s : t D)
    : outcome (t D) :=
  let! s := init_all mb raw_elf raw_context s in run_test depth s.

End start.
End start.
Import start.

(** ** The steps *)

(** The window onto the first 4 MB, as [init_vmm] leaves it. *)
Definition boot_space (n : Z) : option Z :=
  if decide (PAGE_OFFSET / 4096 <= n < PAGE_OFFSET / 4096 + 1024)
  then Some ((n - PAGE_OFFSET / 4096) * 4096) else None.

(** The pages of the memory map are page frames above 1 MB. *)
Lemma map_pages_frames ks m e n :
  0 <= ks < 0x20000000 -> ks mod 4096 = 0 ->
  Forall (fun p => frame_ok p /\ 0 < p) (map_pages ks m e n).
Proof.
  intros Hk Hm. revert e. induction n as [| n IH]; intros e; cbn [map_pages]; [done |].
  apply Forall_app. split; [| apply IH]. unfold entry_pages. case_decide as Hd; [| done].
  apply Forall_forall. intros p Hp. apply page_list_elem in Hp as (Hr & Hmax & Ha).
  destruct Hd as [_ Hb]. rewrite Hb, u32_small in * by lia. unfold pmm.PMM_MAX_SIZE in *.
  unfold frame_ok. split_and!; zlia.
Qed.

Section boot.
Context (self pf timer kbd : Z).
Hypothesis Hself : self mod 4096 = 0 /\ PAGE_OFFSET <= self /\ self + 4096 * 129 < 4294967296.
Hypothesis Haddr : NoDup [0; pf; timer; kbd].

(** Registering the three handlers in an empty table. *)
Lemma handlers_registered it it1 it2 it3 :
  (forall n, 0 <= n < 256 -> arr_get idt.INTERRUPT_NUM (idt.interrupt_handlers it) n = Some 0) ->
  idt.register_isr idt.IRQ1 kbd it = Ok it1 -> idt.register_isr 14 pf it1 = Ok it2 ->
  idt.register_isr idt.IRQ0 timer it2 = Ok it3 ->
  handlers pf timer kbd it3 /\ idt.entries it3 = idt.entries it.
Proof.
  intros H0 H1 H2 H3.
  destruct (idt.register_ok idt.IRQ1 kbd it) as (i1 & E1 & Ee1 & Hg1); [by vm_compute |].
  rewrite E1 in H1. injection H1 as ->.
  destruct (idt.register_ok 14 pf it1) as (i2 & E2 & Ee2 & Hg2); [lia |]. rewrite E2 in H2. injection H2 as ->.
  destruct (idt.register_ok idt.IRQ0 timer it2) as (i3 & E3 & Ee3 & Hg3); [by vm_compute |].
  rewrite E3 in H3. injection H3 as ->. split; [| congruence]. intros n Hn.
  rewrite Hg3, Hg2, Hg1, H0 by lia. unfold idt.IRQ0, idt.IRQ1, handler_of.
  destruct (Z.eqb_spec n 14), (Z.eqb_spec n 32), (Z.eqb_spec n 33); repeat case_decide; done || lia.
Qed.

Lemma handler_registered it it' :
  idt.register_isr 14 pf it = Ok it' ->
  arr_get idt.INTERRUPT_NUM (idt.interrupt_handlers it') 14 = Some pf.
Proof.
  intros Hr. destruct (idt.register_ok 14 pf it) as (i & E & _ & Hg); [lia |].
  rewrite E in Hr. injection Hr as ->. by rewrite Hg, decide_True.
Qed.

(** The memory of the kernel once paging and the free list are set up. *)
Lemma boot_mem d pm fr :
  wf self d -> pages pm fr -> Forall frame_ok fr ->
  (forall vma, 0 <= vma < 4294967296 -> PageDictionary.at_ self vma d =
     Ok (if decide (PAGE_OFFSET <= vma < PAGE_OFFSET + 0x400000) then vma - PAGE_OFFSET else 0)) ->
  mem_sim self d pm (spec.mk [] boot_space fr).
Proof.
  intros Hw Hp HF Hat. split; try done.
  - intros vma Hv. rewrite Hat by done. f_equal. unfold translate, boot_space. cbn [spec.space].
    unfold PAGE_OFFSET. repeat case_decide; zlia.
  - intros n p. cbn. unfold boot_space. case_decide; [| done]. intros [= <-]. lia.
Qed.

End boot.

(** The one thread of a new scheduler. *)
Lemma make_runs x raw m c r : x <> 0 -> runs (TaskScheduler.make x raw m c r) x [].
Proof.
  intros Hx. split; cbn; try done.
  - intros ?%list_elem_of_singleton. congruence.
  - apply NoDup_singleton.
  - by rewrite lookup_singleton_eq.
  - by intros ? ? ?%elem_of_nil.
Qed.

(** ** [kern_init] *)

(** What the linker promises. *)
Record image_ok (im : image) : Prop := {
  im_self : page_dictionary im mod 4096 = 0 /\ PAGE_OFFSET <= page_dictionary im /\
    page_dictionary im + 4096 * 129 < 4294967296;
  im_handlers : NoDup [0; page_fault_addr im; timer_addr im; keyboard_addr im];
  im_isr : forall n, 0 <= isr_stub im n < 4294967296;
  im_irq : forall n, 0 <= irq_stub im n < 4294967296;
  im_size : 0 <= kern_size im < 0x20000000 /\ kern_size im mod 4096 = 0;
  im_stack : kern_stack im <> 0;
  im_uncache : uncache_addr im <> 0
}.

(** The free pages that [init_pmm] finds: it takes [mmap_length], a number of bytes, for a number of
    entries ([init_pmm_ok] says what that gives). *)
Definition boot_pages (im : image) (m : mem) (mb : Z) : list Z :=
  map_pages (kern_size im) m (entry.mb_mmap_addr m mb) (Z.to_nat (entry.mb_mmap_length m mb)).

(** What the boot loader promises: the names of the kernel's sections are strings, and the
    bytes that [init_pmm] takes for the memory map are in memory, and give it more pages than a full block
    cache fills, no page twice. *)
Record loaded (im : image) (fuel : nat) (m : mem) (mb : Z) : Prop := {
  ld_strtab : exists l, cstr (rd m) (strtab_lit im) l;
  ld_symtab : exists l, cstr (rd m) (symtab_lit im) l;
  ld_names : forall i, (i < Z.to_nat (entry.mb_num m mb))%nat -> exists l,
    cstr (rd m) (VMA (elf.sh_addr m (entry.mb_addr m mb + elf.sizeof_header * entry.mb_shndx m mb) +
      elf.sh_name m (entry.mb_addr m mb + elf.sizeof_header * Z.of_nat i))) l /\ (length l < fuel)%nat;
  ld_map : 0 <= entry.mb_mmap_addr m mb /\ 0 <= entry.mb_mmap_length m mb /\
    entry.mb_mmap_addr m mb + pmm.sizeof_mmap_entry * entry.mb_mmap_length m mb < 4294967296 /\
    (Z.to_nat (entry.mb_mmap_length m mb) < fuel)%nat;
  ld_pages : (heap_pages (Z.to_nat kCacheBlocks) < length (boot_pages im m mb))%nat /\
    Z.of_nat (length (boot_pages im m mb)) <= pmm.stack_len;
  ld_distinct : NoDup (boot_pages im m mb)
}.

(** The free pages are page frames. *)
Lemma boot_pages_frames im m mb :
  image_ok im ->
  Forall frame_ok (boot_pages im m mb) /\ Forall (fun p => 0 < p) (boot_pages im m mb).
Proof. intros [_ _ _ _ [Hks Hksa] _ _]. apply Forall_and. by apply map_pages_frames. Qed.

Section kern_init.
Context {D : Type} `{AtaDisk D} `{RawMemory block_buffer}.
Implicit Types (s : start.t D).

Definition boot_memory s : mem := TaskScheduler.memory (k_sched (s_kern s)).

(** The super block on the disk. *)
Definition disk_super (d : D) : list Z := slice 0 39 (disk_block d 1).

(** The blocks of the bitmaps have room for them. *)
Definition maps_fit (sb : list Z) : Prop :=
  (1 <= num_imap_blocks sb /\ num_inodes sb / 8 <= 1024 * num_imap_blocks sb) /\
  1 <= num_zmap_blocks sb /\ num_zones sb / 8 <= 1024 * num_zmap_blocks sb.

(** The block after the tables. *)
Definition super_end (sb : list Z) : Z :=
  2 + num_imap_blocks sb + num_zmap_blocks sb + num_inodes sb / 32 + 1.

(** The variables before [kern_init], and a disk with a file system that fits the tables. *)
Record fresh s : Prop := {
  fr_vmm : k_vmm (s_kern s) = PageDictionary.make;
  fr_gdt : length (gdt.entries (s_gdt s)) = 5%nat;
  fr_desc : length (ide.desc (s_dev s)) = S ide.IDE_DESC_LEN;
  fr_ident : length (ident_data (ata_of (fs.disk_ (s_fs s)))) = 512%nat;
  fr_cache : good (s_fs s) [];
  fr_nodes : LRUCache.heap (fs.g_block_cache (s_fs s)) = ∅;
  fr_super : Forall byte_ok (disk_super (fs.disk_ (s_fs s)));
  fr_table : 1 + num_inodes (disk_super (fs.disk_ (s_fs s))) <= Z.of_nat (length (fs.g_inode_table (s_fs s)));
  fr_inodes : Forall (fun ino => 32 <= length ino)%nat (fs.g_inode_table (s_fs s));
  fr_imap : num_inodes (disk_super (fs.disk_ (s_fs s))) / 8 <= Z.of_nat (length (fs.g_imap (s_fs s)));
  fr_zmap : num_zones (disk_super (fs.disk_ (s_fs s))) / 8 <= Z.of_nat (length (fs.g_zmap (s_fs s)))
}.

(** The file system [f], mounted. *)
Record mounted uncache (f f' : fs.t (D := D)) m : Prop := {
  mt_safe : safe uncache f' m;
  mt_super : fs.g_super_block f' = disk_super (fs.disk_ f);
  mt_view : forall b, view f' m b = disk_block (fs.disk_ f) b;
  mt_size : mount_blocks (disk_super (fs.disk_ f)) <= kCacheBlocks ->
    Z.of_nat (base.size m) <= mount_blocks (disk_super (fs.disk_ f));
  mt_inodes : fs.g_inode_table f' = mounted_inodes (disk_block (fs.disk_ f)) (fs.g_inode_table f);
  mt_fit : maps_fit (disk_super (fs.disk_ f)) -> tables_fit f'
}.

(** The disk is identified and mounted. *)
Lemma mount_ok fuel uncache dev (f : fs.t (D := D)) :
  (busy_bound < fuel)%nat -> uncache <> 0 -> length (ide.desc dev) = S ide.IDE_DESC_LEN ->
  length (ident_data (ata_of (fs.disk_ f))) = 512%nat -> good f [] ->
  Forall byte_ok (disk_super (fs.disk_ f)) ->
  1 + num_inodes (disk_super (fs.disk_ f)) <= Z.of_nat (length (fs.g_inode_table f)) ->
  Forall (fun ino => 32 <= length ino)%nat (fs.g_inode_table f) ->
  num_inodes (disk_super (fs.disk_ f)) / 8 <= Z.of_nat (length (fs.g_imap f)) ->
  num_zones (disk_super (fs.disk_ f)) / 8 <= Z.of_nat (length (fs.g_zmap f)) ->
  exists dev' d f' m, ide.ide_init fuel dev (fs.disk_ f) = Ok (0, dev', d) /\ ide.valid dev' = 1 /\
    fs.init_fs fuel dev' uncache (fs.with_cache (fs.g_block_cache f) d f) = Ok f' /\
    mounted uncache f f' m.
Proof.
  intros Hf Hu Hdesc Hid Hg Hb Ht Hi Him Hzm.
  destruct (ide_init_run fuel dev (fs.disk_ f) Hf Hdesc Hid) as (dev' & d & Hr & Hv & _ & _ & _ & Hs).
  assert (Hd : forall b, disk_block d b = disk_block (fs.disk_ f) b) by (intros b; unfold disk_block; by rewrite Hs).
  assert (Hsb : disk_super d = disk_super (fs.disk_ f)) by (unfold disk_super; by rewrite Hd).
  rewrite <- Hsb in *.
  destruct (mounted_fit fuel dev' uncache Hf Hv Hu (fs.with_cache (fs.g_block_cache f) d f))
    as (f' & m & Hif & Hg' & Hsb' & Hc & Hsz & Hin & Hfit); try done.
  { destruct Hg as [Hc Hk]. split; [done |]. cbn. by rewrite Hs. }
  exists dev', d, f', m. split_and!; try done. split; try done.
  - by rewrite <- Hsb.
  - intros b. rewrite Hc. apply Hd.
  - by rewrite <- Hsb.
  - rewrite Hin. by apply mounted_inodes_ext.
  - rewrite <- Hsb. intros [? ?]. by apply Hfit.
Qed.

(** The greeting on a cleared screen. *)
Definition greeting : Console.spec.term :=
  Console.spec.write console.blank (fun c => console.make_char c (console.make_color rc_black rc_white))
    hello (Console.spec.mk (fun _ _ => console.blank) 0 0).

Lemma hello_bytes : Forall byte_ok hello.
Proof. unfold hello, byte_ok. repeat constructor; lia. Qed.

Lemma greet_ok c :
  exists c1 c2, console.console_clear c = Ok c1 /\ printk.printk hello [] c1 = Ok c2 /\ shows c2 greeting.
Proof.
  destruct (clear_step c) as (c1 & Hc1 & Hs1 & _).
  destruct (write_steps hello rc_black rc_white c1 _ Hs1) as (c2 & Hc2 & Hs2 & _); [apply hello_bytes |].
  exists c1, c2. split_and!; [done | exact Hc2 | exact Hs2].
Qed.

(** The world after [kern_init]: one thread, the window, and the pages that the heap with [n] nodes
    of the block cache has taken from the free pages [fr]. *)
Definition boot_world (im : image) (cpu : task_context) (fr : list Z) (n : nat) : spec.t :=
  heap_world [(kern_stack im, cpu)] boot_space fr (heap_pages n).

Lemma boot_space_heap n : heap_base <= n -> boot_space n = None.
Proof. unfold boot_space, heap_base, kHeapStart, PAGE_OFFSET. intros. by rewrite decide_False by zlia. Qed.

Lemma runs_with_mem pm d m k x q : runs (k_sched k) x q -> runs (k_sched (with_mem pm d m k)) x q.
Proof. by intros []. Qed.

Lemma boot_world_sim im k fr n c u :
  handlers (page_fault_addr im) (timer_addr im) (keyboard_addr im) (k_idt k) ->
  at_pages (page_dictionary im) (page_fault_addr im) [] boot_space fr k (heap_pages n) ->
  runs (k_sched k) (kern_stack im) [] -> shows c u ->
  sim (page_dictionary im) (page_fault_addr im) (timer_addr im) (keyboard_addr im)
    (set_sched (set_con c (k_sched k)) k) (boot_world im (TaskScheduler.cpu (k_sched k)) fr n).
Proof.
  intros Hh [_ Hm _] Hr Hc. split; cbn; [done | | | by exists u].
  - by eapply mem_sim_ext; [| | exact Hm].
  - exists (kern_stack im), []. split; [done |]. by apply runs_set_con.
Qed.

Lemma boot_world_isolated im cpu fr n :
  NoDup fr -> Forall frame_ok fr -> Forall (fun p => 0 < p) fr -> isolated (boot_world im cpu fr n).
Proof.
  intros Hnd HF Hpos. unfold boot_world. set (j := heap_pages n). clearbody j.
  assert (Hw : forall n p, ~ window n -> spec.space (heap_world [(kern_stack im, cpu)] boot_space fr j) n = Some p ->
    heap_base <= n < heap_base + Z.of_nat j /\ reverse fr !! Z.to_nat (n - heap_base) = Some p).
  { intros n' p Hn. cbn. case_decide as Hd; [done |]. unfold boot_space, window in *. by rewrite decide_False. }
  assert (Hrev : NoDup (reverse fr)) by (by rewrite reverse_Permutation).
  split; cbn [heap_world spec.free].
  - by eapply sublist_NoDup; [| apply sublist_take].
  - by apply Forall_take.
  - intros n' p Hn Hp. destruct (Hw n' p Hn Hp) as [Hr Hl]. rewrite Forall_forall in Hpos, HF.
    pose proof (list_elem_of_lookup_2 _ _ _ Hl) as Hin. rewrite reverse_Permutation in Hin.
    split; [by apply Hpos |]. split; [by apply HF |]. intros Hin2.
    apply list_elem_of_lookup in Hin2 as [i Hi]. apply lookup_take_Some in Hi as [Hi Hlt].
    rewrite reverse_lookup in Hl by (apply lookup_lt_Some in Hl; by rewrite length_reverse in Hl).
    pose proof (NoDup_lookup _ _ _ _ Hnd Hi Hl). apply lookup_lt_Some in Hi. lia.
  - intros n1 n2 p Hn1 Hn2 Hp1 Hp2. destruct (Hw _ _ Hn1 Hp1) as [Hr1 Hl1]. destruct (Hw _ _ Hn2 Hp2) as [Hr2 Hl2].
    pose proof (NoDup_lookup _ _ _ _ Hrev Hl1 Hl2). lia.
Qed.

(** The kernel and its heap, when [fr] are the free pages before the heap is used and [m0] is the memory
    then: the kernel implements its specification, with the pages of the heap so far; the heap is
    the blocks of the nodes of the block cache, and the free rest; no byte outside the heap has
    changed; the nodes of the cache are the payloads of those blocks ([laid]), in pages that are
    mapped, so that no access to a node faults. *)
Record heap_in_use (im : image) (fr : list Z) (m0 : mem) (cpu : task_context) (s : start.t D) : Prop := {
  hu_sim : sim (page_dictionary im) (page_fault_addr im) (timer_addr im) (keyboard_addr im) (s_kern s)
    (boot_world im cpu fr (nodes_of (s_fs s)));
  hu_isolated : isolated (boot_world im cpu fr (nodes_of (s_fs s)));
  hu_tables : PageDictionary.table_count (k_vmm (s_kern s)) <= 2;
  hu_allocator : s_heap s = ImplicitListAllocator.mk kHeapStart kHeapEnd;
  hu_heap : heap_at (boot_memory s) kHeapStart (node_blocks (nodes_of (s_fs s))) kHeapEnd;
  hu_memory : forall x, x < kHeapStart \/ kHeapEnd <= x -> load8 (boot_memory s) x = load8 m0 x;
  hu_laid : laid_fs (nodes_of (s_fs s)) (s_fs s);
  hu_mapped : forall p a, is_Some (LRUCache.heap (fs.g_block_cache (s_fs s)) !! p) ->
    p <= a < p + sizeof_ListNode -> mapped (page_dictionary im) (k_vmm (s_kern s)) a = true
}.

(** The kernel before [test_fs]: its heap is in use, the descriptors are flat, the 48 vectors lead to
    their stubs, the screen shows the greeting, and the file system is mounted, with a node
    for each cached block. *)
Record booted (im : image) (fr : list Z) s (s' : start.t D) : Prop := {
  bt_heap : heap_in_use im fr (boot_memory s) (TaskScheduler.cpu (k_sched (s_kern s))) s';
  bt_gates : forall n, 0 <= n < 48 -> exists e, lget (idt.entries (k_idt (s_kern s'))) n = Some e /\
    idt.gate_base e = if decide (n < 32) then isr_stub im n else irq_stub im (n - 32);
  bt_gdt : gdt.entries (s_gdt s') = gdt.flat_segments;
  bt_cr3 : s_cr3 s' = page_dictionary im - PAGE_OFFSET;
  bt_screen : shows (TaskScheduler.con (k_sched (s_kern s'))) greeting;
  bt_disk : ide.valid (s_dev s') = 1;
  bt_fs : exists m, mounted (uncache_addr im) (s_fs s) (s_fs s') m /\ nodes_of (s_fs s') = base.size m
}.

(** The descriptor tables, the free pages and the page tables, up to the first access to the heap. *)
Lemma tables_ok im fuel mb s :
  image_ok im -> loaded im fuel (boot_memory s) mb -> fresh s ->
  exists it0 tr pm it1 d it2,
    idt.init_idt (isr_stub im) (irq_stub im) (idt_table im) (k_idt (s_kern s)) (k_ports (s_kern s)) = Ok (it0, tr) /\
    pmm.init_pmm fuel (kern_size im) (boot_memory s) (entry.mb_mmap_addr (boot_memory s) mb)
      (entry.mb_mmap_length (boot_memory s) mb) (k_pmm (s_kern s)) = Ok pm /\
    keyboard.init_keyboard (keyboard_addr im) it0 = Ok it1 /\
    PageDictionary.init_vmm (page_dictionary im) (page_fault_addr im) (k_vmm (s_kern s)) it1 =
      Ok (d, it2, page_dictionary im - PAGE_OFFSET) /\
    (forall it3, idt.register_isr idt.IRQ0 (timer_addr im) it2 = Ok it3 ->
       handlers (page_fault_addr im) (timer_addr im) (keyboard_addr im) it3 /\
       forall n, 0 <= n < 48 -> exists e, lget (idt.entries it3) n = Some e /\
         idt.gate_base e = if decide (n < 32) then isr_stub im n else irq_stub im (n - 32)) /\
    arr_get idt.INTERRUPT_NUM (idt.interrupt_handlers it2) 14 = Some (page_fault_addr im) /\
    mem_sim (page_dictionary im) d pm (spec.mk [] boot_space (boot_pages im (boot_memory s) mb)) /\
    PageDictionary.table_count d <= 1.
Proof.
  intros Him Hld Hfr. pose proof Him as [Hself Haddr Hisr Hirq _ _ _].
  pose proof Hld as [_ _ _ (Hm1 & Hm2 & Hm3 & Hm4) [_ Hpl] _].
  set (m := boot_memory s) in *.
  destruct (idt.init_idt_run (isr_stub im) (irq_stub im) (idt_table im) (k_idt (s_kern s)) (k_ports (s_kern s)) Hisr Hirq)
    as (it0 & E0 & Hgates & _ & Hz & _).
  destruct (init_pmm_run fuel (kern_size im) m _ _ (k_pmm (s_kern s)) Hm1 Hm2 Hm3 Hm4 Hpl) as (pm & Epm & Hpg & _).
  fold (boot_pages im m mb) in Hpg.
  destruct (idt.register_ok idt.IRQ1 (keyboard_addr im) it0) as (it1 & E1 & _ & _); [split; vm_compute; congruence |].
  destruct (init_vmm_run (page_dictionary im) Hself (page_fault_addr im) it1) as (d & it2 & Ev & Hwf & Hcnt & E2 & Hat).
  destruct (boot_pages_frames im m mb Him) as [HF _].
  rewrite (fr_vmm _ Hfr). eexists it0, _, pm, it1, d, it2.
  split; [exact E0 |]. split; [exact Epm |]. split; [exact E1 |]. split; [exact Ev |]. split; [| split; [| split]].
  - intros it3 E3. clear E0 Ev Epm. pose proof (handlers_registered (page_fault_addr im) (timer_addr im) (keyboard_addr im)) as Hreg.
    destruct (Hreg it0 it1 it2 it3) as [Hh He3]; [| exact E1 | exact E2 | exact E3 |].
    { intros n Hn. unfold idt.INTERRUPT_NUM. rewrite Hz, decide_True by exact Hn. reflexivity. }
    split; [exact Hh |]. intros n Hn. rewrite He3. destruct (Hgates n Hn) as (g & Hg1 & Hg2 & _).
    exists g. split; [exact Hg1 | exact Hg2].
  - eapply handler_registered. exact E2.
  - apply boot_mem; [exact Hwf | exact Hpg | exact HF | exact Hat].
  - exact Hcnt.
Qed.

Lemma full_cache_pages : heap_pages (Z.to_nat kCacheBlocks) = 79%nat.
Proof. vm_compute. reflexivity. Qed.

(** The pages that a full cache needs are enough. *)
Lemma cache_pages n : Z.of_nat n <= kCacheBlocks -> (heap_pages n <= heap_pages (Z.to_nat kCacheBlocks))%nat.
Proof. intros Hn. apply heap_pages_mono. lia. Qed.

(** The nodes that the file system asks for. *)
Lemma allocate_ok im fuel fr (f f' : fs.t (D := D)) k :
  image_ok im -> (heap_pages (Z.to_nat kCacheBlocks) < length fr)%nat -> (Z.to_nat kCacheBlocks < fuel)%nat ->
  at_pages (page_dictionary im) (page_fault_addr im) [] boot_space fr k (heap_pages (nodes_of f)) ->
  heap_at (kmem k) kHeapStart (node_blocks (nodes_of f)) kHeapEnd ->
  (nodes_of f <= nodes_of f')%nat -> Z.of_nat (nodes_of f') <= kCacheBlocks ->
  exists pm d m, allocate_nodes im fuel (ImplicitListAllocator.mk kHeapStart kHeapEnd) f f' k = Ok (with_mem pm d m k) /\
    at_pages (page_dictionary im) (page_fault_addr im) [] boot_space fr (with_mem pm d m k) (heap_pages (nodes_of f')) /\
    heap_at m kHeapStart (node_blocks (nodes_of f')) kHeapEnd /\
    forall x, x < kHeapStart \/ kHeapEnd <= x -> load8 m x = load8 (kmem k) x.
Proof.
  intros [Hself Haddr _ _ _ _ _] Hl Hf Hk Hh Hle Hmax. pose proof (cache_pages _ Hmax).
  replace (nodes_of f') with (nodes_of f + (nodes_of f' - nodes_of f))%nat in * by lia.
  unfold allocate_nodes. apply new_nodes_ok; try done; unfold kCacheBlocks in *; try lia.
  - intros E. rewrite E in Haddr. apply NoDup_cons in Haddr as [Hn _]. apply Hn. left.
  - exact boot_space_heap.
Qed.

(** The parts of [heap_in_use], after [allocate_nodes]. *)
Lemma in_use im fr m0 k c u g e dev (f : fs.t (D := D)) cr3 m n0 :
  image_ok im -> NoDup fr -> Forall frame_ok fr -> Forall (fun p => 0 < p) fr ->
  (heap_pages (Z.to_nat kCacheBlocks) < length fr)%nat ->
  handlers (page_fault_addr im) (timer_addr im) (keyboard_addr im) (k_idt k) ->
  at_pages (page_dictionary im) (page_fault_addr im) [] boot_space fr k (heap_pages (nodes_of f)) ->
  runs (k_sched k) (kern_stack im) [] -> shows c u ->
  heap_at (kmem k) kHeapStart (node_blocks (nodes_of f)) kHeapEnd ->
  (forall x, x < kHeapStart \/ kHeapEnd <= x -> load8 (kmem k) x = load8 m0 x) ->
  laid_fs n0 f -> safe (uncache_addr im) f m ->
  heap_in_use im fr m0 (TaskScheduler.cpu (k_sched k))
    (mk D (set_sched (set_con c (k_sched k)) k) g e (ImplicitListAllocator.mk kHeapStart kHeapEnd) dev f cr3).
Proof.
  intros Him Hnd HF Hpos Hl Hh Hk Hr Hc Hheap Hmem Hlaid Hs. pose proof (im_self _ Him) as Hself.
  destruct (laid_count _ _ _ _ Hlaid Hs) as (_ & _ & Hmax & Hlaid' & Hnodes). fold (nodes_of f) in Hmax, Hnodes.
  pose proof (cache_pages _ Hmax). split; cbn [s_kern s_fs s_heap]; try done.
  - by eapply boot_world_sim.
  - by apply boot_world_isolated.
  - pose proof (ap_tables _ _ _ _ _ _ _ Hk) as Ht. cbn. case_decide; lia.
  - intros p a Hp Ha. apply Hnodes in Hp as (i & Hi & ->). unfold node_at, sizeof_ListNode in Ha.
    assert (Hr2 : 0 <= a < 4294967296) by (unfold kHeapStart, kCacheBlocks in *; lia).
    cbn. rewrite (mem_mapped _ Hself _ _ _ a (ap_mem _ _ _ _ _ _ _ Hk) Hr2). apply bool_decide_true. cbn.
    assert (Hb : heap_pages (nodes_of f) = Z.to_nat ((1044 * Z.of_nat (nodes_of f) + 4 + 4095) / 4096)) by done.
    unfold heap_base, kHeapStart in *. rewrite decide_True by zlia.
    apply lookup_lt_is_Some_2. rewrite length_reverse. zlia.
Qed.

(** The handler of page faults has an address. *)
Lemma im_fault im : image_ok im -> page_fault_addr im <> 0.
Proof. intros Him E. pose proof (im_handlers _ Him) as Hn. rewrite E in Hn. apply NoDup_cons in Hn as [Hn _]. apply Hn. left. Qed.

(** Nothing of the heap is mapped once the page tables are set up. *)
Lemma no_heap_pages im k fr :
  arr_get idt.INTERRUPT_NUM (idt.interrupt_handlers (k_idt k)) 14 = Some (page_fault_addr im) ->
  mem_sim (page_dictionary im) (k_vmm k) (k_pmm k) (spec.mk [] boot_space fr) ->
  PageDictionary.table_count (k_vmm k) <= 1 ->
  at_pages (page_dictionary im) (page_fault_addr im) [] boot_space fr k 0.
Proof.
  intros Hh Hm Ht. split; [done | | done]. eapply mem_sim_ext; [| | exact Hm]; cbn.
  - intros n. by rewrite decide_False by lia.
  - by rewrite Nat.sub_0_r, firstn_all.
Qed.

(** Other handlers and threads do not change the pages. *)
Lemma at_pages_other im fr k it sch tr j :
  handlers (page_fault_addr im) (timer_addr im) (keyboard_addr im) it ->
  at_pages (page_dictionary im) (page_fault_addr im) [] boot_space fr k j ->
  at_pages (page_dictionary im) (page_fault_addr im) [] boot_space fr
    (kernel.mk it (k_pmm k) (k_vmm k) (k_kbd k) sch tr) j.
Proof. intros Hh [_ Hm Ht]. split; [by apply (Hh 14) | done | done]. Qed.

Lemma init_all_run im fuel mb raw_elf raw_context s :
  (busy_bound < fuel)%nat -> (Z.to_nat kCacheBlocks < fuel)%nat ->
  image_ok im -> loaded im fuel (boot_memory s) mb -> fresh s ->
  exists s', init_all im fuel mb raw_elf raw_context s = Ok s' /\
    booted im (boot_pages im (boot_memory s) mb) s s'.
Proof.
  intros Hfuel Hfuel2 Him Hld Hfr.
  destruct (tables_ok im fuel mb s Him Hld Hfr)
    as (it0 & tr0 & pm & it1 & d & it2 & E0 & Epm & E1 & Ev & Hh & H14 & Hmem0 & Hcnt).
  pose proof Him as [Hself _ _ _ _ Hst Hun]. pose proof Hld as [[ln1 Hn1] [ln2 Hn2] Hnames _ [Hp2 _] Hnd].
  unfold init_all. fold (boot_memory s). set (m := boot_memory s) in *.
  destruct (scan_headers_ok (Z.to_nat (entry.mb_num m mb)) fuel m (entry.mb_addr m mb)
    (elf.sh_addr m (entry.mb_addr m mb + elf.sizeof_header * entry.mb_shndx m mb))
    (strtab_lit im) (symtab_lit im) raw_elf ln1 ln2 Hn1 Hn2 Hnames) as [e He].
  unfold debug.init_debug, elf.elf_from_multiboot. rewrite He. cbn [obind]. rewrite gdt.init_gdt_ok by apply Hfr. cbn [obind].
  rewrite E0. cbn [obind]. rewrite Epm. cbn [obind]. rewrite E1. cbn [obind]. rewrite Ev. cbn [obind].
  clear E0 Epm E1 Ev He. set (k0 := kernel.mk it2 pm d _ _ _).
  destruct (init_heap_paged (page_dictionary im) (page_fault_addr im) (timer_addr im) (keyboard_addr im) Hself (im_fault _ Him)
    [] boot_space (boot_pages im m mb) boot_space_heap k0)
    as (pm1 & d1 & -> & Hk1 & Hheap1 & Hmem1); [by apply no_heap_pages | rewrite full_cache_pages in Hp2; lia |].
  cbn [obind]. set (m1 := snd (Heap.init_heap (kmem k0))) in *. change (kmem k0) with m in Hmem1.
  change (kmem (with_mem pm1 d1 m1 k0)) with m1.
  destruct (idt.register_ok idt.IRQ0 (timer_addr im) it2) as (it3 & E3 & _ & _); [split; vm_compute; congruence |].
  destruct (Hh it3 E3) as [Hh3 Hgates].
  destruct (timer.init_timer_run (timer_addr im) 200 it2 tr0 it3) as (tr & Htm); [done | done |].
  change (k_idt (with_mem pm1 d1 m1 k0)) with it2. change (k_ports (with_mem pm1 d1 m1 k0)) with tr0. rewrite Htm. cbn [obind].
  destruct (mount_ok fuel (uncache_addr im) (s_dev s) (s_fs s)) as (dev & dk & f & bm & -> & Hdv & Hf & Hmt);
    try apply Hfr; [done | done |].
  cbn [obind Z.eqb kassert]. rewrite Hf. cbn [obind].
  set (f0 := fs.with_cache (fs.g_block_cache (s_fs s)) dk (s_fs s)) in *.
  assert (Hlaid : laid_fs 0 f).
  { revert Hf. apply init_fs_laid. apply laid_empty. exact (fr_nodes _ Hfr). }
  assert (Hn0 : nodes_of f0 = 0%nat) by (unfold nodes_of; change (fs.g_block_cache f0) with (fs.g_block_cache (s_fs s)); by rewrite (fr_nodes _ Hfr), map_size_empty).
  destruct (laid_count _ _ _ _ Hlaid (mt_safe _ _ _ _ Hmt)) as (Hsz & _ & Hmax & _). fold (nodes_of f) in Hsz, Hmax.
  pose proof (at_pages_other im _ _ it3 (TaskScheduler.init_kthread (kern_stack im) raw_context m1
    (TaskScheduler.con (k_sched (s_kern s))) (TaskScheduler.cpu (k_sched (s_kern s)))) tr _ Hh3 Hk1) as Hk2.
  set (k2 := kernel.mk it3 _ _ _ _ _) in Hk2.
  destruct (allocate_ok im fuel (boot_pages im m mb) f0 f k2) as (pm3 & d3 & m3 & Ha & Hk3 & Hheap3 & Hmem3);
    try done; [by rewrite Hn0 | by rewrite Hn0 | lia |].
  fold k2. rewrite Ha. cbn [obind]. clear Ha Htm Hf.
  destruct (greet_ok (TaskScheduler.con (k_sched (with_mem pm3 d3 m3 k2)))) as (c1 & c2 & Hc1 & Hc2 & Hsh).
  rewrite Hc1. cbn [obind]. rewrite Hc2. cbn [obind]. destruct (boot_pages_frames im m mb Him) as [HF Hpos].
  eexists. split; [reflexivity |]. split; cbn [s_kern s_gdt s_cr3 s_dev s_fs].
  - apply (in_use im (boot_pages im m mb) m (with_mem pm3 d3 m3 k2) c2 greeting _ e dev f _ bm 0);
      [exact Him | exact Hnd | exact HF | exact Hpos | exact Hp2 | exact Hh3 | exact Hk3
       | apply make_runs; exact Hst | exact Hsh | exact Hheap3 | | exact Hlaid | exact (mt_safe _ _ _ _ Hmt)].
    intros x Hx. change (kmem (with_mem pm3 d3 m3 k2)) with m3. rewrite Hmem3 by exact Hx.
    change (kmem k2) with m1. apply Hmem1. exact Hx.
  - exact Hgates.
  - reflexivity.
  - reflexivity.
  - exact Hsh.
  - exact Hdv.
  - exists bm. split; [exact Hmt | exact Hsz].
Qed.

(** C2: Starting the kernel.  From a kernel as the boot loader leaves it, with a disk that
    holds a file system and more free pages than a full block cache fills, [kern_init] returns from
    every step before [test_fs] and goes on to [test_fs]: the assertion on the disk holds, and at that
    point the kernel implements its specification, with one thread, the window onto the first 4 MB, and
    the pages of the heap.  The file system is mounted and shows the blocks of the disk; each block
    in its cache has a node that [operator new] has allocated, so that the heap is the blocks of
    the nodes and the free rest; the page fault handler has taken a page for each page of the heap in use,
    from the end of the free pages.  The descriptors are flat, the 48 vectors lead to their stubs,
    and the screen shows the greeting. *)
Theorem kern_init_ok im fuel depth mb raw_elf raw_context s :
  (busy_bound < fuel)%nat -> (Z.to_nat kCacheBlocks < fuel)%nat ->
  image_ok im -> loaded im fuel (boot_memory s) mb -> fresh s ->
  exists s', init_all im fuel mb raw_elf raw_context s = Ok s' /\
    kern_init im fuel depth mb raw_elf raw_context s = run_test im fuel depth s' /\
    booted im (boot_pages im (boot_memory s) mb) s s'.
Proof.
  intros Hf Hf2 Him Hld Hfr.
  destruct (init_all_run im fuel mb raw_elf raw_context s Hf Hf2 Him Hld Hfr) as (s' & Hr & Hb).
  exists s'. split; [done |]. split; [unfold kern_init; by rewrite Hr | done].
Qed.

(** *** With the test *)

(** The disk [C] with the inode table [tb] holds "/test/test.txt" as inode [n] with the bytes [ino], and the
    tree above it is small enough for the cache. *)
Record has_test_file (fuel depth : nat) (z : Z) (C : Z -> list Z) (tb : list (list Z)) (n : Z) (ino : list Z) : Prop := {
  tt_bytes : forall b, Forall byte_ok (C b);
  tt_maps : maps_fit (slice 0 39 (C 1));
  tt_tree : listing.tree_ok C tb z depth kRootINO;
  tt_dirs : dirs_ok C 500 tb;
  tt_walk : dir.walk fuel C tb (Some kRootINO) (drop 1 files.test_file) = Ok (Some n);
  tt_inode : lget tb n = Some ino /\ Forall byte_ok ino;
  tt_text : 0 ∈ C (dir.zone_of C ino 0);
  tt_zone : ~ 1 <= dir.zone_of C ino 0 < super_end (slice 0 39 (C 1));
  tt_zones : 0 <= z <= 100;
  tt_room : mount_blocks (slice 0 39 (C 1)) + 2 * z * Z.of_nat (listing.visits C tb depth kRootINO) <= kCacheBlocks
}.

(** The pages of the heap, from the specification of the running kernel. *)
Lemma pages_in_use im fr m0 cpu s :
  heap_in_use im fr m0 cpu s ->
  at_pages (page_dictionary im) (page_fault_addr im) [] boot_space fr (s_kern s) (heap_pages (nodes_of (s_fs s))).
Proof.
  intros [[Hh Hm _ _] _ Ht _ _ _ _ _]. split; [by apply (Hh 14) | by eapply mem_sim_ext; [| | exact Hm] |].
  rewrite decide_False; [done |]. unfold heap_pages, heap_bytes, sizeof_ListNode. zlia.
Qed.

(** The nodes that [test_fs] adds. *)
Lemma test_nodes_ok im fuel fr m0 cpu s (f : fs.t (D := D)) c depth m u :
  image_ok im -> NoDup fr -> Forall frame_ok fr -> Forall (fun p => 0 < p) fr ->
  (heap_pages (Z.to_nat kCacheBlocks) < length fr)%nat -> (Z.to_nat kCacheBlocks < fuel)%nat ->
  heap_in_use im fr m0 cpu s ->
  files.test_fs fuel (s_dev s) (uncache_addr im) depth (s_fs s) (TaskScheduler.con (k_sched (s_kern s))) = Ok (f, c) ->
  safe (uncache_addr im) f m -> shows c u ->
  exists s', run_test im fuel depth s = Ok s' /\ s_fs s' = f /\ TaskScheduler.con (k_sched (s_kern s')) = c /\
    nodes_of f = base.size m /\ heap_in_use im fr m0 cpu s'.
Proof.
  intros Him Hnd HF Hpos Hl Hf Hu Ht Hs Hc. pose proof (pages_in_use _ _ _ _ _ Hu) as Hk.
  pose proof Hu as [Hsim _ _ Hal Hheap Hmem Hlaid _].
  assert (Hlaid' : laid_fs (nodes_of (s_fs s)) f).
  { exact (test_fs_laid fuel (s_dev s) (uncache_addr im) _ depth (s_fs s) _ Hlaid (f, c) Ht). }
  destruct (laid_count _ _ _ _ Hlaid' Hs) as (Hsz & Hge & Hmax & _). fold (nodes_of f) in Hsz, Hge, Hmax.
  destruct (allocate_ok im fuel fr (s_fs s) f (s_kern s) Him Hl Hf Hk Hheap Hge Hmax) as (pm & d & m' & Ha & Hk' & Hheap' & Hmem').
  unfold run_test. rewrite Ht. cbn [obind]. rewrite Hal, Ha. cbn [obind]. eexists. split; [reflexivity |].
  cbn [s_fs s_kern]. split; [reflexivity |]. split; [reflexivity |]. split; [exact Hsz |].
  destruct (sim_threads _ _ _ _ _ _ Hsim) as (x & q & Hth & Hr). cbn in Hth. injection Hth as Hx Hcpu Hq.
  rewrite <- Hx, <- Hq in Hr. rewrite Hcpu.
  eapply (in_use im fr m0 (with_mem pm d m' (s_kern s)) c u _ _ _ f _ m);
    [exact Him | exact Hnd | exact HF | exact Hpos | exact Hl | apply Hsim | exact Hk'
     | apply runs_with_mem; exact Hr | exact Hc | exact Hheap' | | exact Hlaid' | exact Hs].
  intros y Hy. change (kmem (with_mem pm d m' (s_kern s))) with m'. rewrite Hmem' by exact Hy. by apply Hmem.
Qed.

(** C3: The whole of [kern_init].  With "/test/test.txt" on the disk, [kern_init] reaches its last loop:
    the kernel then implements its specification, with a node on the heap for each cached block and a
    page for each page of the heap in use; the screen has the greeting and the report of [test_fs],
    the file has its new text on the disk and the size 12, the tables are stored, and
    every other block is what it was.  From there on it returns from every sequence of interrupts
    as its specification says, while the free pages that the heap has left and the page tables last for
    the page faults among them. *)
Theorem kern_init_runs im fuel depth mb raw_elf raw_context s z n ino :
  let C := disk_block (fs.disk_ (s_fs s)) in
  let tb := mounted_inodes C (fs.g_inode_table (s_fs s)) in
  let b := dir.zone_of C ino 0 in
  let fr := boot_pages im (boot_memory s) mb in
  (busy_bound < fuel)%nat -> (1024 < fuel)%nat -> image_ok im -> loaded im fuel (boot_memory s) mb -> fresh s ->
  has_test_file fuel depth z C tb n ino ->
  exists s' m c, kern_init im fuel depth mb raw_elf raw_context s = Ok s' /\
    heap_in_use im fr (boot_memory s) (TaskScheduler.cpu (k_sched (s_kern s))) s' /\
    nodes_of (s_fs s') = base.size m /\
    shows c greeting /\
    console.console_write (Files.report C depth (slice 0 39 (C 1)) tb ino) rc_black rc_white c =
      Ok (TaskScheduler.con (k_sched (s_kern s'))) /\
    safe (uncache_addr im) (s_fs s') m /\ tables_on_disk (disk_block (fs.disk_ (s_fs s'))) (s_fs s') /\
    (exists ino', lget (fs.g_inode_table (s_fs s')) n = Some ino' /\ i_size ino' = 12) /\
    disk_block (fs.disk_ (s_fs s')) b = rewritten (C b) /\
    (forall b', ~ 1 <= b' < super_end (slice 0 39 (C 1)) ->
       view (s_fs s') m b' = if decide (b' = b) then rewritten (C b) else C b') /\
    forall es, Forall event_ok es -> (spec.demands es + heap_pages (nodes_of (s_fs s')) < length fr)%nat ->
      2 + Z.of_nat (spec.demands es) <= TABLE_RESERVE ->
      exists k, kernel.run_events (page_dictionary im) (page_fault_addr im) (timer_addr im) (keyboard_addr im) es (s_kern s') = Ok k /\
        sim (page_dictionary im) (page_fault_addr im) (timer_addr im) (keyboard_addr im) k
          (spec.steps es (boot_world im (TaskScheduler.cpu (k_sched (s_kern s))) fr (nodes_of (s_fs s')))).
Proof.
  intros C tb b fr Hf Hf2 Him Hld Hfr [HC Hmaps Htree Hdirs Hwalk [Hn HF] Hnul Hzone Hz Hroom].
  assert (Hf3 : (Z.to_nat kCacheBlocks < fuel)%nat) by (unfold kCacheBlocks; lia).
  destruct (init_all_run im fuel mb raw_elf raw_context s Hf Hf3 Him Hld Hfr) as (s1 & Hr & Hb). fold fr in Hb.
  destruct Hb as [Hu _ _ _ Hscr Hdv [m [[Hs Hsb Hv Hsz Htb Hfit] _]]].
  unfold disk_super in *. fold C in Hsb, Hv, Hsz, Htb, Hfit. fold tb in Htb. specialize (Hfit Hmaps).
  assert (Hend : tables_end (s_fs s1) = super_end (slice 0 39 (C 1))).
  { unfold tables_end, inode_start, zmap_start, super_end. by rewrite Hsb. }
  assert (Hvis : 0 <= 2 * z * Z.of_nat (listing.visits C tb depth kRootINO)) by nia.
  destruct (test_fs_run fuel (s_dev s1) (uncache_addr im) Hf Hdv (im_uncache _ Him) C HC z depth (s_fs s1) m
    (TaskScheduler.con (k_sched (s_kern s1))) greeting n ino) as (f & m' & c' & u' & Ht & Hs' & Hc' & Hres & Hon & Hd & Hw & Hother);
    rewrite ?Htb, ?Hend; try done; [specialize (Hsz ltac:(lia)); lia |].
  rewrite Htb, Hsb, Hend in *. destruct (boot_pages_frames im (boot_memory s) mb Him) as [HFr Hpos].
  destruct (test_nodes_ok im fuel fr _ _ s1 f c' depth m' u' Him (ld_distinct _ _ _ _ Hld) HFr Hpos (proj1 (ld_pages _ _ _ _ Hld)) Hf3
    Hu Ht Hs' Hc') as (s2 & Hrun & <- & <- & Hnodes & Hu2).
  exists s2, m', (TaskScheduler.con (k_sched (s_kern s1))). unfold kern_init. rewrite Hr. cbn [obind].
  split; [exact Hrun |]. split; [exact Hu2 |]. split; [exact Hnodes |].
  split; [exact Hscr |]. split; [exact Hw |]. split; [exact Hs' |]. split; [exact Hon |].
  split; [| split; [exact Hd | split; [exact Hother |]]].
  2: { intros es Hes Hdem Htab. destruct Him as [Hself Haddr _ _ _ _ _].
       apply (run_events_sim _ _ _ _ Hself Haddr es _ _ (hu_sim _ _ _ _ _ Hu2) Hes).
       - cbn. rewrite length_take. lia.
       - pose proof (hu_tables _ _ _ _ _ Hu2). lia. }
  assert (Hil : (32 <= length ino)%nat).
  { pose proof (tf_inodes _ Hfit) as Hi. rewrite Htb in Hi. apply lget_Some in Hn as [_ Hn]. exact (Forall_lookup_1 _ _ _ _ Hi Hn). }
  destruct (resized_inode _ _ _ _ Hres ltac:(by rewrite Htb) Hil) as (ino' & ? & ? & _). by exists ino'.
Qed.
End kern_init.

(** ** A machine *)

(** Memory that holds zeros. *)
#[local] Instance zero_memory : RawMemory block_buffer := fun _ => mkNode 0 0 0 inhabitant.

Definition demo_image : image :=
  mk_image 0xC0110000 0xC0111000 (fun n => 0xC0102000 + 16 * (n mod 32)) (fun n => 0xC0103000 + 16 * (n mod 16))
    self0 0xC0101000 0xC0102000 0xC0103000 0xC0104000 0xC0120000 0x1000 0xC0008000 0xC0008010.

(** ".strtab" and ".symtab". *)
Definition strtab_name : list Z := [46; 115; 116; 114; 116; 97; 98].
Definition symtab_name : list Z := [46; 115; 121; 109; 116; 97; 98].

(** The boot loader's structure at 0x9000: one section, named at 0xC0006000, and a memory map
    of one usable area of 384 KB. *)
Definition demo_memory : mem :=
  store_bytes 0xC0008000 (strtab_name ++ [0]) (store_bytes 0xC0008010 (symtab_name ++ [0])
    (store_bytes 0xC0006000 (strtab_name ++ [0])
      (store32 0x500C 0x6000
        (store32 0x901C 1 (store32 0x9024 0x5000 (store32 0x902C 24 (store32 0x9030 0x7000
          (store32 0x7014 1 (store32 0x700C 0x60000 (store32 0x7004 0x100000 ∅)))))))))).

Definition demo_system : start.t disk :=
  start.mk disk
    (kernel.mk idt.empty_table (pmm.mk ∅ 0 0) PageDictionary.make keyboard.make
       (TaskScheduler.mk 0 0 0 0 ∅ demo_memory zero_screen TaskScheduler.zero_context) [])
    (gdt.mk (replicate 5 gdt.zero_entry) 0 0) (elf.mk 0 0 0 0) (ImplicitListAllocator.mk 0 0)
    ide.zero_device mount_fs 0.

Lemma demo_image_ok : image_ok demo_image.
Proof.
  split; [exact self0_ok | exact demo_addr | intros n; cbn; zlia | intros n; cbn; zlia | | |]; cbn; try lia.
  split; [lia | done].
Qed.

Lemma demo_loaded fuel : (30 <= fuel)%nat -> loaded demo_image fuel demo_memory 0x9000.
Proof.
  intros Hf. split.
  - exists strtab_name. cbn. unfold rd, byte_ok. split_and!; try done; try lia; vm_compute; done.
  - exists symtab_name. cbn. unfold rd, byte_ok. split_and!; try done; try lia; vm_compute; done.
  - intros i Hi. exists strtab_name. assert (i = 0)%nat as -> by (vm_compute in Hi; lia).
    split; [| simpl; lia]. replace (VMA _) with 0xC0006000 by (vm_compute; done).
    cbn. unfold rd, byte_ok. split_and!; try done; try lia; vm_compute; done.
  - split_and!; vm_compute; first [congruence | done | lia].
  - rewrite full_cache_pages. split; vm_compute; [lia | congruence].
  - apply (bool_decide_eq_true_1 _). vm_compute. done.
Qed.

Lemma demo_fresh : fresh demo_system.
Proof.
  split; try reflexivity.
  - exact mount_good.
  - repeat constructor; done.
  - vm_compute. congruence.
  - apply Forall_replicate. vm_compute. lia.
  - vm_compute. congruence.
  - vm_compute. congruence.
Qed.

(** The machine starts: the first page of the heap is the last free page. *)
Lemma kern_init_ok_witness :
  exists s, init_all demo_image 400 0x9000 (elf.mk 0 0 0 0) TaskScheduler.zero_context demo_system = Ok s /\
    s_cr3 s = 0x00100000 /\ shows (TaskScheduler.con (k_sched (s_kern s))) greeting /\
    heap_at (boot_memory s) kHeapStart (node_blocks (nodes_of (s_fs s))) kHeapEnd /\
    PageDictionary.at_ self0 kHeapStart (k_vmm (s_kern s)) = Ok 0x15F000.
Proof.
  destruct (kern_init_ok demo_image 400 3 0x9000 (elf.mk 0 0 0 0) TaskScheduler.zero_context demo_system)
    as (s & Hr & _ & [[Hsim _ _ _ Hh _ _ _] _ _ Hc Hs _ _]);
    [vm_compute; lia | unfold kCacheBlocks; lia | exact demo_image_ok | apply demo_loaded; lia | exact demo_fresh |].
  exists s. split; [exact Hr |]. split; [rewrite Hc; reflexivity |]. split; [exact Hs |]. split; [exact Hh |].
  rewrite (ms_space _ _ _ _ (sim_mem _ _ _ _ _ _ Hsim)) by (unfold kHeapStart; lia).
  unfold translate, boot_world. cbn [heap_world spec.space]. rewrite decide_True.
  - vm_compute. reflexivity.
  - unfold heap_base, heap_pages, heap_bytes, sizeof_ListNode, kHeapStart. zlia.
Defined.

(** The same machine with the small tree on its disk. *)
Definition tree_machine : start.t disk :=
  start.mk disk (s_kern demo_system) (s_gdt demo_system) (s_elf demo_system) (s_heap demo_system)
    (s_dev demo_system)
    (fs.mk (fs.g_block_cache mount_fs) (fs.g_super_block mount_fs) (fs.g_inode_table mount_fs)
       (fs.g_imap mount_fs) (fs.g_zmap mount_fs) tree_disk) 0.

Lemma tree_fresh : fresh tree_machine.
Proof.
  split; try reflexivity.
  - split; [apply (make_repr kCacheBlocks), cache_bounds | intros k; apply tree_sector_ok].
  - apply Forall_take, Forall_drop, tree_bytes.
  - vm_compute. congruence.
  - apply Forall_replicate. vm_compute. lia.
  - vm_compute. congruence.
  - vm_compute. congruence.
Qed.

(** Mounting gives the inode table of the tree. *)
Lemma tree_mounted : mounted_inodes tree_blocks (fs.g_inode_table mount_fs) = fs.g_inode_table tree_fs.
Proof. vm_compute. reflexivity. Qed.

Lemma tree_has_test_file fuel :
  (40 <= fuel)%nat ->
  has_test_file fuel 3 1 tree_blocks (fs.g_inode_table tree_fs) 3 (pad 56 (inode_bytes 0x81A4 2 12)).
Proof.
  intros Hf. split.
  - exact tree_bytes.
  - split; vm_compute; split; congruence.
  - exact tree_tree.
  - by apply tree_dirs.
  - do 40 (destruct fuel as [| fuel]; [lia |]). vm_compute. reflexivity.
  - split; [reflexivity |]. apply (bool_decide_eq_true_1 _). vm_compute. reflexivity.
  - apply (bool_decide_eq_true_1 _). vm_compute. reflexivity.
  - vm_compute. intros [_ Hlt]. discriminate Hlt.
  - lia.
  - vm_compute. congruence.
Qed.

(** The run: the file has its new text on the disk. *)
Lemma kern_init_runs_witness :
  exists s, kern_init demo_image 1100 3 0x9000 (elf.mk 0 0 0 0) TaskScheduler.zero_context tree_machine = Ok s /\
    take 12 (disk_block (fs.disk_ (s_fs s)) 12) = files.hello_world /\
    heap_at (boot_memory s) kHeapStart (node_blocks (nodes_of (s_fs s))) kHeapEnd.
Proof.
  destruct (kern_init_runs demo_image 1100 3 0x9000 (elf.mk 0 0 0 0) TaskScheduler.zero_context tree_machine
    1 3 (pad 56 (inode_bytes 0x81A4 2 12))) as (s & m & c & Hr & [_ _ _ _ Hh _ _ _] & _ & _ & _ & _ & _ & _ & Hd & _ & _).
  - exact test_fuel.
  - lia.
  - exact demo_image_ok.
  - apply demo_loaded. lia.
  - exact tree_fresh.
  - change (has_test_file 1100 3 1 tree_blocks (mounted_inodes tree_blocks (fs.g_inode_table mount_fs)) 3
      (pad 56 (inode_bytes 0x81A4 2 12))). rewrite tree_mounted. apply tree_has_test_file. lia.
  - exists s. split; [exact Hr |]. split; [| exact Hh].
    change (disk_block (fs.disk_ (s_fs s)) 12 = rewritten (tree_blocks 12)) in Hd. rewrite Hd. reflexivity.
Defined.
