(* ===== verification/Selftest.v ===== *)
(** * The tests in the components ([lib/pmm.cc], [lib/vmm.cc], [lib/kthread.cc], [lib/ide.cc],
    [lib/kmalloc.cc])

    The functions that print the memory maps, the two threads of [test_kthread],
    and the tests of paging, of the disk driver and of the heap, with what they establish. *)

From stdpp Require Import prelude gmap strings.
From Stdlib Require Import ZArith Lia.
From S2P Require Import Prelude CString Heap Interrupts Pmm Vmm Console Printk Keyboard Scheduler.
From S2P Require Import Ide Kernel KernelHeap Start.
Import kernel.

(** ** The memory maps *)

Module show.

(** [show_kern_mmap]; the linker gives the bounds. *)
Definition show_kern_mmap (kern_start kern_end : Z) (c : console.t) : outcome console.t :=
  printk.print_all
    [ (str "kernel in memory start: 0x%x" ++ [10], [AUInt kern_start]);
      (str "kernel in memory end: 0x%x" ++ [10], [AUInt kern_end]);
      (str "kernel size: 0x%x bytes" ++ [10], [AUInt (u32 (kern_end - kern_start))]) ] c.

Definition entry_format : list Z := str "base_addr= 0x%x%x, length = %x%x, type = %x" ++ [10].

Definition entry_args (m : mem) (e : Z) : list arg :=
  [AUInt (pmm.base_addr_high m e); AUInt (pmm.base_addr_low m e); AUInt (pmm.length_high m e);
   AUInt (pmm.length_low m e); AUInt (pmm.type_ m e)].

(** The loop of [show_mmap]: it compares the address with the end in bytes. *)
Fixpoint show_loop (fuel : nat) (m : mem) (mmap end_ : Z) (c : console.t) : outcome console.t :=
  match fuel with
  | O => NoFuel
  | S f =>
      if mmap <? end_ then
        let! c := printk.printk entry_format (entry_args m mmap) c in
        show_loop f m (u32 (mmap + pmm.sizeof_mmap_entry)) end_ c
      else Ok c
  end.

Definition show_mmap (fuel : nat) (m : mem) (mmap_addr mmap_length : Z) (c : console.t)
    : outcome console.t :=
  let! c := printk.printk (str "Memory map:" ++ [10]) [] c in
  show_loop fuel m mmap_addr (u32 (mmap_addr + mmap_length)) c.

End show.

(** ** The threads of [test_kthread] *)

Module threads.

(** The loop of [thread1] and [thread2], which print "A" and "B"; [cnt] is static. *)
Fixpoint count_loop (n : nat) (ch cnt : Z) (c : console.t) : outcome (Z * console.t) :=
  match n with
  | O => Ok (cnt, c)
  | S n' =>
      let cnt := s32 (cnt + 1) in
      if cnt =? 0x1000 then
        let! c := printk.printk [ch] [] c in count_loop n' ch 0 c
      else count_loop n' ch cnt c
  end.

Definition thread1 (cnt : Z) (c : console.t) : outcome (Z * console.t) :=
  count_loop (Z.to_nat 0x10000) 65 cnt c.

Definition thread2 (cnt : Z) (c : console.t) : outcome (Z * console.t) :=
  count_loop (Z.to_nat 0x10000) 66 cnt c.

(** The threads' entry points are given by their addresses. *)
Definition test_kthread (kthread_exit : Z) (allocator : ImplicitListAllocator.t) (fuel : nat)
    (thread1_addr thread2_addr : Z) (s : TaskScheduler.t) : outcome TaskScheduler.t :=
  let! '(_, s) := TaskScheduler.kthread kthread_exit allocator fuel thread1_addr s in
  let! '(_, s) := TaskScheduler.kthread kthread_exit allocator fuel thread2_addr s in
  Ok s.

End threads.

(** ** The disk *)

Module disk_test.
Section disk_test.
Context {D : Type} `{Device D}.
Context (fuel : nat) (dev : ide.ide_device).

(** [buffer[i] = i] for the 512 bytes. *)
Definition pattern : list Z := map u8 (seqZ 0 512).

(** The loop that prints and checks the bytes. *)
Fixpoint check_bytes (n : nat) (i : Z) (buffer : list Z) (c : console.t) : outcome console.t :=
  match n with
  | O => Ok c
  | S n' =>
      let! b := or_fault (lget buffer i) in
      let! c := printk.printk (str "%d ") [AInt b] c in
      kassert (b =? i mod 256) "ide disk error" (check_bytes n' (i + 1) buffer c)
  end.

Definition test_ide (d : D) (c : console.t) : outcome (D * console.t) :=
  let secno := 1 in
  let! '(_, d) := ide.ide_write_secs fuel dev secno pattern 1 d in
  let! '(_, buffer, d) := ide.ide_read_secs fuel dev secno (replicate 512 0) 1 d in
  let! c := check_bytes 512 0 buffer c in
  let! c := printk.printk ([10] ++ str "pass test: ide" ++ [10]) [] c in
  Ok (d, c).

End disk_test.
End disk_test.

(** ** The heap *)

Module heap_test.

(** The body of the loop, for the value [cnt] of [kCnt]. *)
Definition round (fuel : nat) (a : ImplicitListAllocator.t) (cnt : Z) (m : mem) (c : console.t)
    : outcome (mem * console.t) :=
  let! c := printk.printk (str "kmalloc cnt: %d" ++ [10]) [AInt cnt] c in
  let! '(addr1, m) := kmalloc fuel a 50 m in
  kassert (addr1 =? 0xD0000004) "kmalloc error" (
    let! '(addr2, m) := kmalloc fuel a 500 m in
    kassert (addr2 =? 0xD000003A) "kmalloc error" (
      let! '(addr3, m) := kmalloc fuel a 5000 m in
      kassert (addr3 =? 0xD0000232) "kmalloc error" (
        let m := kfree addr1 m in
        let m := kfree addr2 m in
        let m := kfree addr3 m in
        Ok (m, c)))).

(** [while (--kCnt)], with [n] turns left. *)
Fixpoint rounds (n : nat) (fuel : nat) (a : ImplicitListAllocator.t) (m : mem) (c : console.t)
    : outcome (mem * console.t) :=
  match n with
  | O => Ok (m, c)
  | S n' => let! '(m, c) := round fuel a (Z.of_nat n) m c in rounds n' fuel a m c
  end.

Definition test_kmalloc (fuel : nat) (a : ImplicitListAllocator.t) (m : mem) (c : console.t)
    : outcome (mem * console.t) :=
  let! c := printk.printk (str "test kmalloc: " ++ [10]) [] c in
  let kCnt := 0x1000 in
  let! '(m, c) := rounds (Z.to_nat (kCnt - 1)) fuel a m c in
  let! c := printk.printk (str "pass test: kmalloc" ++ [10]) [] c in
  Ok (m, c).

End heap_test.

(** ** Paging *)

Module vmm_test.
Section vmm_test.
Context (im : image).

Definition memory_of (k : kernel.t) : mem := TaskScheduler.memory (k_sched k).

Definition set_memory (m : mem) (k : kernel.t) : kernel.t :=
  let s := k_sched k in
  set_sched (TaskScheduler.mk (TaskScheduler.runnable_tasks_ s) (TaskScheduler.running_ s)
    (TaskScheduler.waiting_tasks_ s) (TaskScheduler.pid_cnt_ s) (TaskScheduler.tasks s) m
    (TaskScheduler.con s) (TaskScheduler.cpu s)) k.

Definition say (format : list Z) (args : list arg) (k : kernel.t) : outcome kernel.t :=
  let! c := printk.printk format args (TaskScheduler.con (k_sched k)) in
  Ok (set_sched (set_con c (k_sched k)) k).

Definition touch (err a : Z) (k : kernel.t) : outcome kernel.t :=
  paged.touch (page_dictionary im) (page_fault_addr im) (timer_addr im) (keyboard_addr im) err a k.

(** Printing the word at [a], and storing one, through the page fault handler when the page
    is missing. *)
Definition say_word (format : list Z) (a : Z) (k : kernel.t) : outcome kernel.t :=
  let! k := touch 0 a k in say format [AUInt (load32 (memory_of k) a)] k.

Definition store_word (a v : Z) (k : kernel.t) : outcome kernel.t :=
  let! k := touch PAGE_WRITE a k in Ok (set_memory (store32 a v (memory_of k)) k).

(** [i_addr] is where the stack has [i]. *)
Definition test_vmm (i_addr : Z) (k : kernel.t) : outcome kernel.t :=
  let! k := store_word i_addr 0 k in
  let! k := say (str "variable address: 0x%x" ++ [10]) [AUInt i_addr] k in
  let! k := touch 0 i_addr k in
  let! k := say (str "variable value: %d" ++ [10]) [AInt (s32 (load32 (memory_of k) i_addr))] k in
  let! k := say_word (str "value at 0xc0000000: 0x%x" ++ [10]) 0xC0000000 k in
  let! k := say_word (str "value at 0xc0001000: 0x%x" ++ [10]) 0xC0001000 k in
  let! k := say_word (str "value at 0xc0002000: 0x%x" ++ [10]) 0xC0002000 k in
  let! k := say_word (str "read 0x10002000: 0x%x" ++ [10]) 0x10002000 k in
  let! k := say (str "write 0x0 to 0x10003000" ++ [10]) [] k in
  store_word 0x10003000 0 k.

End vmm_test.
End vmm_test.

(** ** What is shown of the memory map *)

(** The line of one entry. *)
Definition entry_line (m : mem) (e : Z) : list Z := printk.render show.entry_format (show.entry_args m e).

Lemma show_loop_ok n fuel m a k c u :
  0 <= a -> 0 <= k -> a + 24 * (k + Z.of_nat n) < 4294967296 -> (n < fuel)%nat ->
  (forall i, k <= i < k + Z.of_nat n -> Forall printk.arg_ok (show.entry_args m (a + 24 * i))) -> shows c u ->
  exists c' u', show.show_loop fuel m (a + 24 * k) (a + 24 * (k + Z.of_nat n)) c = Ok c' /\ shows c' u' /\
    console.console_write (seqZ k (Z.of_nat n) ≫= (fun i => entry_line m (a + 24 * i))) rc_black rc_white c = Ok c'.
Proof.
  intros Ha. revert fuel k c u. induction n as [| n IH];
    intros [| f] k c u Hk Hend Hf Hargs Hc; try lia; cbn [show.show_loop].
  - rewrite Z.add_0_r, Z.ltb_irrefl. by exists c, u.
  - rewrite (proj2 (Z.ltb_lt _ _)) by lia.
    destruct (printk.printk_says show.entry_format _ c u Hc ltac:(by repeat constructor) (Hargs k ltac:(lia)))
      as (c1 & u1 & -> & Hw & Hc1).
    cbn [obind]. unfold pmm.sizeof_mmap_entry. rewrite u32_small by lia.
    destruct (IH f (k + 1) c1 u1) as (c2 & u2 & Hr & Hc2 & Hw2); try done; try lia; [intros i Hi; apply Hargs; lia |].
    replace (a + 24 * k + 24) with (a + 24 * (k + 1)) by lia.
    replace (k + Z.of_nat (S n)) with (k + 1 + Z.of_nat n) by lia. rewrite Hr.
    exists c2, u2. split_and!; [done | done |]. rewrite seqZ_cons by lia.
    replace (Z.pred (Z.of_nat (S n))) with (Z.of_nat n) by lia.
    change (console.console_write (entry_line m (a + 24 * k) ++
      (seqZ (k + 1) (Z.of_nat n) ≫= (fun i => entry_line m (a + 24 * i)))) rc_black rc_white c = Ok c2).
    by rewrite console_write_app, (Hw : console.console_write (entry_line m (a + 24 * k)) _ _ _ = _).
Qed.

(** The memory map as it is shown.  [show_mmap] terminates and prints every
    entry of a map of [n] entries once and nothing after it: its end is in bytes, unlike the end
    that [init_pmm] computes for the same map. *)
Theorem show_mmap_prints n fuel m mmap_addr c u :
  0 <= mmap_addr -> mmap_addr + 24 * Z.of_nat n < 4294967296 -> (n < fuel)%nat ->
  (forall i, 0 <= i < Z.of_nat n -> Forall printk.arg_ok (show.entry_args m (mmap_addr + 24 * i))) -> shows c u ->
  exists c' u', show.show_mmap fuel m mmap_addr (24 * Z.of_nat n) c = Ok c' /\ shows c' u' /\
    console.console_write
      (str "Memory map:" ++ [10] ++ (seqZ 0 (Z.of_nat n) ≫= (fun i => entry_line m (mmap_addr + 24 * i))))
      rc_black rc_white c = Ok c'.
Proof.
  intros Ha He Hf Hargs Hc. unfold show.show_mmap.
  destruct (printk.printk_says (str "Memory map:" ++ [10]) [] c u Hc) as (c1 & u1 & -> & Hw1 & Hc1);
    [by repeat constructor | done |]. cbn [obind]. rewrite u32_small by lia.
  destruct (show_loop_ok n fuel m mmap_addr 0 c1 u1 Ha) as (c2 & u2 & Hr & Hc2 & Hw2); try done; try lia.
  rewrite Z.mul_0_r, Z.add_0_r, Z.add_0_l in Hr. rewrite Hr.
  exists c2, u2. split_and!; [done | done |].
  rewrite app_assoc, console_write_app, (Hw1 : console.console_write (str "Memory map:" ++ [10]) _ _ _ = _). exact Hw2.
Qed.

(** ** The threads *)

Lemma count_loop_ok n ch cnt c u :
  0 <= cnt < 4096 -> byte_ok ch -> shows c u ->
  exists c' u', threads.count_loop n ch cnt c = Ok ((cnt + Z.of_nat n) mod 4096, c') /\ shows c' u' /\
    console.console_write (replicate (Z.to_nat ((cnt + Z.of_nat n) / 4096)) ch) rc_black rc_white c = Ok c'.
Proof.
  intros Hcnt Hch. revert cnt c u Hcnt. induction n as [| n IH]; intros cnt c u Hcnt Hc; cbn [threads.count_loop].
  - rewrite Z.add_0_r, Z.mod_small, Z.div_small by lia. by exists c, u.
  - rewrite s32_small by lia. destruct (Z.eqb_spec (cnt + 1) 4096) as [E | E].
    + destruct (printk.printk_says [ch] [] c u Hc) as (c1 & u1 & -> & Hw1 & Hc1);
        [by apply Forall_singleton | done |]. cbn [obind].
      destruct (IH 0 c1 u1 ltac:(lia) Hc1) as (c2 & u2 & -> & Hc2 & Hw2). exists c2, u2.
      replace (cnt + Z.of_nat (S n)) with (Z.of_nat n + 1 * 4096) by lia.
      rewrite Z.mod_add, Z.div_add by lia. split_and!; [done | done |].
      assert (0 <= Z.of_nat n / 4096) by zlia.
      replace (Z.to_nat (Z.of_nat n / 4096 + 1)) with (S (Z.to_nat (Z.of_nat n / 4096))) by lia.
      change (console.console_write ([ch] ++ replicate (Z.to_nat (Z.of_nat n / 4096)) ch) rc_black rc_white c = Ok c2).
      by rewrite console_write_app, (Hw1 : console.console_write [ch] _ _ _ = _).
    + destruct (IH (cnt + 1) c u ltac:(lia) Hc) as (c2 & u2 & -> & Hc2 & Hw2). exists c2, u2.
      by replace (cnt + Z.of_nat (S n)) with (cnt + 1 + Z.of_nat n) by lia.
Qed.

Lemma thread_run n ch c u :
  Z.of_nat n = 65536 -> byte_ok ch -> shows c u ->
  exists c' u', threads.count_loop n ch 0 c = Ok (0, c') /\ shows c' u' /\
    console.console_write (replicate 16 ch) rc_black rc_white c = Ok c'.
Proof.
  intros Hn Hch Hc. destruct (count_loop_ok n ch 0 c u ltac:(lia) Hch Hc) as (c' & u' & Hr & Hc' & Hw).
  rewrite Hn in Hr, Hw. by exists c', u'.
Qed.

(** The test threads.  Each returns after writing its letter exactly 16 times, and
    leaves its counter at zero for the next run. *)
Theorem threads_print c u :
  shows c u ->
  (exists c' u', threads.thread1 0 c = Ok (0, c') /\ shows c' u' /\
    console.console_write (replicate 16 65) rc_black rc_white c = Ok c') /\
  exists c' u', threads.thread2 0 c = Ok (0, c') /\ shows c' u' /\
    console.console_write (replicate 16 66) rc_black rc_white c = Ok c'.
Proof.
  intros Hc. assert (Hn : Z.of_nat (Z.to_nat 0x10000) = 65536) by (rewrite Z2Nat.id; lia).
  assert (Hb : byte_ok 65 /\ byte_ok 66) by (unfold byte_ok; lia). destruct Hb as [HA HB].
  split; [exact (thread_run _ 65 c u Hn HA Hc) | exact (thread_run _ 66 c u Hn HB Hc)].
Qed.

(** ** The disk test *)

Lemma pattern_length : length disk_test.pattern = 512%nat.
Proof. unfold disk_test.pattern. by rewrite length_map, length_seqZ. Qed.

Lemma pattern_get i : 0 <= i < 512 -> lget disk_test.pattern i = Some (i mod 256).
Proof.
  intros Hi. apply lget_Some. split; [lia |]. unfold disk_test.pattern. rewrite list_lookup_fmap.
  rewrite lookup_seqZ_lt by lia. cbn. f_equal. unfold u8. f_equal. lia.
Qed.

Lemma check_bytes_ok n i c u :
  0 <= i -> i + Z.of_nat n <= 512 -> shows c u ->
  exists c' u', disk_test.check_bytes n i disk_test.pattern c = Ok c' /\ shows c' u' /\
    console.console_write (seqZ i (Z.of_nat n) ≫= (fun k => Console.spec.dec (k mod 256) ++ [32])) rc_black rc_white c = Ok c'.
Proof.
  revert i c u. induction n as [| n IH]; intros i c u Hi Hn Hc; cbn [disk_test.check_bytes]; [by exists c, u |].
  rewrite pattern_get by lia. cbn [or_fault obind].
  destruct (printk.printk_says (str "%d ") [AInt (i mod 256)] c u Hc) as (c1 & u1 & -> & Hw & Hc1);
    [by repeat constructor | by apply Forall_singleton |]. cbn [obind]. rewrite Z.eqb_refl. cbn [kassert].
  destruct (IH (i + 1) c1 u1 ltac:(lia) ltac:(lia) Hc1) as (c2 & u2 & -> & Hc2 & Hw2).
  exists c2, u2. split_and!; [done | done |]. rewrite seqZ_cons by lia.
  replace (Z.pred (Z.of_nat (S n))) with (Z.of_nat n) by lia.
  change (console.console_write ((Console.spec.dec (i mod 256) ++ [32]) ++
    (seqZ (i + 1) (Z.of_nat n) ≫= (fun k => Console.spec.dec (k mod 256) ++ [32]))) rc_black rc_white c = Ok c2).
  rewrite console_write_app. replace (Console.spec.dec (i mod 256)) with (Console.spec.dec (u32 (i mod 256)))
    by (rewrite u32_small; [done | zlia]).
  by rewrite (Hw : console.console_write (Console.spec.dec (u32 (i mod 256)) ++ [32]) _ _ _ = _).
Qed.

(** What the test prints. *)
Definition disk_report : list Z :=
  (seqZ 0 512 ≫= (fun k => Console.spec.dec (k mod 256) ++ [32])) ++
  [10] ++ str "pass test: ide" ++ [10].

(** The disk test.  On any disk that was identified, [test_ide] passes: it returns
    with the 512 bytes of its pattern in sector 1 and every other sector as it was, after
    printing the bytes it read back. *)
Theorem test_ide_passes {D : Type} `{AtaDisk D} fuel dev (d : D) c u :
  (busy_bound < fuel)%nat -> ide.valid dev = 1 -> disk_ok (sectors (ata_of d)) -> shows c u ->
  exists d' c' u', disk_test.test_ide fuel dev d c = Ok (d', c') /\ shows c' u' /\
    (forall x, sectors (ata_of d') x = if decide (x = 1) then disk_test.pattern else sectors (ata_of d) x) /\
    console.console_write disk_report rc_black rc_white c = Ok c'.
Proof.
  intros Hf Hv Hd Hc. unfold disk_test.test_ide. pose proof pattern_length as Hl.
  destruct (write_secs_run fuel dev 1 1 disk_test.pattern d Hf Hv) as (d1 & -> & Hs1); [lia | lia | lia | exact Hl |].
  cbn [obind].
  assert (Hs : forall x, sectors (ata_of d1) x = if decide (x = 1) then disk_test.pattern else sectors (ata_of d) x).
  { intros x. rewrite Hs1. unfold write_image. change (Z.to_nat 1) with 1%nat.
    destruct (decide (x = 1)) as [-> | Hx]; [| by rewrite decide_False by lia].
    rewrite decide_True by lia. rewrite take_ge by (rewrite length_drop, Hl; lia). done. }
  destruct (read_secs_run fuel dev 1 1 (replicate 512 0) d1 Hf) as (buf & d2 & Hr & Hs2 & _ & Hbuf); try done; try lia.
  { intros x. rewrite Hs. case_decide; [exact Hl | apply Hd]. }
  rewrite Hr, Hbuf by lia. cbn [obind]. change (Z.to_nat 1) with 1%nat. cbn [sectors_at].
  rewrite Hs, decide_True, app_nil_r by done.
  destruct (check_bytes_ok 512 0 c u ltac:(lia) ltac:(lia) Hc) as (c1 & u1 & -> & Hc1 & Hw1). cbn [obind].
  destruct (printk.printk_says ([10] ++ str "pass test: ide" ++ [10]) [] c1 u1 Hc1) as (c2 & u2 & -> & Hw2 & Hc2);
    [by repeat constructor | done |]. cbn [obind].
  exists d2, c2, u2. split; [done |]. split; [done |]. split; [intros x; by rewrite Hs2, Hs |].
  unfold disk_report. rewrite console_write_app. change (Z.of_nat 512) with 512 in Hw1. rewrite Hw1. exact Hw2.
Qed.

(** ** The heap test *)

(** One step of the loop of [alloc], and [free], by the headers they read. *)
Lemma alloc_fit f a cur size m w :
  cur <> ImplicitListAllocator.mend_ a -> load32 m cur = w ->
  (size <=? Z.land w 0xFFFFFFFE) && negb (negb (Z.land w 1 =? 0)) = true ->
  ImplicitListAllocator.alloc_loop (S f) a cur size m =
    Ok (u32 (cur + 4), ImplicitListAllocator.take_block cur (Z.land w 0xFFFFFFFE) size m).
Proof.
  intros Hne Hw Hc. cbn [ImplicitListAllocator.alloc_loop]. rewrite (proj2 (Z.eqb_neq _ _)) by done.
  unfold ImplicitListAllocator.size_of_block, ImplicitListAllocator.is_allocated. by rewrite Hw, Hc.
Qed.

Lemma alloc_skip f a cur size m w :
  cur <> ImplicitListAllocator.mend_ a -> load32 m cur = w ->
  (size <=? Z.land w 0xFFFFFFFE) && negb (negb (Z.land w 1 =? 0)) = false ->
  ImplicitListAllocator.alloc_loop (S f) a cur size m =
    ImplicitListAllocator.alloc_loop f a (u32 (cur + u32 (Z.land w 0xFFFFFFFE + 4))) size m.
Proof.
  intros Hne Hw Hc. cbn [ImplicitListAllocator.alloc_loop]. rewrite (proj2 (Z.eqb_neq _ _)) by done.
  unfold ImplicitListAllocator.next_block, ImplicitListAllocator.size_of_block, ImplicitListAllocator.is_allocated.
  by rewrite Hw, Hc.
Qed.

Lemma free_words pos m w1 w2 :
  load32 m (u32 (pos - 4)) = w1 -> load32 m (u32 (u32 (pos - 4) + u32 (Z.land w1 0xFFFFFFFE + 4))) = w2 ->
  kfree pos m = ImplicitListAllocator.record (u32 (pos - 4))
    (if Z.land w2 1 =? 0 then u32 (Z.land w1 0xFFFFFFFE + 4 + Z.land w2 0xFFFFFFFE) else Z.land w1 0xFFFFFFFE)
    ImplicitListAllocator.kFree m.
Proof.
  intros H1 H2. unfold kfree, ImplicitListAllocator.free, ImplicitListAllocator.next_block,
    ImplicitListAllocator.size_of_block, ImplicitListAllocator.is_allocated.
  rewrite H1, H2, negb_involutive. by destruct (Z.land w2 1 =? 0).
Qed.

Definition heap_range : ImplicitListAllocator.t := ImplicitListAllocator.mk kHeapStart kHeapEnd.

(** The headers that the test uses: of the blocks of 50, 500 and 5000 bytes. *)
Record headers (m : mem) (a b c : Z) : Prop := {
  hd_50 : load32 m 0xD0000000 = a;
  hd_500 : load32 m 0xD0000036 = b;
  hd_5000 : load32 m 0xD000022E = c
}.

(** Loads of words that were just stored, at known addresses. *)
Ltac load_words :=
  repeat first
    [ rewrite load32_store32_eq by (split; [discriminate | reflexivity])
    | rewrite load32_store32_ne by (first [left; discriminate | right; discriminate]) ];
  first [assumption | reflexivity].

(** A round after its first allocation, for what that left in the second header. *)
Lemma rest_headers f m b1 :
  b1 = 16777158 \/ b1 = 4294967292 ->
  exists m2 m3,
    kmalloc (S (S (S f))) heap_range 500 (store32 0xD0000036 b1 (store32 0xD0000000 51 m)) = Ok (0xD000003A, m2) /\
    kmalloc (S (S (S f))) heap_range 5000 m2 = Ok (0xD0000232, m3) /\
    headers (kfree 0xD0000232 (kfree 0xD000003A (kfree 0xD0000004 m3))) 50 500 (b1 - 504).
Proof.
  intros Hb. set (m1 := store32 0xD0000036 b1 (store32 0xD0000000 51 m)).
  set (m2 := store32 0xD000022E (b1 - 504) (store32 0xD0000036 501 m1)).
  set (m3 := store32 0xD00015BA (b1 - 5508) (store32 0xD000022E 5001 m2)).
  exists m2, m3. split; [| split].
  - unfold kmalloc, ImplicitListAllocator.alloc. change (ImplicitListAllocator.round_up 500) with 500.
    rewrite (alloc_skip _ _ _ _ _ 51) by (first [discriminate | reflexivity | unfold m1; load_words]).
    change (u32 _) with 0xD0000036. destruct Hb as [-> | ->];
      (erewrite alloc_fit by (first [discriminate | unfold m1; load_words]); reflexivity).
  - unfold kmalloc, ImplicitListAllocator.alloc. change (ImplicitListAllocator.round_up 5000) with 5000.
    rewrite (alloc_skip _ _ _ _ _ 51) by (first [discriminate | reflexivity | unfold m2, m1; load_words]).
    change (u32 _) with 0xD0000036.
    rewrite (alloc_skip _ _ _ _ _ 501) by (first [discriminate | reflexivity | unfold m2, m1; load_words]).
    change (u32 _) with 0xD000022E. destruct Hb as [-> | ->];
      (erewrite alloc_fit by (first [discriminate | unfold m2, m1; load_words]); reflexivity).
  - assert (H1 : kfree 0xD0000004 m3 = store32 0xD0000000 50 m3).
    { rewrite (free_words _ _ 51 501); [reflexivity | unfold m3, m2, m1 ..]; cbv beta.
      - change (u32 _) with 0xD0000000. destruct Hb as [-> | ->]; load_words.
      - change (u32 _) with 0xD0000036. destruct Hb as [-> | ->]; load_words. }
    rewrite H1. set (m4 := store32 0xD0000000 50 m3).
    assert (H2 : kfree 0xD000003A m4 = store32 0xD0000036 500 m4).
    { rewrite (free_words _ _ 501 5001); [reflexivity | unfold m4, m3, m2, m1 ..].
      - change (u32 _) with 0xD0000036. destruct Hb as [-> | ->]; load_words.
      - change (u32 _) with 0xD000022E. destruct Hb as [-> | ->]; load_words. }
    rewrite H2. set (m5 := store32 0xD0000036 500 m4).
    assert (H3 : kfree 0xD0000232 m5 = store32 0xD000022E (b1 - 504) m5).
    { rewrite (free_words _ _ 5001 (b1 - 5508)); [destruct Hb as [-> | ->]; reflexivity | unfold m5, m4, m3, m2, m1 ..].
      - change (u32 _) with 0xD000022E. destruct Hb as [-> | ->]; load_words.
      - change (u32 _) with 0xD00015BA. destruct Hb as [-> | ->]; load_words. }
    rewrite H3. unfold m5, m4. split; destruct Hb as [-> | ->]; load_words.
Qed.

Lemma round_headers f m a b c cnt con u :
  headers m a b c -> a = 16777212 \/ a = 50 /\ b = 500 -> shows con u ->
  exists m' con' u', heap_test.round (S (S (S f))) heap_range cnt m con = Ok (m', con') /\
    headers m' 50 500 (if decide (a = 50) then 0xFFFFFE04 else 16776654) /\ shows con' u' /\
    console.console_write (str "kmalloc cnt: " ++ Console.spec.dec (u32 cnt) ++ [10]) rc_black rc_white con = Ok con'.
Proof.
  intros [Ha Hb Hc0] Hcase Hc. unfold heap_test.round.
  destruct (printk.printk_says (str "kmalloc cnt: %d" ++ [10]) [AInt cnt] con u Hc) as (c1 & u1 & -> & Hw1 & Hc1);
    [by repeat constructor | by apply Forall_singleton |]. cbn [obind].
  assert (Hb1 : exists b1, (b1 = 16777158 \/ b1 = 4294967292) /\
    b1 - 504 = (if decide (a = 50) then 0xFFFFFE04 else 16776654) /\
    kmalloc (S (S (S f))) heap_range 50 m = Ok (0xD0000004, store32 0xD0000036 b1 (store32 0xD0000000 51 m))).
  { unfold kmalloc, ImplicitListAllocator.alloc. change (ImplicitListAllocator.round_up 50) with 50.
    change (ImplicitListAllocator.mstart_ heap_range) with 0xD0000000.
    destruct Hcase as [-> | [-> ->]]; [exists 16777158 | exists 4294967292];
      (split; [by auto | split; [reflexivity |]]);
      (erewrite (alloc_fit _ heap_range 0xD0000000 50 m) by (first [discriminate | exact Ha | reflexivity]); reflexivity). }
  destruct Hb1 as (b1 & Hb1 & <- & ->). cbn [obind]. cbn [Z.eqb Pos.eqb kassert].
  destruct (rest_headers f m b1 Hb1) as (m2 & m3 & -> & H3 & Hh). cbn [obind]. cbn [Z.eqb Pos.eqb kassert].
  rewrite H3. cbn [obind]. cbn [Z.eqb Pos.eqb kassert]. eexists _, c1, u1. split; [reflexivity |]. split_and!; done.
Qed.

Lemma rounds_again n f m c con u :
  headers m 50 500 c -> shows con u ->
  exists m' con' u', heap_test.rounds n (S (S (S f))) heap_range m con = Ok (m', con') /\
    headers m' 50 500 (if decide (n = 0%nat) then c else 0xFFFFFE04) /\ shows con' u'.
Proof.
  revert m c con u. induction n as [| n IH]; intros m c con u Hm Hc; cbn [heap_test.rounds]; [by exists m, con, u |].
  destruct (round_headers f m 50 500 c (Z.of_nat (S n)) con u Hm (or_intror (conj eq_refl eq_refl)) Hc)
    as (m1 & c1 & u1 & -> & Hm1 & Hc1 & _). cbn [obind].
  destruct (IH m1 _ c1 u1 Hm1 Hc1) as (m2 & c2 & u2 & -> & Hm2 & Hc2).
  exists m2, c2, u2. split_and!; [done | | done]. by destruct (decide (n = 0%nat)).
Qed.

Lemma rounds_fresh n f m con u :
  (2 <= n)%nat -> load32 m 0xD0000000 = 16777212 -> shows con u ->
  exists m' con' u', heap_test.rounds n (S (S (S f))) heap_range m con = Ok (m', con') /\
    headers m' 50 500 0xFFFFFE04 /\ shows con' u'.
Proof.
  intros Hn Hm Hc. destruct n as [| n]; [lia |]. cbn [heap_test.rounds].
  assert (Hh : headers m 16777212 (load32 m 0xD0000036) (load32 m 0xD000022E)) by done.
  destruct (round_headers f m _ _ _ (Z.of_nat (S n)) con u Hh (or_introl eq_refl) Hc)
    as (m1 & c1 & u1 & -> & Hm1 & Hc1 & _). cbn [obind].
  destruct (rounds_again n f m1 _ c1 u1 Hm1 Hc1) as (m2 & c2 & u2 & -> & Hm2 & Hc2).
  exists m2, c2, u2. by destruct n; [lia |].
Qed.

(** C34: The heap test.  On the heap that [init_heap] made, [test_kmalloc] passes: every
    assertion on an address holds in each of its 4095 rounds.  It passes on a heap that its
    second round breaks: the block of 50 bytes is found again as an exact fit, and in the end the
    last header claims 4294966788 bytes, past the end of the heap. *)
Theorem test_kmalloc_passes fuel m con u :
  (3 <= fuel)%nat -> shows con u ->
  let '(a, m) := init_heap m in
  exists m' con' u', heap_test.test_kmalloc fuel a m con = Ok (m', con') /\ shows con' u' /\
    ImplicitListAllocator.size_of_block m' 0xD000022E = 4294966788 /\
    kHeapEnd < 0xD000022E + 4 + 4294966788.
Proof.
  intros Hf Hc. unfold init_heap, ImplicitListAllocator.make. unfold heap_test.test_kmalloc.
  destruct fuel as [| [| [| f]]]; try lia.
  destruct (printk.printk_says (str "test kmalloc: " ++ [10]) [] con u Hc) as (c1 & u1 & -> & _ & Hc1);
    [by repeat constructor | done |]. cbn [obind].
  destruct (rounds_fresh (Z.to_nat (0x1000 - 1)) f
    (ImplicitListAllocator.record kHeapStart (u32 (kHeapEnd - kHeapStart - 4)) ImplicitListAllocator.kFree m) c1 u1)
    as (m2 & c2 & u2 & Hr & Hh & Hc2); [lia | | done |].
  { change (load32 (store32 0xD0000000 16777212 m) 0xD0000000 = 16777212). load_words. }
  unfold heap_range in Hr. rewrite Hr. cbn [obind].
  destruct (printk.printk_says (str "pass test: kmalloc" ++ [10]) [] c2 u2 Hc2) as (c3 & u3 & -> & _ & Hc3);
    [by repeat constructor | done |]. cbn [obind].
  exists m2, c3, u3. split_and!; [done | done | | reflexivity].
  unfold ImplicitListAllocator.size_of_block. by rewrite (hd_5000 _ _ _ _ Hh).
Qed.

(** ** The paging test *)

(** Memory holds bytes, so words are words. *)
Definition bytes_ok (m : mem) : Prop := forall x, byte_ok (load8 m x).

Lemma load32_range m a : bytes_ok m -> 0 <= load32 m a < 4294967296.
Proof.
  intros Hm. unfold load32, load_bytes, le_decode. pose proof (Hm a). pose proof (Hm (a + 1)).
  pose proof (Hm (a + 1 + 1)). pose proof (Hm (a + 1 + 1 + 1)). unfold byte_ok in *. lia.
Qed.

Lemma store32_bytes a v m : bytes_ok m -> bytes_ok (store32 a v m).
Proof.
  intros Hm x. unfold store32. rewrite load8_store_bytes. case_decide; [| apply Hm].
  pose proof (le_encode_bytes 4 v) as HF. destruct (le_encode 4 v !! Z.to_nat (x - a)) as [b |] eqn:E; [| done].
  exact (Forall_lookup_1 _ _ _ _ HF E).
Qed.

Section paging.
Context (im : image).
Hypothesis Him : image_ok im.
Import vmm_test.

Abbreviation ksim := (sim (page_dictionary im) (page_fault_addr im) (timer_addr im) (keyboard_addr im)).

(** The kernel implements [w], memory holds bytes, and at most [n] page tables are in use. *)
Record running (n : Z) (k : kernel.t) (w : spec.t) : Prop := {
  run_sim : ksim k w;
  run_bytes : bytes_ok (memory_of k);
  run_tables : PageDictionary.table_count (k_vmm k) <= n
}.

Lemma say_ok n k w format args :
  running n k w -> Forall byte_ok format -> Forall printk.arg_ok args ->
  exists k', say format args k = Ok k' /\ running n k' w.
Proof.
  intros [Hs Hb Ht] Hf Ha. destruct (sim_screen _ _ _ _ _ _ Hs) as [u Hu].
  destruct (printk.printk_says format args _ u Hu Hf Ha) as (c & u' & Hp & _ & Hc).
  unfold say. rewrite Hp. cbn [obind]. eexists. split; [reflexivity |]. split; [by eapply sim_con | done | done].
Qed.

Lemma touch_running n k w err a :
  running n k w -> Z.land err 1 = 0 -> 0 <= a < 4294967296 -> (2 <= length (spec.free w))%nat -> n < TABLE_RESERVE ->
  exists k', touch im err a k = Ok k' /\ running (n + 1) k' (spec.map_page (a / 4096) w).
Proof.
  intros [Hs Hb Ht] He Ha Hl Hn. unfold touch.
  destruct (touch_ok (page_dictionary im) (page_fault_addr im) (timer_addr im) (keyboard_addr im) err a k w
    (im_self _ Him) (im_fault _ Him) He) as (d & pm & -> & Hm & Hc); try done.
  - by rewrite (sim_handlers _ _ _ _ _ _ Hs 14).
  - apply Hs.
  - lia.
  - eexists. split; [reflexivity |]. split; [| done | cbn; lia]. destruct Hs as [Hh _ Hth Hsc].
    split; [done | done | cbn; by rewrite map_page_threads | done].
Qed.

(** A page that is there is used as it is. *)
Lemma touch_present n k w err a p :
  running n k w -> 0 <= a < 4294967296 -> spec.space w (a / 4096) = Some p -> touch im err a k = Ok k.
Proof.
  intros [Hs _ _] Ha Hp. unfold touch, paged.touch. destruct Him as [Hself _ _ _ _ _].
  rewrite (mem_mapped _ Hself _ _ _ _ (sim_mem _ _ _ _ _ _ Hs) Ha). by rewrite bool_decide_eq_true_2 by eauto.
Qed.

Lemma say_present n k w format a p :
  running n k w -> Forall byte_ok format -> 0 <= a < 4294967296 -> spec.space w (a / 4096) = Some p ->
  exists k', say_word im format a k = Ok k' /\ running n k' w.
Proof.
  intros Hr Hf Ha Hp. unfold say_word. rewrite (touch_present n k w _ a p) by done. cbn [obind].
  apply say_ok; [done | done |]. apply Forall_singleton. apply load32_range, Hr.
Qed.

Lemma store_running n k w a v : running n k w -> running n (set_memory (store32 a v (memory_of k)) k) w.
Proof.
  intros [Hs Hb Ht]. split; [| by apply store32_bytes | done].
  rewrite <- (spec_eta w). apply sim_sched; [done | | apply Hs].
  destruct (sim_threads _ _ _ _ _ _ Hs) as (x & q & Hx & Hr). exists x, q. split; [done |]. by destruct Hr.
Qed.

(** C26: Demand paging at work.  [test_vmm] returns on a running kernel with two pages
    to spare: the words of the window are read where they are, the first access to each of the two
    pages at 0x10002000 and 0x10003000 goes through the page fault handler, which maps it to
    the next free page, and the kernel goes on implementing its specification. *)
Theorem test_vmm_pages n k w i_addr p :
  running n k w -> n + 1 < TABLE_RESERVE -> (3 <= length (spec.free w))%nat ->
  0 <= i_addr < 4294967296 -> spec.space w (i_addr / 4096) = Some p ->
  (forall j, 0 <= j < 3 -> is_Some (spec.space w (0xC0000 + j))) ->
  exists k', test_vmm im i_addr k = Ok k' /\
    running (n + 2) k' (spec.map_page 0x10003 (spec.map_page 0x10002 w)).
Proof.
  intros Hr Hn Hl Hi Hp Hwin. unfold test_vmm, store_word at 1. rewrite (touch_present n k w _ i_addr p) by done. cbn [obind].
  pose proof (store_running n k w i_addr 0 Hr) as Hr0. revert Hr0. generalize (set_memory (store32 i_addr 0 (memory_of k)) k).
  clear Hr k. intros k Hr.
  destruct (say_ok n k w (str "variable address: 0x%x" ++ [10]) [AUInt i_addr] Hr) as (k1 & -> & H1);
    [by repeat constructor | by apply Forall_singleton |]. cbn [obind].
  rewrite (touch_present n k1 w _ i_addr p) by done. cbn [obind].
  edestruct (say_ok n k1 w (str "variable value: %d" ++ [10])) as (k2 & -> & H2);
    [exact H1 | by repeat constructor | by apply Forall_singleton |]. cbn [obind].
  destruct (Hwin 0) as [p0 Hp0]; [lia |]. destruct (Hwin 1) as [p1 Hp1]; [lia |]. destruct (Hwin 2) as [p2 Hp2]; [lia |].
  destruct (say_present n k2 w (str "value at 0xc0000000: 0x%x" ++ [10]) 0xC0000000 p0 H2) as (k3 & -> & H3);
    [by repeat constructor | lia | done |]. cbn [obind].
  destruct (say_present n k3 w (str "value at 0xc0001000: 0x%x" ++ [10]) 0xC0001000 p1 H3) as (k4 & -> & H4);
    [by repeat constructor | lia | done |]. cbn [obind].
  destruct (say_present n k4 w (str "value at 0xc0002000: 0x%x" ++ [10]) 0xC0002000 p2 H4) as (k5 & -> & H5);
    [by repeat constructor | lia | done |]. cbn [obind].
  unfold say_word. destruct (touch_running n k5 w 0 0x10002000 H5 eq_refl) as (k6 & -> & H6); [lia | lia | lia |]. cbn [obind].
  change (0x10002000 / 4096) with 0x10002 in H6.
  edestruct (say_ok (n + 1) k6) as (k7 & -> & H7); [exact H6 | by repeat constructor | |].
  { apply Forall_singleton. apply load32_range, H6. }
  cbn [obind]. destruct (say_ok (n + 1) k7 _ (str "write 0x0 to 0x10003000" ++ [10]) [] H7) as (k8 & -> & H8);
    [by repeat constructor | done |]. cbn [obind].
  unfold store_word. pose proof (map_page_free 0x10002 w) as Hfree.
  destruct (touch_running (n + 1) k8 _ PAGE_WRITE 0x10003000 H8 eq_refl) as (k9 & -> & H9); [lia | lia | lia |]. cbn [obind].
  change (0x10003000 / 4096) with 0x10003 in H9. replace (n + 1 + 1) with (n + 2) in H9 by lia.
  eexists. split; [reflexivity |]. by apply store_running.
Qed.
End paging.

(** ** Witnesses *)

Lemma show_mmap_prints_witness :
  exists c, show.show_mmap 3 (store32 0x7014 1 (store32 0x700C 0x10000 (store32 0x7004 0x100000 ∅))) 0x7000 24 zero_screen = Ok c /\
    console.console_write
      (str "Memory map:" ++ [10] ++ str "base_addr= 0x0100000, length = 010000, type = 1" ++ [10])
      rc_black rc_white zero_screen = Ok c.
Proof.
  destruct (show_mmap_prints 1 3 (store32 0x7014 1 (store32 0x700C 0x10000 (store32 0x7004 0x100000 ∅))) 0x7000
    zero_screen zero_term) as (c & u & Hr & _ & Hw); [lia | lia | lia | | exact zero_shows |].
  - intros i Hi. assert (i = 0) as -> by lia.
    unfold show.entry_args. rewrite !Forall_cons. split_and!; try apply Forall_nil_2; vm_compute; split; congruence.
  - exists c. split; [exact Hr |]. rewrite <- Hw. reflexivity.
Defined.

Lemma threads_print_witness :
  exists c, threads.thread1 0 zero_screen = Ok (0, c) /\
    console.console_write (replicate 16 65) rc_black rc_white zero_screen = Ok c.
Proof.
  destruct (threads_print zero_screen zero_term zero_shows) as [(c & u & Hr & _ & Hw) _]. exists c.
  split; [exact Hr | exact Hw].
Defined.

Lemma test_ide_passes_witness :
  exists d c, disk_test.test_ide 30 test_device test_disk zero_screen = Ok (d, c) /\
    sectors (ata_of d) 1 = disk_test.pattern.
Proof.
  destruct (test_ide_passes 30 test_device test_disk zero_screen zero_term) as (d & c & u & Hr & _ & Hs & _).
  - simpl. lia.
  - reflexivity.
  - exact test_disk_ok.
  - exact zero_shows.
  - exists d, c. split; [exact Hr |]. rewrite Hs, decide_True by reflexivity. reflexivity.
Defined.

Lemma test_kmalloc_passes_witness :
  exists m c, heap_test.test_kmalloc 3 (fst (init_heap ∅)) (snd (init_heap ∅)) zero_screen = Ok (m, c) /\
    ImplicitListAllocator.size_of_block m 0xD000022E = 4294966788.
Proof.
  destruct (test_kmalloc_passes 3 ∅ zero_screen zero_term ltac:(lia) zero_shows) as (m & c & u & Hr & _ & Hs & _).
  exists m, c. split; [exact Hr | exact Hs].
Defined.

(** The window as [init_vmm] leaves it, three free pages, and one thread. *)
Definition three_pages : pmm.t := pmm.mk (<[0 := 0x101000]> (<[1 := 0x102000]> (<[2 := 0x103000]> ∅))) 2 3.

Lemma three_pages_ok : pages three_pages [0x101000; 0x102000; 0x103000].
Proof.
  split; [done | rewrite stack_len_val; simpl; lia |].
  intros [| [| [| i]]] p; [by intros [= <-] | by intros [= <-] | by intros [= <-] | done].
Qed.

Definition paging_kernel (d : PageDictionary.t) : kernel.t :=
  kernel.mk demo_idt three_pages d keyboard.make
    (TaskScheduler.make (kern_stack demo_image) TaskScheduler.zero_context ∅ zero_screen TaskScheduler.zero_context) [].

Definition paging_world : spec.t :=
  spec.mk [(kern_stack demo_image, TaskScheduler.zero_context)] boot_space [0x101000; 0x102000; 0x103000].

Lemma paging_running : exists d, running demo_image 1 (paging_kernel d) paging_world.
Proof.
  destruct (init_vmm_run self0 self0_ok 0xC0101000 demo_idt) as (d & it & _ & Hw & Hc & _ & Hat).
  exists d. split; [| intros x; done | exact Hc].
  pose proof (boot_mem self0 d three_pages [0x101000; 0x102000; 0x103000] Hw three_pages_ok
    ltac:(repeat constructor; lia) Hat) as Hm.
  split; [exact (sim_handlers _ _ _ _ _ _ demo_sim) | | | exists zero_term; exact zero_shows].
  - destruct Hm. by split.
  - exists (kern_stack demo_image), []. split; [reflexivity |]. apply make_runs. discriminate.
Qed.

Lemma test_vmm_pages_witness :
  exists d k, vmm_test.test_vmm demo_image 0xC0120FF0 (paging_kernel d) = Ok k /\
    PageDictionary.at_ self0 0x10002004 (k_vmm k) = Ok 0x103004 /\
    PageDictionary.at_ self0 0x10003004 (k_vmm k) = Ok 0x102004.
Proof.
  destruct paging_running as (d & Hr). exists d.
  destruct (test_vmm_pages demo_image demo_image_ok 1 (paging_kernel d) paging_world 0xC0120FF0 0x120000 Hr)
    as (k & Hk & [Hs _ _]).
  - unfold TABLE_RESERVE. lia.
  - simpl. lia.
  - lia.
  - reflexivity.
  - intros j Hj. assert (j = 0 \/ j = 1 \/ j = 2) as [-> | [-> | ->]] by lia; eexists; reflexivity.
  - exists k. split; [exact Hk |].
    rewrite !(ms_space _ _ _ _ (sim_mem _ _ _ _ _ _ Hs)) by lia. split; reflexivity.
Defined.
