(* ===== verification/Machine.v ===== *)
(** * The processor

    What the assembly files and the inline assembly of the kernel run on: the registers of a
    32-bit x86 processor, memory, and the instructions they use.  The descriptors are read in
    memory, through the table registers.  Ports lead to a device, behind the class [PortIO].

    Addresses are linear: [mov ds, ax] and its like fault in this model unless the descriptor is
    a segment of ring 0 over the whole address space, which is the only kind the kernel loads. *)

From stdpp Require Import prelude gmap strings.
From Stdlib Require Import ZArith Lia.
From S2P Require Import Prelude CString Interrupts.

(** ** Words of memory *)

Definition load16 (m : mem) (a : Z) : Z := le_decode (load_bytes m a 2).

Definition store16 (a v : Z) (m : mem) : mem := store_bytes a (le_encode 2 v) m.

(** From [m] to [m'] the [n] bytes at [a] have not changed. *)
Definition keeps (a n : Z) (m m' : mem) : Prop :=
  forall x, a <= x < a + n -> load8 m' x = load8 m x.

(** Words pushed from [sp] downwards, the first one highest. *)
Fixpoint push_words (ws : list Z) (sp : Z) (m : mem) : mem :=
  match ws with
  | [] => m
  | w :: ws' => push_words ws' (sp - 4) (store32 (sp - 4) w m)
  end.

(** A [pt_regs] in memory. *)
Definition pt_regs_at (m : mem) (p : Z) : idt.pt_regs :=
  let w := load32 m in
  idt.mk_regs (w p) (w (p + 4)) (w (p + 8)) (w (p + 12)) (w (p + 16)) (w (p + 20)) (w (p + 24))
    (w (p + 28)) (w (p + 32)) (w (p + 36)) (w (p + 40)) (w (p + 44)) (w (p + 48)) (w (p + 52))
    (w (p + 56)) (w (p + 60)).

Lemma keeps_refl a n m : keeps a n m m.
Proof. done. Qed.

Lemma keeps_trans a n m1 m2 m3 : keeps a n m1 m2 -> keeps a n m2 m3 -> keeps a n m1 m3.
Proof. intros H1 H2 x Hx. rewrite H2, H1; done. Qed.

#[export] Instance keeps_preorder a n : PreOrder (keeps a n).
Proof. split; [exact (keeps_refl a n) | exact (keeps_trans a n)]. Qed.

Lemma keeps_load_bytes a n m m' b k :
  keeps a n m m' -> a <= b -> b + Z.of_nat k <= a + n -> load_bytes m' b k = load_bytes m b k.
Proof. intros H Hb Hk. apply load_bytes_ext. intros x Hx. apply H. lia. Qed.

Lemma keeps_load32 a n m m' b : keeps a n m m' -> a <= b -> b + 4 <= a + n -> load32 m' b = load32 m b.
Proof. intros H Hb Hn. unfold load32. by erewrite keeps_load_bytes by (done || lia). Qed.

Lemma keeps_load16 a n m m' b : keeps a n m m' -> a <= b -> b + 2 <= a + n -> load16 m' b = load16 m b.
Proof. intros H Hb Hn. unfold load16. by erewrite keeps_load_bytes by (done || lia). Qed.

Lemma keeps_store32 a n b v m : b + 4 <= a \/ a + n <= b -> keeps a n m (store32 b v m).
Proof.
  intros Hd x Hx. unfold store32. rewrite load8_store_bytes, length_le_encode, decide_False by lia. done.
Qed.

Lemma keeps_store_bytes a n b bs m :
  b + Z.of_nat (length bs) <= a \/ a + n <= b -> keeps a n m (store_bytes b bs m).
Proof. intros Hd x Hx. rewrite load8_store_bytes, decide_False by lia. done. Qed.

Lemma keeps_push_words a n ws sp m :
  sp <= a \/ a + n <= sp - 4 * Z.of_nat (length ws) -> keeps a n m (push_words ws sp m).
Proof.
  revert sp m. induction ws as [| w ws IH]; intros sp m Hd; cbn [push_words length] in *; [done |].
  etransitivity; [apply (keeps_store32 a n (sp - 4) w); lia |]. apply IH. lia.
Qed.

Lemma push_words_app ws1 ws2 sp m :
  push_words (ws1 ++ ws2) sp m = push_words ws2 (sp - 4 * Z.of_nat (length ws1)) (push_words ws1 sp m).
Proof.
  revert sp m. induction ws1 as [| w ws1 IH]; intros sp m; cbn [push_words app length].
  - f_equal. lia.
  - rewrite IH. f_equal. lia.
Qed.

Lemma load_push_words ws sp m i w :
  ws !! i = Some w -> 0 <= w < 4294967296 ->
  load32 (push_words ws sp m) (sp - 4 - 4 * Z.of_nat i) = w.
Proof.
  revert sp m i. induction ws as [| v ws IH]; intros sp m [| i] Hi Hw; simplify_eq/=.
  - replace (sp - 4 - 4 * Z.of_nat 0) with (sp - 4) by lia.
    rewrite (keeps_load32 (sp - 4) 4 (store32 (sp - 4) w m)); [| apply keeps_push_words; lia | lia | lia].
    by apply load32_store32_eq.
  - rewrite <- (IH (sp - 4) (store32 (sp - 4) v m) i Hi Hw) at 1. f_equal. lia.
Qed.

(** All but [useresp] and [ss], which lie above what an interrupt pushes. *)
Lemma pt_regs_keeps m m' p :
  keeps p 56 m m' ->
  let r := pt_regs_at m p in
  pt_regs_at m' p =
    idt.mk_regs (idt.ds r) (idt.edi r) (idt.esi r) (idt.ebp r) (idt.esp r) (idt.ebx r) (idt.edx r)
      (idt.ecx r) (idt.eax r) (idt.int_no r) (idt.err_code r) (idt.eip r) (idt.cs r) (idt.eflags r)
      (load32 m' (p + 56)) (load32 m' (p + 60)).
Proof. intros H. cbn. unfold pt_regs_at. f_equal; (eapply keeps_load32; [done | lia | lia]). Qed.

#[export] Hint Resolve keeps_refl keeps_store32 keeps_push_words : sprite.

(** ** Registers *)

Module x86.

Inductive reg := EAX | ECX | EDX | EBX | ESP | EBP | ESI | EDI.
Inductive seg := CS | DS | ES | FS | GS | SS.

#[export] Instance reg_eq_dec : EqDecision reg.
Proof. solve_decision. Defined.

Record regs := mk_regs {
  eax : Z; ecx : Z; edx : Z; ebx : Z; esp : Z; ebp : Z; esi : Z; edi : Z
}.

Record segs := mk_segs { cs : Z; ds : Z; es : Z; fs : Z; gs : Z; ss : Z }.

Definition get (r : reg) (g : regs) : Z :=
  match r with
  | EAX => eax g | ECX => ecx g | EDX => edx g | EBX => ebx g
  | ESP => esp g | EBP => ebp g | ESI => esi g | EDI => edi g
  end.

Definition set (r : reg) (v : Z) (g : regs) : regs :=
  let '(mk_regs a c d b sp bp si di) := g in
  match r with
  | EAX => mk_regs v c d b sp bp si di | ECX => mk_regs a v d b sp bp si di
  | EDX => mk_regs a c v b sp bp si di | EBX => mk_regs a c d v sp bp si di
  | ESP => mk_regs a c d b v bp si di | EBP => mk_regs a c d b sp v si di
  | ESI => mk_regs a c d b sp bp v di | EDI => mk_regs a c d b sp bp si v
  end.

Definition get_seg (x : seg) (g : segs) : Z :=
  match x with
  | CS => cs g | DS => ds g | ES => es g | FS => fs g | GS => gs g | SS => ss g
  end.

Definition set_seg (x : seg) (v : Z) (g : segs) : segs :=
  let '(mk_segs c d e f h s) := g in
  match x with
  | CS => mk_segs v d e f h s | DS => mk_segs c v e f h s | ES => mk_segs c d v f h s
  | FS => mk_segs c d e v h s | GS => mk_segs c d e f v s | SS => mk_segs c d e f h v
  end.

Lemma get_set r r' v g : get r (set r' v g) = if decide (r = r') then v else get r g.
Proof. by destruct g, r, r'. Qed.

(** The processor, memory and what lies behind the ports.  The table registers hold a limit and
    a base.  [eip] matters where control leaves the code shown: at a return, a far jump and an
    interrupt. *)
Record t (W : Type) := mk {
  gpr : regs;
  sel : segs;
  eip : Z;
  eflags : Z;
  gdtr : Z * Z;
  idtr : Z * Z;
  halted : bool;
  memory : mem;
  world : W
}.
Arguments mk {W} _ _ _ _ _ _ _ _ _.
Arguments gpr {W} _. Arguments sel {W} _. Arguments eip {W} _. Arguments eflags {W} _.
Arguments gdtr {W} _. Arguments idtr {W} _. Arguments halted {W} _. Arguments memory {W} _.
Arguments world {W} _.

(** *** Flags *)

(** Carry, parity, adjust, zero, sign and overflow. *)
Definition STATUS : Z := 0x8D5.
Definition TF : Z := 8.
Definition IF : Z := 9.
Definition DF : Z := 10.
Definition NT : Z := 14.

Definition set_flag (i : Z) (b : bool) (fl : Z) : Z :=
  if b then Z.setbit fl i else Z.clearbit fl i.

(** ** Descriptors, as the processor reads them *)

Definition segment_at (m : mem) (a : Z) : gdt.gdt_entry_t :=
  gdt.mk_entry (load16 m a) (load16 m (a + 2)) (load8 m (a + 4)) (load8 m (a + 5)) (load8 m (a + 6))
    (load8 m (a + 7)).

Definition gate_at (m : mem) (a : Z) : idt.idt_entry_t :=
  idt.mk_entry (load16 m a) (load16 m (a + 2)) (load8 m (a + 4)) (load8 m (a + 5)) (load16 m (a + 6)).

(** The descriptor that a selector names. *)
Definition descriptor (g : Z * Z) (m : mem) (selector : Z) : option gdt.gdt_entry_t :=
  let i := Z.shiftr selector 3 in
  if (Z.land selector 4 =? 0) && (0 <=? i) && (8 * i + 7 <=? g.1)
  then Some (segment_at m (g.2 + 8 * i)) else None.

(** 32-bit, from 0 to the end of the address space. *)
Definition flat (e : gdt.gdt_entry_t) : bool :=
  (gdt.entry_base e =? 0) && (gdt.entry_limit e =? 0xFFFFF) && (Z.land (gdt.granularity e) 0xC0 =? 0xC0).

(** Present, of ring 0, writable; present, of ring 0, code. *)
Definition data_ok (e : gdt.gdt_entry_t) : bool := flat e && (Z.land (gdt.access e) 0xFA =? 0x92).
Definition code_ok (e : gdt.gdt_entry_t) : bool := flat e && (Z.land (gdt.access e) 0xF8 =? 0x98).

Definition selects (ok : gdt.gdt_entry_t -> bool) (g : Z * Z) (m : mem) (selector : Z) : bool :=
  (Z.land selector 3 =? 0) &&
    match descriptor g m selector with Some e => ok e | None => false end.

Lemma selects_keeps ok g m m' v :
  keeps g.2 (g.1 + 1) m m' -> selects ok g m' v = selects ok g m v.
Proof.
  intros Hk. unfold selects, descriptor. destruct (_ && _ && _) eqn:E; [| done]. bprop.
  do 2 f_equal. unfold segment_at.
  rewrite !(keeps_load16 _ _ m m' _ Hk) by lia. by rewrite !Hk by lia.
Qed.

(** ** Ports *)

(** One read or write of 1, 2 or 4 bytes at a port. *)
Class PortIO (W : Type) := {
  io_in : nat -> Z -> W -> Z * W;
  io_out : nat -> Z -> Z -> W -> W
}.

(** ** Instructions *)

(** Symbols are strings.  [Jmp] and [Call] name code of the kernel, the rest is the manual's
    mnemonic with the operands of its form: immediate, register, low half of a register, memory. *)
Inductive instr :=
| Cli | Sti | Hlt | Cld
| PushI (v : Z) | PushR (r : reg) | PopR (r : reg)
| Pusha | Popa | Pushf | Popf
| MovRI (r : reg) (v : Z)
| MovWI (r : reg) (v : Z)
| MovWS (r : reg) (x : seg)
| MovSW (x : seg) (r : reg)
| Load (r base : reg) (off : Z)
| Store (base : reg) (off : Z) (r : reg)
| StoreAt (a : Z) (r : reg)
| AddI (r : reg) (v : Z)
| AndI (r : reg) (v : Z)
| Lgdt (r : reg) | Lidt (r : reg)
| Inp (width : nat) | Outp (width : nat)
| RepIns (width : nat) | RepOuts (width : nat)
| JmpFar (selector : Z)
| Jmp (label : string)
| Call (fn : string)
| Ret | Iret.

Section semantics.
Context {W : Type} `{PortIO W}.

(** The status flags that an arithmetic instruction leaves. *)
Context (alu : Z -> Z -> Z).
(** The code at a label, and at an address; the address after a call. *)
Context (code : string -> option (list instr)) (at_address : Z -> option (list instr)).
Context (return_addr : string -> Z).
(** A call of C code, up to its return. *)
Context (c_code : string -> t W -> outcome (t W)).
Implicit Types (s : t W) (r : reg) (x : seg).

Definition with_regs (g : regs) s : t W :=
  mk g (sel s) (eip s) (eflags s) (gdtr s) (idtr s) (halted s) (memory s) (world s).
Definition with_segs (x : segs) s : t W :=
  mk (gpr s) x (eip s) (eflags s) (gdtr s) (idtr s) (halted s) (memory s) (world s).
Definition with_eip (v : Z) s : t W :=
  mk (gpr s) (sel s) v (eflags s) (gdtr s) (idtr s) (halted s) (memory s) (world s).
Definition with_flags (v : Z) s : t W :=
  mk (gpr s) (sel s) (eip s) v (gdtr s) (idtr s) (halted s) (memory s) (world s).
Definition with_gdtr (v : Z * Z) s : t W :=
  mk (gpr s) (sel s) (eip s) (eflags s) v (idtr s) (halted s) (memory s) (world s).
Definition with_idtr (v : Z * Z) s : t W :=
  mk (gpr s) (sel s) (eip s) (eflags s) (gdtr s) v (halted s) (memory s) (world s).
Definition with_halted (v : bool) s : t W :=
  mk (gpr s) (sel s) (eip s) (eflags s) (gdtr s) (idtr s) v (memory s) (world s).
Definition with_memory (m : mem) s : t W :=
  mk (gpr s) (sel s) (eip s) (eflags s) (gdtr s) (idtr s) (halted s) m (world s).
Definition with_world (w : W) s : t W :=
  mk (gpr s) (sel s) (eip s) (eflags s) (gdtr s) (idtr s) (halted s) (memory s) w.

Definition read_reg r s : Z := get r (gpr s).
Definition set_reg r (v : Z) s : t W := with_regs (set r v (gpr s)) s.

(** The other half of a register stays. *)
Definition low16 (r : Z) : Z := Z.land r 0xFFFF.
Definition set_low16 (r v : Z) : Z := Z.lor (Z.land r 0xFFFF0000) v.

Definition push (v : Z) s : t W :=
  let sp := u32 (read_reg ESP s - 4) in
  set_reg ESP sp (with_memory (store32 sp v (memory s)) s).

Definition pop s : Z * t W :=
  (load32 (memory s) (read_reg ESP s), set_reg ESP (u32 (read_reg ESP s + 4)) s).

Definition pop_to r s : t W := let '(v, s) := pop s in set_reg r v s.

(** The stack pointer pushed is the one before the instruction. *)
Definition pusha s : t W :=
  let sp := read_reg ESP s in
  let s := push (read_reg EAX s) s in
  let s := push (read_reg ECX s) s in
  let s := push (read_reg EDX s) s in
  let s := push (read_reg EBX s) s in
  let s := push sp s in
  let s := push (read_reg EBP s) s in
  let s := push (read_reg ESI s) s in
  push (read_reg EDI s) s.

(** The saved stack pointer is skipped. *)
Definition popa s : t W :=
  let s := pop_to EDI s in
  let s := pop_to ESI s in
  let s := pop_to EBP s in
  let '(_, s) := pop s in
  let s := pop_to EBX s in
  let s := pop_to EDX s in
  let s := pop_to ECX s in
  pop_to EAX s.

Definition load_segment x (v : Z) s : outcome (t W) :=
  if selects data_ok (gdtr s) (memory s) v then Ok (with_segs (set_seg x v (sel s)) s) else Fault.

Definition status (v : Z) (fl : Z) : Z :=
  Z.lor (Z.land fl (Z.lnot STATUS)) (Z.land v STATUS).

(** A result with its flags. *)
Definition arith (f : Z -> Z -> Z) r (v : Z) s : t W :=
  let old := read_reg r s in
  with_flags (status (alu old v) (eflags s)) (set_reg r (u32 (f old v)) s).

(** The operand of [lgdt] and [lidt]: limit and base. *)
Definition table_operand (m : mem) (a : Z) : Z * Z := (load16 m a, load32 m (a + 2)).

Definition store_n (width : nat) (a v : Z) (m : mem) : mem := store_bytes a (le_encode width v) m.
Definition load_n (width : nat) (m : mem) (a : Z) : Z := le_decode (load_bytes m a width).

(** The width of a string instruction, with the sign of its direction. *)
Definition stride (width : nat) s : Z :=
  if Z.testbit (eflags s) DF then - Z.of_nat width else Z.of_nat width.

Definition port s : Z := low16 (read_reg EDX s).

Definition ins (width : nat) s : t W :=
  let '(v, w) := io_in width (port s) (world s) in
  let a := read_reg EDI s in
  set_reg EDI (u32 (a + stride width s)) (with_memory (store_n width a v (memory s)) (with_world w s)).

Definition outs (width : nat) s : t W :=
  let a := read_reg ESI s in
  let w := io_out width (port s) (load_n width (memory s) a) (world s) in
  set_reg ESI (u32 (a + stride width s)) (with_world w s).

(** [rep]: [ecx] times. *)
Fixpoint rep (n : nat) (f : t W -> t W) s : t W :=
  match n with
  | O => s
  | S n' => rep n' f (set_reg ECX (read_reg ECX s - 1) (f s))
  end.

(** The low [width] bytes of [eax]. *)
Definition low_bytes (width : nat) (v : Z) : Z := v mod 256 ^ Z.of_nat width.

Definition set_low_bytes (width : nat) (r v : Z) : Z := r - low_bytes width r + low_bytes width v.

Definition step (i : instr) s : outcome (t W) :=
  match i with
  | Cli => Ok (with_flags (set_flag IF false (eflags s)) s)
  | Sti => Ok (with_flags (set_flag IF true (eflags s)) s)
  | Hlt => Ok (with_halted true s)
  | Cld => Ok (with_flags (set_flag DF false (eflags s)) s)
  | PushI v => Ok (push v s)
  | PushR r => Ok (push (read_reg r s) s)
  | PopR r => Ok (pop_to r s)
  | Pusha => Ok (pusha s)
  | Popa => Ok (popa s)
  | Pushf => Ok (push (eflags s) s)
  | Popf => let '(v, s) := pop s in Ok (with_flags v s)
  | MovRI r v => Ok (set_reg r v s)
  | MovWI r v => Ok (set_reg r (set_low16 (read_reg r s) v) s)
  | MovWS r x => Ok (set_reg r (set_low16 (read_reg r s) (get_seg x (sel s))) s)
  | MovSW x r => load_segment x (low16 (read_reg r s)) s
  | Load r base off => Ok (set_reg r (load32 (memory s) (u32 (read_reg base s + off))) s)
  | Store base off r =>
      Ok (with_memory (store32 (u32 (read_reg base s + off)) (read_reg r s) (memory s)) s)
  | StoreAt a r => Ok (with_memory (store32 a (read_reg r s) (memory s)) s)
  | AddI r v => Ok (arith Z.add r v s)
  | AndI r v => Ok (arith Z.land r v s)
  | Lgdt r => Ok (with_gdtr (table_operand (memory s) (read_reg r s)) s)
  | Lidt r => Ok (with_idtr (table_operand (memory s) (read_reg r s)) s)
  | Inp width =>
      let '(v, w) := io_in width (port s) (world s) in
      Ok (set_reg EAX (set_low_bytes width (read_reg EAX s) v) (with_world w s))
  | Outp width =>
      Ok (with_world (io_out width (port s) (low_bytes width (read_reg EAX s)) (world s)) s)
  | RepIns width => Ok (rep (Z.to_nat (read_reg ECX s)) (ins width) s)
  | RepOuts width => Ok (rep (Z.to_nat (read_reg ECX s)) (outs width) s)
  | JmpFar v =>
      if selects code_ok (gdtr s) (memory s) v then Ok (with_segs (set_seg CS v (sel s)) s) else Fault
  | Jmp _ | Call _ | Ret | Iret => Fault
  end.

(** A return from an interrupt to the same ring. *)
Definition iret s : outcome (t W) :=
  let '(ip, s) := pop s in
  let '(c, s) := pop s in
  let '(fl, s) := pop s in
  if selects code_ok (gdtr s) (memory s) (low16 c)
  then Ok (with_eip ip (with_flags fl (with_segs (set_seg CS (low16 c) (sel s)) s)))
  else Fault.

(** Instructions in sequence, until a return. *)
Fixpoint run (fuel : nat) (prog : list instr) s : outcome (t W) :=
  match fuel with
  | O => NoFuel
  | S f =>
      match prog with
      | [] => Fault
      | Jmp l :: _ => let! prog := or_fault (code l) in run f prog s
      | Call fn :: prog => let! s := c_code fn (push (return_addr fn) s) in run f prog s
      | Ret :: _ => let '(ip, s) := pop s in Ok (with_eip ip s)
      | Iret :: _ => iret s
      | i :: prog => let! s := step i s in run f prog s
      end
  end.

(** ** Interrupts *)

(** The exceptions for which the processor pushes an error code. *)
Definition has_error_code (n : Z) : bool :=
  bool_decide (n ∈ [8; 10; 11; 12; 13; 14; 17]).

Definition gate_present (e : idt.idt_entry_t) : bool := negb (Z.land (idt.flags e) 0x80 =? 0).

(** The type of a 32-bit interrupt gate is 14, that of a trap gate 15. *)
Definition gate_type (e : idt.idt_entry_t) : Z := Z.land (idt.flags e) 0x1F.

(** Interrupts in ring 0: the flags, [cs] and the address are pushed, then the error code of the
    exceptions that have one; an interrupt gate clears the interrupt flag. *)
Definition enter (n err : Z) s : outcome (idt.idt_entry_t * t W) :=
  if (idtr s).1 <? 8 * n + 7 then Fault
  else
    let e := gate_at (memory s) ((idtr s).2 + 8 * n) in
    if negb (gate_present e) then Fault
    else if negb (selects code_ok (gdtr s) (memory s) (idt.sel e)) then Fault
    else if negb ((gate_type e =? 14) || (gate_type e =? 15)) then Fault
    else
      let fl := eflags s in
      let s := push fl s in
      let s := push (cs (sel s)) s in
      let s := push (eip s) s in
      let s := if has_error_code n then push err s else s in
      let fl := set_flag NT false (set_flag TF false fl) in
      let fl := if gate_type e =? 14 then set_flag IF false fl else fl in
      Ok (e, with_halted false (with_flags fl (with_segs (set_seg CS (idt.sel e) (sel s)) s))).

Definition interrupt (fuel : nat) (n err : Z) s : outcome (t W) :=
  let! '(e, s) := enter n err s in
  let! prog := or_fault (at_address (idt.gate_base e)) in
  run fuel prog s.

(** A line of the interrupt controllers: it waits while interrupts are off. *)
Definition request (fuel : nat) (n : Z) s : outcome (t W) :=
  if Z.testbit (eflags s) IF then interrupt fuel n 0 s else Ok s.

End semantics.
End x86.

(** ** Lemmas *)

Lemma gate_at_keeps m m' a : keeps a 8 m m' -> x86.gate_at m' a = x86.gate_at m a.
Proof.
  intros Hk. unfold x86.gate_at. rewrite !(keeps_load16 _ _ m m' _ Hk) by lia. by rewrite !Hk by lia.
Qed.

Lemma low16_small v : 0 <= v < 65536 -> x86.low16 v = v.
Proof. intros Hv. unfold x86.low16. change 0xFFFF with (2 ^ 16 - 1). rewrite land_low by lia. by apply Z.mod_small. Qed.

Lemma set_low16_add r v :
  0 <= r < 4294967296 -> 0 <= v < 65536 -> x86.set_low16 r v = r - r mod 65536 + v.
Proof.
  intros Hr Hv. unfold x86.set_low16.
  change 0xFFFF0000 with (2 ^ 32 - 2 ^ 16). rewrite land_high by (simpl; lia).
  apply (lor_add _ _ 16); [lia | | simpl; lia]. change (2 ^ 16) with 65536. zlia.
Qed.

Lemma set_low16_range r v :
  0 <= r < 4294967296 -> 0 <= v < 65536 -> 0 <= x86.set_low16 r v < 4294967296.
Proof. intros. rewrite set_low16_add by done. zlia. Qed.

Lemma low16_set_low16 r v :
  0 <= r < 4294967296 -> 0 <= v < 65536 -> x86.low16 (x86.set_low16 r v) = v.
Proof.
  intros Hr Hv. rewrite set_low16_add by done. unfold x86.low16. change 0xFFFF with (2 ^ 16 - 1).
  rewrite land_low by lia. change (2 ^ 16) with 65536. zlia.
Qed.

Lemma testbit_set_flag i j b fl :
  0 <= i -> Z.testbit (x86.set_flag i b fl) j = if decide (i = j) then b else Z.testbit fl j.
Proof.
  intros Hi. unfold x86.set_flag. destruct b, (decide (i = j)) as [-> | Hne].
  - by apply Z.setbit_eq.
  - by apply Z.setbit_neq.
  - apply Z.clearbit_eq.
  - by apply Z.clearbit_neq.
Qed.

#[export] Hint Rewrite low16_small low16_set_low16 using (auto with sprite; lia) : sprite.

(** ** Tables in memory *)

(** The bytes of a [gdt_entry_t] and of an [idt_entry_t]. *)
Definition segment_bytes (e : gdt.gdt_entry_t) : list Z :=
  le_encode 2 (gdt.limit_low e) ++ le_encode 2 (gdt.base_low e) ++
    [u8 (gdt.base_middle e); u8 (gdt.access e); u8 (gdt.granularity e); u8 (gdt.base_high e)].

Definition gate_bytes (e : idt.idt_entry_t) : list Z :=
  le_encode 2 (idt.base_lo e) ++ le_encode 2 (idt.sel e) ++
    [u8 (idt.always0 e); u8 (idt.flags e)] ++ le_encode 2 (idt.base_hi e).

(** Fields within their types. *)
Definition segment_ok (e : gdt.gdt_entry_t) : Prop :=
  0 <= gdt.limit_low e < 65536 /\ 0 <= gdt.base_low e < 65536 /\ byte_ok (gdt.base_middle e) /\
  byte_ok (gdt.access e) /\ byte_ok (gdt.granularity e) /\ byte_ok (gdt.base_high e).

Definition gate_ok (e : idt.idt_entry_t) : Prop :=
  0 <= idt.base_lo e < 65536 /\ 0 <= idt.sel e < 65536 /\ byte_ok (idt.always0 e) /\
  byte_ok (idt.flags e) /\ 0 <= idt.base_hi e < 65536.

#[export] Instance segment_ok_dec e : Decision (segment_ok e).
Proof. unfold segment_ok, byte_ok. apply _. Defined.

#[export] Instance gate_ok_dec e : Decision (gate_ok e).
Proof. unfold gate_ok, byte_ok. apply _. Defined.

Lemma store_bytes_app a bs1 bs2 m :
  store_bytes a (bs1 ++ bs2) m = store_bytes (a + Z.of_nat (length bs1)) bs2 (store_bytes a bs1 m).
Proof.
  revert a m. induction bs1 as [| b bs1 IH]; intros a m; cbn [app store_bytes length].
  - f_equal. lia.
  - rewrite IH. f_equal. lia.
Qed.

(** An array of entries of [k] bytes. *)
Lemma load_entry k (bss : list (list Z)) a m n b :
  Forall (fun b => length b = k) bss -> bss !! n = Some b ->
  load_bytes (store_bytes a (concat bss) m) (a + Z.of_nat k * Z.of_nat n) k = b.
Proof.
  intros HF Hn. revert a m n Hn. induction HF as [| b0 bss Hb HF IH]; intros a m [| n] Hn; simplify_eq/=.
  - rewrite store_bytes_app. replace (a + _ * Z.of_nat 0) with a by lia. etransitivity.
    + apply load_bytes_ext. intros x Hx. rewrite load8_store_bytes, decide_False by lia. reflexivity.
    + apply load_store_bytes.
  - rewrite store_bytes_app. rewrite <- (IH (a + Z.of_nat (length b0)) (store_bytes a b0 m) n Hn). f_equal. lia.
Qed.

(** The fields of an entry whose bytes are in the context. *)
Ltac entry_fields :=
  rewrite <- !Z.add_assoc in *;
  repeat match goal with
  | H : context [?j + ?k] |- _ =>
      let c := eval vm_compute in (j + k) in
      lazymatch c with Zpos _ => change (j + k) with c in H end
  | |- context [?j + ?k] =>
      let c := eval vm_compute in (j + k) in
      lazymatch c with Zpos _ => change (j + k) with c end
  end;
  f_equal; repeat match goal with H : load8 _ _ = _ |- _ => rewrite H; clear H end; unfold u8; zlia.

Lemma segment_at_stored es a m n e :
  Forall segment_ok es -> es !! n = Some e ->
  x86.segment_at (store_bytes a (concat (map segment_bytes es)) m) (a + 8 * Z.of_nat n) = e.
Proof.
  intros HF Hn. pose proof (Forall_lookup_1 _ _ _ _ HF Hn) as He.
  assert (Hl : load_bytes (store_bytes a (concat (map segment_bytes es)) m) (a + 8 * Z.of_nat n) 8 = segment_bytes e).
  { apply (load_entry 8); [by apply Forall_map, Forall_true | by rewrite list_lookup_fmap, Hn]. }
  revert Hl. generalize (store_bytes a (concat (map segment_bytes es)) m) (a + 8 * Z.of_nat n). clear - He.
  intros m b. destruct e as [a1 a2 a3 a4 a5 a6].
  unfold segment_ok, byte_ok, segment_bytes, x86.segment_at, load16 in *.
  cbn [load_bytes app le_encode le_decode gdt.limit_low gdt.base_low gdt.base_middle gdt.access
    gdt.granularity gdt.base_high] in *. intros [=].
  entry_fields.
Qed.

Lemma gate_at_stored es a m n e :
  Forall gate_ok es -> es !! n = Some e ->
  x86.gate_at (store_bytes a (concat (map gate_bytes es)) m) (a + 8 * Z.of_nat n) = e.
Proof.
  intros HF Hn. pose proof (Forall_lookup_1 _ _ _ _ HF Hn) as He.
  assert (Hl : load_bytes (store_bytes a (concat (map gate_bytes es)) m) (a + 8 * Z.of_nat n) 8 = gate_bytes e).
  { apply (load_entry 8); [by apply Forall_map, Forall_true | by rewrite list_lookup_fmap, Hn]. }
  revert Hl. generalize (store_bytes a (concat (map gate_bytes es)) m) (a + 8 * Z.of_nat n). clear - He.
  intros m b. destruct e as [a1 a2 a3 a4 a5].
  unfold gate_ok, byte_ok, gate_bytes, x86.gate_at, load16 in *.
  cbn [load_bytes app le_encode le_decode idt.base_lo idt.sel idt.always0 idt.flags idt.base_hi] in *.
  intros [=]. entry_fields.
Qed.

(** ** Execution of straight-line code *)

(** Not a jump, a call or a return. *)
Definition plain (i : x86.instr) : bool :=
  match i with x86.Jmp _ | x86.Call _ | x86.Ret | x86.Iret => false | _ => true end.

Lemma run_plain {W} `{x86.PortIO W} alu code ret c_code f i prog (s : x86.t W) :
  plain i = true ->
  x86.run alu code ret c_code (S f) (i :: prog) s =
    let! s := x86.step alu i s in x86.run alu code ret c_code f prog s.
Proof. by destruct i. Qed.

(** What an instruction does to a state given by its parts. *)
Ltac machine :=
  cbv beta iota zeta delta [
    x86.step x86.push x86.pop x86.pop_to x86.pusha x86.popa x86.iret x86.arith x86.load_segment
    x86.with_regs x86.with_segs x86.with_eip x86.with_flags x86.with_gdtr x86.with_idtr
    x86.with_halted x86.with_memory x86.with_world x86.read_reg x86.set_reg
    x86.get x86.set x86.get_seg x86.set_seg x86.port
    x86.gpr x86.sel x86.eip x86.eflags x86.gdtr x86.idtr x86.halted x86.memory x86.world
    x86.eax x86.ecx x86.edx x86.ebx x86.esp x86.ebp x86.esi x86.edi
    x86.cs x86.ds x86.es x86.fs x86.gs x86.ss obind or_fault].

(** Addresses that do not wrap around, the innermost first. *)
Ltac words :=
  repeat match goal with
  | |- context [u32 ?x] =>
      lazymatch x with context [u32 _] => fail | _ => rewrite (u32_small x) by lia end
  end.

(** Offsets from [p] added up. *)
Ltac offsets p :=
  repeat match goal with
  | |- context [p + ?a + ?b] => let c := eval vm_compute in (a + b) in
      replace (p + a + b) with (p + c) by lia
  | |- context [p - ?a + ?b] => let c := eval vm_compute in (b - a) in
      replace (p - a + b) with (p + c) by lia
  | |- context [p - ?a - ?b] => let c := eval vm_compute in (a + b) in
      replace (p - a - b) with (p - c) by lia
  end;
  rewrite ?(Z.add_0_r p).

(** One instruction of a program, with enough fuel [f]. *)
Ltac exec f :=
  destruct f as [| f]; [exfalso; lia |]; rewrite run_plain by reflexivity; machine; words.
