(* ===== verification/Stubs.v ===== *)
(** * The interrupt stubs ([lib/isr.s])

    From the interrupted instruction to the dispatcher of [lib/idt.cc] and back. *)

From stdpp Require Import prelude gmap strings.
From Stdlib Require Import ZArith Lia.
From S2P Require Import Prelude CString Interrupts Machine.
Import x86.

Module isr_s.

(** [ISR_NOERRCODE], [ISR_ERRCODE] and [IRQ]. *)
Definition ISR_NOERRCODE (n : Z) : list instr :=
  [Cli; PushI 0; PushI n; Jmp "isr_common_stub"].

Definition ISR_ERRCODE (n : Z) : list instr :=
  [Cli; PushI n; Jmp "isr_common_stub"].

Definition IRQ (vector : Z) : list instr :=
  [Cli; PushI 0; PushI vector; Jmp "irq_common_stub"].

(** The vectors of the file that use [ISR_ERRCODE]. *)
Definition errcode_vectors : list Z := [8; 10; 11; 12; 13; 14; 17].

(** [isr0] to [isr31] and [isr255]; [irq0] to [irq15]. *)
Definition isr (n : Z) : list instr :=
  if bool_decide (n ∈ errcode_vectors) then ISR_ERRCODE n else ISR_NOERRCODE n.

Definition irq (k : Z) : list instr := IRQ (32 + k).

(** The two stubs differ in the function they call. *)
Definition common_stub (dispatcher : string) : list instr :=
  [ Pusha;
    MovWS EAX DS;
    PushR EAX;

    MovWI EAX 0x10;
    MovSW DS EAX;
    MovSW ES EAX;
    MovSW FS EAX;
    MovSW GS EAX;
    MovSW SS EAX;

    PushR ESP;
    Call dispatcher;
    AddI ESP 4;

    PopR EBX;
    MovSW DS EBX;
    MovSW ES EBX;
    MovSW FS EBX;
    MovSW GS EBX;
    MovSW SS EBX;

    Popa;
    AddI ESP 8;
    Iret ].

Definition isr_common_stub : list instr := common_stub "isr_dispatcher".
Definition irq_common_stub : list instr := common_stub "irq_dispatcher".

(** The labels of the file that are jumped to. *)
Definition code (l : string) : option (list instr) :=
  if String.eqb l "isr_common_stub" then Some isr_common_stub
  else if String.eqb l "irq_common_stub" then Some irq_common_stub
  else None.

(** The function that is called for a vector. *)
Definition dispatcher (n : Z) : string :=
  if n <? 32 then "isr_dispatcher" else "irq_dispatcher".

End isr_s.

Section stubs.
Context {W : Type} `{PortIO W}.
Context (alu : Z -> Z -> Z) (at_address : Z -> option (list instr)) (return_addr : string -> Z).
Context (c_code : string -> t W -> outcome (t W)).
Implicit Types (s : t W) (m : mem).

Abbreviation run := (run alu isr_s.code return_addr c_code).
Abbreviation interrupt := (interrupt alu isr_s.code at_address return_addr c_code).

(** ** The common stub *)

(** What is left when the dispatcher returns. *)
Definition after_call : list instr := drop 11 isr_s.isr_common_stub.

(** The words that the common stub pushes. *)
Definition pushed (g : regs) (x : segs) : list Z :=
  [eax g; ecx g; edx g; ebx g; esp g; ebp g; esi g; edi g; set_low16 (eax g) (ds x)].

Lemma save_run f d g x ip fl gd id h m w :
  40 <= esp g < 4294967296 -> 0 <= eax g < 4294967296 -> 0 <= ds x < 65536 -> (11 <= f)%nat ->
  gd.2 + gd.1 + 1 <= esp g - 36 \/ esp g <= gd.2 ->
  selects data_ok gd m 16 = true ->
  run f (isr_s.common_stub d) (mk g x ip fl gd id h m w) =
    run (f - 10) (Call d :: after_call)
      (mk (set ESP (esp g - 40) (set EAX (set_low16 (set_low16 (eax g) (ds x)) 16) g))
         (mk_segs (cs x) 16 16 16 16 16) ip fl gd id h
         (push_words (pushed g x ++ [esp g - 36]) (esp g) m) w).
Proof.
  intros Hsp Ha Hx Hf Hgd Hsel. destruct g as [a c e b sp bp si di], x as [xc xd xe xf xg xs].
  cbn [esp eax ds] in *. unfold isr_s.common_stub. do 4 exec f.
  assert (H16 : low16 (set_low16 (set_low16 a xd) 16) = 16)
    by (apply low16_set_low16; [by apply set_low16_range | lia]).
  assert (Hk : selects data_ok gd (push_words (pushed (mk_regs a c e b sp bp si di)
    (mk_segs xc xd xe xf xg xs)) sp m) 16 = true).
  { rewrite <- Hsel. apply selects_keeps, keeps_push_words. cbn [length pushed]. lia. }
  cbn [pushed push_words eax ecx edx ebx esp ebp esi edi cs ds] in Hk.
  do 5 (exec f; rewrite H16, Hk).
  exec f.
  replace (S (S (S (S (S (S (S (S (S (S f))))))))) - 10)%nat with f by lia.
  cbn [pushed set app push_words eax ecx edx ebx esp ebp esi edi cs ds].
  replace (sp - 40) with (sp - 36 - 4) by lia.
  replace (sp - 4 - 4 - 4 - 4 - 4 - 4 - 4 - 4 - 4) with (sp - 36) by lia. reflexivity.
Qed.


(** From the return of the dispatcher on, whatever it did to the registers: the frame at the stack
    pointer decides. *)
Lemma restore_run f p g x ip fl gd id h m w :
  let r := pt_regs_at m p in
  esp g = p - 4 -> 4 <= p -> p + 56 < 4294967296 -> (11 <= f)%nat ->
  selects data_ok gd m (low16 (idt.ds r)) = true ->
  selects code_ok gd m (low16 (idt.cs r)) = true ->
  run f after_call (mk g x ip fl gd id h m w) =
    Ok (mk (mk_regs (idt.eax r) (idt.ecx r) (idt.edx r) (idt.ebx r) (p + 56) (idt.ebp r) (idt.esi r)
                    (idt.edi r))
           (mk_segs (low16 (idt.cs r)) (low16 (idt.ds r)) (low16 (idt.ds r)) (low16 (idt.ds r))
                    (low16 (idt.ds r)) (low16 (idt.ds r)))
           (idt.eip r) (idt.eflags r) gd id h m w).
Proof.
  intros r Hsp Hp Hp' Hf Hd Hc. destruct g as [a c e b sp bp si di], x as [xc xd xe xf xg xs].
  cbn [esp] in Hsp. subst sp. unfold after_call, isr_s.isr_common_stub, isr_s.common_stub. cbn [drop].
  exec f. exec f. offsets p. fold r. change (load32 m p) with (idt.ds r).
  do 5 (exec f; rewrite Hd). exec f; offsets p. exec f; offsets p. destruct f; [lia |]. cbn [x86.run]. machine. words. offsets p.
  change (load32 m (p + 48)) with (idt.cs r). rewrite Hc. reflexivity.
Qed.

(** ** From the interrupt to the dispatcher *)

Definition error_word (n err : Z) : Z := if has_error_code n then err else 0.

(** The flags in a handler entered through an interrupt gate. *)
Definition handler_flags (fl : Z) : Z :=
  set_flag IF false (set_flag IF false (set_flag NT false (set_flag TF false fl))).

(** The five words below the interrupted stack pointer when the common stub starts. *)
Definition interrupt_words (n err : Z) s : list Z :=
  [eflags s; cs (sel s); eip s; error_word n err; n].

Definition stub_regs s : regs := set ESP (esp (gpr s) - 20) (gpr s).

(** The [pt_regs] of an interrupted state. *)
Definition frame_of (n err : Z) s : idt.pt_regs :=
  let g := gpr s in
  idt.mk_regs (set_low16 (eax g) (ds (sel s))) (edi g) (esi g) (ebp g) (esp g - 20) (ebx g) (edx g)
    (ecx g) (eax g) n (error_word n err) (eip s) (cs (sel s)) (eflags s)
    (load32 (memory s) (esp g)) (load32 (memory s) (esp g + 4)).

(** The state when the dispatcher starts: the return address and the pointer to the frame are on
    the stack, the frame is above them. *)
Definition called (n err : Z) s : t W :=
  let g := gpr s in
  mk (set ESP (esp g - 64) (set EAX (set_low16 (set_low16 (eax g) (ds (sel s))) 16) g))
     (mk_segs 8 16 16 16 16 16) (eip s) (handler_flags (eflags s)) (gdtr s) (idtr s) false
     (push_words (interrupt_words n err s ++ pushed (stub_regs s) (sel s) ++
                    [esp g - 56; return_addr (isr_s.dispatcher n)]) (esp g) (memory s))
     (world s).

(** What can be interrupted: words in range, 64 bytes of stack away from the descriptors, and
    usable segments. *)
Record interruptible s : Prop := {
  in_regs : Forall (fun v => 0 <= v < 4294967296)
              [eax (gpr s); ecx (gpr s); edx (gpr s); ebx (gpr s); ebp (gpr s); esi (gpr s); edi (gpr s);
               eip s; eflags s];
  in_segs : 0 <= cs (sel s) < 65536 /\ 0 <= ds (sel s) < 65536;
  in_stack : 64 <= esp (gpr s) < 4294967296;
  in_apart : (gdtr s).2 + (gdtr s).1 + 1 <= esp (gpr s) - 64 \/ esp (gpr s) <= (gdtr s).2;
  in_code : selects code_ok (gdtr s) (memory s) (cs (sel s)) = true;
  in_data : selects data_ok (gdtr s) (memory s) (ds (sel s)) = true;
  in_kcode : selects code_ok (gdtr s) (memory s) 8 = true;
  in_kdata : selects data_ok (gdtr s) (memory s) 16 = true
}.

(** The processor finds the gates of [tb] through its register. *)
Record gates_loaded (tb : idt.t) s : Prop := {
  gl_reg : idtr s = (idt.ptr_limit tb, idt.ptr_base tb);
  gl_mem : forall n e, 8 * n + 7 <= idt.ptr_limit tb -> lget (idt.entries tb) n = Some e ->
    gate_at (memory s) (idt.ptr_base tb + 8 * n) = e
}.

Lemma enter_run n err s e :
  interruptible s -> 8 * n + 7 <= (idtr s).1 -> gate_at (memory s) ((idtr s).2 + 8 * n) = e ->
  idt.sel e = 8 -> idt.flags e = 0x8E ->
  enter n err s =
    Ok (e, mk (set ESP (esp (gpr s) - (if has_error_code n then 16 else 12)) (gpr s))
              (set_seg CS 8 (sel s)) (eip s)
              (set_flag IF false (set_flag NT false (set_flag TF false (eflags s)))) (gdtr s) (idtr s) false
              (push_words ([eflags s; cs (sel s); eip s] ++ (if has_error_code n then [err] else []))
                 (esp (gpr s)) (memory s)) (world s)).
Proof.
  intros [_ _ Hsp _ _ _ Hk _] Hn He Hs Hf. unfold enter, gate_present, gate_type.
  rewrite (proj2 (Z.ltb_ge _ _)) by lia. rewrite He, Hs, Hf, Hk. cbn [negb Z.land Z.eqb orb].
  destruct s as [[a c d b sp bp si di] [xc xd xe xf xg xs] ip fl gd id h m w]. cbn [gpr esp] in Hsp |- *.
  destruct (has_error_code n); machine; words; cbn [app push_words];
    [replace (sp - 16) with (sp - 4 - 4 - 4 - 4) by lia | replace (sp - 12) with (sp - 4 - 4 - 4) by lia];
    reflexivity.
Qed.

(** The macros push what is missing, so that the common stub always finds five words. *)
Lemma stub_run f n err s e :
  0 <= n < 48 -> interruptible s -> 8 * n + 7 <= (idtr s).1 ->
  gate_at (memory s) ((idtr s).2 + 8 * n) = e -> idt.sel e = 8 -> idt.flags e = 0x8E ->
  at_address (idt.gate_base e) = Some (if n <? 32 then isr_s.isr n else isr_s.irq (n - 32)) ->
  (4 < f)%nat ->
  exists f', (f <= f' + 4)%nat /\
    interrupt f n err s =
      run f' (isr_s.common_stub (isr_s.dispatcher n))
        (mk (stub_regs s) (set_seg CS 8 (sel s)) (eip s) (handler_flags (eflags s)) (gdtr s) (idtr s) false
           (push_words (interrupt_words n err s) (esp (gpr s)) (memory s)) (world s)).
Proof.
  intros Hn Hin Hl He Hs Hf Ha Hfuel. unfold x86.interrupt. rewrite (enter_run n err s e) by done.
  cbn [obind]. rewrite Ha. cbn [or_fault obind]. unfold isr_s.isr, isr_s.dispatcher, interrupt_words, error_word.
  unfold has_error_code. change [8; 10; 11; 12; 13; 14; 17] with isr_s.errcode_vectors.
  pose proof (in_stack s Hin) as Hsp.
  destruct s as [[a c d b sp bp si di] x ip fl gd id h m w]. cbn [gpr esp] in Hsp.
  clear He Hin Hl. cbn [gpr sel set eip eflags gdtr idtr memory world esp stub_regs].
  destruct (n <? 32) eqn:E32; bprop; case_bool_decide as Hc.
  3: { exfalso. unfold isr_s.errcode_vectors in Hc. set_unfold. lia. }
  - unfold isr_s.ISR_ERRCODE. do 2 exec f. destruct f; [lia |]. exists f. split; [lia |].
    cbn [x86.run]. change (isr_s.code "isr_common_stub") with (Some isr_s.isr_common_stub). machine.
    cbn [app push_words]. replace (sp - 20) with (sp - 16 - 4) by lia.
    replace (sp - 4 - 4 - 4 - 4) with (sp - 16) by lia. reflexivity.
  - unfold isr_s.ISR_NOERRCODE. do 3 exec f. destruct f; [lia |]. exists f. split; [lia |].
    cbn [x86.run]. change (isr_s.code "isr_common_stub") with (Some isr_s.isr_common_stub). machine.
    cbn [app push_words]. replace (sp - 20) with (sp - 12 - 4 - 4) by lia.
    replace (sp - 4 - 4 - 4) with (sp - 12) by lia. reflexivity.
  - unfold isr_s.irq, isr_s.IRQ. do 3 exec f. destruct f; [lia |]. exists f. split; [lia |].
    cbn [x86.run]. change (isr_s.code "irq_common_stub") with (Some isr_s.irq_common_stub). machine.
    cbn [app push_words]. replace (sp - 20) with (sp - 12 - 4 - 4) by lia.
    replace (sp - 4 - 4 - 4) with (sp - 12) by lia. replace (32 + (n - 32)) with n by lia. reflexivity.
Qed.

Lemma words_pushed n err s :
  interruptible s -> 0 <= n < 256 -> 0 <= err < 4294967296 ->
  Forall (fun v => 0 <= v < 4294967296) (interrupt_words n err s ++ pushed (stub_regs s) (sel s)).
Proof.
  intros [Hr [Hc Hd] Hsp _ _ _ _ _] Hn He. destruct s as [[a c d b sp bp si di] [xc xd xe xf xg xs] ip fl gd id h m w].
  unfold interrupt_words, pushed, stub_regs, error_word. cbn [gpr sel eip eflags set eax ecx edx ebx esp ebp esi edi cs ds app] in *.
  rewrite !Forall_cons in *. destruct Hr as (? & ? & ? & ? & ? & ? & ? & ? & ? & _).
  pose proof (set_low16_range a xd). destruct (has_error_code n); split_and!; try lia; done.
Qed.

Lemma called_frame n err s :
  interruptible s -> 0 <= n < 256 -> 0 <= err < 4294967296 ->
  let c := called n err s in
  load32 (memory c) (esp (gpr c) + 4) = esp (gpr s) - 56 /\
  pt_regs_at (memory c) (esp (gpr s) - 56) = frame_of n err s /\
  keeps (gdtr s).2 ((gdtr s).1 + 1) (memory s) (memory c) /\
  (forall x, ~ esp (gpr s) - 64 <= x < esp (gpr s) -> load8 (memory c) x = load8 (memory s) x).
Proof.
  intros Hin Hn He c. pose proof (words_pushed n err s Hin Hn He) as Hw.
  pose proof (in_stack s Hin) as Hsp.
  set (ws := interrupt_words n err s ++ pushed (stub_regs s) (sel s)) in *.
  assert (Hm : memory c = push_words [esp (gpr s) - 56; return_addr (isr_s.dispatcher n)]
                            (esp (gpr s) - 56) (push_words ws (esp (gpr s)) (memory s))).
  { unfold c, called. cbn [memory]. rewrite app_assoc, push_words_app. reflexivity. }
  assert (Hl : forall i w a, ws !! i = Some w -> a = esp (gpr s) - 4 - 4 * Z.of_nat i ->
                 load32 (memory c) a = w).
  { intros i w a Hi ->. rewrite Hm. pose proof (lookup_lt_Some _ _ _ Hi) as Hlt.
    change (length ws) with 14%nat in Hlt. erewrite (keeps_load32 (esp (gpr s) - 56) 56);
      [| apply keeps_push_words; lia | lia | lia].
    apply load_push_words; [done |]. exact (Forall_lookup_1 _ _ _ _ Hw Hi). }
  assert (Hk : forall x, ~ esp (gpr s) - 64 <= x < esp (gpr s) -> load8 (memory c) x = load8 (memory s) x).
  { intros x Hx. rewrite Hm. transitivity (load8 (push_words ws (esp (gpr s)) (memory s)) x).
    - eapply (keeps_push_words x 1); [cbn [length]; lia | lia].
    - eapply (keeps_push_words x 1); [change (length ws) with 14%nat; lia | lia]. }
  split_and!.
  - rewrite Hm. replace (esp (gpr c) + 4) with (esp (gpr s) - 56 - 4 - 4 * Z.of_nat 0)
      by (unfold c, called; destruct (gpr s); cbn; lia).
    apply load_push_words; [done | lia].
  - assert (Hws : ws = interrupt_words n err s ++ [eax (gpr s); ecx (gpr s); edx (gpr s); ebx (gpr s);
      esp (gpr s) - 20; ebp (gpr s); esi (gpr s); edi (gpr s); set_low16 (eax (gpr s)) (ds (sel s))]).
    { unfold ws, pushed, stub_regs. by destruct (gpr s). }
    rewrite Hws in Hl. unfold pt_regs_at, frame_of. cbv zeta. f_equal; try lazymatch goal with
      | |- load32 (memory c) (_ + ?k) = _ =>
          let i := eval vm_compute in (Z.to_nat (13 - k / 4)) in apply (Hl i); [reflexivity | lia]
      | |- load32 (memory c) _ = set_low16 _ _ => apply (Hl 13%nat); [reflexivity | lia] end.
    all: erewrite (keeps_load32 (esp (gpr s)) 8 (memory s)); [f_equal; lia | intros x ?; apply Hk; lia | lia | lia].
  - intros x Hx. apply Hk. pose proof (in_apart s Hin). lia.
  - exact Hk.
Qed.

(** ** From the interrupt to the interrupted instruction *)

(** What compiled code promises of a call: the stack pointer is back, the argument of the stub, the
    descriptors and the gates are as they were.  The registers may have changed, and memory
    elsewhere; other threads may have run in between. *)
Record returns s1 s2 : Prop := {
  rt_esp : esp (gpr s2) = esp (gpr s1) + 4;
  rt_frame : keeps (load32 (memory s1) (esp (gpr s1) + 4)) 56 (memory s1) (memory s2);
  rt_gdtr : gdtr s2 = gdtr s1;
  rt_gdt : keeps (gdtr s1).2 ((gdtr s1).1 + 1) (memory s1) (memory s2);
  rt_idtr : idtr s2 = idtr s1;
  rt_idt : keeps (idtr s1).2 ((idtr s1).1 + 1) (memory s1) (memory s2)
}.

(** The interrupted registers on what the dispatcher left. *)
Definition resumed s s2 : t W :=
  let d := ds (sel s) in
  mk (gpr s) (mk_segs (cs (sel s)) d d d d d) (eip s) (eflags s) (gdtr s) (idtr s) (halted s2)
     (memory s2) (world s2).

(** The linker puts the stubs where [init_idt] points the gates. *)
Record linked (isr irq : Z -> Z) : Prop := {
  lk_isr : forall k, 0 <= isr k < 4294967296;
  lk_irq : forall k, 0 <= irq k < 4294967296;
  lk_isr_code : forall k, 0 <= k < 32 -> at_address (isr k) = Some (isr_s.isr k);
  lk_irq_code : forall k, 0 <= k < 16 -> at_address (irq k) = Some (isr_s.irq k)
}.

Lemma gate_of isr irq table t0 tr tb tr' s n :
  linked isr irq -> idt.init_idt isr irq table t0 tr = Ok (tb, tr') -> gates_loaded tb s -> 0 <= n < 48 ->
  exists e, 8 * n + 7 <= (idtr s).1 /\ gate_at (memory s) ((idtr s).2 + 8 * n) = e /\ idt.sel e = 8 /\
    idt.flags e = 0x8E /\
    at_address (idt.gate_base e) = Some (if n <? 32 then isr_s.isr n else isr_s.irq (n - 32)).
Proof.
  intros [Hi Hq Hic Hqc] Hinit [Hreg Hmem] Hn.
  destruct (idt.init_idt_run isr irq table t0 tr Hi Hq) as (tb' & Hr & Hg & _ & _ & _ & Hlim).
  rewrite Hr in Hinit. injection Hinit as -> _. destruct (Hg n Hn) as (e & He & Hb & Hs & Hf).
  exists e. rewrite Hreg. cbn [fst snd]. rewrite Hlim. split; [lia |].
  split; [apply Hmem; [lia | exact He] |]. split; [exact Hs |]. split; [exact Hf |].
  rewrite Hb. clear - Hn Hic Hqc.
  destruct (Z.ltb_spec n 32); case_decide; [apply Hic; lia | lia | lia | apply Hqc; lia].
Qed.

(** The call of the dispatcher, on what the processor, the macro and the common stub pushed. *)
Lemma push_called n err s :
  64 <= esp (gpr s) < 4294967296 ->
  called n err s =
    let g := stub_regs s in
    push (return_addr (isr_s.dispatcher n))
      (mk (set ESP (esp (gpr s) - 20 - 40) (set EAX (set_low16 (set_low16 (eax (gpr s)) (ds (sel s))) 16) g))
          (mk_segs 8 16 16 16 16 16) (eip s) (handler_flags (eflags s)) (gdtr s) (idtr s) false
          (push_words (pushed g (set_seg CS 8 (sel s)) ++ [esp (gpr s) - 20 - 36]) (esp (gpr s) - 20)
             (push_words (interrupt_words n err s) (esp (gpr s)) (memory s))) (world s)).
Proof.
  destruct s as [[a c d b sp bp si di] [xc xd xe xf xg xs] ip fl gd id h m w]. unfold called, stub_regs.
  cbn [gpr esp]. intros Hsp. machine. rewrite u32_small by lia.
  replace (sp - 20 - 40 - 4) with (sp - 64) by lia. replace (sp - 20 - 36) with (sp - 56) by lia.
  rewrite push_words_app. cbn [length interrupt_words]. change (4 * Z.of_nat 5) with 20.
  cbn [pushed app push_words]. machine. replace (sp - 64) with (sp - 20 - 4 - 4 - 4 - 4 - 4 - 4 - 4 - 4 - 4 - 4 - 4) by lia.
  reflexivity.
Qed.

Lemma interrupt_calls isr irq table t0 tr tb tr' f n err s :
  linked isr irq -> idt.init_idt isr irq table t0 tr = Ok (tb, tr') -> gates_loaded tb s ->
  interruptible s -> 0 <= n < 48 -> (26 <= f)%nat ->
  exists f', (11 <= f')%nat /\
    interrupt f n err s =
      let! s2 := c_code (isr_s.dispatcher n) (called n err s) in run f' after_call s2.
Proof.
  intros Hlk Hinit Hgl Hin Hn Hf.
  destruct (gate_of _ _ _ _ _ _ _ s n Hlk Hinit Hgl Hn) as (e & Hl & He & Hs & Hfl & Ha).
  destruct (stub_run f n err s e Hn Hin Hl He Hs Hfl Ha ltac:(lia)) as (f1 & Hf1 & ->). clear Hl He Ha Hinit Hgl.
  pose proof Hin as [Hr [Hc Hd] Hsp Hap _ _ _ Hk]. apply Forall_cons in Hr as [Hax _].
  assert (Hesp : esp (stub_regs s) = esp (gpr s) - 20) by (unfold stub_regs; by destruct (gpr s)).
  assert (Heax : eax (stub_regs s) = eax (gpr s)) by (unfold stub_regs; by destruct (gpr s)).
  assert (Hds : ds (set_seg CS 8 (sel s)) = ds (sel s)) by (by destruct (sel s)).
  rewrite save_run; rewrite ?Hesp, ?Heax, ?Hds; [| lia | exact Hax | exact Hd | lia | lia |].
  2: { rewrite <- Hk. apply selects_keeps, keeps_push_words. cbn [length interrupt_words]. lia. }
  destruct (f1 - 10)%nat as [| f2] eqn:Ef; [lia |]. exists f2. split; [lia |].
  cbn [x86.run]. f_equal. f_equal. clear - Hsp. rewrite push_called by exact Hsp. cbv zeta. by destruct (sel s).
Qed.

Lemma called_esp n err s : esp (gpr (called n err s)) = esp (gpr s) - 64.
Proof. by destruct s as [[] ? ? ? ? ? ? ? ?]. Qed.

Lemma frame_fields n err s :
  interruptible s ->
  low16 (idt.ds (frame_of n err s)) = ds (sel s) /\ low16 (idt.cs (frame_of n err s)) = cs (sel s).
Proof.
  intros [Hr [Hc Hd] _ _ _ _ _ _]. apply Forall_cons in Hr as [Ha _]. unfold frame_of. cbn [idt.ds idt.cs].
  split; [by apply low16_set_low16 | by apply low16_small].
Qed.

(** After the dispatcher the stub gives back what was interrupted. *)
Lemma return_run f n err s s2 :
  interruptible s -> 0 <= n < 256 -> 0 <= err < 4294967296 -> (11 <= f)%nat ->
  returns (called n err s) s2 -> run f after_call s2 = Ok (resumed s s2).
Proof.
  intros Hin Hn He Hf [Hsp Hfr Hgd Hgt Hid _].
  destruct (called_frame n err s Hin Hn He) as (Harg & Hframe & Hkc & _).
  rewrite Harg in Hfr. destruct (frame_fields n err s Hin) as [Hds Hcs].
  pose proof Hin as [_ _ Hst _ Hc Hd _ _].
  assert (Hesp : esp (gpr s2) = esp (gpr s) - 56 - 4).
  { rewrite Hsp, called_esp. lia. }
  change (gdtr (called n err s)) with (gdtr s) in *. change (idtr (called n err s)) with (idtr s) in *.
  pose proof (keeps_trans _ _ _ _ _ Hkc Hgt) as Hk.
  destruct s2 as [g2 x2 ip2 fl2 gd2 id2 h2 m2 w2]. cbn [gpr gdtr idtr memory] in *. subst gd2 id2.
  pose proof (pt_regs_keeps _ _ _ Hfr) as Hp. cbv zeta in Hp. rewrite Hframe in Hp.
  rewrite (restore_run f (esp (gpr s) - 56)); rewrite ?Hp; cbn [idt.ds idt.cs idt.edi idt.esi idt.ebp idt.esp
    idt.ebx idt.edx idt.ecx idt.eax idt.int_no idt.err_code idt.eip idt.eflags]; rewrite ?Hds, ?Hcs;
    [| exact Hesp | lia | lia | exact Hf | |].
  2, 3: by rewrite (selects_keeps _ _ _ _ _ Hk).
  unfold resumed, frame_of. cbn. replace (esp (gpr s) - 56 + 56) with (esp (gpr s)) by lia. by destruct (gpr s).
Qed.

(** [useresp] and [ss] are not pushed by an interrupt in ring 0: they are what the interrupted code has
    on top of its stack. *)
Lemma useresp_is_stack n err s :
  idt.useresp (frame_of n err s) = load32 (memory s) (esp (gpr s)) /\
  idt.ss (frame_of n err s) = load32 (memory s) (esp (gpr s) + 4).
Proof. done. Qed.

(** [ds] in the frame has the upper half of [eax]: it is the selector when that half is 0, and only then. *)
Lemma ds_word_mixed n err s :
  interruptible s -> (idt.ds (frame_of n err s) = ds (sel s) <-> eax (gpr s) < 65536).
Proof.
  intros [Hr [_ Hd] _ _ _ _ _ _]. apply Forall_cons in Hr as [Ha _]. cbn [frame_of idt.ds].
  rewrite set_low16_add by done. zlia.
Qed.

Lemma handler_flags_off fl : Z.testbit (handler_flags fl) IF = false.
Proof. unfold handler_flags. rewrite testbit_set_flag by (unfold IF; lia). by case_decide. Qed.

(** The resumed instruction can be interrupted again. *)
Lemma resumed_again n err tb s s2 :
  interruptible s -> gates_loaded tb s -> 0 <= n < 256 -> 0 <= err < 4294967296 ->
  idt.ptr_base tb + idt.ptr_limit tb + 1 <= esp (gpr s) - 64 \/ esp (gpr s) <= idt.ptr_base tb ->
  returns (called n err s) s2 -> interruptible (resumed s s2) /\ gates_loaded tb (resumed s s2).
Proof.
  intros Hin [Hreg Hmem] Hn He Hap Hret. destruct (called_frame n err s Hin Hn He) as (_ & _ & Hkc & Hout).
  destruct Hret as [_ _ _ Hgt _ Hit]. destruct Hin as [Hr [Hc Hd] Hst Hg Hcode Hdata Hkcode Hkdata].
  change (gdtr (called n err s)) with (gdtr s) in *. change (idtr (called n err s)) with (idtr s) in *.
  pose proof (keeps_trans _ _ _ _ _ Hkc Hgt) as Hk. rewrite Hreg in Hit. cbn [fst snd] in Hit.
  split; [split | split]; unfold resumed; cbn [gpr sel eip eflags gdtr idtr memory cs ds]; try assumption.
  - by split.
  - by rewrite (selects_keeps _ _ _ _ _ Hk).
  - by rewrite (selects_keeps _ _ _ _ _ Hk).
  - by rewrite (selects_keeps _ _ _ _ _ Hk).
  - by rewrite (selects_keeps _ _ _ _ _ Hk).
  - intros k e Hl Hge. rewrite <- (Hmem k e Hl Hge). apply lget_range in Hge.
    apply gate_at_keeps. intros x Hx. transitivity (load8 (memory (called n err s)) x); [apply Hit | apply Hout]; lia.
Qed.

(** C6: An interrupt through the gates of [init_idt] reaches the dispatcher of its vector with
    interrupts off, a pointer to a [pt_regs] that holds the vector, the error code of the
    exceptions that have one (0 for all others) and the interrupted registers, and memory changed
    only in the 64 bytes below the interrupted stack pointer.  When the dispatcher returns, the
    interrupted instruction has its registers, flags and stack pointer back, with every data
    segment register holding what [ds] held. *)
Theorem interrupt_round_trip isr irq table t0 tr tb tr' f n err s :
  linked isr irq -> idt.init_idt isr irq table t0 tr = Ok (tb, tr') -> gates_loaded tb s ->
  interruptible s -> 0 <= n < 48 -> 0 <= err < 4294967296 -> (26 <= f)%nat ->
  let s1 := called n err s in
  pt_regs_at (memory s1) (load32 (memory s1) (esp (gpr s1) + 4)) = frame_of n err s /\
  Z.testbit (eflags s1) IF = false /\ world s1 = world s /\
  (forall x, ~ esp (gpr s) - 64 <= x < esp (gpr s) -> load8 (memory s1) x = load8 (memory s) x) /\
  forall s2, c_code (isr_s.dispatcher n) s1 = Ok s2 -> returns s1 s2 ->
    interrupt f n err s = Ok (resumed s s2).
Proof.
  intros Hlk Hinit Hgl Hin Hn He Hf s1.
  destruct (called_frame n err s Hin ltac:(lia) He) as (Harg & Hframe & _ & Hout).
  split; [unfold s1; by rewrite Harg |]. split; [apply handler_flags_off |]. split; [done |].
  split; [exact Hout |]. intros s2 Hc Hret.
  destruct (interrupt_calls isr irq table t0 tr tb tr' f n err s) as (f' & Hf' & ->); try assumption.
  fold s1. rewrite Hc. cbn [obind]. by apply (return_run f' n err s s2 Hin ltac:(lia) He Hf').
Qed.

End stubs.

(** ** A processor with its tables in memory *)

Definition demo_isr (n : Z) : Z := 0xC0100000 + 16 * (n mod 32).
Definition demo_irq (n : Z) : Z := 0xC0101000 + 16 * (n mod 16).

Definition demo_code (a : Z) : option (list instr) :=
  if a <? 0xC0101000 then Some (isr_s.isr ((a - 0xC0100000) / 16))
  else Some (isr_s.irq ((a - 0xC0101000) / 16)).

Definition demo_gates : idt.t :=
  match idt.init_idt demo_isr demo_irq 0x3000 idt.empty_table [] with
  | Ok (tb, _) => tb
  | _ => idt.empty_table
  end.

Definition demo_memory : mem :=
  store_bytes 0x3000 (concat (map gate_bytes (idt.entries demo_gates)))
    (store_bytes 0x2000 (concat (map segment_bytes gdt.flat_segments)) ∅).

(** A thread with different values in its registers, and its stack below 0x9000. *)
Definition demo_processor {W} (w : W) : t W :=
  mk (mk_regs 0xAAAA0001 2 3 4 0x9000 5 6 7) (mk_segs 8 16 16 16 16 16) 0xC0105000 0x246 (39, 0x2000)
     (2047, 0x3000) false demo_memory w.

Lemma demo_linked : linked demo_code demo_isr demo_irq.
Proof.
  unfold demo_isr, demo_irq, demo_code. split; [intros k; zlia | intros k; zlia | |]; intros k Hk.
  - destruct (Z.ltb_spec (0xC0100000 + 16 * (k mod 32)) 0xC0101000); [| zlia].
    do 2 f_equal. zlia.
  - destruct (Z.ltb_spec (0xC0101000 + 16 * (k mod 16)) 0xC0101000); [zlia |]. do 2 f_equal. zlia.
Qed.

Lemma demo_init : exists tr, idt.init_idt demo_isr demo_irq 0x3000 idt.empty_table [] = Ok (demo_gates, tr).
Proof. eexists. vm_compute. reflexivity. Qed.

Lemma demo_gates_ok : Forall gate_ok (idt.entries demo_gates) /\ length (idt.entries demo_gates) = 256%nat /\
  idt.ptr_base demo_gates = 0x3000 /\ idt.ptr_limit demo_gates = 2047.
Proof.
  split; [| split; [vm_compute; reflexivity | split; vm_compute; reflexivity]].
  assert (Hb : forallb (fun e => bool_decide (gate_ok e)) (idt.entries demo_gates) = true) by (vm_compute; reflexivity).
  rewrite forallb_forall in Hb. apply Forall_forall. intros e He.
  apply (bool_decide_eq_true_1 _), Hb. by apply list_elem_of_In.
Qed.

Lemma demo_selects ok v :
  selects ok (39, 0x2000) (store_bytes 0x2000 (concat (map segment_bytes gdt.flat_segments)) ∅) v = true ->
  selects ok (39, 0x2000) demo_memory v = true.
Proof.
  intros Hs. unfold demo_memory. rewrite <- Hs.
  generalize (concat (map gate_bytes (idt.entries demo_gates))). intros bs.
  apply selects_keeps, keeps_store_bytes. right. cbn [fst snd]. lia.
Qed.

Lemma demo_interruptible {W} (w : W) : interruptible (demo_processor w).
Proof.
  split; cbn [gpr sel eip eflags gdtr idtr memory demo_processor eax ecx edx ebx esp ebp esi edi cs ds fst snd].
  - repeat constructor; lia.
  - lia.
  - lia.
  - lia.
  - apply demo_selects. vm_compute. reflexivity.
  - apply demo_selects. vm_compute. reflexivity.
  - apply demo_selects. vm_compute. reflexivity.
  - apply demo_selects. vm_compute. reflexivity.
Qed.

Lemma demo_gates_loaded {W} (w : W) : gates_loaded demo_gates (demo_processor w).
Proof.
  destruct demo_gates_ok as (Hok & Hlen & Hb & Hl). split.
  - cbn [idtr demo_processor]. by rewrite Hb, Hl.
  - intros n e _ He. apply lget_Some in He as [Hn He]. rewrite Hb. cbn [memory demo_processor].
    unfold demo_memory. revert He Hok. generalize (idt.entries demo_gates). intros es He Hok.
    pose proof (gate_at_stored es 0x3000 (store_bytes 0x2000 (concat (map segment_bytes gdt.flat_segments)) ∅)
      _ e Hok He) as Hg.
    rewrite Z2Nat.id in Hg by exact Hn. exact Hg.
Qed.

(** Compiled code that uses the registers it may use. *)
Definition cdecl_return {W} (w : W) (s : t W) : t W :=
  let g := gpr s in
  mk (mk_regs 0xDEAD 0xBEEF 0x1234 (ebx g) (esp g + 4) (ebp g) (esi g) (edi g)) (sel s) (eip s) 0x46 (gdtr s)
     (idtr s) false (memory s) w.

Lemma cdecl_returns {W} (w : W) s : returns s (cdecl_return w s).
Proof. by split. Qed.

#[local] Instance unit_ports : PortIO unit := {| io_in := fun _ _ w => (0, w); io_out := fun _ _ _ w => w |}.

(** A page fault with error code 2: the frame and what comes back. *)
Lemma interrupt_round_trip_witness :
  let s := demo_processor tt in
  let c := called (fun _ => 0xC0105100) 14 2 s in
  pt_regs_at (memory c) (load32 (memory c) (esp (gpr c) + 4)) =
    idt.mk_regs 0xAAAA0010 7 6 5 0x8FEC 4 3 2 0xAAAA0001 14 2 0xC0105000 8 0x246
      (load32 (memory s) 0x9000) (load32 (memory s) 0x9004) /\
  interrupt (fun _ _ => 0) isr_s.code demo_code (fun _ => 0xC0105100)
    (fun _ s => Ok (cdecl_return tt s)) 30 14 2 s = Ok (resumed s (cdecl_return tt c)).
Proof.
  destruct demo_init as [tr Hinit].
  destruct (interrupt_round_trip (fun _ _ => 0) demo_code (fun _ => 0xC0105100)
    (fun _ s => Ok (cdecl_return tt s)) demo_isr demo_irq 0x3000 idt.empty_table [] demo_gates tr 30 14 2
    (demo_processor tt) demo_linked Hinit (demo_gates_loaded tt) (demo_interruptible tt)) as (Hf & _ & _ & _ & Hret);
    [clear Hinit; lia | clear Hinit; lia | clear Hinit; lia |].
  split; [exact Hf |]. apply Hret; [reflexivity | apply cdecl_returns].
Defined.
