(* ===== verification/Assembly.v ===== *)
(** * The other assembly files

    [boot.s], [lib/gdt_s.s], [lib/idt_flush.s] and [lib/switch_to.s] on the processor of [Machine]:
    the boot header and the first instructions, the loading of the two table registers, and the
    switch of threads, which does what [Scheduler] says of it. *)

From stdpp Require Import prelude gmap strings.
From Stdlib Require Import ZArith Lia.
From S2P Require Import Prelude CString Interrupts Console Scheduler Threads Machine Stubs.
Import x86.

(** ** [boot.s] *)

Module boot_s.

Definition MBOOT_HEADER_MAGIC : Z := 0x1BADB002.
Definition MBOOT_PAGE_ALIGN : Z := Z.shiftl 1 0.
Definition MBOOT_MEM_INFO : Z := Z.shiftl 1 1.
Definition MBOOT_HEADER_FLAGS : Z := Z.lor MBOOT_PAGE_ALIGN MBOOT_MEM_INFO.
Definition MBOOT_CHECKSUM : Z := - (MBOOT_HEADER_MAGIC + MBOOT_HEADER_FLAGS).

(** The three words at the start of the image; [dd] keeps 32 bits. *)
Definition header : list Z := map u32 [MBOOT_HEADER_MAGIC; MBOOT_HEADER_FLAGS; MBOOT_CHECKSUM].

(** The 1024 bytes at [stack], and [$-stack-1] after them. *)
Definition STACK_BYTES : Z := 1024.
Definition STACK_TOP (stack : Z) : Z := (stack + STACK_BYTES) - stack - 1.

(** [stack] and [mboot_ptr_tmp] are addresses given by the linker. *)
Definition start (stack mboot_ptr_tmp : Z) : list instr :=
  [ Cli;
    StoreAt mboot_ptr_tmp EBX;
    MovRI ESP (STACK_TOP stack);
    AndI ESP 0xFFFFFFF0;
    MovRI EBP 0;
    Call "kern_entry" ].

End boot_s.

(** ** The table registers *)

Definition gdt_flush : list instr :=
  [ Load EAX ESP 4;
    Lgdt EAX;

    MovWI EAX 0x10;
    MovSW DS EAX;
    MovSW ES EAX;
    MovSW FS EAX;
    MovSW GS EAX;
    MovSW SS EAX;
    JmpFar 0x08;
    Ret ].

Definition idt_flush : list instr :=
  [ Load EAX ESP 4;
    Lidt EAX;
    Sti;
    Ret ].

(** ** [switch_to.s] *)

Definition switch_to : list instr :=
  [ Load EAX ESP 4;

    Store EAX 0 ESP;
    Store EAX 4 EBP;
    Store EAX 8 EBX;
    Store EAX 12 ESI;
    Store EAX 16 EDI;
    Pushf;
    PopR ECX;
    Store EAX 20 ECX;

    Load EAX ESP 8;

    Load ESP EAX 0;
    Load EBP EAX 4;
    Load EBX EAX 8;
    Load ESI EAX 12;
    Load EDI EAX 16;
    Load EAX EAX 20;
    PushR EAX;
    Popf;

    Ret ].

(** A [task_context] in memory. *)
Definition context_at (m : mem) (a : Z) : task_context :=
  mk_context (load32 m a) (load32 m (a + 4)) (load32 m (a + 8)) (load32 m (a + 12)) (load32 m (a + 16))
    (load32 m (a + 20)).

(** [&task->context]: after the state, the pid and the stack. *)
Definition context_of (task : Z) : Z := task + 12.

(** The registers that a switch saves. *)
Definition cpu_of {W} (s : t W) : task_context :=
  let g := gpr s in mk_context (esp g) (ebp g) (ebx g) (esi g) (edi g) (eflags s).

Section switch.
Context {W : Type} `{PortIO W}.
Context (alu : Z -> Z -> Z) (code : string -> option (list instr)) (return_addr : string -> Z).
Context (c_code : string -> t W -> outcome (t W)).
Implicit Types (s : t W) (m : mem) (a b : Z).

Abbreviation run := (run alu code return_addr c_code).

(** 24 bytes at [a] away from the word that a switch pushes and pops. *)
Definition clear_of a sp : Prop := a + 24 <= sp - 4 \/ sp <= a.

Definition word (v : Z) : Prop := 0 <= v < 4294967296.

Definition context_words (c : task_context) : Prop :=
  Forall word [Scheduler.esp c; Scheduler.ebp c; Scheduler.ebx c; Scheduler.esi c; Scheduler.edi c;
               Scheduler.eflags c].

(** What [switch_to] stores. *)
Definition switch_memory a (c d : task_context) m : mem :=
  store32 (Scheduler.esp d - 4) (Scheduler.eflags d)
    (store32 (a + 20) (Scheduler.eflags c)
      (store32 (Scheduler.esp c - 4) (Scheduler.eflags c)
        (store32 (a + 16) (Scheduler.edi c)
          (store32 (a + 12) (Scheduler.esi c)
            (store32 (a + 8) (Scheduler.ebx c)
              (store32 (a + 4) (Scheduler.ebp c) (store32 a (Scheduler.esp c) m))))))).

Lemma switch_run f s a b :
  let m := memory s in
  let c := cpu_of s in
  let d := context_at m b in
  load32 m (esp (gpr s) + 4) = a -> load32 m (esp (gpr s) + 8) = b ->
  0 <= a < 4294967296 - 24 -> 0 <= b < 4294967296 - 24 ->
  a + 24 <= b \/ b + 24 <= a ->
  a + 24 <= esp (gpr s) - 4 \/ esp (gpr s) + 12 <= a -> clear_of b (esp (gpr s)) ->
  4 <= esp (gpr s) < 4294967296 - 12 -> 4 <= Scheduler.esp d < 4294967296 - 4 ->
  context_words c -> word (Scheduler.eflags d) -> (19 <= f)%nat ->
  run f switch_to s =
    let m' := switch_memory a c d m in
    Ok (mk (mk_regs (Scheduler.eflags d) (eflags s) (edx (gpr s)) (Scheduler.ebx d) (Scheduler.esp d + 4)
              (Scheduler.ebp d) (Scheduler.esi d) (Scheduler.edi d))
           (sel s) (load32 m' (Scheduler.esp d)) (Scheduler.eflags d) (gdtr s) (idtr s) (halted s) m' (world s)).
Proof.
  destruct s as [[xa xc xd xb sp bp si di] x ip fl gd id h m w]. unfold cpu_of, context_words, clear_of, switch_memory.
  cbn [gpr memory eflags x86.esp x86.ebp x86.ebx x86.esi x86.edi x86.edx Scheduler.esp Scheduler.ebp
    Scheduler.ebx Scheduler.esi Scheduler.edi Scheduler.eflags sel eip gdtr idtr halted world context_at].
  intros Ha Hb Hra Hrb Hab Hasp Hbsp Hsp Hd Hc Hfl Hf.
  rewrite !Forall_cons in Hc. destruct Hc as (?&?&?&?&?&Hflags&_). unfold word in *.
  unfold switch_to. exec f. rewrite Ha. do 7 exec f. rewrite load32_store32_eq by lia.
  offsets sp. rewrite Z.add_0_r. do 2 exec f. rewrite !load32_store32_ne, Hb by lia.
  do 6 (exec f; rewrite ?Z.add_0_r, !load32_store32_ne by lia).
  do 2 exec f. rewrite load32_store32_eq by lia. destruct f; [lia |]. cbn [x86.run]. machine. words.
  offsets (load32 m b). rewrite (load32_store32_ne (load32 m b - 4) (load32 m b)) by lia. reflexivity.
Qed.

Lemma context_at_ext m m' p : keeps p 24 m m' -> context_at m' p = context_at m p.
Proof. intros Hk. unfold context_at. f_equal; (eapply keeps_load32; [exact Hk | lia | lia]). Qed.

(** The bytes that a switch changes. *)
Lemma switch_memory_keeps a c d m p n :
  p + n <= a \/ a + 24 <= p ->
  p + n <= Scheduler.esp c - 4 \/ Scheduler.esp c <= p ->
  p + n <= Scheduler.esp d - 4 \/ Scheduler.esp d <= p ->
  keeps p n m (switch_memory a c d m).
Proof.
  intros Ha Hc Hd. unfold switch_memory.
  repeat first [reflexivity | etransitivity; [| apply keeps_store32; lia]].
Qed.

Lemma switch_memory_saves a c d m :
  clear_of a (Scheduler.esp c) -> clear_of a (Scheduler.esp d) -> context_words c ->
  context_at (switch_memory a c d m) a = c.
Proof.
  unfold clear_of, context_words, word. rewrite !Forall_cons. intros Hc Hd (?&?&?&?&?&?&_).
  destruct c as [c1 c2 c3 c4 c5 c6]. unfold context_at, switch_memory.
  cbn [Scheduler.esp Scheduler.ebp Scheduler.ebx Scheduler.esi Scheduler.edi Scheduler.eflags] in *.
  f_equal; repeat first [rewrite load32_store32_eq by lia; reflexivity | rewrite load32_store32_ne by lia].
Qed.

(** *** The refinement *)

(** Memory holds the contexts of the scheduler's tasks. *)
Definition holds m (sc : TaskScheduler.t) : Prop :=
  forall p tk, TaskScheduler.tasks sc !! p = Some tk -> context_at m (context_of p) = context tk.

(** Where the task structures are: apart from one another, from the arguments of the call and
    from the top of the stack of the thread to switch to; and the two stacks are apart. *)
Record placed (sc : TaskScheduler.t) (target : task_struct) s : Prop := {
  pl_range : forall p, is_Some (TaskScheduler.tasks sc !! p) -> 0 <= context_of p < 4294967296 - 24;
  pl_apart : forall p q, is_Some (TaskScheduler.tasks sc !! p) -> is_Some (TaskScheduler.tasks sc !! q) ->
    p <> q -> p + 24 <= q \/ q + 24 <= p;
  pl_args : forall p, is_Some (TaskScheduler.tasks sc !! p) ->
    context_of p + 24 <= esp (gpr s) - 4 \/ esp (gpr s) + 12 <= context_of p;
  pl_target : forall p, is_Some (TaskScheduler.tasks sc !! p) ->
    context_of p + 24 <= Scheduler.esp (context target) - 4 \/
    Scheduler.esp (context target) + 4 <= context_of p;
  pl_stacks : Scheduler.esp (context target) + 4 <= esp (gpr s) - 4 \/
    esp (gpr s) <= Scheduler.esp (context target)
}.

Lemma switch_to_run sc last target tk s f :
  let m := memory s in
  holds m sc -> cpu_of s = TaskScheduler.cpu sc -> placed sc tk s ->
  is_Some (TaskScheduler.tasks sc !! last) -> TaskScheduler.tasks sc !! target = Some tk -> last <> target ->
  load32 m (esp (gpr s) + 4) = context_of last -> load32 m (esp (gpr s) + 8) = context_of target ->
  4 <= esp (gpr s) < 4294967296 - 12 -> 4 <= Scheduler.esp (context tk) < 4294967296 - 4 ->
  context_words (cpu_of s) -> context_words (context tk) -> (19 <= f)%nat ->
  exists sc' s', TaskScheduler.switch_to last target sc = Ok sc' /\ run f switch_to s = Ok s' /\
    holds (memory s') sc' /\ TaskScheduler.cpu sc' = context tk /\
    cpu_of s' = TaskScheduler.cpu (snd (returning.ret sc')) /\
    eip s' = load32 m (Scheduler.esp (context tk)) /\
    sel s' = sel s /\ gdtr s' = gdtr s /\ idtr s' = idtr s /\ world s' = world s /\
    forall p n, p + n <= context_of last \/ context_of last + 24 <= p ->
      p + n <= esp (gpr s) - 4 \/ esp (gpr s) <= p ->
      p + n <= Scheduler.esp (context tk) - 4 \/ Scheduler.esp (context tk) <= p ->
      keeps p n m (memory s').
Proof.
  intros m Hh Hcpu [Hr Hap Harg Htg Hst] [tl Hl] Ht Hne Ha Hb Hsp Hd Hcw Hdw Hf. subst m.
  unfold TaskScheduler.switch_to, TaskScheduler.load. rewrite Hl. cbn [or_fault obind].
  rewrite lookup_alter_ne, Ht by done. cbn [or_fault obind].
  pose proof (Hh target tk Ht) as Hctx.
  assert (Hword : word (Scheduler.eflags (context tk))) by (unfold context_words in Hdw; by rewrite !Forall_cons in Hdw; apply Hdw).
  pose proof (mk_is_Some _ _ Hl) as Sl. pose proof (mk_is_Some _ _ Ht) as St.
  pose proof (Hr last Sl) as Rl. pose proof (Hr target St) as Rt. pose proof (Harg last Sl) as Al.
  assert (At : clear_of (context_of target) (esp (gpr s))) by (unfold clear_of; pose proof (Harg target St); lia).
  assert (Hlt : context_of last + 24 <= context_of target \/ context_of target + 24 <= context_of last)
    by (unfold context_of; pose proof (Hap last target Sl St Hne); lia).
  eexists _, _. split; [reflexivity |]. split.
  { apply (switch_run f s (context_of last) (context_of target)); rewrite ?Hctx; assumption. }
  rewrite Hctx. cbn [memory eip sel gdtr idtr world TaskScheduler.cpu]. split_and!; try reflexivity.
  - intros p tp Hp. cbn [TaskScheduler.tasks] in Hp. destruct (decide (p = last)) as [-> | Hpl].
    + rewrite lookup_alter_eq, Hl in Hp. injection Hp as <-. cbn [context TaskScheduler.with_context].
      rewrite switch_memory_saves; [by rewrite Hcpu | | | exact Hcw];
        [| unfold clear_of; pose proof (Htg last Sl); lia].
      unfold clear_of, cpu_of. cbn [Scheduler.esp]. lia.
    + rewrite lookup_alter_ne in Hp by done. pose proof (mk_is_Some _ _ Hp) as Sp.
      rewrite <- (Hh p tp Hp). apply context_at_ext, switch_memory_keeps.
      * pose proof (Hap p last Sp Sl Hpl). unfold context_of. lia.
      * pose proof (Harg p Sp). cbn [cpu_of Scheduler.esp]. lia.
      * pose proof (Htg p Sp). lia.
  - unfold returning.ret, set_cpu, cpu_of. cbn [snd TaskScheduler.cpu gpr eflags x86.esp x86.ebp x86.ebx x86.esi x86.edi].
    rewrite u32_small by lia. reflexivity.
  - eapply keeps_load32; [apply (switch_memory_keeps _ _ _ _ (Scheduler.esp (context tk)) 4) | lia | lia].
    + pose proof (Htg last Sl). lia.
    + cbn [cpu_of Scheduler.esp]. lia.
    + lia.
  - intros p n Hp1 Hp2 Hp3. by apply switch_memory_keeps.
Qed.

(** C5: The code of [switch_to.s] does what the scheduler's [switch_to] says: it returns, the
    registers of the running thread are in its task structure, every other context is what it was, the processor has
    the context of the other thread and goes on at the address on top of that thread's stack;
    nothing else in memory changes but one word below each of the two stack pointers. *)
Theorem switch_to_refines sc last target tk s f :
  let m := memory s in
  holds m sc -> cpu_of s = TaskScheduler.cpu sc -> placed sc tk s ->
  is_Some (TaskScheduler.tasks sc !! last) -> TaskScheduler.tasks sc !! target = Some tk -> last <> target ->
  load32 m (esp (gpr s) + 4) = context_of last -> load32 m (esp (gpr s) + 8) = context_of target ->
  4 <= esp (gpr s) < 4294967296 - 12 -> 4 <= Scheduler.esp (context tk) < 4294967296 - 4 ->
  context_words (cpu_of s) -> context_words (context tk) -> (19 <= f)%nat ->
  exists sc' s', TaskScheduler.switch_to last target sc = Ok sc' /\ run f switch_to s = Ok s' /\
    holds (memory s') sc' /\ TaskScheduler.cpu sc' = context tk /\
    cpu_of s' = TaskScheduler.cpu (snd (returning.ret sc')) /\
    eip s' = load32 m (Scheduler.esp (context tk)) /\
    sel s' = sel s /\ gdtr s' = gdtr s /\ idtr s' = idtr s /\ world s' = world s /\
    forall p n, p + n <= context_of last \/ context_of last + 24 <= p ->
      p + n <= esp (gpr s) - 4 \/ esp (gpr s) <= p ->
      p + n <= Scheduler.esp (context tk) - 4 \/ Scheduler.esp (context tk) <= p ->
      keeps p n m (memory s').
Proof. apply switch_to_run. Qed.

End switch.

(** ** The table registers *)

Section tables.
Context {W : Type} `{PortIO W}.
Context (alu : Z -> Z -> Z) (code : string -> option (list instr)) (return_addr : string -> Z).
Context (c_code : string -> t W -> outcome (t W)).
Implicit Types (s : t W) (m : mem).

Abbreviation run := (run alu code return_addr c_code).

(** A call with one argument: the return address and the argument on the stack. *)
Record called_with (v ret : Z) s : Prop := {
  cw_esp : 0 <= esp (gpr s) < 4294967296 - 8;
  cw_ret : load32 (memory s) (esp (gpr s)) = ret;
  cw_arg : load32 (memory s) (esp (gpr s) + 4) = v
}.

(** [gdt_ptr] or [idt_ptr] at [p]. *)
Definition pointer_at m p limit base : Prop := load16 m p = limit /\ load32 m (p + 2) = base.

(** The table of [tb] in memory. *)
Definition segments_at m (tb : gdt.t) : Prop :=
  forall i e, gdt.entries tb !! i = Some e -> segment_at m (gdt.ptr_base tb + 8 * Z.of_nat i) = e.

(** The flat segments of [init_gdt] are what the kernel's selectors need. *)
Lemma segments_usable m tb :
  gdt.entries tb = gdt.flat_segments -> gdt.ptr_limit tb = 39 -> segments_at m tb ->
  selects code_ok (39, gdt.ptr_base tb) m 8 = true /\ selects data_ok (39, gdt.ptr_base tb) m 16 = true.
Proof.
  intros He Hl Hs. unfold segments_at in Hs. rewrite He in Hs.
  unfold selects, descriptor. cbn [Z.land Z.shiftr Z.shiftl Z.eqb Z.leb andb fst snd].
  pose proof (Hs 1%nat _ eq_refl) as H1. pose proof (Hs 2%nat _ eq_refl) as H2.
  split; [change (8 * Z.shiftr 8 3) with (8 * Z.of_nat 1); rewrite H1 |
          change (8 * Z.shiftr 16 3) with (8 * Z.of_nat 2); rewrite H2]; reflexivity.
Qed.

Lemma gdt_flush_run f p ret table t0 tb s :
  length (gdt.entries t0) = 5%nat -> gdt.init_gdt table t0 = Ok tb ->
  called_with p ret s -> pointer_at (memory s) p (gdt.ptr_limit tb) (gdt.ptr_base tb) ->
  segments_at (memory s) tb -> 0 <= p < 4294967296 -> (10 <= f)%nat ->
  run f gdt_flush s =
    Ok (mk (set ESP (esp (gpr s) + 4) (set EAX (set_low16 p 16) (gpr s))) (mk_segs 8 16 16 16 16 16) ret
          (eflags s) (39, table) (idtr s) (halted s) (memory s) (world s)).
Proof.
  intros Hlen Hinit [Hesp Hret Harg] [Hlim Hbase] Hseg Hp Hf.
  rewrite gdt.init_gdt_ok in Hinit by exact Hlen. injection Hinit as <-.
  cbn [gdt.ptr_limit gdt.ptr_base] in *.
  destruct (segments_usable _ (gdt.mk gdt.flat_segments 39 table) eq_refl eq_refl Hseg) as [Hc Hd]. cbn [gdt.ptr_base] in *.
  destruct s as [[a c d b sp bp si di] [xc xd xe xf xg xs] ip fl gd id h m w]. cbn [gpr memory x86.esp] in *.
  unfold gdt_flush. exec f. rewrite Harg. exec f. unfold table_operand. rewrite Hlim, Hbase.
  assert (H16 : low16 (set_low16 p 16) = 16) by (apply low16_set_low16; lia).
  exec f. do 5 (exec f; rewrite H16, Hd). exec f. rewrite Hc. destruct f; [lia |].
  cbn [x86.run]. machine. words. rewrite Hret. reflexivity.
Qed.

(** [gdt_flush] after [init_gdt] loads the table register with the new table, [cs] with the
    kernel's code segment and the other segment registers with its data segment, and
    returns with [eax] as the only register changed. *)
Theorem gdt_flush_loads f p ret table t0 tb s :
  length (gdt.entries t0) = 5%nat -> gdt.init_gdt table t0 = Ok tb ->
  called_with p ret s -> pointer_at (memory s) p (gdt.ptr_limit tb) (gdt.ptr_base tb) ->
  segments_at (memory s) tb -> 0 <= p < 4294967296 -> (10 <= f)%nat ->
  run f gdt_flush s =
    Ok (mk (set ESP (esp (gpr s) + 4) (set EAX (set_low16 p 16) (gpr s))) (mk_segs 8 16 16 16 16 16) ret
          (eflags s) (39, table) (idtr s) (halted s) (memory s) (world s)).
Proof. apply gdt_flush_run. Qed.

Lemma idt_flush_run f p ret limit base s :
  called_with p ret s -> pointer_at (memory s) p limit base -> (4 <= f)%nat ->
  run f idt_flush s =
    Ok (mk (set ESP (esp (gpr s) + 4) (set EAX p (gpr s))) (sel s) ret (set_flag IF true (eflags s)) (gdtr s)
          (limit, base) (halted s) (memory s) (world s)).
Proof.
  intros [Hesp Hret Harg] [Hlim Hbase] Hf.
  destruct s as [[a c d b sp bp si di] [xc xd xe xf xg xs] ip fl gd id h m w]. cbn [gpr memory x86.esp] in *.
  unfold idt_flush. exec f. rewrite Harg. exec f. unfold table_operand. rewrite Hlim, Hbase. exec f.
  destruct f; [lia |]. cbn [x86.run]. machine. words. rewrite Hret. reflexivity.
Qed.

(** [idt_flush] loads its table register and turns interrupts on: from [init_idt] on they are taken, while
    [kern_init] has yet to set up memory, the heap and the threads. *)
Theorem idt_flush_enables f p ret limit base s :
  called_with p ret s -> pointer_at (memory s) p limit base -> (4 <= f)%nat ->
  exists s', run f idt_flush s = Ok s' /\ idtr s' = (limit, base) /\ eip s' = ret /\
    Z.testbit (eflags s') IF = true /\ esp (gpr s') = esp (gpr s) + 4 /\ memory s' = memory s /\
    forall r, r <> EAX -> r <> ESP -> get r (gpr s') = get r (gpr s).
Proof.
  intros Hc Hp Hf. eexists. split; [by apply (idt_flush_run f p ret limit base s) |].
  cbn [idtr eip eflags gpr memory]. rewrite testbit_set_flag, decide_True by (done || unfold IF; lia).
  split_and!; try done; [by destruct (gpr s) |].
  intros r H1 H2. by rewrite !get_set, !decide_False.
Qed.

(** A flag set in a word gives a word. *)
Lemma set_flag_word i fl : 0 <= i < 32 -> word fl -> word (set_flag i true fl).
Proof.
  unfold word, set_flag. intros Hi Hfl. rewrite Z.setbit_spec'.
  assert (0 <= 2 ^ i) by (apply Z.pow_nonneg; lia).
  assert (Hpos : 0 <= Z.lor fl (2 ^ i)) by (apply Z.lor_nonneg; lia). split; [exact Hpos |].
  change 4294967296 with (2 ^ 32) in *.
  destruct (Z.eq_dec (Z.lor fl (2 ^ i)) 0) as [-> | Hne]; [done |].
  apply Z.log2_lt_pow2; [lia |]. rewrite Z.log2_lor, Z.log2_pow2 by lia.
  apply Z.max_lub_lt; [| lia]. destruct (Z.eq_dec fl 0) as [-> | Hz]; [done |]. apply Z.log2_lt_pow2; lia.
Qed.

(** With the segments of [init_gdt] loaded as [gdt_flush] leaves them, the return of [idt_flush] can be
    interrupted through the gates of [init_idt]: the state satisfies what the theorems on interrupts
    ask for, and interrupts are on. *)
Theorem idt_flush_ready f p ret gt tb s :
  gdt.entries gt = gdt.flat_segments -> gdt.ptr_limit gt = 39 -> segments_at (memory s) gt ->
  gdtr s = (39, gdt.ptr_base gt) -> sel s = mk_segs 8 16 16 16 16 16 ->
  (forall n e, 8 * n + 7 <= idt.ptr_limit tb -> lget (idt.entries tb) n = Some e ->
    gate_at (memory s) (idt.ptr_base tb + 8 * n) = e) ->
  called_with p ret s -> pointer_at (memory s) p (idt.ptr_limit tb) (idt.ptr_base tb) ->
  Forall word [ecx (gpr s); edx (gpr s); ebx (gpr s); ebp (gpr s); esi (gpr s); edi (gpr s); p; ret; eflags s] ->
  60 <= esp (gpr s) -> gdt.ptr_base gt + 40 <= esp (gpr s) - 60 \/ esp (gpr s) + 4 <= gdt.ptr_base gt ->
  (4 <= f)%nat ->
  exists s', run f idt_flush s = Ok s' /\ interruptible s' /\ gates_loaded tb s' /\
    Z.testbit (eflags s') IF = true /\ esp (gpr s') = esp (gpr s) + 4.
Proof.
  intros He Hl Hseg Hgd Hsel Hg Hcall Hptr Hw Hsp Hap Hf. pose proof (cw_esp _ _ _ Hcall) as Hesp.
  destruct (segments_usable _ gt He Hl Hseg) as [Hc Hd].
  eexists. split; [by apply (idt_flush_run f p ret (idt.ptr_limit tb) (idt.ptr_base tb) s) |].
  rewrite !Forall_cons in Hw. destruct Hw as (?&?&?&?&?&?&?&?&Hfl&_).
  pose proof (set_flag_word IF _ ltac:(unfold IF; lia) Hfl).
  split; [| split; [by split | cbn [eflags gpr]; rewrite testbit_set_flag, decide_True by (done || unfold IF; lia);
    by destruct (gpr s)]].
  destruct (gpr s) as [a c d b sp bp si di]. cbn [eax ecx edx ebx x86.esp ebp esi edi] in *.
  split; cbn [gpr sel eip eflags gdtr memory set eax ecx edx ebx x86.esp ebp esi edi]; rewrite ?Hsel, ?Hgd;
    cbn [cs ds fst snd]; try assumption; try lia.
  repeat (apply Forall_cons; split; [assumption |]). constructor.
Qed.

End tables.

(** ** The boot header and the first instructions *)

(** The header satisfies the multiboot specification: the three words add up to 0 in 32 bits. *)
Theorem header_checksum : u32 (foldr Z.add 0 boot_s.header) = 0 /\
  boot_s.header !! 0%nat = Some 0x1BADB002 /\ boot_s.header !! 1%nat = Some 3.
Proof. done. Qed.

Section start.
Context {W : Type} `{PortIO W}.
Context (alu : Z -> Z -> Z) (code : string -> option (list instr)) (return_addr : string -> Z).
Context (c_code : string -> t W -> outcome (t W)).
Context (stack mboot_ptr_tmp : Z).
Implicit Types (s : t W) (m : mem).

Abbreviation run := (run alu code return_addr c_code).

(** The processor when [kern_entry] starts. *)
Definition entered s : t W :=
  let m := store32 mboot_ptr_tmp (ebx (gpr s)) (memory s) in
  mk (set ESP 1004 (set EBP 0 (gpr s))) (sel s) (eip s)
     (status (alu 1023 0xFFFFFFF0) (set_flag IF false (eflags s))) (gdtr s) (idtr s) (halted s)
     (store32 1004 (return_addr "kern_entry") m) (world s).

Lemma start_run f s :
  (7 <= f)%nat ->
  run f (boot_s.start stack mboot_ptr_tmp) s =
    let! _ := c_code "kern_entry" (entered s) in Fault.
Proof.
  intros Hf. unfold boot_s.start.
  assert (Hst : boot_s.STACK_TOP stack = 1023) by (unfold boot_s.STACK_TOP, boot_s.STACK_BYTES; lia).
  rewrite Hst. destruct s as [[a c d b sp bp si di] x ip fl gd id h m w].
  do 5 exec f. destruct f as [| [| f]]; [lia | lia |]. cbn [x86.run]. machine.
  change (u32 (Z.land 1023 4294967280)) with 1008. change (u32 (1008 - 4)) with 1004.
  unfold entered. machine. by destruct (c_code _ _).
Qed.

(** [start] enters [kern_entry] with interrupts off, the boot loader's pointer in
    [mboot_ptr_tmp] and a null frame pointer.  Its stack is not [stack]: [STACK_TOP] is
    the length of the array less one, so the stack pointer is 1008 wherever the
    linker put [stack], and the return address is pushed at 1004. *)
Theorem start_enters f s :
  0 <= ebx (gpr s) < 4294967296 -> 1008 <= mboot_ptr_tmp -> (7 <= f)%nat ->
  run f (boot_s.start stack mboot_ptr_tmp) s = (let! _ := c_code "kern_entry" (entered s) in Fault) /\
  Z.testbit (eflags (entered s)) IF = false /\ ebp (gpr (entered s)) = 0 /\
  load32 (memory (entered s)) mboot_ptr_tmp = ebx (gpr s) /\
  esp (gpr (entered s)) = 1004 /\
  (0x100000 <= stack -> ~ stack <= esp (gpr (entered s)) < stack + boot_s.STACK_BYTES).
Proof.
  intros Hb Hm Hf. split; [by apply start_run |]. unfold entered. cbn [eflags gpr memory].
  split_and!; try (by destruct (gpr s)).
  - unfold status, STATUS. rewrite Z.lor_spec, !Z.land_spec, testbit_set_flag by (unfold IF; lia).
    rewrite decide_True by done. by rewrite (andb_comm (Z.testbit (alu _ _) IF)).
  - rewrite load32_store32_ne by lia. by apply load32_store32_eq.
  - destruct (gpr s). cbn. lia.
Qed.

End start.

#[local] Instance unit_ports : PortIO unit := {| io_in := fun _ _ w => (0, w); io_out := fun _ _ _ w => w |}.

(** ** Loading the table of [init_gdt] *)

(** The table at 0x2000, [gdt_ptr] at 0x4000, and a call of [gdt_flush] with its address. *)
Definition flush_memory : mem :=
  store_bytes 0x2000 (concat (map segment_bytes gdt.flat_segments))
    (store32 0x5F80 0xC0106000 (store32 0x5F84 0x4000 (store32 0x4002 0x2000 (store16 0x4000 39 ∅)))).

Lemma gdt_flush_loads_witness : exists s,
  run (fun _ _ => 0) (fun _ => None) (fun _ => 0) (fun _ s => Ok s) 10 gdt_flush
    (mk (mk_regs 0 0 0 3 0x5F80 2 4 5) (mk_segs 0 0 0 0 0 0) 0 0x46 (0, 0) (0, 0) false flush_memory tt) = Ok s /\
  gdtr s = (39, 0x2000) /\ sel s = mk_segs 8 16 16 16 16 16 /\ eip s = 0xC0106000 /\ esp (gpr s) = 0x5F84.
Proof.
  eexists. split.
  - apply (gdt_flush_loads (fun _ _ => 0) (fun _ => None) (fun _ => 0) (fun _ s => Ok s) 10 0x4000 0xC0106000 0x2000
      (gdt.mk (replicate 5 gdt.zero_entry) 0 0) (gdt.mk gdt.flat_segments 39 0x2000)).
    + reflexivity.
    + reflexivity.
    + split; [cbn; lia | reflexivity | reflexivity].
    + split; reflexivity.
    + intros i e Hi. apply segment_at_stored; [| exact Hi].
      repeat (constructor; [unfold segment_ok, byte_ok; cbn; lia |]). constructor.
    + lia.
    + lia.
  - repeat split.
Defined.

(** ** Two threads *)

Definition pair_tasks : gmap Z task_struct :=
  <[0x5000 := mk_task kTaskRunnable 1 0 (mk_context 0 0 0 0 0 0) 0x6000]>
    {[0x6000 := mk_task kTaskRunnable 2 0 (mk_context 0x6FF0 9 8 7 6 0x200) 0x5000]}.

(** The first thread calls [switch_to] from 0xC0106000; the second stopped at 0xC0107000. *)
Definition pair_memory : mem :=
  store32 0x5F80 0xC0106000 (store32 0x5F84 0x500C (store32 0x5F88 0x600C (store32 0x6FF0 0xC0107000
    (store32 0x600C 0x6FF0 (store32 0x6010 9 (store32 0x6014 8 (store32 0x6018 7 (store32 0x601C 6
      (store32 0x6020 0x200 ∅))))))))).

Definition pair_processor : t unit :=
  mk (mk_regs 0 0 0 3 0x5F80 2 4 5) (mk_segs 8 16 16 16 16 16) 0 0x46 (0, 0) (0, 0) false pair_memory tt.

Definition pair_scheduler : TaskScheduler.t :=
  TaskScheduler.mk 0x5000 0x6000 0 3 pair_tasks pair_memory Console.zero_screen (mk_context 0x5F80 2 3 4 5 0x46).

Lemma pair_task p : is_Some (pair_tasks !! p) -> p = 0x5000 \/ p = 0x6000.
Proof.
  unfold pair_tasks. destruct (decide (p = 0x5000)) as [-> | H1]; [by left |].
  rewrite lookup_insert_ne by done. destruct (decide (p = 0x6000)) as [-> | H2]; [by right |].
  rewrite lookup_singleton_ne by done. intros [? ?]. discriminate.
Qed.

Lemma switch_to_refines_witness : exists sc s,
  TaskScheduler.switch_to 0x5000 0x6000 pair_scheduler = Ok sc /\
  run (fun _ _ => 0) (fun _ => None) (fun _ => 0) (fun _ s => Ok s) 19 switch_to pair_processor = Ok s /\
  context_at (memory s) 0x500C = mk_context 0x5F80 2 3 4 5 0x46 /\
  cpu_of s = mk_context 0x6FF4 9 8 7 6 0x200 /\ eip s = 0xC0107000.
Proof.
  destruct (switch_to_refines (fun _ _ => 0) (fun _ => None) (fun _ => 0) (fun _ s => Ok s) pair_scheduler
    0x5000 0x6000 (mk_task kTaskRunnable 2 0 (mk_context 0x6FF0 9 8 7 6 0x200) 0x5000) pair_processor 19)
    as (sc & s & Hsc & Hs & Hh & Hcpu & Hc & Hip & _).
  - intros p tk Hp. pose proof (pair_task p (mk_is_Some _ _ Hp)) as [-> | ->]; vm_compute in Hp; injection Hp as <-; reflexivity.
  - reflexivity.
  - split; [| intros p q Hp Hq Hne; apply pair_task in Hp; apply pair_task in Hq; lia | | | right; cbn; lia];
      intros p Hp; apply pair_task in Hp; unfold context_of; cbn; lia.
  - vm_compute. eauto.
  - reflexivity.
  - discriminate.
  - reflexivity.
  - reflexivity.
  - cbn. lia.
  - cbn. lia.
  - unfold context_words, word. cbn. repeat constructor; lia.
  - unfold context_words, word. cbn. repeat constructor; lia.
  - lia.
  - exists sc, s. split; [exact Hsc |]. split; [exact Hs |]. split; [| split].
    + vm_compute in Hsc. injection Hsc as <-.
      exact (Hh 0x5000 (mk_task kTaskRunnable 1 0 (mk_context 0x5F80 2 3 4 5 0x46) 0x6000) eq_refl).
    + rewrite Hc. unfold returning.ret, set_cpu. cbn [snd TaskScheduler.cpu]. rewrite Hcpu. reflexivity.
    + rewrite Hip. reflexivity.
Defined.
