(* ===== verification/Primitives.v ===== *)
(** * The port and flag primitives ([lib/common.cc])

    Each function is one block of inline assembly: its operands are put in registers, and the
    instructions run on the processor of [Machine].  A device behind single port accesses is
    a [Device] of the disk driver, and the string primitives are that class's operations.  Their prefix
    is [repne], which the manual defines for comparisons only; on these instructions processors take
    it for [rep]. *)

From stdpp Require Import prelude gmap strings.
From Stdlib Require Import ZArith Lia.
From S2P Require Import Prelude CString Ide Boot Machine.
Import x86.

(** ** Blocks of inline assembly *)

Section blocks.
Context {W : Type} `{PortIO W}.
Context (alu : Z -> Z -> Z).
Implicit Types (s : t W).

(** The input operands. *)
Definition operands (ops : list (reg * Z)) s : t W :=
  foldl (fun s '(r, v) => set_reg r v s) s ops.

Fixpoint block (prog : list instr) s : outcome (t W) :=
  match prog with
  | [] => Ok s
  | i :: prog' => let! s := step alu i s in block prog' s
  end.

Definition outb (port value : Z) s : outcome (t W) :=
  block [Outp 1] (operands [(EDX, u16 port); (EAX, u8 value)] s).

Definition inb (port : Z) s : outcome (Z * t W) :=
  let! s := block [Inp 1] (operands [(EDX, u16 port)] s) in
  Ok (u8 (read_reg EAX s), s).

Definition inw (port : Z) s : outcome (Z * t W) :=
  let! s := block [Inp 2] (operands [(EDX, u16 port)] s) in
  Ok (u16 (read_reg EAX s), s).

(** The constraint "l" lets the compiler put the count in any index register, [count]; the
    instruction takes it from [ecx]. *)
Definition insb (count : reg) (port addr n : Z) s : outcome (t W) :=
  block [Cld; RepIns 1] (operands [(EDX, port); (EDI, addr); (count, n)] s).

Definition insl (count : reg) (port addr n : Z) s : outcome (t W) :=
  block [Cld; RepIns 4] (operands [(EDX, port); (EDI, addr); (count, n)] s).

Definition outsl (count : reg) (port addr n : Z) s : outcome (t W) :=
  block [Cld; RepOuts 4] (operands [(EDX, port); (ESI, addr); (count, u32 n)] s).

Definition enable_intr s : outcome (t W) := block [Sti] s.
Definition disable_intr s : outcome (t W) := block [Cli] s.
Definition cpu_hlt s : outcome (t W) := block [Hlt] s.

(** The change of stack in [kern_entry] (init/entry.cc). *)
Definition change_stack (kern_stack : Z) s : outcome (t W) :=
  block [MovRI ESP (entry.kern_stack_top kern_stack); MovRI EBP 0] s.

End blocks.

(** ** The device behind the ports *)

Section device.
Context {W : Type} `{PortIO W}.
(** What happens to the device until an interrupt ends a halt. *)
Context (while_halted : W -> W).

(** [n] reads of [width] bytes. *)
Fixpoint in_units (width : nat) (port : Z) (n : nat) (w : W) : list Z * W :=
  match n with
  | O => ([], w)
  | S n' =>
      let '(v, w) := io_in width port w in
      let '(bs, w) := in_units width port n' w in
      (le_encode width v ++ bs, w)
  end.

(** [n] writes of [width] bytes. *)
Fixpoint out_units (width : nat) (port : Z) (n : nat) (bs : list Z) (w : W) : W :=
  match n with
  | O => w
  | S n' => out_units width port n' (drop width bs) (io_out width port (le_decode (take width bs)) w)
  end.

Definition port_device : Device W := {|
  dev_inb := fun p w => let '(v, w) := io_in 1 p w in (u8 v, w);
  dev_outb := fun p v w => io_out 1 p v w;
  dev_ins := fun p n w => in_units 4 p n w;
  dev_outs := fun p bs w => out_units 4 p (length bs / 4) bs w;
  dev_hlt := while_halted
|}.

End device.

(** ** What they do *)

Section proofs.
Context {W : Type} `{PortIO W}.
Context (alu : Z -> Z -> Z) (while_halted : W -> W).
Implicit Types (s : t W).

Abbreviation dev := (port_device while_halted).

(** The state after a repeated string instruction that moved [k] bytes. *)
Definition moved_by (r : reg) (n : nat) (k : Z) (m : mem) (w : W) s : t W :=
  mk (set ECX (ecx (gpr s) - Z.of_nat n) (set r (get r (gpr s) + k) (gpr s))) (sel s) (eip s)
     (eflags s) (gdtr s) (idtr s) (halted s) m w.

Lemma stride_up width s : Z.testbit (eflags s) DF = false -> stride width s = Z.of_nat width.
Proof. intros Hd. unfold stride. by rewrite Hd. Qed.

Lemma rep_ins width n s :
  Z.testbit (eflags s) DF = false -> 0 <= edi (gpr s) ->
  edi (gpr s) + Z.of_nat width * Z.of_nat n < 4294967296 ->
  let r := in_units width (port s) n (world s) in
  rep n (ins width) s =
    moved_by EDI n (Z.of_nat width * Z.of_nat n) (store_bytes (edi (gpr s)) r.1 (memory s)) r.2 s.
Proof.
  revert s. induction n as [| n IH]; intros s Hdf H0 H1; cbv zeta.
  - unfold moved_by. cbn [rep in_units fst snd store_bytes]. destruct s as [[]]. machine.
    rewrite Z.sub_0_r, Z.mul_0_r, Z.add_0_r. done.
  - cbn [rep in_units]. destruct (io_in width (port s) (world s)) as [v w] eqn:Eio.
    unfold ins at 2. rewrite Eio, stride_up, u32_small by (done || unfold read_reg; cbn [get]; lia).
    destruct s as [[xa xc xd xb sp bp si di] x ip fl gd id h m w0]. cbn [gpr edi eflags] in *.
    rewrite IH; [| exact Hdf | machine; lia | machine; lia]. machine.
    change (low16 xd) with (port (mk (mk_regs xa xc xd xb sp bp si di) x ip fl gd id h m w0)).
    set (p := port _). destruct (in_units width p n w) as [bs w']. cbn [fst snd].
    rewrite store_bytes_app, length_le_encode. unfold moved_by. machine. unfold store_n. do 2 f_equal; lia.
Qed.

Lemma rep_outs width n s :
  Z.testbit (eflags s) DF = false -> 0 <= esi (gpr s) ->
  esi (gpr s) + Z.of_nat width * Z.of_nat n < 4294967296 ->
  rep n (outs width) s =
    moved_by ESI n (Z.of_nat width * Z.of_nat n) (memory s)
      (out_units width (port s) n (load_bytes (memory s) (esi (gpr s)) (width * n)) (world s)) s.
Proof.
  revert s. induction n as [| n IH]; intros s Hdf H0 H1.
  - unfold moved_by. cbn [rep out_units]. destruct s as [[]]. machine.
    rewrite Z.sub_0_r, Z.mul_0_r, Z.add_0_r. done.
  - cbn [rep out_units]. unfold outs at 2.
    rewrite stride_up, u32_small by (done || unfold read_reg; cbn [get]; lia).
    destruct s as [[xa xc xd xb sp bp si di] x ip fl gd id h m w0]. cbn [gpr esi eflags memory world] in *.
    rewrite IH; [| exact Hdf | machine; lia | machine; lia]. machine.
    change (low16 xd) with (port (mk (mk_regs xa xc xd xb sp bp si di) x ip fl gd id h m w0)).
    set (p := port _). replace (width * S n)%nat with (width + width * n)%nat by lia.
    rewrite load_bytes_app, take_app_length', drop_app_length' by (by rewrite length_load_bytes).
    unfold moved_by, load_n. machine. do 2 f_equal; lia.
Qed.

Lemma cld_clears fl : Z.testbit (set_flag DF false fl) DF = false.
Proof. rewrite testbit_set_flag by (unfold DF; lia). by rewrite decide_True. Qed.

(** C23: [insl], when the compiler puts the count in [ecx], is the read of the driver's device:
    [n] words of the port at [addr], in order, and nothing else in memory changes. *)
Theorem insl_reads port addr n s :
  0 <= port < 65536 -> 0 <= addr -> 0 <= n -> addr + 4 * n < 4294967296 ->
  let r := dev_ins (Device := dev) port (Z.to_nat n) (world s) in
  exists s', insl alu ECX port addr n s = Ok s' /\ memory s' = store_bytes addr r.1 (memory s) /\
    world s' = r.2 /\ ecx (gpr s') = 0 /\ edi (gpr s') = addr + 4 * n /\
    forall r, r <> ECX -> r <> EDI -> r <> EDX -> get r (gpr s') = get r (gpr s).
Proof.
  intros Hp Ha Hn Hroom. destruct s as [[xa xc xd xb sp bp si di] x ip fl gd id h m w].
  unfold insl, operands. cbn [block foldl]. machine.
  rewrite rep_ins; cbn [eflags gpr edi]; [| apply cld_clears | exact Ha | lia].
  unfold x86.port, read_reg. cbn [gpr get edx world]. rewrite low16_small by lia. cbn [dev_ins port_device].
  eexists. split; [reflexivity |]. unfold moved_by. machine. split_and!; [done | done | lia | lia |].
  intros r ? ? ?. by destruct r.
Qed.

(** [outsl] is its write: [n] words from [addr] to the port. *)
Theorem outsl_writes port addr n s :
  0 <= port < 65536 -> 0 <= addr -> 0 <= n -> addr + 4 * n < 4294967296 ->
  exists s', outsl alu ECX port addr n s = Ok s' /\ memory s' = memory s /\
    world s' = dev_outs (Device := dev) port (load_bytes (memory s) addr (Z.to_nat (4 * n))) (world s) /\
    forall r, r <> ECX -> r <> ESI -> r <> EDX -> get r (gpr s') = get r (gpr s).
Proof.
  intros Hp Ha Hn Hroom. destruct s as [[xa xc xd xb sp bp si di] x ip fl gd id h m w].
  unfold outsl, operands. cbn [block foldl]. rewrite u32_small by lia. machine.
  rewrite rep_outs; cbn [eflags gpr esi]; [| apply cld_clears | exact Ha | lia].
  unfold x86.port, read_reg. cbn [gpr get edx world memory]. rewrite low16_small by lia.
  eexists. split; [reflexivity |]. unfold moved_by. machine. cbn [dev_outs port_device].
  rewrite length_load_bytes. replace (Z.to_nat (4 * n)) with (4 * Z.to_nat n)%nat by lia.
  rewrite Nat.mul_comm, Nat.div_mul by lia. split_and!; [done | done |].
  intros r ? ? ?. by destruct r.
Qed.

(** With the count in another register the number of words is what [ecx] holds from before,
    whatever [n] is. *)
Theorem insl_other_count port addr n s :
  0 <= port < 65536 -> 0 <= addr -> 0 <= ecx (gpr s) -> addr + 4 * ecx (gpr s) < 4294967296 ->
  let r := dev_ins (Device := dev) port (Z.to_nat (ecx (gpr s))) (world s) in
  exists s', insl alu EBX port addr n s = Ok s' /\ memory s' = store_bytes addr r.1 (memory s) /\
    world s' = r.2.
Proof.
  intros Hp Ha Hn Hroom. destruct s as [[xa xc xd xb sp bp si di] x ip fl gd id h m w]. cbn [gpr ecx] in *.
  unfold insl, operands. cbn [block foldl]. machine.
  rewrite rep_ins; cbn [eflags gpr edi]; [| apply cld_clears | exact Ha | lia].
  unfold x86.port, read_reg. cbn [gpr get edx world]. rewrite low16_small by lia.
  eexists. split; [reflexivity |]. by unfold moved_by.
Qed.

(** A byte read is the low byte of [eax]. *)
Lemma read_low_byte a v : u8 (set_low_bytes 1 a v) = u8 v.
Proof. unfold u8, set_low_bytes, low_bytes. change (256 ^ Z.of_nat 1) with 256. zlia. Qed.

(** [inb] gives the byte of the device at that port, [outb] gives the device the byte. *)
Theorem inb_outb port v s :
  0 <= port < 65536 ->
  let r := dev_inb (Device := dev) port (world s) in
  (exists s', inb alu port s = Ok (r.1, s') /\ world s' = r.2 /\ memory s' = memory s) /\
  (exists s', outb alu port v s = Ok s' /\
     world s' = dev_outb (Device := dev) port (u8 v) (world s) /\ memory s' = memory s).
Proof.
  intros Hp. destruct s as [[xa xc xd xb sp bp si di] x ip fl gd id h m w]. cbn [dev_inb dev_outb port_device world memory].
  unfold inb, outb, operands. cbn [block foldl]. rewrite u16_small by lia. machine. rewrite low16_small by lia.
  split.
  - destruct (io_in 1 port w) as [b w']. machine. rewrite read_low_byte. by eexists.
  - eexists. split; [reflexivity |]. unfold low_bytes. change (256 ^ Z.of_nat 1) with 256.
    change (u8 v mod 256) with (u8 (u8 v)). by rewrite (u8_small (u8 v)) by apply u8_range.
Qed.

(** [disable_intr] keeps every line of the controllers waiting until [enable_intr]. *)
Theorem intr_switch code at_address ret c_code f n s :
  (exists s', disable_intr alu s = Ok s' /\
     request alu code at_address ret c_code f n s' = Ok s' /\ gpr s' = gpr s /\ memory s' = memory s) /\
  (exists s', enable_intr alu s = Ok s' /\
     request alu code at_address ret c_code f n s' = interrupt alu code at_address ret c_code f n 0 s' /\
     gpr s' = gpr s /\ memory s' = memory s).
Proof.
  split; (eexists; split; [reflexivity |]); unfold request; cbn [with_flags eflags];
    rewrite testbit_set_flag, decide_True by (done || unfold IF; lia); done.
Qed.

(** [kern_init] starts on the 4096 bytes of [kern_stack], less at most 15 for the alignment. *)
Theorem kernel_stack kern_stack s :
  0 <= kern_stack -> kern_stack + 4096 < 4294967296 ->
  exists s', change_stack alu kern_stack s = Ok s' /\ ebp (gpr s') = 0 /\
    esp (gpr s') mod 16 = 0 /\ kern_stack + 4080 < esp (gpr s') <= kern_stack + 4096 /\
    memory s' = memory s /\ forall r, r <> ESP -> r <> EBP -> get r (gpr s') = get r (gpr s).
Proof.
  intros H0 H1. eexists. split; [reflexivity |]. destruct s as [[xa xc xd xb sp bp si di] x ip fl gd id h m w].
  machine. unfold entry.kern_stack_top. change 0xFFFFFFF0 with (2 ^ 32 - 2 ^ 4). words.
  rewrite land_high by (simpl; lia). change (2 ^ 4) with 16.
  split_and!; try done; try zlia. intros r ? ?. by destruct r.
Qed.

End proofs.

(** ** A device that counts *)

(** Reads of a port give the number of reads so far; writes are recorded, with their port. *)
#[export] Instance counter_ports : PortIO (Z * list (Z * Z)) := {|
  io_in := fun _ _ w => (w.1, (w.1 + 1, w.2));
  io_out := fun _ p v w => (w.1, w.2 ++ [(p, v)])
|}.

(** A processor with all registers 0. *)
Definition blank {W} (w : W) : t W :=
  mk (mk_regs 0 0 0 0 0 0 0 0) (mk_segs 8 16 16 16 16 16) 0 0x200 (0, 0) (0, 0) false ∅ w.

Lemma insl_reads_witness :
  exists s, insl (fun _ _ => 0) ECX 0x1F0 0x1000 3 (blank (7, [])) = Ok s /\
    load32 (memory s) 0x1004 = 8 /\ world s = (10, []).
Proof.
  destruct (insl_reads (fun _ _ => 0) id 0x1F0 0x1000 3 (blank (7, []))) as (s & Hs & Hm & Hw & _);
    [lia | lia | lia | lia |].
  exists s. split; [exact Hs |]. rewrite Hm, Hw. split; reflexivity.
Defined.

Lemma outsl_writes_witness :
  exists s, outsl (fun _ _ => 0) ECX 0x1F0 0x1000 2 (with_memory (store32 0x1004 77 ∅) (blank (7, []))) = Ok s /\
    world s = (7, [(0x1F0, 0); (0x1F0, 77)]).
Proof.
  destruct (outsl_writes (fun _ _ => 0) id 0x1F0 0x1000 2
    (with_memory (store32 0x1004 77 ∅) (blank (7, [])))) as (s & Hs & _ & Hw & _); [lia | lia | lia | lia |].
  exists s. split; [exact Hs |]. rewrite Hw. reflexivity.
Defined.
