(* ===== verification/Delivery.v ===== *)
(** * The kernel on the processor

    The interrupts of [Kernel], taken through the gates and stubs of [Stubs]: what the
    processor, [isr.s] and the dispatchers do together is what the kernel's specification says, and
    the interrupted thread goes on with its registers. *)

From stdpp Require Import prelude gmap strings.
From Stdlib Require Import ZArith Lia.
From S2P Require Import Prelude CString Interrupts Pmm Vmm Console Keyboard Heap Scheduler Kernel Machine Stubs.
Import kernel x86.

(** An interrupt: its vector, the error code of the processor, what the devices hold, and the
    events until the interrupted thread runs again (none unless the scheduler is called). *)
Record arrival := mk_arrival { vector : Z; error : Z; at_devices : inputs; away : list event }.

Definition arrival_ok (i : arrival) : Prop :=
  0 <= vector i < 48 /\ 0 <= error i < 4294967296 /\ 0 <= cr2 (at_devices i) < 4294967296 /\
  byte_ok (scan (at_devices i)) /\ Forall event_ok (away i) /\ (vector i <> idt.IRQ0 -> away i = []).

(** What the kernel sees of it. *)
Definition events_of (i : arrival) : list event :=
  Interrupt (idt.regs_of (vector i) (error_word (vector i) (error i))) (at_devices i) :: away i.

(** After each of the arrivals the thread that ran runs again. *)
Fixpoint comes_back (arrivals : list arrival) (w : spec.t) : Prop :=
  match arrivals with
  | [] => True
  | i :: rest =>
      let w' := spec.steps (events_of i) w in
      fst <$> head (spec.threads w') = fst <$> head (spec.threads w) /\ comes_back rest w'
  end.

Section delivery.
Context (self pf_addr timer_addr kbd_addr : Z).
Hypothesis Hself : self mod 4096 = 0 /\ PAGE_OFFSET <= self /\ self + 4096 * 129 < 4294967296.
Hypothesis Haddr : NoDup [0; pf_addr; timer_addr; kbd_addr].
Context `{PortIO kernel.t}.
Context (alu : Z -> Z -> Z) (at_address : Z -> option (list instr)) (return_addr : string -> Z).
Context (c_code : arrival -> string -> t kernel.t -> outcome (t kernel.t)).
Context (isr irq : Z -> Z) (table : Z) (t0 tb : idt.t) (tr tr' : ports).
Hypothesis Hlink : linked at_address isr irq.
Hypothesis Hinit : idt.init_idt isr irq table t0 tr = Ok (tb, tr').

Abbreviation sim := (sim self pf_addr timer_addr kbd_addr).
Abbreviation deliver := (kernel.deliver self pf_addr timer_addr kbd_addr).
Abbreviation run_events := (kernel.run_events self pf_addr timer_addr kbd_addr).
Abbreviation count k := (PageDictionary.table_count (k_vmm k)).

(** The compiled dispatchers, as the stubs see them: the [pt_regs] is read where the argument
    points, the kernel does what [Kernel] says, and the call returns when its thread is the
    running one again. *)
Definition dispatches : Prop := forall i s1 r k1 k',
  r = pt_regs_at (memory s1) (load32 (memory s1) (esp (gpr s1) + 4)) ->
  0 <= idt.int_no r < 48 -> (idt.int_no r <> idt.IRQ0 -> away i = []) ->
  deliver r (at_devices i) (world s1) = Ok k1 -> run_events (away i) k1 = Ok k' ->
  TaskScheduler.running_ (k_sched k') = TaskScheduler.running_ (k_sched (world s1)) ->
  exists s2, c_code i (isr_s.dispatcher (idt.int_no r)) s1 = Ok s2 /\ world s2 = k' /\ returns s1 s2.

(** The interrupts of a list, one after the other. *)
Fixpoint take_all (f : nat) (arrivals : list arrival) (s : t kernel.t) : outcome (t kernel.t) :=
  match arrivals with
  | [] => Ok s
  | i :: rest =>
      let! s := interrupt alu isr_s.code at_address return_addr (c_code i) f (vector i) (error i) s in
      take_all f rest s
  end.

(** A thread that can be interrupted, with flat data segments and its stack away from the gates. *)
Record thread_state (s : t kernel.t) : Prop := {
  ts_ready : interruptible s;
  ts_gates : gates_loaded tb s;
  ts_apart : idt.ptr_base tb + idt.ptr_limit tb + 1 <= esp (gpr s) - 64 \/ esp (gpr s) <= idt.ptr_base tb;
  ts_flat : let d := ds (sel s) in sel s = mk_segs (cs (sel s)) d d d d d
}.

(** The parts of the processor that belong to the thread. *)
Definition same_thread (s s' : t kernel.t) : Prop :=
  gpr s' = gpr s /\ sel s' = sel s /\ eip s' = eip s /\ eflags s' = eflags s.

Lemma running_head k w : sim k w -> fst <$> head (spec.threads w) = Some (TaskScheduler.running_ (k_sched k)).
Proof. intros Hs. destruct (sim_threads _ _ _ _ _ _ Hs) as (x & q & -> & Hr). cbn. f_equal. symmetry. apply Hr. Qed.

Lemma arrival_sim i s w f :
  dispatches -> arrival_ok i -> thread_state s -> sim (world s) w ->
  (spec.demands (events_of i) < length (spec.free w))%nat ->
  count (world s) + Z.of_nat (spec.demands (events_of i)) <= TABLE_RESERVE ->
  fst <$> head (spec.threads (spec.steps (events_of i) w)) = fst <$> head (spec.threads w) ->
  (26 <= f)%nat ->
  exists s', interrupt alu isr_s.code at_address return_addr (c_code i) f (vector i) (error i) s = Ok s' /\
    thread_state s' /\ same_thread s s' /\ sim (world s') (spec.steps (events_of i) w) /\
    count (world s') <= count (world s) + Z.of_nat (spec.demands (events_of i)) /\
    (length (spec.free w) - spec.demands (events_of i) <= length (spec.free (spec.steps (events_of i) w)))%nat.
Proof.
  intros Hdis (Hv & He & Hcr & Hsc & Haway & Hno) Hts Hs Hfree Hcnt Hback Hf.
  pose proof Hts as [Hin Hgl Hap Hflat].
  set (r := frame_of (vector i) (error i) s).
  destruct (run_events_bounded self pf_addr timer_addr kbd_addr Hself Haddr
    (Interrupt r (at_devices i) :: away i) (world s) w Hs) as (k' & Hrun & Hs' & Hc' & Hf').
  { constructor; [exact (conj Hv (conj Hcr Hsc)) | exact Haway]. } { exact Hfree. } { exact Hcnt. }
  cbn [kernel.run_events kernel.handle] in Hrun.
  destruct (deliver r (at_devices i) (world s)) as [k1 | | |] eqn:Ed; try discriminate Hrun. cbn [obind] in Hrun.
  destruct (interrupt_calls alu at_address return_addr (c_code i) isr irq table t0 tr tb tr' f (vector i) (error i) s
    Hlink Hinit Hgl Hin Hv Hf) as (f' & Hf1 & Hcall).
  destruct (called_frame return_addr (vector i) (error i) s Hin ltac:(clear - Hv; lia) He) as (Harg & Hframe & _ & _).
  destruct (Hdis i (called return_addr (vector i) (error i) s) r k1 k') as (s2 & Hc & Hw & Hret).
  { rewrite Harg, Hframe. reflexivity. }
  { exact Hv. } { exact Hno. } { exact Ed. } { exact Hrun. }
  { pose proof (running_head _ _ Hs) as H1. pose proof (running_head _ _ Hs') as H2.
    change (spec.steps (Interrupt r (at_devices i) :: away i) w) with (spec.steps (events_of i) w) in H2.
    rewrite Hback, H1 in H2. injection H2 as <-. reflexivity. }
  change (idt.int_no r) with (vector i) in Hc. rewrite Hcall, Hc. cbn [obind].
  rewrite (return_run alu return_addr (c_code i) f' (vector i) (error i) s s2 Hin ltac:(clear - Hv; lia) He Hf1 Hret).
  eexists. split; [reflexivity |].
  destruct (resumed_again return_addr (vector i) (error i) tb s s2 Hin Hgl ltac:(clear - Hv; lia) He Hap Hret) as [Hin' Hgl'].
  split; [split; [exact Hin' | exact Hgl' | exact Hap | reflexivity] |].
  unfold resumed. cbn [world]. rewrite Hw. split; [| split; [exact Hs' | split; [exact Hc' | exact Hf']]].
  unfold same_thread. cbn [gpr sel eip eflags]. cbv zeta in Hflat. rewrite <- Hflat. auto.
Qed.

Lemma demands_app es1 es2 : spec.demands (es1 ++ es2) = (spec.demands es1 + spec.demands es2)%nat.
Proof. apply sum_list_with_app. Qed.

Lemma take_all_sim arrivals s w f :
  dispatches -> Forall arrival_ok arrivals -> thread_state s -> sim (world s) w -> comes_back arrivals w ->
  (spec.demands (concat (map events_of arrivals)) < length (spec.free w))%nat ->
  count (world s) + Z.of_nat (spec.demands (concat (map events_of arrivals))) <= TABLE_RESERVE ->
  (26 <= f)%nat ->
  exists s', take_all f arrivals s = Ok s' /\ thread_state s' /\ same_thread s s' /\
    sim (world s') (spec.steps (concat (map events_of arrivals)) w).
Proof.
  intros Hdis Hok. revert s w.
  induction Hok as [| i arrivals Hi Hok IH]; intros s w Hts Hs Hback Hfree Hcnt Hf;
    cbn [take_all map concat] in Hback, Hfree, Hcnt |- *.
  { exists s. split; [reflexivity |]. split; [exact Hts |]. split; [repeat split | exact Hs]. }
  destruct Hback as [Hb Hback]. rewrite demands_app in Hfree, Hcnt.
  destruct (arrival_sim i s w f Hdis Hi Hts Hs) as (s1 & -> & Hts1 & Hsame & Hs1 & Hc1 & Hf1);
    [clear Hinit; lia | clear Hinit; lia | exact Hb | exact Hf |]. cbn [obind].
  destruct (IH s1 (spec.steps (events_of i) w) Hts1 Hs1 Hback) as (s2 & Hr & Hts2 & Hsame2 & Hs2);
    [clear Hinit; lia | clear Hinit; lia | exact Hf |].
  exists s2. split; [exact Hr |]. split; [exact Hts2 |]. split; [| rewrite steps_app; exact Hs2].
  unfold same_thread in *. destruct Hsame as (E1 & E2 & E3 & E4). rewrite E1, E2, E3, E4 in Hsame2. exact Hsame2.
Qed.

(** C4: The kernel on the processor.  For every list of interrupts, taken through the gates that
    [init_idt] filled, with any events while the interrupted thread waits for its turn: the
    processor, the stubs and the dispatchers return from all of them, the thread has its
    registers, flags and stack pointer back, and threads, address space and free pages are those of the
    specification. *)
Theorem interrupts_refine arrivals s w f :
  dispatches -> Forall arrival_ok arrivals -> thread_state s -> sim (world s) w -> comes_back arrivals w ->
  (spec.demands (concat (map events_of arrivals)) < length (spec.free w))%nat ->
  count (world s) + Z.of_nat (spec.demands (concat (map events_of arrivals))) <= TABLE_RESERVE ->
  (26 <= f)%nat ->
  exists s', take_all f arrivals s = Ok s' /\ thread_state s' /\ same_thread s s' /\
    sim (world s') (spec.steps (concat (map events_of arrivals)) w).
Proof. exact (take_all_sim arrivals s w f). Qed.

End delivery.

(** ** The demonstration kernel *)

(** The interrupts use no port instruction. *)
#[local] Instance no_ports : PortIO kernel.t := {| io_in := fun _ _ k => (0, k); io_out := fun _ _ _ k => k |}.

(** The dispatchers of the demonstration kernel. *)
Definition demo_dispatch (i : arrival) (fn : string) (s : t kernel.t) : outcome (t kernel.t) :=
  let r := pt_regs_at (memory s) (load32 (memory s) (esp (gpr s) + 4)) in
  let! k := kernel.deliver self0 0xC0101000 0xC0102000 0xC0103000 r (at_devices i) (world s) in
  let! k := kernel.run_events self0 0xC0101000 0xC0102000 0xC0103000 (away i) k in
  Ok (cdecl_return k s).

Lemma demo_dispatches : dispatches self0 0xC0101000 0xC0102000 0xC0103000 demo_dispatch.
Proof.
  intros i s1 r k1 k' Hr _ _ Hd Hrun _. unfold demo_dispatch. rewrite <- Hr, Hd. cbn [obind]. rewrite Hrun.
  cbn [obind]. eexists. split; [reflexivity |]. split; [reflexivity | apply cdecl_returns].
Qed.

Lemma demo_thread (k : kernel.t) : thread_state demo_gates (demo_processor k).
Proof.
  destruct demo_gates_ok as (_ & _ & Hb & Hl).
  split; [apply demo_interruptible | apply demo_gates_loaded | rewrite Hb, Hl; cbn; lia | reflexivity].
Qed.

(** A key, a page fault, and a timer interrupt with the turns of the two other threads. *)
Definition demo_arrivals : list arrival :=
  [ mk_arrival 33 0 (mk_inputs 0 30) [];
    mk_arrival 14 2 (mk_inputs 0x08000123 0) [];
    mk_arrival 32 0 (mk_inputs 0 0) [Run (fun _ => mk_context 99 0 0 0 0 0); demo_timer; demo_timer] ].

Lemma demo_arrivals_ok : Forall arrival_ok demo_arrivals.
Proof.
  repeat (constructor; [unfold arrival_ok, idt.IRQ0; cbn; split_and!; try lia; try done; repeat constructor; cbn; lia |]).
  constructor.
Qed.

Lemma interrupts_refine_witness : exists s,
  take_all (fun _ _ => 0) demo_code (fun _ => 0xC0105100) demo_dispatch 30 demo_arrivals
    (demo_processor demo_kernel) = Ok s /\
  gpr s = mk_regs 0xAAAA0001 2 3 4 0x9000 5 6 7 /\ eip s = 0xC0105000 /\ eflags s = 0x246 /\
  pages (k_pmm (world s)) [0x101000].
Proof.
  destruct demo_init as [tr Hinit].
  destruct (interrupts_refine self0 0xC0101000 0xC0102000 0xC0103000 self0_ok demo_addr
    (fun _ _ => 0) demo_code (fun _ => 0xC0105100) demo_dispatch demo_isr demo_irq 0x3000 idt.empty_table demo_gates
    [] tr demo_linked Hinit demo_arrivals (demo_processor demo_kernel) demo_world 30 demo_dispatches)
    as (s & Hr & _ & (H1 & H2 & H3 & H4) & Hs).
  - exact demo_arrivals_ok.
  - apply demo_thread.
  - exact demo_sim.
  - vm_compute. auto.
  - vm_compute. lia.
  - vm_compute. congruence.
  - lia.
  - exists s. split; [exact Hr |]. split; [exact H1 |]. split; [exact H3 |]. split; [exact H4 |].
    exact (ms_pages _ _ _ _ (sim_mem _ _ _ _ _ _ Hs)).
Defined.
